(* ===== verification/_CoqProject ===== *)
-Q . S2P
Prelude.v
Ext.v
Concrete.v
Store.v
Fs.v
Blockstore.v
Crypto.v
Ec.v
Holders.v
Cache.v
Manifest.v
Ledger.v
Group.v
Blocks.v
Spool.v
Base64.v
Url.v
Query.v
Config.v
Keys.v
File.v
Reader.v
Upload.v
Network.v
Delivery.v
Queue.v
Repair.v
Scenario.v
Readers.v
Fuse.v
Heartbeat.v
Invite.v
Join.v
Peers.v
Auth.v
Api.v
Daemon.v
Loops.v
Shutdown.v
Client.v
Cli.v
Membership.v
Boot.v
