(* ===== verification/Prelude.v ===== *)
(** * fnshare: a verification development

    fnshare is a daemon that stores files across the machines of a group of
    friends.  A file is cut into stripes; a stripe is encrypted, cut into [k]
    data shards and [m] parity shards (Reed-Solomon), and its [k+m] shards go to
    [k+m] members chosen by rendezvous hashing.  A manifest records the shards
    and the holders and is replicated to them.  Reading gathers any [k] shards
    of a stripe.  Around this: a ledger of traffic and liveness fed by a
    heartbeat, a spool of what could not be sent, a repair service that moves the
    shards of an offline holder, groups with invitations, a web password, an HTTP
    API with a command line, a read-only mount.

    This library models the packages under [src/internal/] and the command under
    [src/cmd/], one file and one
    [Module] (named after the Go package) per component, and proves what makes
    each correct.  Definitions keep the names of the Go functions.

    ** Conventions

    - Go integers are [Z]; [wrap64] is written where the code can overflow.
      Byte slices are [list byte], strings [string], maps [gmap].
    - A fallible call returns an [outcome]: [Ok], [Err] with an error value, or
      [Panic] (index or slice out of range, nil map, division by zero).
    - Code that fnshare calls but does not contain - BadgerDB, CBOR, the ciphers,
      Reed-Solomon, libp2p peer identifiers - is a class of [Ext] with the laws
      its documentation gives.  [Concrete] instantiates every class, so the laws
      are consistent and the witnesses run.
    - What the environment decides is an oracle: the network ([fate] of each
      request: no stream, request lost, response lost, through), the clocks, disk
      faults ([wio]), the random supply, Go's order of ranging over a map, the
      interleaving of goroutines.
    - A loop that is not structural takes fuel, bounded by what it consumes: the
      body's length for [Put], the bytes asked for in [ReadAt]; theorems state
      that this fuel is enough (the loop returns), or, for [io.Copy], which fuel is.

    ** Files

    - [Prelude]: integers, bytes, strings, outcomes, list lemmas, tactics.
    - [Ext], [Concrete]: the libraries' interfaces, executable instances.
    - [Store] (store/store.go): the key/value store; prefix iteration.
    - [Fs]: a file system with directories, renames and faults; the
      write-to-temporary-then-rename sequence by its system calls.
    - [Blockstore] (blockstore/blockstore.go): shards on disk by hash.
    - [Crypto] (crypto/crypto.go), [Ec] (ec/ec.go), [Holders]
      (holders/holders.go); [Base64], [Url], [Query]: encoding/base64 and net/url.
    - [Cache] (file/cache.go): the stripe cache as the code has it - a map into a
      doubly linked list - refined to a byte-bounded LRU list.
    - [Manifest] (manifest/manifest.go), [Group] (group/group.go), [Ledger]
      (ledger/ledger.go): tables in the store.
    - [Blocks] (node/blocks.go): frames, server and client of the blocks protocol
      over a [World] of nodes; [dstep], what nodes do to their disks.
    - [Spool] (spool/spool.go, spool/worker.go): the queue and its worker.
    - [File] (file/file.go, file/pname.go), [Reader] (file/reader.go): upload,
      open, list, read; a state-and-outcome monad over the world, the random
      supply and the cache.  [Upload]: theorems on uploads and end to end.
    - [Network]: the nodes of a network, the eight kinds of atomic acts that change
      them, the invariant every act keeps ([healthy]), and the programs of the file
      service as sequences of acts.  [Delivery]: the worker on a node of the network
      (its [Sender] instance), and what one pass of it delivers.  [Queue]: the queue
      while uploads enqueue and the worker drains, a system call at a time, with the
      mutex where the code has it.
    - [Repair] (repair/repair.go), [Heartbeat] (heartbeat/heartbeat.go; a round
      as a step relation over goroutines).
    - [Config] (config/config.go), [Keys] (keys/keys.go): the files of the data
      directory.
    - [Invite] (invite/invite.go), [Join] (node/protocol.go), [Peers] (node/node.go,
      peers.go, ping.go), [Auth] (auth/auth.go).
    - [Fuse] (fuse/fs.go): the directory tree of the mount, open and read.
    - [Api] (api/server.go, types.go): routes, the gate, every handler, over the
      state of the file service, the sessions, the configuration and the host;
      [Client] (api/client.go): requests to it; [Cli] (cmd/fnshare/main.go): the
      commands, offline or through the client, and the start of the daemon.
    - [Daemon]: what the daemons of a network do ([happens], a constructor per
      goroutine and per stream handler), all of it as sequences of acts, and the
      file from upload to download whatever they do.  [Loops] (the [Run] methods and
      the goroutines of cmdDaemon): the loops around the passes, with everything
      else going on in between.  [Shutdown] (the deferred calls of cmdDaemon): the
      end of a daemon beside its goroutines.  [Boot]: a daemon that has started is
      one of them. [Membership]: group-create, invite-create and group-join on two
      machines.
    - [Readers] (file/reader.go): any number of reads that share the stripe cache, cut
      at each call of the cache and each fetched slot, under any schedule.
    - [Scenario]: four nodes, an upload, downloads and a repair, run; the
      witnesses of [Reader], [Upload] and [Repair].  [Daemon] and [Loops] run on
      with an upload whose holder is away and comes back.

    ** What is proved

    - Files: after [Put] the manifest is stored, here and with every holder in
      reach, every shard is with its holder or queued for it, and stays so whatever
      the daemons of the network do; what [Put] stores, [Get] returns, byte for byte,
      whenever the reader still has the manifest and [k] holders with nothing queued
      for them can be reached; [ReadAt] is exact for every offset and length, and never wrong when
      shards are missing, and so it is for any number of reads side by side, each of
      which returns after a bounded number of moves.
    - The network: every operation of the daemons is a sequence of acts; along all
      of them shards stay under their hashes, manifests under their identifiers, and
      no shard is lost; a queued shard is delivered by the first pass of the worker
      that finds the way to its holder open; a daemon starts in order.
    - Shards: a delivered shard stays readable; any [k] shards decode; the queue
      loses nothing while it is filled and drained at the same time.
    - Placement: holders are the top of a ranking all nodes agree on and that a
      join changes minimally; a repair acts exactly when no more holders than the
      file needs are there and a spare is, rebuilds exactly the lost shards, leaves
      every shard with the holder the new manifest names, and saves and sends it.
    - Accounts: while flushes succeed, the ledger tells each peer's history; transitions are reported
      exactly; a heartbeat round probes each member once under every schedule;
      sessions are valid exactly as the history says.
    - Groups: a friend who runs group-join with the link of invite-create has the
      group and its key, and is in the answering node's member table; gossip adds
      only members with a proof that verifies; invite links decode to the invite,
      and last exactly as long as asked, up to the bound where the duration
      overflows; address exchange adds exactly what the peer knows.
    - The mount: listing and lookup agree, names are well formed, no private file
      of another owner can be reached, reads are exact.
    - The API and the command line: no session, no effect; the password is set once;
      a command run on the daemon's default directory is always let in; names
      survive the URL of an upload; [get] writes the file; [init] leaves what the
      other commands load; invites made offline and by the daemon are the same.
    - Behaviour that is not what the code means, proved as such: invites signed with
      a foreign key are accepted; path components in a shard identifier escape the
      block directory; a short file identifier stops the daemon; the admission
      signature does not survive the member table; a flush can lose a concurrent
      record, a failed one loses what it has not written, and the flush at the end
      of a daemon comes after the database is closed; the worker can make an enqueue fail by pruning the directory; a
      cut-off upload is stored as complete; an upload that reached nobody is
      reported as done; a manifest with too few stripes makes a download spin; a
      peer that answers a join can overwrite another group, or keep the daemon from
      starting.

    Collisions of SHA-256 appear as a hypothesis on the bytes actually stored
    ([truthful], [no_collision]), never as injectivity.

    ** Not modelled

    Operations of different daemons follow one another in [happens]; an operation
    under way elsewhere shows as single acts between them ([later]); the passes of a
    heartbeat are interleaved probe by probe, the queue call by call, reads slot by
    slot.  Repairs and uploads of one daemon are not interleaved with each other.
    The members a node knows are taken to have identifiers that are file names, as
    all identifiers the program makes are.  Not modelled: the listener and the
    static pages, flag parsing and most printing; JSON and HTTP encoding (messages
    appear decoded); logging, except where its arguments can panic; the FUSE library
    behind the mount; time itself (a ticker fires when it fires). *)

(** ** Shared vocabulary *)


From Stdlib Require Export Strings.Ascii.
From stdpp Require Export base gmap strings list sorting fin_maps.
From Stdlib Require Export ZArith Lia.
From Stdlib Require Import Strings.Byte.

Declare Scope go_scope.
Delimit Scope go_scope with go.
Open Scope Z_scope.

(** ** Bytes and Go integers *)

Abbreviation byte := Byte.byte.
Abbreviation bytes := (list Byte.byte).

#[export] Instance byte_eq_dec : EqDecision byte := Byte.byte_eq_dec.

(** [len(l)] as a Go integer. *)
Definition zlen {A} (l : list A) : Z := Z.of_nat (length l).

(** [int(b)] for a Go byte, and [byte(z)], which keeps the low eight bits. *)
Definition byteZ (b : byte) : Z := Z.of_N (Byte.to_N b).

Definition Zbyte (z : Z) : byte :=
  match Byte.of_N (Z.to_N (z mod 256)) with
  | Some b => b
  | None => Byte.x00
  end.

(** [[]byte(s)] and [string(b)]: a Go string is a sequence of bytes. *)
Definition bytes_of_string (s : string) : bytes :=
  map Ascii.byte_of_ascii (String.list_ascii_of_string s).

Definition string_of_bytes (b : bytes) : string :=
  String.string_of_list_ascii (map Ascii.ascii_of_byte b).

(** [int64] arithmetic wraps around in two's complement. *)
Definition wrap64 (z : Z) : Z := (z + 2 ^ 63) mod 2 ^ 64 - 2 ^ 63.

Definition in_int64 (z : Z) : Prop := - 2 ^ 63 <= z < 2 ^ 63.

(** ** Errors and outcomes

    A Go call returns a value, returns a non-nil [error], or panics.  Errors
    that the program compares with [errors.Is] have their own constructor, the
    others carry their message; [ErrWrap] is [fmt.Errorf("...%w", err)]. *)
Inductive goerr :=
  | ErrKeyNotFound            (* badger.ErrKeyNotFound *)
  | ErrStoreNotFound          (* store.ErrNotFound *)
  | ErrNotExist               (* os.ErrNotExist *)
  | ErrShardNotFound          (* blockstore.ErrNotFound *)
  | ErrHashMismatch           (* blockstore.ErrHashMismatch *)
  | ErrManifestNotFound       (* manifest.ErrNotFound *)
  | ErrNoGroup                (* group.ErrNoGroup *)
  | ErrMemberNotFound         (* group.ErrMemberNotFound *)
  | ErrBadPassword            (* auth.ErrBadPassword *)
  | EOF                       (* io.EOF *)
  | ErrUnexpectedEOF          (* io.ErrUnexpectedEOF *)
  | ErrMsg (msg : string)
  | ErrWrap (msg : string) (inner : goerr).

#[export] Instance goerr_eq_dec : EqDecision goerr.
Proof. solve_decision. Defined.

(** [errors.Is(err, target)] *)
Fixpoint errors_Is (err target : goerr) : bool :=
  bool_decide (err = target) ||
  match err with
  | ErrWrap _ inner => errors_Is inner target
  | _ => false
  end.

Inductive outcome (A : Type) :=
  | Ok (a : A)
  | Err (e : goerr)
  | Panic.
Arguments Ok {A} a.
Arguments Err {A} e.
Arguments Panic {A}.

#[export] Instance outcome_eq_dec `{EqDecision A} : EqDecision (outcome A).
Proof. solve_decision. Defined.

Definition obind {A B} (c : outcome A) (k : A -> outcome B) : outcome B :=
  match c with
  | Ok a => k a
  | Err e => Err e
  | Panic => Panic
  end.

(** [if err != nil { return fmt.Errorf(msg + "%w", err) }] *)
Definition owrap {A} (msg : string) (c : outcome A) : outcome A :=
  match c with
  | Err e => Err (ErrWrap msg e)
  | _ => c
  end.

Notation "'let!' x ':=' c 'in' k" := (obind c (fun x => k))
  (at level 10, x pattern, c at level 200, k at level 200) : go_scope.
Open Scope go_scope.

Definition is_ok {A} (o : outcome A) : bool :=
  match o with Ok _ => true | _ => false end.

(** [s[lo:hi]] on a slice or a string panics outside [0 <= lo <= hi <= len]. *)
Definition slice {A} (l : list A) (lo hi : Z) : outcome (list A) :=
  if (0 <=? lo) && (lo <=? hi) && (hi <=? zlen l)
  then Ok (take (Z.to_nat (hi - lo)) (drop (Z.to_nat lo) l))
  else Panic.

Definition str_slice (s : string) (lo hi : Z) : outcome string :=
  if (0 <=? lo) && (lo <=? hi) && (hi <=? Z.of_nat (String.length s))
  then Ok (String.substring (Z.to_nat lo) (Z.to_nat (hi - lo)) s)
  else Panic.

(** [l[i]] panics out of range. *)
Definition index {A} (l : list A) (i : Z) : outcome A :=
  if 0 <=? i then
    match l !! Z.to_nat i with Some a => Ok a | None => Panic end
  else Panic.

(** ** Byte strings: order, prefixes, hexadecimal, big-endian integers *)

Definition ascii_leb (a b : ascii) : bool := (Ascii.N_of_ascii a <=? Ascii.N_of_ascii b)%N.

(** [bytes.Compare(s, t) <= 0] *)
Fixpoint str_leb (s t : string) : bool :=
  match s, t with
  | EmptyString, _ => true
  | String _ _, EmptyString => false
  | String a s', String b t' =>
      if bool_decide (a = b) then str_leb s' t' else ascii_leb a b
  end.

Definition str_le (s t : string) : Prop := str_leb s t = true.

#[export] Instance str_le_dec : RelDecision str_le.
Proof. intros s t. unfold str_le. apply _. Defined.

(** [strings.HasPrefix(s, p)] *)
Fixpoint has_prefix (p s : string) : bool :=
  match p, s with
  | EmptyString, _ => true
  | String _ _, EmptyString => false
  | String a p', String b s' => bool_decide (a = b) && has_prefix p' s'
  end.

Definition hex_digit (n : Z) : ascii :=
  Ascii.ascii_of_N (Z.to_N (if n <? 10 then 48 + n else 87 + n)).

(** [hex.EncodeToString] *)
Fixpoint hex_encode (b : bytes) : string :=
  match b with
  | [] => EmptyString
  | x :: b' => String (hex_digit (byteZ x / 16))
                 (String (hex_digit (byteZ x mod 16)) (hex_encode b'))
  end.

(** [binary.BigEndian.PutUint32 / Uint32 / Uint64] *)
Fixpoint be_encode (n : nat) (z : Z) : bytes :=
  match n with
  | O => []
  | S n' => Zbyte (z / 256 ^ Z.of_nat n') :: be_encode n' z
  end.

Definition be_decode (b : bytes) : Z := fold_left (fun acc x => acc * 256 + byteZ x) b 0.

(** [utf8.ValidString]: shortest encodings of scalar values only. *)
Definition in_range (lo hi : Z) (b : byte) : bool := (lo <=? byteZ b) && (byteZ b <=? hi).

Definition cont : byte -> bool := in_range 128 191.

Fixpoint utf8_valid (s : bytes) : bool :=
  match s with
  | [] => true
  | b :: s1 =>
      if in_range 0 127 b then utf8_valid s1
      else match s1 with
      | [] => false
      | c1 :: s2 =>
          if in_range 194 223 b then cont c1 && utf8_valid s2
          else match s2 with
          | [] => false
          | c2 :: s3 =>
              if in_range 224 239 b then
                (if byteZ b =? 224 then in_range 160 191 c1
                 else if byteZ b =? 237 then in_range 128 159 c1 else cont c1)
                && cont c2 && utf8_valid s3
              else match s3 with
              | [] => false
              | c3 :: s4 =>
                  in_range 240 244 b
                  && (if byteZ b =? 240 then in_range 144 191 c1
                      else if byteZ b =? 244 then in_range 128 143 c1 else cont c1)
                  && cont c2 && cont c3 && utf8_valid s4
              end
          end
      end
  end.

Definition text_ok (s : string) : bool := utf8_valid (bytes_of_string s).

(** ** Time

    A [time.Time] is an instant, in nanoseconds since the Unix epoch; the zero
    value is midnight, 1 January of year 1. *)
Definition time_zero : Z := - 62135596800 * 10 ^ 9.

Definition IsZero (t : Z) : bool := t =? time_zero.

(** [t.Unix()], and the instant it stands for. *)
Definition Unix (t : Z) : Z := t / 10 ^ 9.

Definition whole_second (t : Z) : Z := Unix t * 10 ^ 9.

Definition int64_ok (z : Z) : bool := (- 2 ^ 63 <=? z) && (z <? 2 ^ 63).

(** ** Tactics and hints *)

Create HintDb fnshare.

(** Case analysis on the scrutinee of every [match], [if] and [let!] in sight. *)
Ltac go_case :=
  repeat match goal with
  | H : obind ?c _ = _ |- _ => destruct c eqn:?; simpl in H; try discriminate H
  | H : (match ?c with _ => _ end) = _ |- _ => destruct c eqn:?; try discriminate H
  | H : (_, _) = (_, _) |- _ => injection H as H; subst
  | H : Ok _ = Ok _ |- _ => injection H as H; subst
  | H : Err _ = Err _ |- _ => injection H as H; subst
  end.

(** Boolean guards of the source turned into propositions. *)
Ltac go_bool :=
  repeat match goal with
  | H : (_ && _)%bool = true |- _ => apply andb_prop in H as [? ?]
  | H : (_ && _)%bool = false |- _ => apply andb_false_iff in H
  | H : (_ || _)%bool = true |- _ => apply orb_prop in H
  | H : (_ || _)%bool = false |- _ => apply orb_false_iff in H as [? ?]
  | H : negb _ = true |- _ => apply negb_true_iff in H
  | H : negb _ = false |- _ => apply negb_false_iff in H
  | H : (_ <=? _) = true |- _ => apply Z.leb_le in H
  | H : (_ <=? _) = false |- _ => apply Z.leb_gt in H
  | H : (_ <? _) = true |- _ => apply Z.ltb_lt in H
  | H : (_ <? _) = false |- _ => apply Z.ltb_ge in H
  | H : (_ =? _) = true |- _ => apply Z.eqb_eq in H
  | H : (_ =? _) = false |- _ => apply Z.eqb_neq in H
  | H : bool_decide _ = true |- _ => apply bool_decide_eq_true in H
  | H : bool_decide _ = false |- _ => apply bool_decide_eq_false in H
  end.

(** ** Lemmas *)

Section integers.

Lemma wrap64_id z : in_int64 z -> wrap64 z = z.
Proof. unfold in_int64, wrap64. intros ?. rewrite Z.mod_small; lia. Qed.

Lemma wrap64_range z : in_int64 (wrap64 z).
Proof.
  unfold in_int64, wrap64.
  pose proof (Z.mod_pos_bound (z + 2 ^ 63) (2 ^ 64) ltac:(lia)). lia.
Qed.

Lemma zlen_nonneg {A} (l : list A) : 0 <= zlen l.
Proof. unfold zlen. lia. Qed.

Lemma zlen_app {A} (l k : list A) : zlen (l ++ k) = zlen l + zlen k.
Proof. unfold zlen. rewrite length_app. lia. Qed.

Lemma byteZ_bound b : 0 <= byteZ b < 256.
Proof. destruct b; vm_compute; split; congruence. Qed.

Lemma Zbyte_byteZ b : Zbyte (byteZ b) = b.
Proof. destruct b; reflexivity. Qed.

Lemma byteZ_Zbyte z : byteZ (Zbyte z) = z mod 256.
Proof.
  unfold byteZ, Zbyte.
  pose proof (Z.mod_pos_bound z 256 ltac:(lia)) as Hb.
  destruct (Byte.of_N (Z.to_N (z mod 256))) as [b|] eqn:E.
  - apply Byte.to_of_N in E. rewrite E. lia.
  - apply Byte.of_N_None_iff in E. lia.
Qed.

#[global] Instance byteZ_inj : Inj (=) (=) byteZ.
Proof. intros a b E. rewrite <- (Zbyte_byteZ a), E. apply Zbyte_byteZ. Qed.

End integers.

Lemma wrap64_add_l a b : wrap64 (wrap64 a + b) = wrap64 (a + b).
Proof.
  unfold wrap64. f_equal.
  replace ((a + 2 ^ 63) mod 2 ^ 64 - 2 ^ 63 + b + 2 ^ 63) with ((a + 2 ^ 63) mod 2 ^ 64 + b) by lia.
  rewrite Z.add_mod_idemp_l by lia. f_equal. lia.
Qed.

Lemma find_ext {A} (f g : A -> bool) l : (forall x, f x = g x) -> List.find f l = List.find g l.
Proof. intros E. induction l as [|x l IH]; [done|]. simpl. by rewrite E, IH. Qed.

Lemma whole_second_zero : whole_second time_zero = time_zero.
Proof. reflexivity. Qed.

Lemma whole_second_nonneg t : 0 <= t -> 0 <= whole_second t <= t.
Proof.
  intros Ht. unfold whole_second, Unix. pose proof (Z.div_pos t (10 ^ 9) Ht ltac:(lia)).
  pose proof (Z.mul_div_le t (10 ^ 9) ltac:(lia)). lia.
Qed.

Lemma whole_second_idemp t : whole_second (whole_second t) = whole_second t.
Proof. unfold whole_second, Unix. rewrite Z.div_mul by lia. done. Qed.

Lemma Unix_whole_second t : Unix (whole_second t) = Unix t.
Proof. unfold whole_second, Unix. by rewrite Z.div_mul by lia. Qed.

Section slices.
Context {A : Type}.
Implicit Types l : list A.

Lemma slice_full l lo hi :
  0 <= lo <= hi -> hi <= zlen l ->
  slice l lo hi = Ok (take (Z.to_nat (hi - lo)) (drop (Z.to_nat lo) l)).
Proof. intros ? ?. unfold slice. by rewrite !(proj2 (Z.leb_le _ _)) by lia. Qed.

Lemma slice_Ok l lo hi r :
  slice l lo hi = Ok r ->
  0 <= lo <= hi /\ hi <= zlen l /\ r = take (Z.to_nat (hi - lo)) (drop (Z.to_nat lo) l).
Proof. unfold slice. intros ?. go_case. go_bool. auto with lia. Qed.

Lemma index_Ok l i a : index l i = Ok a <-> 0 <= i /\ l !! Z.to_nat i = Some a.
Proof.
  unfold index. destruct (Z.leb_spec 0 i); [|split; [done|lia]].
  destruct (l !! Z.to_nat i); split; intros; destruct_and?; simplify_eq; auto.
Qed.

Lemma index_lookup l (i : nat) a : l !! i = Some a -> index l (Z.of_nat i) = Ok a.
Proof. intros Hl. apply index_Ok. split; [lia|]. by rewrite Nat2Z.id. Qed.

End slices.

Lemma list_filter_all {A} (P : A -> Prop) `{!forall x, Decision (P x)} (l : list A) :
  (forall x, x ∈ l -> P x) -> filter P l = l.
Proof.
  induction l as [|x l IH]; intros Hl; [done|]. rewrite filter_cons, decide_True by (apply Hl; constructor).
  f_equal. apply IH. intros y Hy. apply Hl. by constructor.
Qed.

Section strings.

Lemma bytes_string_bytes b : bytes_of_string (string_of_bytes b) = b.
Proof.
  unfold bytes_of_string, string_of_bytes.
  rewrite String.list_ascii_of_string_of_list_ascii, map_map.
  rewrite <- (map_id b) at 2. apply map_ext, Ascii.byte_of_ascii_of_byte.
Qed.

Lemma string_bytes_string s : string_of_bytes (bytes_of_string s) = s.
Proof.
  unfold bytes_of_string, string_of_bytes. rewrite map_map.
  rewrite (map_ext _ id), map_id; [apply String.string_of_list_ascii_of_string|].
  apply Ascii.ascii_of_byte_of_ascii.
Qed.

#[global] Instance bytes_of_string_inj : Inj (=) (=) bytes_of_string.
Proof. intros s t E. rewrite <- (string_bytes_string s), E. apply string_bytes_string. Qed.

Lemma length_append (s t : string) :
  String.length (s +:+ t) = (String.length s + String.length t)%nat.
Proof. induction s as [|a s IH]; [done|]. cbn. by rewrite <- IH. Qed.

Lemma ascii_leb_total a b : ascii_leb a b = true \/ ascii_leb b a = true.
Proof. unfold ascii_leb. rewrite !N.leb_le. lia. Qed.

Lemma ascii_leb_trans a b c : ascii_leb a b = true -> ascii_leb b c = true -> ascii_leb a c = true.
Proof. unfold ascii_leb. rewrite !N.leb_le. lia. Qed.

Lemma ascii_leb_antisym a b : ascii_leb a b = true -> ascii_leb b a = true -> a = b.
Proof.
  unfold ascii_leb. rewrite !N.leb_le. intros ? ?.
  rewrite <- (Ascii.ascii_N_embedding a), <- (Ascii.ascii_N_embedding b). f_equal. lia.
Qed.

#[global] Instance str_le_refl : Reflexive str_le.
Proof.
  intros s. unfold str_le. induction s; simpl; [done|].
  by rewrite bool_decide_eq_true_2.
Qed.

#[global] Instance str_le_trans : Transitive str_le.
Proof.
  unfold str_le. intros s. induction s as [|a s IH]; intros [|b t] [|c u]; simpl; try done.
  repeat case_bool_decide; subst; eauto using ascii_leb_trans; try done.
  intros H1 H2. exfalso; eauto using ascii_leb_antisym.
Qed.

#[global] Instance str_le_antisymm : AntiSymm (=) str_le.
Proof.
  unfold str_le. intros s. induction s as [|a s IH]; intros [|b t]; simpl; try done.
  repeat case_bool_decide; subst; intros; try done; [f_equal; eauto|].
  exfalso; eauto using ascii_leb_antisym.
Qed.

#[global] Instance str_le_total : Total str_le.
Proof.
  unfold Total, str_le. intros s. induction s as [|a s IH]; intros [|b t]; simpl; auto.
  repeat case_bool_decide; subst; try done; auto using ascii_leb_total.
Qed.

Lemma has_prefix_spec p s : has_prefix p s = true <-> exists r, s = p +:+ r.
Proof.
  revert s. induction p as [|a p IH]; intros s; simpl.
  { split; eauto. }
  destruct s as [|b s]; simpl; [split; [done|intros [? ?]; done]|].
  rewrite andb_true_iff, bool_decide_eq_true, IH. split.
  - intros [-> [r ->]]. eauto.
  - intros [r [= -> ->]]. eauto.
Qed.

Lemma has_prefix_app p s : has_prefix p (p +:+ s) = true.
Proof. apply has_prefix_spec. eauto. Qed.

Lemma has_prefix_le p s : has_prefix p s = true -> str_le p s.
Proof.
  unfold str_le. revert s. induction p as [|a p IH]; intros [|b s]; simpl; try done.
  intros ?. go_bool. subst. rewrite bool_decide_eq_true_2 by done. auto.
Qed.

(** Keys that carry a prefix are contiguous in the byte order: once an ordered
    scan has left the prefix it never meets it again. *)
Lemma has_prefix_convex p s t :
  str_le p s -> str_le s t -> has_prefix p t = true -> has_prefix p s = true.
Proof.
  unfold str_le. revert s t. induction p as [|a p IH]; intros [|b s] [|c t]; simpl; try done.
  repeat case_bool_decide; subst; simpl; try done; eauto.
  intros H1 H2 _. exfalso; eauto using ascii_leb_antisym.
Qed.

Lemma hex_digit_inj m n : 0 <= m < 16 -> 0 <= n < 16 -> hex_digit m = hex_digit n -> m = n.
Proof.
  assert (Hn : forall z, 0 <= z < 16 ->
    Ascii.N_of_ascii (hex_digit z) = Z.to_N (if z <? 10 then 48 + z else 87 + z)).
  { intros z Hz. apply Ascii.N_ascii_embedding. destruct (z <? 10); lia. }
  intros Hm Hn' E. apply (f_equal Ascii.N_of_ascii) in E. rewrite !Hn in E by done.
  destruct (Z.ltb_spec m 10), (Z.ltb_spec n 10); lia.
Qed.

#[global] Instance hex_encode_inj : Inj (=) (=) hex_encode.
Proof.
  intros a. induction a as [|x a IH]; intros [|y b]; simpl; try done.
  intros E. injection E as E1 E2 E3.
  pose proof (byteZ_bound x). pose proof (byteZ_bound y).
  assert (byteZ x = byteZ y) as ->%(inj byteZ); [|f_equal; auto].
  apply hex_digit_inj in E1, E2; try (apply Z.mod_pos_bound; lia); 
    try (split; [apply Z.div_pos; lia|apply Z.div_lt_upper_bound; lia]).
  rewrite (Z.div_mod (byteZ x) 16), (Z.div_mod (byteZ y) 16) by lia. lia.
Qed.

Lemma length_hex_encode b : String.length (hex_encode b) = (2 * length b)%nat.
Proof. induction b; simpl; lia. Qed.

End strings.

Section big_endian.

Lemma length_be_encode n z : length (be_encode n z) = n.
Proof. induction n; simpl; congruence. Qed.

Lemma be_decode_app a b :
  be_decode (a ++ b) = be_decode a * 256 ^ Z.of_nat (length b) + be_decode b.
Proof.
  unfold be_decode. rewrite fold_left_app. generalize (fold_left (fun acc x => acc * 256 + byteZ x) a 0).
  intros z. assert (H : forall l acc, fold_left (fun acc x => acc * 256 + byteZ x) l acc
    = acc * 256 ^ Z.of_nat (length l) + fold_left (fun acc x => acc * 256 + byteZ x) l 0).
  { clear. induction l as [|x l IH]; intros acc; cbn [fold_left length]; [simpl; lia|].
    rewrite IH, (IH (0 * 256 + byteZ x)), Nat2Z.inj_succ, Z.pow_succ_r by lia. ring. }
  apply H.
Qed.

Lemma be_decode_bound b : 0 <= be_decode b < 256 ^ Z.of_nat (length b).
Proof.
  induction b as [|x b IH]; [unfold be_decode; simpl; lia|].
  change (x :: b) with ([x] ++ b). rewrite be_decode_app, length_app.
  cbn [length]. rewrite Nat2Z.inj_add, Z.pow_add_r by lia.
  replace (be_decode [x]) with (byteZ x) by (unfold be_decode; simpl; lia).
  pose proof (byteZ_bound x). nia.
Qed.

Lemma be_decode_encode n z : be_decode (be_encode n z) = z mod 256 ^ Z.of_nat n.
Proof.
  induction n as [|n IH]; [simpl; by rewrite Z.mod_1_r|].
  cbn [be_encode]. change (Zbyte (z / 256 ^ Z.of_nat n) :: be_encode n z)
    with ([Zbyte (z / 256 ^ Z.of_nat n)] ++ be_encode n z).
  rewrite be_decode_app, IH, length_be_encode.
  replace (be_decode [Zbyte (z / 256 ^ Z.of_nat n)]) with (byteZ (Zbyte (z / 256 ^ Z.of_nat n)))
    by (unfold be_decode; simpl; lia).
  rewrite byteZ_Zbyte, Nat2Z.inj_succ, Z.pow_succ_r by lia.
  rewrite (Z.mul_comm 256), Z.rem_mul_r by lia. ring.
Qed.

End big_endian.

#[export] Hint Resolve zlen_nonneg byteZ_bound has_prefix_app has_prefix_le : fnshare.
