(* ===== verification/Ext.v ===== *)
(** * Interfaces of the code fnshare calls but does not contain

    One class per library.  The operations are those the sources under
    [internal/] call, the laws are the behaviour the library documents and the
    sources rely on.  The development is generic in these classes; [Concrete]
    gives an executable instance of each, so no law is vacuous. *)

From S2P Require Import Prelude.

(** ** BadgerDB (github.com/dgraph-io/badger/v4)

    An ordered map from byte-string keys to values.  A read-write transaction
    commits or leaves the database as it was; an iterator positioned with
    [Seek] returns every key at or after the argument in byte order. *)
Class Badger := {
  db : Type;
  db_view : db -> gmap string bytes;
  txn_Get : db -> string -> outcome bytes;
  txn_Set : db -> string -> bytes -> db * option goerr;
  txn_Delete : db -> string -> db * option goerr;
  it_Seek : db -> string -> list (string * bytes);

  txn_Get_spec d k :
    txn_Get d k = match db_view d !! k with
                  | Some v => Ok v
                  | None => Err ErrKeyNotFound
                  end;
  txn_Set_commit d k v d' : txn_Set d k v = (d', None) -> db_view d' = <[k := v]> (db_view d);
  txn_Set_abort d k v d' e : txn_Set d k v = (d', Some e) -> db_view d' = db_view d;
  txn_Delete_commit d k d' : txn_Delete d k = (d', None) -> db_view d' = delete k (db_view d);
  txn_Delete_abort d k d' e : txn_Delete d k = (d', Some e) -> db_view d' = db_view d;
  it_Seek_elem d p k v : (k, v) ∈ it_Seek d p <-> db_view d !! k = Some v /\ str_le p k;
  it_Seek_sorted d p : StronglySorted str_le (it_Seek d p).*1;
  it_Seek_nodup d p : NoDup (it_Seek d p).*1
}.

(** ** CBOR (github.com/fxamacker/cbor/v2)

    [ok] says which values decode again (valid UTF-8 text, at most 131072
    array elements) - the decoder yields no others -, [norm] what a value decodes to: with the default encoding
    options a [time.Time] is written as whole seconds since the epoch. *)
Class Cbor (A : Type) (ok : A -> bool) (norm : A -> A) := {
  Marshal : A -> outcome bytes;
  Unmarshal : bytes -> outcome A;
  Marshal_total a : exists raw, Marshal a = Ok raw;
  Unmarshal_Marshal a raw : ok a = true -> Marshal a = Ok raw -> Unmarshal raw = Ok (norm a);
  Unmarshal_bad a raw : ok a = false -> Marshal a = Ok raw -> exists e, Unmarshal raw = Err e;
  Unmarshal_ok a raw : Unmarshal raw = Ok a -> ok a = true;
  Unmarshal_no_panic raw : Unmarshal raw <> Panic
}.

(** ** SHA-256, AES-256-GCM, Ed25519 (Go standard library), NaCl box, bcrypt *)
Class Sha256 := {
  Sum256 : bytes -> bytes;
  Sum256_length b : length (Sum256 b) = 32%nat
}.

(** [gcm_Seal key nonce plaintext] and [gcm_Open key nonce ciphertext], no
    associated data.  A ciphertext opens only if it is the sealing of what it
    opens to: the tag is a function of key, nonce and ciphertext. *)
Class AesGcm := {
  gcm_Seal : bytes -> bytes -> bytes -> bytes;
  gcm_Open : bytes -> bytes -> bytes -> option bytes;
  gcm_Open_Seal k n p : gcm_Open k n (gcm_Seal k n p) = Some p;
  gcm_Open_sound k n c p : gcm_Open k n c = Some p -> c = gcm_Seal k n p;
  gcm_Seal_length k n p : length (gcm_Seal k n p) = (length p + 16)%nat
}.

Class Ed25519 := {
  ed25519_pub : bytes -> bytes;                    (* public key of a private key *)
  ed25519_from_seed : bytes -> bytes;              (* private key of a 32-byte seed *)
  ed25519_sign : bytes -> bytes -> bytes;          (* private key, message *)
  ed25519_check : bytes -> bytes -> bytes -> bool; (* public key, message, signature *)
  ed25519_from_seed_length seed : length seed = 32%nat -> length (ed25519_from_seed seed) = 64%nat;
  ed25519_pub_length k : length (ed25519_pub k) = 32%nat;
  ed25519_check_sign k msg : ed25519_check (ed25519_pub k) msg (ed25519_sign k msg) = true
}.

(** [ed25519.Verify] panics on a public key of the wrong size. *)
Definition ed25519_Verify `{Ed25519} (pub msg sig : bytes) : outcome bool :=
  if bool_decide (length pub = 32%nat) then Ok (ed25519_check pub msg sig) else Panic.

Class NaclBox := {
  box_pair : bytes -> bytes -> Prop;               (* a public key and its private key *)
  box_GenerateKey : bytes -> outcome (bytes * bytes);
  box_Seal : bytes -> bytes -> bytes -> outcome bytes;   (* message, public key, randomness *)
  box_Open : bytes -> bytes -> bytes -> option bytes;    (* box, public key, private key *)
  box_GenerateKey_pair r pub priv :
    box_GenerateKey r = Ok (pub, priv) ->
    box_pair pub priv /\ length pub = 32%nat /\ length priv = 32%nat;
  box_Open_Seal msg pub priv r c :
    box_pair pub priv -> box_Seal msg pub r = Ok c -> box_Open c pub priv = Some msg
}.

Class Bcrypt := {
  bcrypt_Generate : bytes -> bytes -> outcome bytes;     (* password, salt *)
  bcrypt_Compare : bytes -> bytes -> bool;               (* hash, password *)
  bcrypt_Compare_Generate pw r h : bcrypt_Generate pw r = Ok h -> bcrypt_Compare h pw = true
}.

(** ** Reed-Solomon (github.com/klauspost/reedsolomon)

    Shards are byte slices; a missing shard is a slice of length zero. *)
Definition same_size (n : nat) (shards : list bytes) : Prop :=
  Forall (fun s => length s = n) shards.

(** [e] is [cw] with some shards missing. *)
Definition erasure_of (cw e : list bytes) : Prop :=
  Forall2 (fun c x => x = c \/ x = []) cw e.

Definition present (e : list bytes) : nat := length (filter (fun s => s ≠ []) e).

Lemma present_cons s e : present (s :: e) = ((if decide (s = []) then 0 else 1) + present e)%nat.
Proof. unfold present. rewrite filter_cons. repeat case_decide; try done; congruence. Qed.

Class ReedSolomon := {
  rs_New : Z -> Z -> outcome unit;
  rs_Split : Z -> Z -> bytes -> outcome (list bytes);
  rs_Encode : Z -> Z -> list bytes -> outcome (list bytes);
  rs_Reconstruct : Z -> Z -> list bytes -> outcome (list bytes);
  rs_Verify : Z -> Z -> list bytes -> outcome bool;

  rs_New_params d p : rs_New d p = Ok tt -> 0 < d /\ 0 <= p;
  rs_Split_short d p : rs_New d p = Ok tt -> exists e, rs_Split d p [] = Err e;
  rs_Split_ok d p data :
    rs_New d p = Ok tt -> data ≠ [] ->
    exists shards,
      rs_Split d p data = Ok shards /\ zlen shards = d + p /\
      same_size (Z.to_nat ((zlen data + d - 1) / d)) shards /\
      concat (take (Z.to_nat d) shards) =
        data ++ replicate (Z.to_nat ((zlen data + d - 1) / d * d - zlen data)) Byte.x00;
  rs_Encode_ok d p n shards :
    rs_New d p = Ok tt -> zlen shards = d + p -> n ≠ O -> same_size n shards ->
    exists cw,
      rs_Encode d p shards = Ok cw /\ zlen cw = d + p /\ same_size n cw /\
      take (Z.to_nat d) cw = take (Z.to_nat d) shards /\ rs_Verify d p cw = Ok true;
  rs_Reconstruct_few d p e :
    rs_New d p = Ok tt -> zlen e = d + p -> Z.of_nat (present e) < d ->
    exists err, rs_Reconstruct d p e = Err err;
  (** Any [d] shards of an encoding determine all of it. *)
  rs_Reconstruct_ok d p n cw e :
    rs_New d p = Ok tt -> zlen cw = d + p -> n ≠ O -> same_size n cw ->
    rs_Verify d p cw = Ok true -> erasure_of cw e -> d <= Z.of_nat (present e) ->
    rs_Reconstruct d p e = Ok cw;
  (** [d] shards of one size complete to an encoding, whatever they hold. *)
  rs_Reconstruct_any d p n e :
    rs_New d p = Ok tt -> zlen e = d + p -> n ≠ O ->
    Forall (fun s => length s = n \/ s = []) e -> Z.of_nat (present e) = d ->
    exists cw, rs_Reconstruct d p e = Ok cw /\ zlen cw = d + p /\ same_size n cw /\
      erasure_of cw e /\ rs_Verify d p cw = Ok true
}.

(** ** Peer identifiers (github.com/libp2p/go-libp2p/core/peer) *)
Class PeerIDs := {
  pid : Type;
  peer_Decode : string -> option pid;
  peer_String : pid -> string;
  peer_Decode_String p : peer_Decode (peer_String p) = Some p
}.
