(* ===== verification/Concrete.v ===== *)
(** * Executable instances of the interfaces of [Ext]

    Small models of the libraries, on which the definitions of the development
    evaluate: an in-memory ordered database, a 2+1 parity code, a cipher that
    appends a key tag.  They show that the laws of [Ext] are consistent and
    serve as inputs of the witnesses; no theorem depends on them. *)

From stdpp Require Import countable.
From S2P Require Import Prelude Ext.

(** ** An in-memory database; [mem_full] makes every write fail. *)
Record memdb := MemDB { mem_map : gmap string bytes; mem_full : bool }.

Definition mem_set (d : memdb) (k : string) (v : bytes) : memdb * option goerr :=
  if mem_full d then (d, Some (ErrMsg "no space left on device"))
  else (MemDB (<[k := v]> (mem_map d)) false, None).

Definition mem_delete (d : memdb) (k : string) : memdb * option goerr :=
  if mem_full d then (d, Some (ErrMsg "no space left on device"))
  else (MemDB (delete k (mem_map d)) false, None).

Definition key_le : relation (string * bytes) := fun x y => str_le x.1 y.1.

#[export] Instance key_le_dec : RelDecision key_le := fun x y => str_le_dec x.1 y.1.
#[export] Instance key_le_trans : Transitive key_le.
Proof. intros ? ? ?. unfold key_le. apply str_le_trans. Qed.
#[export] Instance key_le_total : Total key_le.
Proof. intros ? ?. apply str_le_total. Qed.

Definition mem_seek (d : memdb) (p : string) : list (string * bytes) :=
  merge_sort key_le (filter (fun kv => str_leb p kv.1 = true) (map_to_list (mem_map d))).

Lemma mem_seek_perm d p :
  mem_seek d p ≡ₚ filter (fun kv => str_leb p kv.1 = true) (map_to_list (mem_map d)).
Proof. apply merge_sort_Permutation. Qed.

#[export] Instance mem_badger : Badger.
Proof.
  refine {| db := memdb; db_view := mem_map;
    txn_Get d k := match mem_map d !! k with Some v => Ok v | None => Err ErrKeyNotFound end;
    txn_Set := mem_set; txn_Delete := mem_delete; it_Seek := mem_seek |}.
  - done.
  - intros d k v d' E. unfold mem_set in E. by go_case.
  - intros d k v d' e E. unfold mem_set in E. by go_case.
  - intros d k d' E. unfold mem_delete in E. by go_case.
  - intros d k d' e E. unfold mem_delete in E. by go_case.
  - intros d p k v. rewrite mem_seek_perm, list_elem_of_filter, elem_of_map_to_list. simpl.
    split; intros [? ?]; auto.
  - intros d p. apply (StronglySorted_fmap fst key_le str_le); [done|].
    apply StronglySorted_merge_sort; apply _.
  - intros d p. rewrite mem_seek_perm. eapply sublist_NoDup; [apply (NoDup_fst_map_to_list (mem_map d))|].
    apply fmap_sublist, sublist_filter.
Defined.

(** ** Ciphers and signatures *)
Definition toy_tag (k : bytes) : bytes := take 16 (k ++ replicate 16 Byte.x00).

Definition toy_open (k n c : bytes) : option bytes :=
  if decide (drop (length c - 16) c = toy_tag k) then Some (take (length c - 16) c) else None.

Lemma length_toy_tag k : length (toy_tag k) = 16%nat.
Proof. unfold toy_tag. rewrite length_take, length_app, length_replicate. lia. Qed.

#[export] Instance toy_gcm : AesGcm.
Proof.
  refine {| gcm_Seal k _ p := p ++ toy_tag k; gcm_Open := toy_open |}; unfold toy_open.
  - intros k n p. rewrite length_app, length_toy_tag.
    replace (length p + 16 - 16)%nat with (length p) by lia.
    rewrite drop_app_length, take_app_length. by rewrite decide_True.
  - intros k n c p ?. case_decide as E; simplify_eq. by rewrite <- E, take_drop.
  - intros. by rewrite length_app, length_toy_tag.
Defined.

#[export] Instance toy_sha256 : Sha256.
Proof.
  refine {| Sum256 b := take 32 (Zbyte (zlen b) :: b ++ replicate 32 Byte.x00) |}.
  intros b. rewrite length_take. cbn [length]. rewrite length_app, length_replicate. lia.
Defined.

Definition toy_pub (k : bytes) : bytes := take 32 (drop 32 (k ++ replicate 64 Byte.x00)).

#[export] Instance toy_ed25519 : Ed25519.
Proof.
  refine {| ed25519_pub := toy_pub; ed25519_from_seed seed := seed ++ seed; ed25519_sign k m := toy_pub k ++ m;
    ed25519_check pub m s := bool_decide (s = pub ++ m) |}.
  - intros seed Hs. rewrite length_app. lia.
  - intros k. unfold toy_pub. rewrite length_take, length_drop, length_app, length_replicate. lia.
  - intros. by apply bool_decide_eq_true_2.
Defined.

#[export] Instance toy_box : NaclBox.
Proof.
  refine {| box_pair pub priv := pub = priv /\ length pub = 32%nat;
    box_GenerateKey r := if decide (length r = 32%nat) then Ok (r, r) else Err (ErrMsg "rand");
    box_Seal m pub r := Ok (pub ++ m);
    box_Open c pub priv := if decide (take 32 c = pub /\ pub = priv) then Some (drop 32 c) else None |}.
  - intros r pub priv E. case_decide; by simplify_eq.
  - intros m pub priv r c [-> Hl] [= <-]. rewrite decide_True; rewrite <- Hl.
    + by rewrite drop_app_length.
    + by rewrite take_app_length.
Defined.

#[export] Instance toy_bcrypt : Bcrypt.
Proof.
  refine {| bcrypt_Generate pw r :=
      if 72 <? zlen pw then Err (ErrMsg "bcrypt: password length exceeds 72 bytes") else Ok pw;
    bcrypt_Compare h pw := bool_decide (h = pw) |}.
  intros pw r h E. go_case. by apply bool_decide_eq_true_2.
Defined.

(** ** A 2+1 code: the third shard is the exclusive or of the other two. *)
Definition bits_xor (a b : bool * (bool * (bool * (bool * (bool * (bool * (bool * bool))))))) :=
  let '(a0, (a1, (a2, (a3, (a4, (a5, (a6, a7))))))) := a in
  let '(b0, (b1, (b2, (b3, (b4, (b5, (b6, b7))))))) := b in
  (xorb a0 b0, (xorb a1 b1, (xorb a2 b2, (xorb a3 b3,
    (xorb a4 b4, (xorb a5 b5, (xorb a6 b6, xorb a7 b7))))))).

Definition byte_xor (a b : byte) : byte := Byte.of_bits (bits_xor (Byte.to_bits a) (Byte.to_bits b)).

Definition xor_bytes (a b : bytes) : bytes := zip_with byte_xor a b.

Lemma byte_xor_cancel a b : byte_xor a (byte_xor a b) = b.
Proof.
  unfold byte_xor. rewrite Byte.to_bits_of_bits. rewrite <- (Byte.of_bits_to_bits b) at 2. f_equal.
  destruct (Byte.to_bits a) as [? [? [? [? [? [? [? ?]]]]]]],
    (Byte.to_bits b) as [? [? [? [? [? [? [? ?]]]]]]]; simpl.
  repeat apply (f_equal2 pair); by rewrite <- xorb_assoc, xorb_nilpotent, xorb_false_l.
Qed.

Lemma byte_xor_comm a b : byte_xor a b = byte_xor b a.
Proof.
  unfold byte_xor. f_equal.
  destruct (Byte.to_bits a) as [? [? [? [? [? [? [? ?]]]]]]],
    (Byte.to_bits b) as [? [? [? [? [? [? [? ?]]]]]]]; simpl.
  repeat apply (f_equal2 pair); apply xorb_comm.
Qed.

Lemma xor_bytes_comm a b : xor_bytes a b = xor_bytes b a.
Proof.
  unfold xor_bytes. revert b.
  induction a as [|x a IH]; intros [|y b]; simpl; f_equal; auto using byte_xor_comm.
Qed.

Lemma length_xor_bytes n a b : length a = n -> length b = n -> length (xor_bytes a b) = n.
Proof. intros. unfold xor_bytes. rewrite length_zip_with. lia. Qed.

Lemma xor_bytes_cancel a b : length a = length b -> xor_bytes a (xor_bytes a b) = b.
Proof.
  revert b. induction a as [|x a IH]; intros [|y b] ?; simplify_eq/=; [done|].
  f_equal; [apply byte_xor_cancel|by apply IH].
Qed.

Lemma xor_bytes_cancel_r a b : length a = length b -> xor_bytes (xor_bytes a b) b = a.
Proof. intros. rewrite xor_bytes_comm, (xor_bytes_comm a). by apply xor_bytes_cancel. Qed.

Definition rs21_split (data : bytes) : outcome (list bytes) :=
  match data with
  | [] => Err (ErrMsg "not enough data to fill the number of requested shards")
  | _ =>
      let n := ((length data + 1) / 2)%nat in
      let padded := data ++ replicate (2 * n - length data) Byte.x00 in
      Ok [take n padded; drop n padded; replicate n Byte.x00]
  end.

Definition rs21_encode (shards : list bytes) : outcome (list bytes) :=
  match shards with
  | [a; b; _] => Ok [a; b; xor_bytes a b]
  | _ => Err (ErrMsg "too few shards given")
  end.

Definition rs21_reconstruct (e : list bytes) : outcome (list bytes) :=
  match e with
  | [[]; ((_ :: _) as b); ((_ :: _) as c)] => Ok [xor_bytes b c; b; c]
  | [((_ :: _) as a); []; ((_ :: _) as c)] => Ok [a; xor_bytes a c; c]
  | [((_ :: _) as a); ((_ :: _) as b); []] => Ok [a; b; xor_bytes a b]
  | [_ :: _; _ :: _; _ :: _] => Ok e
  | _ => Err (ErrMsg "too few shards given")
  end.

Definition rs21_verify (cw : list bytes) : outcome bool :=
  match cw with
  | [a; b; c] => Ok (bool_decide (c = xor_bytes a b))
  | _ => Err (ErrMsg "too few shards given")
  end.

Definition rs21_new (d p : Z) : outcome unit :=
  if (d =? 2) && (p =? 1) then Ok tt else Err (ErrMsg "unsupported shard counts").

Lemma rs21_new_Ok d p : rs21_new d p = Ok tt -> d = 2 /\ p = 1.
Proof. unfold rs21_new. intros E. go_case. by go_bool. Qed.

Lemma three_shards {A} (l : list A) : zlen l = 2 + 1 -> exists a b c, l = [a; b; c].
Proof. unfold zlen. destruct l as [|a [|b [|c [|d l]]]]; simpl; try lia. eauto. Qed.

Lemma rs21_split_shape data :
  data ≠ [] ->
  let n := Z.to_nat ((zlen data + 2 - 1) / 2) in
  exists a b c, rs21_split data = Ok [a; b; c] /\ same_size n [a; b; c] /\
    a ++ b = data ++ replicate (Z.to_nat ((zlen data + 2 - 1) / 2 * 2 - zlen data)) Byte.x00.
Proof.
  intros Hne. destruct data as [|x l]; [done|]. set (data := x :: l).
  cbv zeta. unfold rs21_split. fold data.
  assert (Hn : Z.to_nat ((zlen data + 2 - 1) / 2) = ((length data + 1) / 2)%nat).
  { unfold zlen. rewrite <- (Nat2Z.id ((length data + 1) / 2)), Nat2Z.inj_div. f_equal. f_equal; lia. }
  assert (Hz : Z.to_nat ((zlen data + 2 - 1) / 2 * 2 - zlen data)
             = (2 * ((length data + 1) / 2) - length data)%nat).
  { rewrite <- Hn. unfold zlen. lia. }
  rewrite Hn, Hz. pose proof (Nat.div_mod_eq (length data + 1) 2).
  pose proof (Nat.mod_upper_bound (length data + 1) 2 ltac:(lia)).
  eexists _, _, _. split; [done|]. split; [|apply take_drop].
  repeat constructor; rewrite ?length_take, ?length_drop, ?length_app, ?length_replicate; lia.
Qed.

#[local] Arguments xor_bytes : simpl never.

Lemma rs21_recover a b c :
  a ≠ [] -> b ≠ [] -> c ≠ [] ->
  rs21_reconstruct [a; b; c] = Ok [a; b; c] /\
  rs21_reconstruct [[]; b; c] = Ok [xor_bytes b c; b; c] /\
  rs21_reconstruct [a; []; c] = Ok [a; xor_bytes a c; c] /\
  rs21_reconstruct [a; b; []] = Ok [a; b; xor_bytes a b].
Proof. intros. destruct a, b, c; try congruence; repeat split. Qed.

Lemma rs21_reconstruct_code n a b e :
  n ≠ O -> length a = n -> length b = n ->
  erasure_of [a; b; xor_bytes a b] e -> 2 <= Z.of_nat (present e) ->
  rs21_reconstruct e = Ok [a; b; xor_bytes a b].
Proof.
  intros Hn Ha Hb He Hp.
  assert (Hc : length (xor_bytes a b) = n) by auto using length_xor_bytes.
  assert (E1 : xor_bytes b (xor_bytes a b) = a)
    by (rewrite (xor_bytes_comm a b); apply xor_bytes_cancel; congruence).
  assert (E2 : xor_bytes a (xor_bytes a b) = b) by (apply xor_bytes_cancel; congruence).
  assert (Hne : forall s : bytes, length s = n -> s ≠ []) by (intros [] <-; done).
  destruct (rs21_recover a b (xor_bytes a b)) as (R0 & R1 & R2 & R3); auto.
  apply Forall2_cons_inv_l in He as (a' & e1 & Ha' & He & ->).
  apply Forall2_cons_inv_l in He as (b' & e2 & Hb' & He & ->).
  apply Forall2_cons_inv_l in He as (c' & e3 & Hc' & He & ->).
  apply Forall2_nil_inv_l in He as ->.
  rewrite !present_cons in Hp. change (present []) with 0%nat in Hp.
  destruct Ha' as [->| ->], Hb' as [->| ->], Hc' as [->| ->]; try congruence;
    exfalso; revert Hp; repeat case_decide; try done; lia.
Qed.

Lemma rs21_reconstruct_any n a b c :
  n ≠ O -> Forall (fun s => length s = n \/ s = []) [a; b; c] ->
  Z.of_nat (present [a; b; c]) = 2 ->
  exists cw, rs21_reconstruct [a; b; c] = Ok cw /\ zlen cw = 2 + 1 /\ same_size n cw /\
    erasure_of cw [a; b; c] /\ rs21_verify cw = Ok true.
Proof.
  intros Hn Hs Hp. inversion_clear Hs as [|?? Ha Hs']. inversion_clear Hs' as [|?? Hb Hs].
  inversion_clear Hs as [|?? Hc _].
  assert (Hk : forall s : bytes, length s = n \/ s = [] -> s ≠ [] -> length s = n) by (intros s [|]; done).
  destruct a as [|x a], b as [|y b], c as [|z c]; unfold present in Hp; simpl in Hp;
    try lia; simpl rs21_reconstruct; eexists; (split; [done|]); (split; [done|]).
  all: repeat match goal with H : length (_ :: _) = _ \/ _ |- _ => apply Hk in H; [|done] end.
  all: split; [apply Forall_cons; split; [|apply Forall_cons; split; [|apply Forall_singleton]];
    auto using length_xor_bytes|].
  all: split; [repeat apply Forall2_cons_2; auto; apply Forall2_nil_2|].
  all: simpl rs21_verify; f_equal; apply bool_decide_eq_true_2; try done.
  - rewrite xor_bytes_comm, xor_bytes_cancel by congruence. done.
  - by rewrite xor_bytes_cancel by congruence.
Qed.

#[export] Instance rs21 : ReedSolomon.
Proof.
  refine {| rs_New := rs21_new; rs_Split _ _ := rs21_split; rs_Encode _ _ := rs21_encode;
    rs_Reconstruct _ _ := rs21_reconstruct; rs_Verify _ _ := rs21_verify |}.
  - intros d p [-> ->]%rs21_new_Ok. lia.
  - simpl. eauto.
  - intros d p data [-> ->]%rs21_new_Ok (a & b & c & -> & Hs & Happ)%rs21_split_shape.
    exists [a; b; c]. repeat split; [done|]. simpl. by rewrite app_nil_r.
  - intros d p n shards [-> ->]%rs21_new_Ok (a & b & c & ->)%three_shards _ Hs.
    inversion_clear Hs as [|?? Ha Hs']. inversion_clear Hs' as [|?? Hb _].
    exists [a; b; xor_bytes a b].
    repeat split; [repeat constructor; auto using length_xor_bytes|].
    simpl. by rewrite bool_decide_eq_true_2.
  - intros d p e [-> ->]%rs21_new_Ok (a & b & c & ->)%three_shards Hp. revert Hp.
    unfold present. destruct a, b, c; simpl; eauto; lia.
  - intros d p n cw e [-> ->]%rs21_new_Ok (a & b & c & ->)%three_shards Hn Hs Hv He Hp.
    inversion_clear Hs as [|?? Ha Hs']. inversion_clear Hs' as [|?? Hb _].
    simpl in Hv. injection Hv as Hv. go_bool. subst c. eauto using rs21_reconstruct_code.
  - intros d p n e [-> ->]%rs21_new_Ok (a & b & c & ->)%three_shards Hn Hs Hp.
    eauto using rs21_reconstruct_any.
Defined.

(** ** Peer identifiers: a prefix that [Decode] strips. *)
#[export] Instance toy_peers : PeerIDs.
Proof.
  refine {| pid := string;
    peer_Decode s := match s with
                     | String "1"%char (String "2"%char (String "D"%char p)) => Some p
                     | _ => None
                     end;
    peer_String p := "12D" +:+ p |}.
  done.
Defined.

(** ** An encoding of trees of integers and strings as bytes *)
Abbreviation ctree := (gen_tree (string + Z)).

Fixpoint pos_bytes (p : positive) : bytes :=
  match p with
  | xH => []
  | xO p => Byte.x00 :: pos_bytes p
  | xI p => Byte.x01 :: pos_bytes p
  end.

Fixpoint bytes_pos (b : bytes) : positive :=
  match b with
  | [] => xH
  | Byte.x00 :: b => xO (bytes_pos b)
  | _ :: b => xI (bytes_pos b)
  end.

Lemma bytes_pos_bytes p : bytes_pos (pos_bytes p) = p.
Proof. induction p; simpl; congruence. Qed.

Definition tree_marshal {A} (to : A -> ctree) (norm : A -> A) (a : A) : outcome bytes :=
  Ok (pos_bytes (encode (to (norm a)))).

Definition tree_unmarshal {A} (ok : A -> bool) (fr : ctree -> option A) (b : bytes) : outcome A :=
  match decode (bytes_pos b) ≫= fr with
  | Some a => if ok a then Ok a else Err (ErrMsg "cbor: invalid")
  | None => Err (ErrMsg "cbor: invalid")
  end.

(** A type with an injection into trees has a codec. *)
Lemma tree_cbor {A} (ok : A -> bool) (norm : A -> A) (to : A -> ctree) (fr : ctree -> option A) :
  (forall a, fr (to a) = Some a) -> (forall a, ok (norm a) = ok a) -> Cbor A ok norm.
Proof.
  intros Hof Hnorm. refine {| Marshal := tree_marshal to norm; Unmarshal := tree_unmarshal ok fr |}.
  - unfold tree_marshal. eauto.
  - intros a raw Hok [= <-]. unfold tree_unmarshal. rewrite bytes_pos_bytes, decode_encode. simpl.
    by rewrite Hof, Hnorm, Hok.
  - intros a raw Hok [= <-]. unfold tree_unmarshal. rewrite bytes_pos_bytes, decode_encode. simpl.
    rewrite Hof, Hnorm, Hok. eauto.
  - intros a raw. unfold tree_unmarshal. destruct (decode _ ≫= fr); [|done].
    destruct (ok a0) eqn:E; by intros [= <-].
  - intros raw. unfold tree_unmarshal. destruct (decode _ ≫= fr); [|done]. by destruct (ok a).
Defined.

Definition tz (z : Z) : ctree := GenLeaf (inr z).
Definition ts (s : string) : ctree := GenLeaf (inl s).
Definition tb (b : bytes) : ctree := GenLeaf (inl (string_of_bytes b)).
Definition tbool (b : bool) : ctree := GenLeaf (inr (if b then 1 else 0)).
Definition tlist {A} (f : A -> ctree) (l : list A) : ctree := GenNode 0 (map f l).

Definition of_tz (t : ctree) : option Z := match t with GenLeaf (inr z) => Some z | _ => None end.
Definition of_ts (t : ctree) : option string := match t with GenLeaf (inl s) => Some s | _ => None end.
Definition of_tb (t : ctree) : option bytes := bytes_of_string <$> of_ts t.
Definition of_tbool (t : ctree) : option bool := Z.eqb 1 <$> of_tz t.
Definition of_tlist {A} (f : ctree -> option A) (t : ctree) : option (list A) :=
  match t with GenNode _ l => mapM f l | _ => None end.

Lemma of_tb_tb b : of_tb (tb b) = Some b.
Proof. unfold of_tb, tb. simpl. by rewrite bytes_string_bytes. Qed.

Lemma of_tbool_tbool b : of_tbool (tbool b) = Some b.
Proof. by destruct b. Qed.

Lemma of_tlist_tlist {A} (to : A -> ctree) fr l :
  (forall a, fr (to a) = Some a) -> of_tlist fr (tlist to l) = Some l.
Proof. intros H. simpl. induction l as [|a l IH]; [done|]. simpl. by rewrite H, IH. Qed.
