(* ===== verification/Store.v ===== *)
(** * internal/store/store.go: the key/value store over BadgerDB *)

From S2P Require Import Prelude Ext Concrete.

Module store.

Section with_badger.
Context `{Badger}.
Implicit Types (s : db) (k p : string) (v : bytes).

(** [type Store struct { db *badger.DB }] is the database itself. *)

Definition Put s k v : db * outcome unit :=
  match txn_Set s k v with
  | (s', None) => (s', Ok tt)
  | (s', Some e) => (s', Err e)
  end.

Definition Get s k : outcome bytes :=
  match txn_Get s k with
  | Err e => if errors_Is e ErrKeyNotFound then Err ErrStoreNotFound else Err e
  | out => out
  end.

Definition Delete s k : db * outcome unit :=
  match txn_Delete s k with
  | (s', None) => (s', Ok tt)
  | (s', Some e) => (s', Err e)
  end.

(** The loop [for it.Seek(prefix); it.ValidForPrefix(prefix); it.Next()]: the
    callback updates the variables it captures ([acc]) and says whether to go
    on. *)
Fixpoint iterate_from {A} p (fn : A -> string -> bytes -> A * bool) (acc : A)
    (items : list (string * bytes)) : A :=
  match items with
  | [] => acc
  | (k, v) :: items' =>
      if has_prefix p k then
        let '(acc', continue) := fn acc k v in
        if continue then iterate_from p fn acc' items' else acc'
      else acc
  end.

Definition Iterate {A} s p (fn : A -> string -> bytes -> A * bool) (acc : A) : A * outcome unit :=
  (iterate_from p fn acc (it_Seek s p), Ok tt).

(** The store takes the next write. *)
Definition writable s : Prop := forall k v, exists s', Put s k v = (s', Ok tt).

(** ** What the operations do to the contents *)

Lemma Get_spec s k :
  Get s k = match db_view s !! k with Some v => Ok v | None => Err ErrStoreNotFound end.
Proof. unfold Get. rewrite txn_Get_spec. by destruct (db_view s !! k). Qed.

Lemma Put_Ok s k v s' : Put s k v = (s', Ok tt) -> db_view s' = <[k := v]> (db_view s).
Proof. unfold Put. intros ?. go_case. eauto using txn_Set_commit. Qed.

Lemma Put_Err s k v s' e : Put s k v = (s', Err e) -> db_view s' = db_view s.
Proof. unfold Put. intros ?. go_case. eauto using txn_Set_abort. Qed.

Lemma Put_no_panic s k v s' : Put s k v <> (s', Panic).
Proof. unfold Put. intros ?. by go_case. Qed.

Lemma Put_cases s k v :
  exists s', Put s k v = (s', Ok tt) /\ db_view s' = <[k := v]> (db_view s) \/
  exists e, Put s k v = (s', Err e) /\ db_view s' = db_view s.
Proof.
  destruct (Put s k v) as [s' [[]|e|]] eqn:E; exists s'.
  - left. eauto using Put_Ok.
  - right. eauto using Put_Err.
  - by apply Put_no_panic in E.
Qed.

Lemma Delete_Ok s k s' : Delete s k = (s', Ok tt) -> db_view s' = delete k (db_view s).
Proof. unfold Delete. intros ?. go_case. eauto using txn_Delete_commit. Qed.

(** A [Put] on one key never disturbs a reader of another key, whether or not
    the write succeeds. *)
Lemma Put_other s k v s' r k' : Put s k v = (s', r) -> k' <> k -> Get s' k' = Get s k'.
Proof.
  intros E ?. rewrite !Get_spec.
  destruct (Put_cases s k v) as (s'' & [[E' Hv]|(e & E' & Hv)]);
    rewrite E in E'; injection E' as <- ->; rewrite Hv; [|done].
  by rewrite lookup_insert_ne.
Qed.

(** ** Prefix scans *)

(** The entries under a prefix, in key order. *)
Definition scan s p : list (string * bytes) :=
  filter (fun kv => has_prefix p kv.1 = true) (it_Seek s p).

Lemma elem_of_scan s p k v :
  (k, v) ∈ scan s p <-> db_view s !! k = Some v /\ has_prefix p k = true.
Proof.
  unfold scan. rewrite list_elem_of_filter, it_Seek_elem. simpl.
  split; [tauto|]. intros [? ?]. auto with fnshare.
Qed.

Lemma scan_NoDup s p : NoDup (scan s p).*1.
Proof.
  eapply sublist_NoDup; [apply it_Seek_nodup|]. apply fmap_sublist, sublist_filter.
Qed.

Lemma scan_sorted s p : StronglySorted str_le (scan s p).*1.
Proof.
  unfold scan. pose proof (it_Seek_sorted s p) as Hs. induction (it_Seek s p) as [|x l IH].
  - constructor.
  - rewrite fmap_cons in Hs. apply StronglySorted_cons in Hs as [Hx Hs].
    rewrite filter_cons. case_decide; [|by apply IH]. rewrite fmap_cons. constructor; [by apply IH|].
    rewrite Forall_forall in *. intros k (kv & -> & Hkv)%list_elem_of_fmap.
    apply list_elem_of_filter in Hkv as [_ Hkv]. apply Hx, list_elem_of_fmap. eauto.
Qed.

Lemma sorted_keys (l : list (string * bytes)) :
  StronglySorted str_le l.*1 -> StronglySorted (fun x y => str_le x.1 y.1) l.
Proof.
  induction l as [|x l IH]; [constructor|]. rewrite fmap_cons, !StronglySorted_cons, Forall_fmap.
  intros [? ?]. auto.
Qed.

(** A scan depends only on the entries under its prefix. *)
Lemma scan_ext s s' p :
  (forall k, has_prefix p k = true -> db_view s' !! k = db_view s !! k) -> scan s' p = scan s p.
Proof.
  intros E. apply (StronglySorted_unique_strong (fun x y => str_le x.1 y.1)).
  - intros [k v] [k' v'] H1 H2 L1 L2. apply elem_of_scan in H1 as [H1 Hp], H2 as [H2 _]. simpl in *.
    assert (k = k') as <- by (by apply (anti_symm str_le)). rewrite E in H1 by done. congruence.
  - apply sorted_keys, scan_sorted.
  - apply sorted_keys, scan_sorted.
  - apply NoDup_Permutation; [eapply NoDup_fmap_1, scan_NoDup..|].
    intros [k v]. rewrite !elem_of_scan. split; intros [? ?]; rewrite E in *; auto.
Qed.

(** Once the scan has left the prefix no later key carries it. *)
Lemma sorted_prefix_run p (l : list (string * bytes)) :
  StronglySorted str_le l.*1 -> Forall (fun k => str_le p k) l.*1 ->
  forall {A} (fn : A -> string -> bytes -> A * bool) acc,
  iterate_from p fn acc l = iterate_from p fn acc (filter (fun kv => has_prefix p kv.1 = true) l).
Proof.
  intros Hs Hp A fn. induction l as [|[k v] l IH]; intros acc; [done|].
  rewrite fmap_cons in Hs, Hp. apply StronglySorted_cons in Hs as [Hk Hs].
  apply Forall_cons in Hp as [Hpk Hp]. rewrite filter_cons. simpl.
  destruct (has_prefix p k) eqn:E; case_decide; try done; simpl; rewrite ?E.
  - destruct (fn acc k v) as [acc' []]; auto.
  - assert (filter (fun kv => has_prefix p kv.1 = true) l = []) as ->; [|done].
    destruct (filter _ l) as [|[k' v'] l'] eqn:F; [done|].
    assert ((k', v') ∈ filter (fun kv => has_prefix p kv.1 = true) l) as [E' Hin]%list_elem_of_filter
      by (rewrite F; constructor).
    assert (k' ∈ l.*1) as Hk' by (apply list_elem_of_fmap; by exists (k', v')).
    rewrite Forall_forall in Hk, Hp.
    rewrite (has_prefix_convex p k k') in E; auto; done.
Qed.

Lemma iterate_scan {A} s p (fn : A -> string -> bytes -> A * bool) acc :
  iterate_from p fn acc (it_Seek s p) = iterate_from p fn acc (scan s p).
Proof.
  apply sorted_prefix_run; [apply it_Seek_sorted|].
  apply Forall_forall. intros k ([k' v] & -> & Hk)%list_elem_of_fmap.
  by apply it_Seek_elem in Hk as [_ ?].
Qed.

Lemma Iterate_ext {A} s p (f g : A -> string -> bytes -> A * bool) acc :
  (forall a k v, f a k v = g a k v) -> Iterate s p f acc = Iterate s p g acc.
Proof.
  intros E. unfold Iterate. f_equal. revert acc.
  induction (it_Seek s p) as [|[k v] l IH]; intros acc; simpl; [done|].
  rewrite E. destruct (has_prefix p k), (g acc k v) as [acc' []]; auto.
Qed.

(** A callback that never stops the scan is folded over the entries. *)
Lemma Iterate_fold {A} s p (f : A -> string -> bytes -> A) acc :
  Iterate s p (fun acc k v => (f acc k v, true)) acc =
  (fold_left (fun acc kv => f acc kv.1 kv.2) (scan s p) acc, Ok tt).
Proof.
  unfold Iterate. rewrite iterate_scan. f_equal. unfold scan.
  generalize acc. induction (it_Seek s p) as [|[k v] l IH]; intros acc'; [done|].
  rewrite filter_cons. case_decide as E; simpl in *; [rewrite E|]; auto.
Qed.

(** Collecting what a decoder accepts: the shape of every [List] of the
    program. *)
Lemma Iterate_collect {A} s p (dec : string -> bytes -> option A) :
  Iterate s p (fun acc k v => (match dec k v with Some a => acc ++ [a] | None => acc end, true)) [] =
  (omap (fun kv => dec kv.1 kv.2) (scan s p), Ok tt).
Proof.
  rewrite Iterate_fold. f_equal. generalize (scan s p). intros l.
  assert (G : forall acc, fold_left (fun acc kv => match dec kv.1 kv.2 with
      Some a => acc ++ [a] | None => acc end) l acc = acc ++ omap (fun kv => dec kv.1 kv.2) l);
    [|apply (G [])].
  induction l as [|[k v] l IH]; intros acc; simpl; [by rewrite app_nil_r|].
  destruct (dec k v); rewrite IH; [by rewrite <- app_assoc|done].
Qed.

(** [store.Iterate] with a callback that collects everything returns
    exactly the stored entries whose key starts with the prefix, each once, in
    byte order of the keys, although the loop stops at the first key without
    the prefix. *)
Lemma Iterate_exact s p :
  exists entries,
    Iterate s p (fun acc k v => (acc ++ [(k, v)], true)) [] = (entries, Ok tt) /\
    StronglySorted str_le entries.*1 /\ NoDup entries.*1 /\
    forall k v, (k, v) ∈ entries <-> Get s k = Ok v /\ has_prefix p k = true.
Proof.
  exists (scan s p). split; [|split; [apply scan_sorted|split; [apply scan_NoDup|]]].
  - rewrite (Iterate_collect s p (fun k v => Some (k, v))). f_equal.
    induction (scan s p) as [|[k v] l IH]; [done|]. cbn. f_equal. apply IH.
  - intros k v. rewrite elem_of_scan, Get_spec. destruct (db_view s !! k); split; intros [? ?]; simplify_eq; auto.
Qed.

End with_badger.

(** The database after a list of successful writes, for witnesses. *)
Definition of_list (l : list (string * bytes)) : db (Badger := mem_badger) :=
  MemDB (list_to_map l) false.

Definition empty : db (Badger := mem_badger) := MemDB ∅ false.

Lemma mem_writable (d : db (Badger := mem_badger)) : mem_full d = false -> writable d.
Proof. intros Hd k v. unfold Put. simpl. unfold mem_set. rewrite Hd. by eexists. Qed.

End store.

#[export] Hint Resolve store.Put_Ok store.Put_Err : fnshare.
