(* ===== verification/Fs.v ===== *)
(** * The file system as [os] and [path/filepath] show it

    Paths are absolute and clean, that is lists of components; the two on-disk
    components ([blockstore], [spool]) and the key and configuration files share
    this model.  The first two write a file as a temporary file in the target
    directory, then rename; the others in place. *)

From S2P Require Import Prelude.

(** ** Paths *)

Abbreviation path := (list string).

(** [strings.Split(s, "/")] *)
Fixpoint split_slash (s : string) : list string :=
  match s with
  | EmptyString => [EmptyString]
  | String c s' =>
      if bool_decide (c = "/"%char) then EmptyString :: split_slash s'
      else match split_slash s' with
           | [] => [String c EmptyString]
           | w :: ws => String c w :: ws
           end
  end.

(** One component of [filepath.Clean] on an absolute path. *)
Definition push (p : path) (c : string) : path :=
  if bool_decide (c = "") || bool_decide (c = ".") then p
  else if bool_decide (c = "..") then removelast p
  else p ++ [c].

(** [filepath.Join(base, elems...)] for an absolute, clean [base]. *)
Definition filepath_Join (base : path) (elems : list string) : path :=
  fold_left (fun p e => fold_left push (split_slash e) p) elems base.

(** [filepath.Dir] *)
Definition filepath_Dir (p : path) : path := removelast p.

(** A name that denotes itself: no separator, not a dot name, not empty. *)
Definition plain_name (s : string) : bool :=
  bool_decide (split_slash s = [s]) && negb (bool_decide (s = "")) &&
  negb (bool_decide (s = ".")) && negb (bool_decide (s = "..")).

Lemma push_plain p c : plain_name c = true -> push p c = p ++ [c].
Proof.
  unfold plain_name, push. intros ?. go_bool. by rewrite !bool_decide_eq_false_2.
Qed.

Lemma push_dotdot p : push p ".." = removelast p.
Proof. reflexivity. Qed.

Lemma Join_plain base cs :
  Forall (fun c => plain_name c = true) cs -> filepath_Join base cs = base ++ cs.
Proof.
  unfold filepath_Join. intros Hc. revert base.
  induction Hc as [|c cs Hc _ IH]; intros base; simpl; [by rewrite app_nil_r|].
  assert (split_slash c = [c]) as -> by (unfold plain_name in Hc; by go_bool).
  simpl. rewrite push_plain, IH by done. by rewrite <- app_assoc.
Qed.

(** ** Files *)

Inductive node := Dir | File (b : bytes).

Abbreviation fs := (gmap (list string) node).

Definition file_at (f : fs) (p : path) : option bytes :=
  match f !! p with
  | Some (File b) => Some b
  | _ => None
  end.

(** [os.ReadFile] *)
Definition ReadFile (f : fs) (p : path) : outcome bytes :=
  match f !! p with
  | Some (File b) => Ok b
  | Some Dir => Err (ErrMsg "is a directory")
  | None => Err ErrNotExist
  end.

(** [os.Remove]: a file, or a directory with nothing in it. *)
Definition has_children (f : fs) (p : path) : bool :=
  existsb (fun q => bool_decide (q <> [] /\ removelast q = p)) (map_to_list f).*1.

Definition Remove (f : fs) (p : path) : fs * outcome unit :=
  match f !! p with
  | Some (File _) => (delete p f, Ok tt)
  | Some Dir => if has_children f p then (f, Err (ErrMsg "directory not empty"))
                else (delete p f, Ok tt)
  | None => (f, Err ErrNotExist)
  end.

(** [os.MkdirAll] *)
Fixpoint mkdirs (f : fs) (done todo : path) : fs * outcome unit :=
  match todo with
  | [] => (f, Ok tt)
  | c :: todo' =>
      let p := done ++ [c] in
      match f !! p with
      | Some (File _) => (f, Err (ErrMsg "not a directory"))
      | Some Dir => mkdirs f p todo'
      | None => mkdirs (<[p := Dir]> f) p todo'
      end
  end.

Definition MkdirAll (f : fs) (p : path) : fs * outcome unit := mkdirs f [] p.

(** [os.ReadDir]: the names in a directory, sorted. *)
Definition child_name (dir q : path) : option string :=
  if bool_decide (q <> [] /\ removelast q = dir) then last q else None.

Definition ReadDir (f : fs) (dir : path) : outcome (list string) :=
  match f !! dir with
  | Some Dir => Ok (merge_sort str_le (omap (child_name dir) (map_to_list f).*1))
  | Some (File _) => Err (ErrMsg "not a directory")
  | None => Err ErrNotExist
  end.

(** ** Writing a file

    [wio] is what the operating system does during one write: at which call it
    fails, and the random part of the temporary name. *)
Record wio := WIO {
  io_mkdir : option goerr;
  io_create : option goerr;
  io_write : option goerr;
  io_close : option goerr;
  io_rename : option goerr;
  io_rand : string
}.

Definition io_fine (r : string) : wio := WIO None None None None None r.

Definition tmp_prefix : string := ".tmp-".
Definition tmp_name (io : wio) : string := tmp_prefix +:+ io_rand io.

(** [os.Rename] of a file with contents [b]: the target's directory must exist,
    and the target not be a directory. *)
Definition is_dir (f : fs) (p : path) : bool :=
  match p, f !! p with
  | [], _ | _, Some Dir => true
  | _, _ => false
  end.

Definition rename (f : fs) (src dst : path) (b : bytes) : fs * outcome unit :=
  match f !! dst with
  | Some Dir => (f, Err (ErrMsg "file exists"))
  | _ => if is_dir f (filepath_Dir dst) then (<[dst := File b]> (delete src f), Ok tt)
         else (f, Err ErrNotExist)
  end.

(** [MkdirAll; CreateTemp; Write; Close; Rename], with the clean-up of each
    error branch: the temporary file is made in [dir] and renamed to [dst]. *)
Definition write_rename_to (io : wio) (f : fs) (dir dst : path) (data : bytes) : fs * outcome unit :=
  match io_mkdir io with
  | Some e => (f, Err e)
  | None =>
  let '(f1, r1) := MkdirAll f dir in
  match r1 with
  | Err e => (f1, Err e)
  | Panic => (f1, Panic)
  | Ok _ =>
  let tmp := dir ++ [tmp_name io] in
  match io_create io, f1 !! tmp with
  | Some e, _ => (f1, Err e)
  | None, Some _ => (f1, Err (ErrMsg "file exists"))
  | None, None =>
  let f2 := <[tmp := File []]> f1 in
  match io_write io with
  | Some e => (delete tmp f2, Err e)
  | None =>
  let f3 := <[tmp := File data]> f2 in
  match io_close io with
  | Some e => (delete tmp f3, Err e)
  | None =>
  match io_rename io with
  | Some e => (f3, Err e)
  | None => rename f3 tmp dst data
  end
  end
  end
  end
  end
  end.

Definition write_rename (io : wio) (f : fs) (dir : path) (name : string) (data : bytes) : fs * outcome unit :=
  write_rename_to io f dir (dir ++ [name]) data.

(** ** Writing in place

    [os.WriteFile] truncates or creates the file, then writes: it can fail
    before it touches the file, or after some of the bytes. *)
Inductive wfault := WFine | WOpen (e : goerr) | WShort (n : nat) (e : goerr).

Definition WriteFile (x : wfault) (f : fs) (p : path) (data : bytes) : fs * outcome unit :=
  match x with
  | WOpen e => (f, Err e)
  | _ =>
      if negb (is_dir f (filepath_Dir p)) then (f, Err ErrNotExist)
      else match f !! p with
           | Some Dir => (f, Err (ErrMsg "is a directory"))
           | _ => match x with
                  | WShort n e => (<[p := File (take n data)]> f, Err e)
                  | _ => (<[p := File data]> f, Ok tt)
                  end
           end
  end.

(** [os.Stat] reports [os.ErrNotExist]. *)
Definition missing (f : fs) (p : path) : bool := match f !! p with None => true | Some _ => false end.

(** A path given as text, from the working directory. *)
Definition path_from (cwd : path) (s : string) : path :=
  if has_prefix "/" s then filepath_Join [] [s] else filepath_Join cwd [s].

Lemma WriteFile_Ok x f p data f' : WriteFile x f p data = (f', Ok tt) -> f' = <[p := File data]> f.
Proof.
  unfold WriteFile. destruct x; try done; destruct (negb _); try done; destruct (f !! p) as [[]|]; try done;
    by intros [= <-].
Qed.

Lemma WriteFile_other x f p data f' r q : WriteFile x f p data = (f', r) -> q <> p -> f' !! q = f !! q.
Proof.
  unfold WriteFile. destruct x; intros E Hq; repeat case_match; simplify_eq; try done; by rewrite lookup_insert_ne.
Qed.

Lemma WriteFile_no_panic x f p data f' : WriteFile x f p data <> (f', Panic).
Proof. unfold WriteFile. destruct x; repeat case_match; congruence. Qed.

(** ** Lemmas *)

Lemma file_at_insert_dir (f : fs) p q : f !! p = None -> file_at (<[p := Dir]> f) q = file_at f q.
Proof.
  intros Hp. unfold file_at. destruct (decide (p = q)) as [->|]; [|by rewrite lookup_insert_ne].
  by rewrite lookup_insert_eq, Hp.
Qed.

Lemma mkdirs_files todo : forall f done f' r q,
  mkdirs f done todo = (f', r) -> file_at f' q = file_at f q /\ r <> Panic.
Proof.
  induction todo as [|c todo IH]; intros f done f' r q; simpl; [intros [= <- <-]; auto|].
  destruct (f !! (done ++ [c])) as [[]|] eqn:E; [eauto|by intros [= <- <-]|].
  intros [-> ?]%(IH _ _ _ _ q). split; [by apply file_at_insert_dir|done].
Qed.

Lemma file_at_insert_file (f : fs) p b q :
  file_at (<[p := File b]> f) q = if decide (p = q) then Some b else file_at f q.
Proof.
  unfold file_at. case_decide as E; [subst; by rewrite lookup_insert_eq|by rewrite lookup_insert_ne].
Qed.

Lemma file_at_delete (f : fs) p q :
  file_at (delete p f) q = if decide (p = q) then None else file_at f q.
Proof.
  unfold file_at. case_decide as E; [subst; by rewrite lookup_delete_eq|by rewrite lookup_delete_ne].
Qed.

Lemma ReadFile_file_at f p b : ReadFile f p = Ok b <-> file_at f p = Some b.
Proof. unfold ReadFile, file_at. destruct (f !! p) as [[]|]; split; intros; by simplify_eq. Qed.

(** What a write leaves behind: on success exactly the target file changed; on
    failure no file changed, but for the temporary one. *)
Lemma write_rename_spec io f dir name data f' r :
  has_prefix tmp_prefix name = false ->
  write_rename io f dir name data = (f', r) ->
  match r with
  | Ok _ => forall q, file_at f' q = if decide (dir ++ [name] = q) then Some data else file_at f q
  | Err _ => forall q, q <> dir ++ [tmp_name io] -> file_at f' q = file_at f q
  | Panic => False
  end.
Proof.
  intros Hname. unfold write_rename, write_rename_to.
  destruct (io_mkdir io); [by intros [= <- <-]|].
  destruct (MkdirAll f dir) as [f1 r1] eqn:E1. unfold MkdirAll in E1.
  assert (H1 : forall q, file_at f1 q = file_at f q) by (intros q; by eapply mkdirs_files in E1 as [? ?]).
  destruct (mkdirs_files _ _ _ _ _ [] E1) as [_ Hp].
  destruct r1; [|by intros [= <- <-]|done].
  set (tmp := dir ++ [tmp_name io]). set (dst := dir ++ [name]).
  assert (Hne : tmp <> dst).
  { unfold tmp, dst. intros [_ [= E]]%app_inj_2; [|done].
    rewrite <- E in Hname. unfold tmp_name in Hname. by rewrite has_prefix_app in Hname. }
  destruct (io_create io); [by intros [= <- <-]|].
  destruct (f1 !! tmp) as [?|] eqn:Et; [by intros [= <- <-]|].
  assert (Ht : file_at f1 tmp = None) by (unfold file_at; by rewrite Et).
  destruct (io_write io); [|destruct (io_close io); [|destruct (io_rename io)]].
  1-3: intros [= <- <-] q Hq; rewrite ?file_at_delete, ?file_at_insert_file, !decide_False by congruence;
    apply H1.
  unfold rename. set (f3 := <[tmp:=File data]> (<[tmp:=File []]> f1)).
  assert (H3 : forall q, q <> tmp -> file_at f3 q = file_at f q).
  { intros q Hq. unfold f3. rewrite !file_at_insert_file, !decide_False by congruence. apply H1. }
  destruct (f3 !! dst) as [[]|] eqn:Ed; [intros [= <- <-]; auto|..];
    (destruct (is_dir f3 (filepath_Dir dst)); [|intros [= <- <-]; auto]);
    intros [= <- <-] q; rewrite file_at_insert_file; case_decide as Eq; try done;
    rewrite file_at_delete; case_decide as Eq'; subst; auto; by rewrite <- H1.
Qed.

(** Nothing changes but the directory, those above it and the names in it. *)
Lemma mkdirs_lookup todo : forall f done f' r q,
  mkdirs f done todo = (f', r) -> (forall t, t `prefix_of` todo -> q <> done ++ t) -> f' !! q = f !! q.
Proof.
  induction todo as [|c todo IH]; intros f done f' r q; simpl; [by intros [= <- <-]|]. intros E Hq.
  assert (Hq' : forall t, t `prefix_of` todo -> q <> (done ++ [c]) ++ t).
  { intros t Ht. rewrite <- app_assoc. apply Hq. by apply prefix_cons. }
  destruct (f !! (done ++ [c])) as [[]|]; [by eapply IH|by injection E as <- <-|].
  rewrite (IH _ _ _ _ _ E Hq'), lookup_insert_ne; [done|]. intros <-. apply (Hq [c]); [|done].
  apply prefix_cons, prefix_nil.
Qed.

Lemma write_rename_lookup io f dir name data f' r q :
  write_rename io f dir name data = (f', r) -> ~ q `prefix_of` dir -> (forall c, q <> dir ++ [c]) -> f' !! q = f !! q.
Proof.
  intros HW Hpre Hc. unfold write_rename, write_rename_to in HW. destruct (io_mkdir io); [by injection HW as <- <-|].
  destruct (MkdirAll f dir) as [f1 r1] eqn:E1. unfold MkdirAll in E1.
  assert (H1 : f1 !! q = f !! q) by (eapply mkdirs_lookup; [exact E1|]; intros t Ht ->; by apply Hpre). rewrite <- H1.
  assert (Hne : forall c, dir ++ [c] <> q) by (intros c E; by apply (Hc c)).
  unfold rename in HW. repeat case_match; simplify_eq; try done;
    by rewrite ?lookup_insert_ne, ?lookup_delete_ne, ?lookup_insert_ne by done.
Qed.

(** Every path there is afterwards was there before, or lies on the way to the
    file. *)
Lemma mkdirs_keys todo : forall f done f' r q,
  mkdirs f done todo = (f', r) -> is_Some (f' !! q) -> is_Some (f !! q) \/ q `prefix_of` done ++ todo.
Proof.
  induction todo as [|c todo IH]; intros f done f' r q; simpl; [intros [= <- <-]; auto|]. intros E Hq.
  assert (Ha : done ++ c :: todo = (done ++ [c]) ++ todo) by (by rewrite <- app_assoc). rewrite Ha.
  destruct (f !! (done ++ [c])) as [[]|]; [by eapply IH|injection E as <- <-; auto|].
  destruct (IH _ _ _ _ _ E Hq) as [H1|H1]; [|auto]. destruct (decide (q = done ++ [c])) as [->|Hne].
  - right. by apply prefix_app_r.
  - left. by rewrite lookup_insert_ne in H1.
Qed.

Lemma write_rename_keys io f dir name data f' r q :
  write_rename io f dir name data = (f', r) -> is_Some (f' !! q) ->
  is_Some (f !! q) \/ q `prefix_of` dir \/ q = dir ++ [tmp_name io] \/ q = dir ++ [name].
Proof.
  intros HW Hq. destruct (decide (q = dir ++ [tmp_name io])) as [|N1]; [auto|].
  destruct (decide (q = dir ++ [name])) as [|N2]; [auto|].
  unfold write_rename, write_rename_to in HW. destruct (io_mkdir io); [injection HW as <- <-; auto|].
  destruct (MkdirAll f dir) as [f1 r1] eqn:E1. unfold MkdirAll in E1.
  assert (H1 : is_Some (f1 !! q)).
  { unfold rename in HW. repeat case_match; simplify_eq; try done;
      rewrite ?lookup_insert_ne, ?lookup_delete_ne, ?lookup_insert_ne in Hq by done; done. }
  destruct (mkdirs_keys _ _ _ _ _ _ E1 H1); auto.
Qed.

(** Without a failing call the write succeeds, unless a path element is in the
    way. *)
Lemma mkdirs_ok todo : forall f done,
  (forall q, q `prefix_of` done ++ todo -> file_at f q = None) ->
  exists f', mkdirs f done todo = (f', Ok tt).
Proof.
  induction todo as [|c todo IH]; intros f done Hd; simpl; [eauto|].
  assert (Ho : file_at f (done ++ [c]) = None).
  { apply Hd. exists todo. by rewrite <- app_assoc. }
  unfold file_at in Ho. destruct (f !! (done ++ [c])) as [[]|] eqn:E; try done.
  - apply IH. intros q Hq. apply Hd. by rewrite <- app_assoc in Hq.
  - apply IH. intros q Hq. rewrite file_at_insert_dir by done. apply Hd.
    by rewrite <- app_assoc in Hq.
Qed.

Lemma mkdirs_dir todo : forall f dn f',
  mkdirs f dn todo = (f', Ok tt) -> todo <> [] -> f' !! (dn ++ todo) = Some Dir.
Proof.
  induction todo as [|c todo IH]; intros f dn f' E Hne; [done|]. simpl in E.
  assert (Ha : dn ++ c :: todo = (dn ++ [c]) ++ todo) by (by rewrite <- app_assoc). rewrite Ha.
  destruct todo as [|c' todo].
  - rewrite app_nil_r. destruct (f !! (dn ++ [c])) as [[]|] eqn:Ed; simpl in E; [by injection E as <-|done|].
    injection E as <-. by rewrite lookup_insert_eq.
  - by destruct (f !! (dn ++ [c])) as [[]|]; [eapply IH|done|eapply IH].
Qed.

Lemma not_prefix_child (dir : path) c : ~ dir ++ [c] `prefix_of` dir.
Proof. intros Hp%prefix_length. rewrite length_app in Hp. simpl in Hp. lia. Qed.

Lemma write_rename_succeeds r f dir name data :
  dir <> [] -> (forall q, q `prefix_of` dir -> file_at f q = None) -> f !! (dir ++ [name]) <> Some Dir ->
  f !! (dir ++ [tmp_name (io_fine r)]) = None -> has_prefix tmp_prefix name = false ->
  exists f1, mkdirs f [] dir = (f1, Ok tt) /\
    write_rename (io_fine r) f dir name data = (<[dir ++ [name] := File data]> f1, Ok tt).
Proof.
  intros Hne Hdir Hdst Htmp Hname. destruct (mkdirs_ok dir f []) as [f1 E]; [done|]. exists f1. split; [done|].
  assert (HL : forall c, f1 !! (dir ++ [c]) = f !! (dir ++ [c])).
  { intros c. eapply mkdirs_lookup; [exact E|]. intros t Ht Et. apply (not_prefix_child dir c). by rewrite Et. }
  assert (Hnt : dir ++ [tmp_name (io_fine r)] <> dir ++ [name]).
  { intros Et%app_inv_head. injection Et as <-. unfold tmp_name in Hname. by rewrite has_prefix_app in Hname. }
  assert (Hnd : dir ++ [tmp_name (io_fine r)] <> dir) by (intros Et; by apply (not_prefix_child dir (tmp_name (io_fine r))); rewrite Et).
  unfold write_rename, write_rename_to, io_fine, MkdirAll. cbn [io_mkdir io_create io_write io_close io_rename]. fold (io_fine r).
  rewrite E, HL, Htmp, insert_insert_eq. unfold rename. rewrite lookup_insert_ne, HL by done.
  assert (is_dir (<[dir ++ [tmp_name (io_fine r)]:=File data]> f1) (filepath_Dir (dir ++ [name])) = true) as ->.
  { unfold filepath_Dir. rewrite removelast_last. pose proof (mkdirs_dir _ _ _ _ E Hne) as Hd. simpl in Hd.
    unfold is_dir. destruct dir as [|c dir]; [done|]. by rewrite lookup_insert_ne, Hd. }
  rewrite delete_insert_id by (by rewrite HL). by destruct (f !! (dir ++ [name])) as [[]|].
Qed.

(** ** Interrupted writes

    The same sequence as single system calls, so that a crash can fall between
    any two of them, or in the middle of [Write]. *)
Inductive wphase := PMkdir | PCreate | PWrite (n : nat) | PRename | PEnd.

Section crash.
Context (dir : path) (tmp : string) (name : string) (data : bytes).

Inductive wstep : wphase * fs -> wphase * fs -> Prop :=
  | ws_mkdir f f' : MkdirAll f dir = (f', Ok tt) -> wstep (PMkdir, f) (PCreate, f')
  | ws_mkdir_fail f f' e : MkdirAll f dir = (f', Err e) -> wstep (PMkdir, f) (PEnd, f')
  | ws_create f :
      f !! (dir ++ [tmp]) = None ->
      wstep (PCreate, f) (PWrite 0, <[dir ++ [tmp] := File []]> f)
  | ws_create_fail f : wstep (PCreate, f) (PEnd, f)
  | ws_write f n n' :
      wstep (PWrite n, f) (PWrite n', <[dir ++ [tmp] := File (take n' data)]> f)
  | ws_write_fail f n : wstep (PWrite n, f) (PEnd, delete (dir ++ [tmp]) f)
  | ws_close f : wstep (PWrite (length data), f) (PRename, f)
  | ws_rename f f' r : rename f (dir ++ [tmp]) (dir ++ [name]) data = (f', r) ->
      wstep (PRename, f) (PEnd, f')
  | ws_rename_fail f : wstep (PRename, f) (PEnd, f).

(** Files other than the temporary one are as before, except that the target
    may already hold the whole new contents. *)
Definition old_or_new (f0 f : fs) : Prop :=
  forall q, q <> dir ++ [tmp] ->
    file_at f q = file_at f0 q \/ (q = dir ++ [name] /\ file_at f q = Some data).

Lemma wstep_old_or_new f0 st st' :
  wstep st st' -> old_or_new f0 st.2 -> old_or_new f0 st'.2.
Proof.
  intros Hst Ho q Hq. specialize (Ho q Hq).
  destruct Hst as [f f' E|f f' e E| | | | | |f f' r E| ]; simpl in *; try done;
    try (by rewrite ?file_at_delete, ?file_at_insert_file, decide_False by congruence).
  - by destruct (mkdirs_files _ _ _ _ _ q E) as [-> _].
  - by destruct (mkdirs_files _ _ _ _ _ q E) as [-> _].
  - unfold rename in E. destruct (f !! (dir ++ [name])) as [[]|]; simplify_eq; try done;
      (destruct (is_dir _ _); simplify_eq; [|done]);
      rewrite file_at_insert_file; case_decide; subst; auto;
      by rewrite file_at_delete, decide_False by congruence.
Qed.

Lemma wsteps_old_or_new f0 st : rtc wstep (PMkdir, f0) st -> old_or_new f0 st.2.
Proof.
  intros Hst. remember (PMkdir, f0) as st0 eqn:E0.
  assert (Ho : old_or_new f0 st0.2) by (subst; intros q _; by left).
  clear E0. induction Hst; eauto using wstep_old_or_new.
Qed.

End crash.

(** Every completed [write_rename] is a run of these steps. *)
Lemma write_rename_steps io f dir name data f' r :
  write_rename io f dir name data = (f', r) -> r <> Panic ->
  exists ph, rtc (wstep dir (tmp_name io) name data) (PMkdir, f) (ph, f').
Proof.
  unfold write_rename, write_rename_to. destruct (io_mkdir io); [intros [= <- <-]; eauto using rtc_refl|].
  destruct (MkdirAll f dir) as [f1 [[]|e|]] eqn:E1.
  2: intros [= <- <-] _; eexists; eapply rtc_once, ws_mkdir_fail; eauto.
  2: by intros [= <- <-].
  assert (R1 : rtc (wstep dir (tmp_name io) name data) (PMkdir, f) (PCreate, f1))
    by (eapply rtc_once, ws_mkdir; eauto).
  destruct (io_create io); [intros [= <- <-]; eauto|].
  destruct (f1 !! _) eqn:E2; [intros [= <- <-]; eauto|].
  assert (R2 := rtc_r _ _ _ R1 (ws_create dir (tmp_name io) name data f1 E2)).
  destruct (io_write io).
  { intros [= <- <-] _. eexists. eapply rtc_r; [exact R2|apply ws_write_fail]. }
  assert (R3 := rtc_r _ _ _ R2 (ws_write dir (tmp_name io) name data _ 0 (length data))).
  rewrite firstn_all in R3. destruct (io_close io).
  { intros [= <- <-] _. eexists. eapply rtc_r; [exact R3|apply ws_write_fail]. }
  assert (R4 := rtc_r _ _ _ R3 (ws_close dir (tmp_name io) name data _)).
  destruct (io_rename io); [intros [= <- <-]; eauto|].
  intros E _. eexists. eapply rtc_r; [exact R4|eapply ws_rename; eauto].
Qed.

(** ** Hexadecimal names are plain *)

Definition hex_char (c : ascii) : bool :=
  let n := Ascii.N_of_ascii c in ((48 <=? n) && (n <=? 57) || (97 <=? n) && (n <=? 102))%N.

Fixpoint hex_string (s : string) : bool :=
  match s with
  | EmptyString => true
  | String c s' => hex_char c && hex_string s'
  end.

Lemma hex_digit_char n : 0 <= n < 16 -> hex_char (hex_digit n) = true.
Proof.
  intros Hn. unfold hex_char, hex_digit.
  rewrite Ascii.N_ascii_embedding by (destruct (n <? 10); lia).
  destruct (Z.ltb_spec n 10); [rewrite orb_true_iff; left|rewrite orb_true_iff; right];
    rewrite andb_true_iff, !N.leb_le; lia.
Qed.

Lemma hex_encode_string b : hex_string (hex_encode b) = true.
Proof.
  induction b as [|x b IH]; [done|]. simpl. pose proof (byteZ_bound x).
  rewrite !hex_digit_char, IH; auto.
  - apply Z.mod_pos_bound. lia.
  - split; [apply Z.div_pos; lia|apply Z.div_lt_upper_bound; lia].
Qed.

Lemma hex_split s : hex_string s = true -> split_slash s = [s].
Proof.
  induction s as [|c s IH]; [done|]. simpl. intros [Hc Hs]%andb_prop.
  case_bool_decide as E; [subst; done|]. by rewrite IH.
Qed.

Lemma hex_plain s : hex_string s = true -> s <> "" -> plain_name s = true.
Proof.
  intros Hs Hne. unfold plain_name.
  rewrite bool_decide_eq_true_2 by by apply hex_split.
  rewrite !bool_decide_eq_false_2; [done|..]; by intros ->.
Qed.

Lemma hex_not_tmp s : hex_string s = true -> has_prefix tmp_prefix s = false.
Proof.
  destruct s as [|c s]; [done|]. simpl. intros [Hc _]%andb_prop.
  case_bool_decide as E; [by subst|done].
Qed.

Lemma hex_substring s n m : hex_string s = true -> hex_string (String.substring n m s) = true.
Proof.
  revert n m. induction s as [|c s IH]; intros [|n] [|m]; simpl; try done;
    intros [Hc Hs]%andb_prop; [by rewrite Hc, IH|auto..].
Qed.
