(* ===== verification/Blockstore.v ===== *)
(** * internal/blockstore/blockstore.go: shards on the local file system *)

From S2P Require Import Prelude Ext Concrete Fs.

Module blockstore.

Section with_sha256.
Context `{Sha256}.
Implicit Types (f : fs) (shardID : string) (data : bytes) (io : wio).

(** [type Store struct { root string }] *)
Record Store := NewStore { root : path }.

Definition Open f (dataDir : path) : fs * outcome Store :=
  let root := filepath_Join dataDir ["blocks"] in
  match MkdirAll f root with
  | (f', Err e) => (f', Err e)
  | (f', Panic) => (f', Panic)
  | (f', Ok _) => (f', Ok (NewStore root))
  end.

(** [func (s *Store) path] *)
Definition path_of (s : Store) shardID : path :=
  if Z.of_nat (String.length shardID) <? 2 then filepath_Join (root s) [shardID]
  else filepath_Join (root s) [String.substring 0 2 shardID; shardID].

Definition HashOf data : string := hex_encode (Sum256 data).

Definition verifyHash (expectedHex : string) data : bool :=
  bool_decide (HashOf data = expectedHex).

(** A stream is the bytes it yields and the error [io.Copy] ends with. *)
Definition HashStream (r : bytes * option goerr) : outcome (string * Z) :=
  match r.2 with
  | Some e => Err e
  | None => Ok (hex_encode (Sum256 r.1), zlen r.1)
  end.

Definition Put io f (s : Store) shardID data : fs * outcome unit :=
  if negb (verifyHash shardID data) then (f, Err ErrHashMismatch)
  else
    let dst := path_of s shardID in
    write_rename io f (filepath_Dir dst) (default "" (last dst)) data.

Definition Get f (s : Store) shardID : outcome bytes :=
  match ReadFile f (path_of s shardID) with
  | Err e => if errors_Is e ErrNotExist then Err ErrShardNotFound else Err e
  | out => out
  end.

Definition Has f (s : Store) shardID : bool :=
  match f !! path_of s shardID with Some _ => true | None => false end.

Definition Delete f (s : Store) shardID : fs * outcome unit :=
  match Remove f (path_of s shardID) with
  | (f', Err e) => if errors_Is e ErrNotExist then (f', Ok tt) else (f', Err e)
  | out => out
  end.

(** ** Shard identifiers *)

(** The identifiers the program generates: 32 bytes in hexadecimal. *)
Definition shard_id shardID : Prop := exists h, length h = 32%nat /\ shardID = hex_encode h.

Lemma HashOf_shard_id data : shard_id (HashOf data).
Proof. exists (Sum256 data). split; [apply Sum256_length|done]. Qed.

Lemma shard_id_hex id : shard_id id -> hex_string id = true /\ String.length id = 64%nat.
Proof.
  intros (h & Hl & ->). split; [apply hex_encode_string|]. rewrite length_hex_encode. lia.
Qed.

Lemma shard_path s id :
  shard_id id -> path_of s id = root s ++ [String.substring 0 2 id; id].
Proof.
  intros [Hh Hl]%shard_id_hex. unfold path_of. rewrite Hl.
  change (Z.of_nat 64 <? 2) with false. cbv iota.
  destruct id as [|a [|b id]]; try done. apply Join_plain.
  repeat constructor; apply hex_plain; auto using hex_substring.
Qed.

Lemma shard_path_dir s id :
  shard_id id ->
  filepath_Dir (path_of s id) = root s ++ [String.substring 0 2 id] /\
  default "" (last (path_of s id)) = id.
Proof.
  intros Hid. rewrite shard_path by done. unfold filepath_Dir. split.
  - rewrite removelast_app by done. done.
  - rewrite last_app. done.
Qed.

Lemma shard_path_inj s id id' :
  shard_id id -> shard_id id' -> path_of s id = path_of s id' -> id = id'.
Proof.
  intros ? ? E. rewrite !shard_path in E by done.
  apply app_inv_head in E. by injection E.
Qed.

(** No shard lives at the path of a temporary file. *)
Lemma shard_path_not_tmp s id id' io :
  shard_id id -> shard_id id' -> path_of s id <> filepath_Dir (path_of s id') ++ [tmp_name io].
Proof.
  intros Hid Hid' E. destruct (shard_path_dir s id' Hid') as [Hd _].
  rewrite Hd, shard_path in E by done. rewrite <- app_assoc in E. apply app_inv_head in E.
  injection E as _ E. apply shard_id_hex in Hid as [Hh _].
  apply hex_not_tmp in Hh. rewrite E in Hh. unfold tmp_name in Hh. by rewrite has_prefix_app in Hh.
Qed.

Lemma Get_file_at f s id data : Get f s id = Ok data <-> file_at f (path_of s id) = Some data.
Proof.
  rewrite <- ReadFile_file_at. unfold Get.
  destruct (ReadFile f (path_of s id)) as [b|e|]; try done.
  split; [intros ?; by go_case|done].
Qed.

(** ** The operations *)

Lemma Put_spec io f s id data f' r :
  Put io f s id data = (f', r) ->
  match r with
  | Ok _ => HashOf data = id /\
      forall q, file_at f' q = if decide (path_of s id = q) then Some data else file_at f q
  | Err _ => forall id', shard_id id' -> file_at f' (path_of s id') = file_at f (path_of s id')
  | Panic => False
  end.
Proof.
  unfold Put, verifyHash. case_bool_decide as Hh; simpl; [|by intros [= <- <-]].
  assert (Hid : shard_id id) by (subst; apply HashOf_shard_id).
  destruct (shard_path_dir s id Hid) as [Hdir Hlast]. rewrite Hlast.
  intros Hw. apply write_rename_spec in Hw; [|by apply hex_not_tmp, shard_id_hex].
  assert (Hp : filepath_Dir (path_of s id) ++ [id] = path_of s id).
  { rewrite Hdir, (shard_path s id Hid). by rewrite <- app_assoc. }
  rewrite Hp in Hw. destruct r; [done| |done].
  intros id' Hid'. apply Hw. by apply shard_path_not_tmp.
Qed.

(** Whatever becomes of the shard, files outside the store's directory stay. *)
Lemma Put_outside io f s id data f' r q :
  Put io f s id data = (f', r) -> (forall t, q <> root s ++ t) -> file_at f' q = file_at f q.
Proof.
  unfold Put, verifyHash. case_bool_decide as Hh; simpl; [|by intros [= <- <-]].
  assert (Hid : shard_id id) by (subst; apply HashOf_shard_id).
  destruct (shard_path_dir s id Hid) as [Hdir Hlast]. rewrite Hlast, Hdir.
  intros Hw Hq. apply write_rename_spec in Hw; [|by apply hex_not_tmp, shard_id_hex].
  destruct r; [rewrite Hw, decide_False; [done|]|apply Hw|done]; rewrite <- app_assoc; [intros <-|intros ->]; by eapply Hq.
Qed.

(** The paths of a store: its directory, two characters, the identifier or a
    temporary name. *)
Lemma Put_keys io f s id data f' r q :
  Put io f s id data = (f', r) -> is_Some (f' !! q) ->
  is_Some (f !! q) \/ exists a, plain_name a = true /\
    (q `prefix_of` root s ++ [a] \/ q = root s ++ [a; tmp_name io] \/ exists i, plain_name i = true /\ q = root s ++ [a; i]).
Proof.
  unfold Put, verifyHash. case_bool_decide as Hh; simpl; [|intros [= <- <-]; auto].
  assert (Hid : shard_id id) by (subst; apply HashOf_shard_id). pose proof (shard_id_hex id Hid) as [Hx Hl].
  destruct (shard_path_dir s id Hid) as [Hdir Hlast]. rewrite Hlast, Hdir.
  intros Hw Hq. apply (write_rename_keys _ _ _ _ _ _ _ _ Hw) in Hq. rewrite <- !app_assoc in Hq. simpl in Hq.
  destruct Hq as [?|Hq]; [auto|]. right. exists (String.substring 0 2 id).
  destruct id as [|c1 [|c2 id]]; try done.
  assert (plain_name (String.substring 0 2 (String c1 (String c2 id))) = true)
    by (apply hex_plain; [by apply hex_substring|done]).
  split; [done|]. destruct Hq as [?|[?|?]]; [auto|auto|]. right. right. exists (String c1 (String c2 id)).
  split; [by apply hex_plain|done].
Qed.

(** A directory of shards with nothing in the way of a new one: no file where a
    directory has to be, no directory where a shard has to be, and no temporary
    file left by a crash. *)
Record roomy f (s : Store) : Prop := {
  ro_above q : q `prefix_of` root s -> file_at f q = None;
  ro_dirs c : file_at f (root s ++ [c]) = None;
  ro_shards c x : f !! (root s ++ [c; x]) <> Some Dir;
  ro_tmp c r : f !! (root s ++ [c; tmp_name (io_fine r)]) = None
}.

Lemma prefix_snoc (q d : path) c : q `prefix_of` d ++ [c] -> q `prefix_of` d \/ q = d ++ [c].
Proof.
  intros [k E]. destruct k as [|x k _] using rev_ind.
  - right. by rewrite app_nil_r in E.
  - left. rewrite app_assoc in E. apply app_inj_tail in E as [-> _]. by exists k.
Qed.

(** On a disk whose calls do not fail, such a directory takes every shard, and
    stays so. *)
Lemma Put_takes r f s data :
  roomy f s -> exists f', Put (io_fine r) f s (HashOf data) data = (f', Ok tt) /\ roomy f' s.
Proof.
  intros [R1 R2 R3 R4]. pose proof (HashOf_shard_id data) as Hid. destruct (shard_path_dir s _ Hid) as [Hdir Hlast].
  unfold Put, verifyHash. rewrite bool_decide_eq_true_2 by done. cbn [negb]. rewrite Hlast, Hdir.
  set (c := String.substring 0 2 (HashOf data)). set (name := HashOf data) in *.
  assert (Hs : forall c' x, (root s ++ [c']) ++ [x] = root s ++ [c'; x]) by (intros; by rewrite <- app_assoc).
  assert (Hn : has_prefix tmp_prefix name = false) by (by apply hex_not_tmp, shard_id_hex).
  destruct (write_rename_succeeds r f (root s ++ [c]) name data) as (f1 & E1 & E);
    [by destruct (root s)| |by rewrite Hs|by rewrite Hs|done|].
  { intros q [?| ->]%prefix_snoc; auto. }
  rewrite E. eexists. split; [done|]. rewrite Hs.
  assert (HF : forall q, file_at f1 q = file_at f q) by (intros q; by eapply mkdirs_files).
  assert (HL : forall c' x, f1 !! (root s ++ [c'; x]) = f !! (root s ++ [c'; x])).
  { intros c' x. eapply mkdirs_lookup; [exact E1|]. simpl. intros t Ht%prefix_length Et. apply (f_equal length) in Et.
    rewrite !length_app in *. simpl in *. lia. }
  split.
  - intros q Hq. rewrite file_at_insert_file, decide_False, HF; [auto|]. intros <-. apply prefix_length in Hq.
    rewrite length_app in Hq. simpl in Hq. lia.
  - intros c'. rewrite file_at_insert_file, decide_False, HF; [auto|]. intros Eq. apply (f_equal length) in Eq.
    rewrite !length_app in Eq. simpl in Eq. lia.
  - intros c' x. destruct (decide (root s ++ [c; name] = root s ++ [c'; x])) as [<-|Hne]; [by rewrite lookup_insert_eq|].
    by rewrite lookup_insert_ne, HL.
  - intros c' r'. rewrite lookup_insert_ne, HL; [done|]. intros Eq%app_inv_head. injection Eq as _ Eq.
    rewrite Eq in Hn. unfold tmp_name in Hn. by rewrite has_prefix_app in Hn.
Qed.

Lemma Put_roomy r f s id data f' o : roomy f s -> Put (io_fine r) f s id data = (f', o) -> roomy f' s.
Proof.
  intros Hr HP. destruct (decide (HashOf data = id)) as [<-|Hne].
  - destruct (Put_takes r f s data Hr) as (f1 & E & Hr'). rewrite E in HP. by injection HP as <- _.
  - unfold Put, verifyHash in HP. rewrite bool_decide_eq_false_2 in HP by done. by injection HP as <- _.
Qed.


(** Content addressing: what is stored under a shard identifier hashes to it. *)
Definition sound f (s : Store) : Prop :=
  forall id data, shard_id id -> Get f s id = Ok data -> HashOf data = id.

Lemma Put_sound io f s id data f' r : sound f s -> Put io f s id data = (f', r) -> sound f' s.
Proof.
  intros Hs Hp id' d Hid' Hg. apply Put_spec in Hp. apply Get_file_at in Hg.
  destruct r; [|rewrite Hp in Hg by done; by eapply Hs, Get_file_at|done].
  destruct Hp as [Hh Hf]. rewrite Hf in Hg. case_decide as E; [|by eapply Hs, Get_file_at].
  simplify_eq. eapply shard_path_inj; eauto using HashOf_shard_id.
Qed.

Lemma Delete_files f s id f' r q :
  Delete f s id = (f', r) -> file_at f' q = file_at f q \/ file_at f' q = None.
Proof.
  unfold Delete, Remove. intros Hd.
  destruct (f !! path_of s id) as [[]|] eqn:E; go_case; auto;
    rewrite file_at_delete; case_decide; auto.
Qed.

Lemma Delete_sound f s id f' r : sound f s -> Delete f s id = (f', r) -> sound f' s.
Proof.
  intros Hs Hd id' d Hid' Hg. apply Get_file_at in Hg.
  destruct (Delete_files _ _ _ _ _ (path_of s id') Hd) as [E|E]; rewrite E in Hg; [|done].
  by eapply Hs, Get_file_at.
Qed.

(** A run of the store: writes that complete, writes cut short by a crash,
    deletions. *)
Inductive bstep (s : Store) : fs -> fs -> Prop :=
  | bs_put io f id data f' r : Put io f s id data = (f', r) -> bstep s f f'
  | bs_crash f id data tmp ph f' :
      verifyHash id data = true ->
      rtc (wstep (filepath_Dir (path_of s id)) (tmp_prefix +:+ tmp) id data) (PMkdir, f) (ph, f') ->
      bstep s f f'
  | bs_delete f id f' r : Delete f s id = (f', r) -> bstep s f f'.

Lemma crash_sound f s id data tmp ph f' :
  verifyHash id data = true ->
  rtc (wstep (filepath_Dir (path_of s id)) (tmp_prefix +:+ tmp) id data) (PMkdir, f) (ph, f') ->
  sound f s -> sound f' s.
Proof.
  intros Hv Hst Hs id' d Hid' Hg. unfold verifyHash in Hv. go_bool.
  assert (Hid : shard_id id) by (subst; apply HashOf_shard_id).
  apply wsteps_old_or_new in Hst. simpl in Hst. apply Get_file_at in Hg.
  destruct (Hst (path_of s id')) as [E|[E1 E2]].
  - apply (shard_path_not_tmp s id' id (io_fine tmp) Hid' Hid).
  - rewrite E in Hg. by eapply Hs, Get_file_at.
  - rewrite E2 in Hg. injection Hg as <-. rewrite Hv.
    destruct (shard_path_dir s id Hid) as [Hd _]. rewrite Hd, shard_path in E1 by done.
    rewrite <- app_assoc in E1. apply app_inv_head in E1. by injection E1.
Qed.

Lemma bstep_sound s f f' : bstep s f f' -> sound f s -> sound f' s.
Proof. destruct 1; eauto using Put_sound, crash_sound, Delete_sound. Qed.

(** A shard accepted by [blockstore.Put] hashes to its identifier and is
    what [blockstore.Get] returns for it from then on; no other shard changes. *)
Theorem Put_then_Get io f s id data f' :
  Put io f s id data = (f', Ok tt) ->
  HashOf data = id /\ Get f' s id = Ok data /\
  forall id' d, shard_id id' -> id' <> id -> (Get f' s id' = Ok d <-> Get f s id' = Ok d).
Proof.
  intros [Hh Hf]%Put_spec. split; [done|]. split.
  { apply Get_file_at. rewrite Hf. by rewrite decide_True. }
  intros id' d Hid' Hne. rewrite !Get_file_at, Hf, decide_False; [done|].
  intros E%shard_path_inj; auto. subst. apply HashOf_shard_id.
Qed.

(** Content addressing survives every run of the store: after any sequence
    of writes, writes interrupted at any system call, and deletions, whatever
    [blockstore.Get] returns for a shard identifier hashes to it. *)
Theorem store_stays_sound s f f' id data :
  sound f s -> rtc (bstep s) f f' -> shard_id id -> Get f' s id = Ok data -> HashOf data = id.
Proof.
  intros Hs Hr. induction Hr; eauto using bstep_sound.
Qed.

(** [C27] [blockstore.Get] does not check its argument: an identifier with dot-dot
    components reads any file of the data directory, such as the identity key
    next to the [blocks] directory. *)
Theorem Get_escapes_root f (dataDir : path) (name : string) (secret : bytes) :
  plain_name name = true -> file_at f (dataDir ++ [name]) = Some secret ->
  Get f (NewStore (dataDir ++ ["blocks"])) ("aa/../../../" +:+ name) = Ok secret.
Proof.
  intros Hp Hf. apply Get_file_at.
  assert (Hs : split_slash ("aa/../../../" +:+ name) = ["aa"; ".."; ".."; ".."; name]).
  { assert (Hn : split_slash name = [name]) by (unfold plain_name in Hp; by go_bool).
    simpl. change ("" +:+ name) with name. by rewrite Hn. }
  replace (path_of _ _) with (dataDir ++ [name]); [done|].
  unfold path_of. destruct (Z.ltb_spec (Z.of_nat (String.length ("aa/../../../" +:+ name))) 2) as [Hl|_].
  { rewrite length_append in Hl. simpl in Hl. lia. }
  unfold filepath_Join. cbn [fold_left root].
  change (String.substring 0 2 ("aa/../../../" +:+ name)) with "aa".
  rewrite Hs. change (split_slash "aa") with ["aa"]. cbn [fold_left].
  rewrite (push_plain _ name Hp).
  rewrite !(push_plain _ "aa"), !push_dotdot by done. by rewrite !removelast_last.
Qed.

End with_sha256.

(** ** Witnesses *)

Definition demo_root : Store := NewStore ["data"; "blocks"].
Definition demo_shard : bytes := [Byte.x01; Byte.x02; Byte.x03].

Lemma Put_then_Get_witness :
  let f' := (Put (io_fine "1") ∅ demo_root (HashOf demo_shard) demo_shard).1 in
  HashOf demo_shard = HashOf demo_shard /\ Get f' demo_root (HashOf demo_shard) = Ok demo_shard /\
  forall id' d, shard_id id' -> id' <> HashOf demo_shard ->
    (Get f' demo_root id' = Ok d <-> Get ∅ demo_root id' = Ok d).
Proof.
  intros f'. apply (Put_then_Get (io_fine "1") ∅ demo_root (HashOf demo_shard) demo_shard f').
  etrans; [apply surjective_pairing|]. by f_equal.
Defined.

Lemma store_stays_sound_witness :
  HashOf demo_shard = HashOf demo_shard.
Proof.
  apply (store_stays_sound demo_root ∅ (Put (io_fine "1") ∅ demo_root (HashOf demo_shard) demo_shard).1).
  - intros id data _ Hg. apply Get_file_at in Hg. discriminate Hg.
  - apply rtc_once. eapply (bs_put _ (io_fine "1") _ (HashOf demo_shard) demo_shard _ (Ok tt)).
    etrans; [apply surjective_pairing|]. by f_equal.
  - apply HashOf_shard_id.
  - vm_compute. reflexivity.
Defined.

Lemma Get_escapes_root_witness :
  Get (<[["data"; "node.key"] := File demo_shard]> ∅) demo_root "aa/../../../node.key" = Ok demo_shard.
Proof.
  apply (Get_escapes_root _ ["data"] "node.key" demo_shard); vm_compute; reflexivity.
Defined.

End blockstore.
