(* ===== verification/Crypto.v ===== *)
(** * internal/crypto/crypto.go: file keys, AES-GCM envelopes, anonymous boxes *)

From S2P Require Import Prelude Ext Concrete.

(** [crypto/rand.Reader] is a supply of random bytes, passed along explicitly;
    a read fails when the supply cannot serve it. *)
Definition rand_Read (rng : bytes) (n : nat) : bytes * outcome bytes :=
  if decide (n <= length rng)%nat then (drop n rng, Ok (take n rng))
  else (rng, Err (ErrMsg "rand: short read")).

Lemma rand_Read_Ok rng n rng' b :
  rand_Read rng n = (rng', Ok b) -> length b = n /\ rng = b ++ rng'.
Proof.
  unfold rand_Read. case_decide; intros [= <- <-]. rewrite length_take, take_drop. split; [lia|done].
Qed.

Module crypto.

Definition FileKeySize : nat := 32.
Definition EncPubSize : nat := 32.
Definition EncPrivSize : nat := 32.
Definition gcmNonceSize : nat := 12.

Section with_libraries.
Context `{AesGcm} `{NaclBox}.
Implicit Types (rng key plaintext ciphertext : bytes).

Definition NewFileKey rng : bytes * outcome bytes := rand_Read rng FileKeySize.

Definition NewSymmetricKey rng : bytes * outcome bytes := NewFileKey rng.

(** [box.GenerateKey(rand.Reader)] draws 32 bytes. *)
Definition NewEncKeypair rng : bytes * outcome (bytes * bytes) :=
  match rand_Read rng 32 with
  | (rng', Ok r) => (rng', box_GenerateKey r)
  | (rng', Err e) => (rng', Err e)
  | (rng', Panic) => (rng', Panic)
  end.

(** [aes.NewCipher] and [cipher.NewGCM] cannot fail on a 32-byte key. *)
Definition SealAES rng key plaintext : bytes * outcome bytes :=
  if negb (bool_decide (length key = FileKeySize)) then
    (rng, Err (ErrMsg "crypto: key must be 32 bytes"))
  else
    match rand_Read rng gcmNonceSize with
    | (rng', Ok nonce) => (rng', Ok (nonce ++ gcm_Seal key nonce plaintext))
    | (rng', Err e) => (rng', Err e)
    | (rng', Panic) => (rng', Panic)
    end.

Definition OpenAES key ciphertext : outcome bytes :=
  if negb (bool_decide (length key = FileKeySize)) then
    Err (ErrMsg "crypto: key must be 32 bytes")
  else if decide (length ciphertext < gcmNonceSize + 1)%nat then
    Err (ErrMsg "crypto: ciphertext too short")
  else
    match gcm_Open key (take gcmNonceSize ciphertext) (drop gcmNonceSize ciphertext) with
    | Some p => Ok p
    | None => Err (ErrMsg "cipher: message authentication failed")
    end.

(** [box.SealAnonymous] draws an ephemeral key (32 bytes). *)
Definition SealAnonymous rng plaintext (recipientPub : bytes) : bytes * outcome bytes :=
  if negb (bool_decide (length recipientPub = EncPubSize)) then
    (rng, Err (ErrMsg "crypto: recipient pub must be 32 bytes"))
  else
    match rand_Read rng 32 with
    | (rng', Ok r) => (rng', box_Seal plaintext recipientPub r)
    | (rng', Err e) => (rng', Err e)
    | (rng', Panic) => (rng', Panic)
    end.

Definition OpenAnonymous ciphertext (recipientPub recipientPriv : bytes) : outcome bytes :=
  if negb (bool_decide (length recipientPub = EncPubSize)) ||
     negb (bool_decide (length recipientPriv = EncPrivSize)) then
    Err (ErrMsg "crypto: bad recipient key sizes")
  else
    match box_Open ciphertext recipientPub recipientPriv with
    | Some p => Ok p
    | None => Err (ErrMsg "crypto: anonymous box decrypt failed")
    end.

(** ** Lemmas *)

Lemma SealAES_inv rng key pt rng' ct :
  SealAES rng key pt = (rng', Ok ct) ->
  length key = FileKeySize /\
  exists nonce, length nonce = gcmNonceSize /\ rng = nonce ++ rng' /\ ct = nonce ++ gcm_Seal key nonce pt.
Proof.
  unfold SealAES. case_bool_decide as Hk; simpl; [|done].
  destruct (rand_Read rng gcmNonceSize) as [r [n|e|]] eqn:E; intros [= <- <-].
  apply rand_Read_Ok in E as [? ?]. eauto.
Qed.

Lemma OpenAES_SealAES rng key pt rng' ct :
  SealAES rng key pt = (rng', Ok ct) -> OpenAES key ct = Ok pt.
Proof.
  intros (Hk & nonce & Hn & _ & ->)%SealAES_inv. unfold OpenAES.
  rewrite bool_decide_eq_true_2 by done. simpl. rewrite decide_False.
  2: { rewrite length_app, gcm_Seal_length. lia. }
  rewrite take_app_length', drop_app_length' by done. by rewrite gcm_Open_Seal.
Qed.

Lemma SealAES_length rng key pt rng' ct :
  SealAES rng key pt = (rng', Ok ct) -> length ct = (length pt + 28)%nat.
Proof.
  intros (Hk & nonce & Hn & _ & ->)%SealAES_inv. rewrite length_app, gcm_Seal_length, Hn.
  unfold gcmNonceSize. lia.
Qed.

Lemma SealAES_total rng key pt :
  length key = FileKeySize -> (gcmNonceSize <= length rng)%nat ->
  exists ct, SealAES rng key pt = (drop gcmNonceSize rng, Ok ct).
Proof.
  intros Hk Hr. unfold SealAES, rand_Read. rewrite bool_decide_eq_true_2 by done. simpl.
  rewrite decide_True by done. eauto.
Qed.

(** A ciphertext opens only if it was sealed under the same key. *)
Lemma OpenAES_sound key ct pt :
  OpenAES key ct = Ok pt ->
  exists nonce, length nonce = gcmNonceSize /\ ct = nonce ++ gcm_Seal key nonce pt.
Proof.
  unfold OpenAES. case_bool_decide; simpl; [|done]. case_decide as Hl; [done|].
  intros E. go_case. match goal with E : gcm_Open _ _ _ = Some _ |- _ => apply gcm_Open_sound in E as E' end.
  exists (take gcmNonceSize ct). split; [rewrite length_take; unfold gcmNonceSize in *; lia|].
    by rewrite <- E', take_drop.
Qed.

Lemma OpenAnonymous_SealAnonymous rng pt pub priv rng' ct :
  box_pair pub priv -> length priv = EncPrivSize ->
  SealAnonymous rng pt pub = (rng', Ok ct) -> OpenAnonymous ct pub priv = Ok pt.
Proof.
  intros Hp Hl. unfold SealAnonymous, OpenAnonymous. case_bool_decide; simpl; [|done].
  destruct (rand_Read rng 32) as [r [b|e|]]; intros [= <- Hs].
  rewrite bool_decide_eq_true_2 by done. simpl. by rewrite (box_Open_Seal pt pub priv b ct).
Qed.

(** [crypto.SealAES] and [crypto.OpenAES] are inverse, the sealed form is 28
    bytes longer than the plaintext (12 of nonce, 16 of tag), and conversely
    whatever opens under a key is exactly a sealing of the plaintext under it. *)
Theorem AES_envelope rng key pt rng' ct :
  SealAES rng key pt = (rng', Ok ct) ->
  OpenAES key ct = Ok pt /\ zlen ct = zlen pt + 28 /\
  forall key' ct' pt', OpenAES key' ct' = Ok pt' ->
    exists nonce, length nonce = gcmNonceSize /\ ct' = nonce ++ gcm_Seal key' nonce pt'.
Proof.
  intros Hs. split; [by eapply OpenAES_SealAES|]. split; [|apply OpenAES_sound].
  apply SealAES_length in Hs. unfold zlen. lia.
Qed.

End with_libraries.

Definition demo_key : bytes := replicate 32 Byte.x07.
Definition demo_rng : bytes := replicate 200 Byte.x09.

Lemma AES_envelope_witness :
  exists ct, OpenAES demo_key ct = Ok [Byte.x01; Byte.x02] /\ zlen ct = zlen [Byte.x01; Byte.x02] + 28.
Proof.
  eexists.
  destruct (AES_envelope demo_rng demo_key [Byte.x01; Byte.x02] _ _ eq_refl) as (E1 & E2 & _).
  split; [exact E1|exact E2].
Defined.

End crypto.
