(* ===== verification/Ec.v ===== *)
(** * internal/ec/ec.go: erasure coding of one stripe *)

From S2P Require Import Prelude Ext Concrete.

Module ec.

Record Params := NewParams { DataShards : Z; ParityShards : Z }.

Definition Default : Params := NewParams 2 1.

Section with_reedsolomon.
Context `{ReedSolomon}.
Implicit Types (p : Params) (data : bytes) (shards : list bytes).

(** Integer division by zero panics. *)
Definition ShardSize p (fileSize : Z) : outcome Z :=
  if fileSize <=? 0 then Ok 0
  else
    let d := DataShards p in
    if d =? 0 then Panic else Ok (wrap64 (Z.quot (wrap64 (fileSize + d - 1)) d)).

Definition Encode p data : outcome (list bytes) :=
  if (DataShards p <=? 0) || (ParityShards p <=? 0) then Err (ErrMsg "ec: invalid params")
  else
    let! _ := rs_New (DataShards p) (ParityShards p) in
    let! shards := owrap "split: " (rs_Split (DataShards p) (ParityShards p) data) in
    owrap "encode: " (rs_Encode (DataShards p) (ParityShards p) shards).

(** [make([]byte, 0, n)] panics on a negative or absurd capacity. *)
Definition maxAlloc : Z := 2 ^ 48.

(** [Reconstruct] fills the missing shards in place: the first component is the
    caller's slice after the call. *)
Definition Decode p shards (fileSize : Z) : list bytes * outcome bytes :=
  let k := DataShards p in
  let m := ParityShards p in
  match rs_New k m with
  | Err e => (shards, Err e)
  | Panic => (shards, Panic)
  | Ok _ =>
  if negb (zlen shards =? k + m) then (shards, Err (ErrMsg "ec: wrong number of shards"))
  else
  match rs_Reconstruct k m shards with
  | Err e => (shards, Err (ErrWrap "reconstruct: " e))
  | Panic => (shards, Panic)
  | Ok full =>
  match rs_Verify k m full with
  | Panic => (full, Panic)
  | Err _ | Ok false => (full, Err (ErrMsg "verify after reconstruct failed"))
  | Ok true =>
  if (fileSize <? 0) || (maxAlloc <? fileSize) then (full, Panic)
  else
    let out := concat (take (Z.to_nat k) full) in
    (full, Ok (if fileSize <? zlen out then take (Z.to_nat fileSize) out else out))
  end
  end
  end.

(** ** Lemmas *)

Definition supported p : Prop :=
  0 < ParityShards p /\ rs_New (DataShards p) (ParityShards p) = Ok tt.

Lemma supported_data p : supported p -> 0 < DataShards p.
Proof. intros [_ Hn]. by apply rs_New_params in Hn as [? _]. Qed.

(** Size of a shard of a stripe of [n] bytes. *)
Definition shard_len p (n : Z) : Z := (n + DataShards p - 1) / DataShards p.

Lemma shard_len_bounds p n :
  0 < DataShards p -> 0 < n ->
  0 < shard_len p n /\ n <= shard_len p n * DataShards p < n + DataShards p.
Proof.
  intros Hd Hn. unfold shard_len.
  pose proof (Z.div_mod (n + DataShards p - 1) (DataShards p) ltac:(lia)).
  pose proof (Z.mod_pos_bound (n + DataShards p - 1) (DataShards p) Hd). nia.
Qed.

(** What [Encode] returns. *)
Definition encoding p data shards : Prop :=
  zlen shards = DataShards p + ParityShards p /\
  same_size (Z.to_nat (shard_len p (zlen data))) shards /\
  rs_Verify (DataShards p) (ParityShards p) shards = Ok true /\
  exists pad, concat (take (Z.to_nat (DataShards p)) shards) = data ++ pad.

Lemma encoding_nonempty p data shards :
  supported p -> data <> [] -> encoding p data shards -> Forall (fun sh => sh <> []) shards.
Proof.
  intros Hsup Hne (_ & Hsize & _). destruct (shard_len_bounds p (zlen data)) as [Hpos _].
  { by apply supported_data. } { unfold zlen. destruct data; [done|simpl; lia]. }
  eapply Forall_impl; [exact Hsize|]. intros sh Hl ->. simpl in Hl. lia.
Qed.

Lemma Encode_ok p data :
  supported p -> data <> [] -> exists shards, Encode p data = Ok shards /\ encoding p data shards.
Proof.
  intros Hsup Hne. pose proof (supported_data p Hsup) as Hd. destruct Hsup as [Hm Hn].
  destruct (rs_Split_ok _ _ _ Hn Hne) as (sp & Esp & Hlen & Hsize & Hcat).
  assert (Hz : 0 < zlen data) by (unfold zlen; destruct data; [done|simpl; lia]).
  destruct (shard_len_bounds p (zlen data)) as [Hpos _]; [done..|].
  destruct (rs_Encode_ok (DataShards p) (ParityShards p) (Z.to_nat (shard_len p (zlen data))) sp)
    as (cw & Ecw & Hlen' & Hsize' & Htake & Hver); auto with lia.
  exists cw. split.
  - unfold Encode. rewrite (proj2 (Z.leb_gt _ _)), (proj2 (Z.leb_gt _ _)) by lia. simpl.
    rewrite Hn. simpl. rewrite Esp. simpl. by rewrite Ecw.
  - split; [done|]. split; [done|]. split; [done|]. rewrite Htake, Hcat. eauto.
Qed.

Lemma Encode_inv p data shards :
  Encode p data = Ok shards -> supported p /\ data <> [] /\ encoding p data shards.
Proof.
  intros E. assert (E' := E). unfold Encode in E'. go_case. go_bool.
  match goal with E1 : rs_New _ _ = Ok ?u |- _ => destruct u; assert (Hsup : supported p)
    by (split; [lia|exact E1]) end.
  assert (Hne : data <> []).
  { intros ->. destruct Hsup as [_ Hn]. destruct (rs_Split_short _ _ Hn) as [err Herr].
    by rewrite Herr in *. }
  destruct (Encode_ok p data Hsup Hne) as (sh & E2 & Henc).
  rewrite E in E2. by injection E2 as <-.
Qed.

Lemma Decode_encoding p data shards e :
  supported p -> data <> [] -> encoding p data shards -> zlen data <= maxAlloc ->
  erasure_of shards e -> DataShards p <= Z.of_nat (present e) ->
  Decode p e (zlen data) = (shards, Ok data).
Proof.
  intros Hsup Hne (Hlen & Hsize & Hver & pad & Hcat) Hmax He Hp.
  pose proof (supported_data p Hsup) as Hd. destruct Hsup as [Hm Hn].
  assert (Hz : 0 < zlen data) by (unfold zlen; destruct data; [done|simpl; lia]).
  destruct (shard_len_bounds p (zlen data)) as [Hpos _]; [done..|].
  unfold Decode. rewrite Hn.
  assert (zlen e = zlen shards) as -> by (unfold zlen; by rewrite (Forall2_length _ _ _ He)).
  rewrite Hlen, Z.eqb_refl. simpl.
  rewrite (rs_Reconstruct_ok _ _ (Z.to_nat (shard_len p (zlen data))) shards e) by auto with lia.
  rewrite Hver, (proj2 (Z.ltb_ge _ _)), (proj2 (Z.ltb_ge _ _)) by lia. simpl. rewrite Hcat.
  unfold zlen. rewrite Nat2Z.id. destruct (Z.ltb_spec (Z.of_nat (length data)) (Z.of_nat (length (data ++ pad)))).
  - by rewrite take_app_length.
  - rewrite length_app in *. destruct pad; [by rewrite app_nil_r|simpl in *; lia].
Qed.

(** [C14] Erasure coding round trip: of the shards [ec.Encode] returns, any
    [DataShards] of them, in any slots, decode to the original bytes, and the
    slice passed to [ec.Decode] ends up holding every shard. *)
Theorem Decode_any_k p data shards e :
  Encode p data = Ok shards -> zlen data <= maxAlloc ->
  erasure_of shards e -> DataShards p <= Z.of_nat (present e) ->
  Decode p e (zlen data) = (shards, Ok data).
Proof. intros (Hs & Hne & Henc)%Encode_inv. by apply Decode_encoding. Qed.

(** Fewer than [DataShards] shards are never decoded: [ec.Decode] returns an
    error and leaves the caller's slice alone. *)
Theorem Decode_too_few p e (fileSize : Z) :
  zlen e = DataShards p + ParityShards p -> rs_New (DataShards p) (ParityShards p) = Ok tt ->
  Z.of_nat (present e) < DataShards p ->
  exists err, Decode p e fileSize = (e, Err err).
Proof.
  intros Hlen Hn Hp. unfold Decode. rewrite Hn, Hlen, Z.eqb_refl. simpl.
  destruct (rs_Reconstruct_few _ _ e Hn Hlen Hp) as [err ->]. eauto.
Qed.

(** [ec.ShardSize] predicts the size of every shard [ec.Encode] produces,
    for stripes whose size leaves room in an [int64]. *)
Lemma ShardSize_Encode p data shards s :
  Encode p data = Ok shards -> s ∈ shards -> zlen data + DataShards p < 2 ^ 63 ->
  ShardSize p (zlen data) = Ok (zlen s).
Proof.
  intros (Hsup & Hne & _ & Hsize & _)%Encode_inv Hin Hb.
  pose proof (supported_data p Hsup) as Hd.
  assert (Hz : 0 < zlen data) by (unfold zlen; destruct data; [done|simpl; lia]).
  destruct (shard_len_bounds p (zlen data)) as [Hpos Hle]; [done..|].
  unfold same_size in Hsize. rewrite Forall_forall in Hsize. apply Hsize in Hin.
  unfold ShardSize. rewrite (proj2 (Z.leb_gt _ _)), (proj2 (Z.eqb_neq _ _)) by lia.
  assert (Hsl : shard_len p (zlen data) <= zlen data + DataShards p) by nia.
  rewrite (wrap64_id (_ + _ - _)) by (unfold in_int64; lia).
  rewrite Z.quot_div_nonneg by lia. fold (shard_len p (zlen data)).
  rewrite wrap64_id by (unfold in_int64; lia). f_equal. unfold zlen at 2. rewrite Hin. lia.
Qed.

End with_reedsolomon.

Definition demo_data : bytes := [Byte.x0a; Byte.x0b; Byte.x0c].
Definition demo_shards : list bytes :=
  match Encode Default demo_data with Ok l => l | _ => [] end.

Lemma Decode_any_k_witness :
  Decode Default [[]; nth 1 demo_shards []; nth 2 demo_shards []] 3 = (demo_shards, Ok demo_data).
Proof.
  apply (Decode_any_k Default demo_data demo_shards).
  - vm_compute. reflexivity.
  - vm_compute. discriminate.
  - repeat apply Forall2_cons_2; try apply Forall2_nil_2; vm_compute; auto.
  - vm_compute. discriminate.
Defined.

Lemma Decode_too_few_witness :
  exists err, Decode Default [[]; []; nth 2 demo_shards []] 3 = ([[]; []; nth 2 demo_shards []], Err err).
Proof. apply (Decode_too_few Default); vm_compute; reflexivity. Defined.

Lemma ShardSize_Encode_witness : ShardSize Default 3 = Ok (zlen [Byte.x0a; Byte.x0b]).
Proof.
  apply (ShardSize_Encode Default demo_data demo_shards [Byte.x0a; Byte.x0b]).
  - vm_compute. reflexivity.
  - vm_compute. constructor.
  - vm_compute. reflexivity.
Defined.

End ec.
