(* ===== verification/Holders.v ===== *)
(** * internal/holders/holders.go: rendezvous choice of the shard holders *)

From S2P Require Import Prelude Ext Concrete.

Module holders.

Section with_sha256.
Context `{Sha256}.
Implicit Types (candidates peers : list string) (key peer : string).

(** First eight bytes, big-endian, of SHA-256 (peer, 0, key). *)
Definition weight peer key : Z :=
  be_decode (take 8 (Sum256 (bytes_of_string peer ++ [Byte.x00] ++ bytes_of_string key))).

(** [less] of the [sort.Slice] call, made reflexive. *)
Definition scored key : relation string := fun a b => weight b key <= weight a key.

#[export] Instance scored_dec key : RelDecision (scored key).
Proof. intros a b. unfold scored. apply _. Defined.

(** [sort.Slice] leaves the order of equal scores open; for distinct scores the
    result is the one below whatever the algorithm ([sorted_unique]). *)
Definition sortByScore peers key : list string := merge_sort (scored key) peers.

Definition Pick candidates key (n : Z) : list string :=
  if n <=? 0 then []
  else if zlen candidates <=? n then sortByScore candidates key
  else take (Z.to_nat n) (sortByScore candidates key).

Fixpoint find_index (i : Z) (l : list string) peer : Z :=
  match l with
  | [] => -1
  | p :: l' => if bool_decide (p = peer) then i else find_index (i + 1) l' peer
  end.

Definition IndexOf candidates key peer : Z := find_index 0 (sortByScore candidates key) peer.

(** ** Lemmas *)

#[local] Instance scored_trans key : Transitive (scored key).
Proof. unfold scored. intros ? ? ?. lia. Qed.
#[local] Instance scored_total key : Total (scored key).
Proof. unfold scored. intros ? ?. lia. Qed.

Lemma weight_uint64 peer key : 0 <= weight peer key < 2 ^ 64.
Proof.
  unfold weight. set (msg := _ ++ _).
  pose proof (be_decode_bound (take 8 (Sum256 msg))) as Hb.
  rewrite length_take, Sum256_length in Hb. simpl in Hb. lia.
Qed.

Lemma sortByScore_perm peers key : sortByScore peers key ≡ₚ peers.
Proof. apply merge_sort_Permutation. Qed.

Lemma sortByScore_sorted peers key : StronglySorted (scored key) (sortByScore peers key).
Proof. apply StronglySorted_merge_sort; apply _. Qed.

Lemma Pick_take candidates key n :
  Pick candidates key n = take (Z.to_nat n) (sortByScore candidates key).
Proof.
  unfold Pick. destruct (Z.leb_spec n 0) as [Hn|Hn].
  { replace (Z.to_nat n) with O by lia. done. }
  destruct (Z.leb_spec (zlen candidates) n) as [Hl|]; [|done].
  rewrite take_ge; [done|]. rewrite sortByScore_perm. unfold zlen in Hl. lia.
Qed.

(** No two of the members have the same score for this file. *)
Definition distinct_scores key peers : Prop :=
  forall a b, a ∈ peers -> b ∈ peers -> weight a key = weight b key -> a = b.

Lemma sorted_unique key peers l :
  distinct_scores key peers -> l ≡ₚ peers -> StronglySorted (scored key) l ->
  l = sortByScore peers key.
Proof.
  intros Hd Hp Hs. apply (StronglySorted_unique_strong (scored key)).
  - intros a b Ha Hb. unfold scored. intros. apply Hd; [by rewrite <- Hp| |lia].
    by rewrite <- (sortByScore_perm peers key).
  - done.
  - apply sortByScore_sorted.
  - by rewrite sortByScore_perm.
Qed.

(** A sorted list split at the rank [n]: everything before it scores at least
    as high as everything after. *)
Lemma sorted_take_drop key l n a b :
  StronglySorted (scored key) l -> a ∈ take n l -> b ∈ drop n l -> scored key a b.
Proof. intros Hs. rewrite <- (take_drop n l) in Hs. by apply StronglySorted_app_1_elem_of. Qed.

Lemma find_index_bound l peer i : 0 <= i -> find_index i l peer = -1 \/ i <= find_index i l peer.
Proof.
  revert i. induction l as [|p l IH]; intros i Hi; simpl; [by left|].
  case_bool_decide; [right; lia|]. destruct (IH (i + 1)) as [?|?]; lia.
Qed.

Lemma find_index_spec l peer i (j : nat) :
  0 <= i -> NoDup l -> find_index i l peer = i + Z.of_nat j <-> l !! j = Some peer.
Proof.
  intros Hi Hn. revert i j Hi. induction Hn as [|p l Hp Hn IH]; intros i j Hi; simpl.
  { split; [lia|done]. }
  case_bool_decide as E.
  - subst. destruct j as [|j]; simpl; [split; [done|lia]|]. split; [lia|].
    intros Hl%list_elem_of_lookup_2. done.
  - destruct j as [|j]; simpl.
    + split; [|congruence]. destruct (find_index_bound l peer (i + 1)); lia.
    + rewrite <- (IH (i + 1) j) by lia. split; intros; lia.
Qed.

Lemma Pick_incl candidates key n p : p ∈ Pick candidates key n -> p ∈ candidates.
Proof.
  rewrite Pick_take. intros (i & Hi & _)%elem_of_take.
  rewrite <- (sortByScore_perm candidates key). by eapply list_elem_of_lookup_2.
Qed.

Lemma Pick_NoDup candidates key n : NoDup candidates -> NoDup (Pick candidates key n).
Proof.
  rewrite Pick_take. intros Hn. rewrite <- (sortByScore_perm candidates key) in Hn.
  eapply sublist_NoDup; [exact Hn|]. apply sublist_take.
Qed.

Lemma length_Pick candidates key n :
  0 <= n <= zlen candidates -> zlen (Pick candidates key n) = n.
Proof.
  intros Hn. rewrite Pick_take. unfold zlen in *. rewrite length_take, sortByScore_perm. lia.
Qed.

(** The ranking without a member is the ranking with it, that member skipped. *)
Lemma sortByScore_cons c peers key :
  NoDup (c :: peers) -> distinct_scores key (c :: peers) ->
  exists before after, sortByScore (c :: peers) key = before ++ c :: after /\
    sortByScore peers key = before ++ after.
Proof.
  intros Hn Hd. assert (Hin : c ∈ sortByScore (c :: peers) key).
  { rewrite sortByScore_perm. constructor. }
  apply list_elem_of_split in Hin as (before & after & E).
  exists before, after. split; [done|]. symmetry. apply sorted_unique.
  - intros a b ? ?. apply Hd; by constructor.
  - apply (Permutation_cons_inv (a := c)). rewrite <- (sortByScore_perm (c :: peers) key), E.
    by rewrite Permutation_middle.
  - pose proof (sortByScore_sorted (c :: peers) key) as Hs. rewrite E in Hs.
    apply StronglySorted_app in Hs as (Hba & Hb & Ha). apply StronglySorted_cons in Ha as [_ Ha].
    apply StronglySorted_app_2; [|done|done]. intros x y ? ?. apply Hba; [done|]. by constructor.
Qed.

(** ** Properties *)

(** [holders.Pick] returns the [n] best candidates: as many as asked for,
    without repetition, in descending order of score, and no candidate left out
    scores higher than one chosen. *)
Theorem Pick_top candidates key n :
  NoDup candidates -> 0 <= n <= zlen candidates ->
  zlen (Pick candidates key n) = n /\ NoDup (Pick candidates key n) /\
  StronglySorted (scored key) (Pick candidates key n) /\
  forall a b, a ∈ Pick candidates key n -> b ∈ candidates -> b ∉ Pick candidates key n ->
    weight b key <= weight a key.
Proof.
  intros Hn Hl. split; [by apply length_Pick|]. split; [by apply Pick_NoDup|].
  pose proof (sortByScore_sorted candidates key) as Hs. rewrite Pick_take. split.
  - rewrite <- (take_drop (Z.to_nat n) (sortByScore candidates key)) in Hs.
    by eapply StronglySorted_app_1_l.
  - intros a b Ha Hb Hb'. apply (sorted_take_drop key _ (Z.to_nat n) a b Hs Ha).
    rewrite <- (sortByScore_perm candidates key) in Hb.
    rewrite <- (take_drop (Z.to_nat n) (sortByScore candidates key)) in Hb.
    apply elem_of_app in Hb as [?|?]; done.
Qed.

(** [C21] Nodes agree on the holders without coordination: whatever the order in
    which two nodes list the members of the group, and whatever sorting
    algorithm ranks them, they pick the same holders in the same slots. *)
Theorem Pick_agree candidates candidates' key n ranked :
  candidates ≡ₚ candidates' -> distinct_scores key candidates ->
  ranked ≡ₚ candidates' -> StronglySorted (scored key) ranked ->
  Pick candidates key n = take (Z.to_nat n) ranked /\ Pick candidates' key n = Pick candidates key n.
Proof.
  intros Hp Hd Hr Hs. rewrite !Pick_take.
  assert (Hd' : distinct_scores key candidates') by (intros a b; rewrite <- !Hp; apply Hd).
  rewrite (sorted_unique key candidates ranked Hd) by (by rewrite ?Hp).
  split; [done|]. f_equal. symmetry. apply sorted_unique; [done|..].
  - by rewrite sortByScore_perm.
  - apply sortByScore_sorted.
Qed.

(** [C22] A join is a minimal change: the holders chosen with a new member [c] are
    holders chosen without it, or [c]; and at most the last of the old holders
    is displaced. *)
Theorem Pick_join c candidates key n :
  NoDup (c :: candidates) -> distinct_scores key (c :: candidates) ->
  (forall p, p ∈ Pick (c :: candidates) key n -> p = c \/ p ∈ Pick candidates key n) /\
  (forall p, p ∈ Pick candidates key (n - 1) -> p ∈ Pick (c :: candidates) key n).
Proof.
  intros Hn Hd. rewrite !Pick_take.
  destruct (sortByScore_cons c candidates key Hn Hd) as (before & after & -> & ->).
  assert (Hcut : forall m p, p ∈ take m (before ++ c :: after) ->
    p = c \/ p ∈ take m (before ++ after)).
  { intros m p (i & Hi & Him)%elem_of_take.
    destruct (decide (i < length before)%nat) as [Hb|Hb].
    - right. apply elem_of_take. exists i. rewrite lookup_app_l in * by done. done.
    - rewrite lookup_app_r in Hi by lia. destruct (i - length before)%nat as [|j] eqn:Ej; simpl in Hi.
      + left. congruence.
      + right. apply elem_of_take. exists (length before + j)%nat.
        rewrite lookup_app_r by lia. replace (length before + j - length before)%nat with j by lia.
        split; [done|lia]. }
  split; [apply Hcut|]. intros p (i & Hi & Him)%elem_of_take. apply elem_of_take.
  destruct (decide (i < length before)%nat) as [Hb|Hb].
  - exists i. rewrite lookup_app_l in * by done. split; [done|lia].
  - exists (S i). rewrite lookup_app_r in * by lia.
    replace (S i - length before)%nat with (S (i - length before)) by lia. split; [done|lia].
Qed.

(** [holders.IndexOf] is the slot [holders.Pick] gives a peer: the peer is
    at position [i] of the holders exactly when [IndexOf] returns [i] below
    [n]. *)
Lemma IndexOf_Pick candidates key peer n (i : nat) :
  NoDup candidates ->
  Pick candidates key n !! i = Some peer <->
  IndexOf candidates key peer = Z.of_nat i /\ Z.of_nat i < n.
Proof.
  intros Hn. rewrite Pick_take. unfold IndexOf.
  rewrite <- (sortByScore_perm candidates key) in Hn.
  pose proof (find_index_spec (sortByScore candidates key) peer 0 i ltac:(lia) Hn) as Hf.
  rewrite Z.add_0_l in Hf. rewrite Hf. destruct (decide (Z.of_nat i < n)).
  - rewrite lookup_take_lt by lia. tauto.
  - rewrite lookup_take_ge by lia. split; [done|tauto].
Qed.

End with_sha256.

Definition demo_members : list string := ["alice"; "bob"; "carol"; "dave"].

Lemma Pick_top_witness :
  zlen (Pick demo_members "f1" 3) = 3.
Proof.
  refine (proj1 (Pick_top demo_members "f1" 3 _ _)); [|vm_compute; split; discriminate].
  unfold demo_members. apply (bool_decide_unpack _). vm_compute. exact I.
Defined.

Lemma demo_distinct : forall l, l = demo_members -> distinct_scores "f1" l.
Proof.
  intros l -> a b Ha Hb. unfold demo_members in *.
  repeat (apply elem_of_cons in Ha as [->|Ha]; [|]); [..|by apply elem_of_nil in Ha];
  repeat (apply elem_of_cons in Hb as [->|Hb]; [|]); try (by apply elem_of_nil in Hb); try done;
  vm_compute; discriminate.
Qed.

Lemma Pick_agree_witness :
  Pick ["dave"; "bob"; "carol"; "alice"] "f1" 3 = Pick demo_members "f1" 3.
Proof.
  refine (proj2 (Pick_agree demo_members ["dave"; "bob"; "carol"; "alice"] "f1" 3
    (sortByScore demo_members "f1") _ _ _ _)).
  - apply (bool_decide_unpack _). vm_compute. exact I.
  - by apply demo_distinct.
  - apply (bool_decide_unpack _). vm_compute. exact I.
  - apply sortByScore_sorted.
Defined.

Lemma Pick_join_witness :
  (forall p, p ∈ Pick demo_members "f1" 3 -> p = "alice" \/ p ∈ Pick ["bob"; "carol"; "dave"] "f1" 3) /\
  (forall p, p ∈ Pick ["bob"; "carol"; "dave"] "f1" 2 -> p ∈ Pick demo_members "f1" 3).
Proof.
  apply (Pick_join "alice" ["bob"; "carol"; "dave"] "f1" 3).
  - apply (bool_decide_unpack _). vm_compute. exact I.
  - by apply demo_distinct.
Defined.

Lemma IndexOf_Pick_witness :
  Pick demo_members "f1" 3 !! 0%nat = Some "alice" <->
  IndexOf demo_members "f1" "alice" = Z.of_nat 0 /\ Z.of_nat 0 < 3.
Proof.
  apply (IndexOf_Pick demo_members "f1" "alice" 3 0).
  apply (bool_decide_unpack _). vm_compute. exact I.
Defined.

End holders.
