(* ===== verification/Cache.v ===== *)
(** * internal/file/cache.go: the byte-bounded LRU of decrypted stripes *)

From S2P Require Import Prelude.

Module cache.

(** [itoa]: digits are written from the end of a 20-byte buffer; the fuel is the
    room left in it. *)
Definition digit (n : Z) : ascii := Ascii.ascii_of_N (Z.to_N (48 + n)).

Fixpoint itoa_digits (room : nat) (n : Z) (acc : string) : string :=
  match room with
  | O => acc
  | S room' =>
      if 0 <? n then itoa_digits room' (Z.quot n 10) (String (digit (Z.rem n 10)) acc) else acc
  end.

Definition itoa (n : Z) : string :=
  if n =? 0 then "0"
  else
    let neg := n <? 0 in
    let n' := if neg then wrap64 (- n) else n in
    let s := itoa_digits 20 n' "" in
    if neg then String "-" s else s.

Definition cacheKey (fileID : string) (stripeIdx : Z) : string :=
  fileID +:+ ":" +:+ itoa stripeIdx.

(** ** State

    [container/list] elements and the entries they point to are shared between
    the list and the index, so both hold addresses into [elems]. *)
Record cacheEntry := CacheEntry { ce_key : string; ce_bytes : bytes }.

Record StripeCache := NewCache {
  maxBytes : Z;
  lru : list nat;                   (* front = most recently used *)
  index : gmap string nat;
  elems : gmap nat cacheEntry;
  next : nat;                       (* next free address *)
  curBytes : Z
}.

Definition NewStripeCache (maxBytes : Z) : StripeCache := NewCache maxBytes [] ∅ ∅ O 0.

Implicit Types (c : StripeCache) (e : nat) (k : string) (b : bytes).

Definition set_lru c l := NewCache (maxBytes c) l (index c) (elems c) (next c) (curBytes c).

(** [c.lru.MoveToFront(elem)]: nothing happens to an element of another list. *)
Definition move_to_front c e : StripeCache :=
  if decide (e ∈ lru c) then set_lru c (e :: filter (fun x => x <> e) (lru c)) else c.

Definition Get c (fileID : string) (stripeIdx : Z) : StripeCache * option bytes :=
  match index c !! cacheKey fileID stripeIdx with
  | None => (c, None)
  | Some e => (move_to_front c e, ce_bytes <$> elems c !! e)
  end.

(** [evictLocked]: the list shrinks in every round, so its length bounds the
    loop. *)
Fixpoint evict_loop (fuel : nat) c : StripeCache :=
  match fuel with
  | O => c
  | S fuel' =>
      if maxBytes c <? curBytes c then
        match last (lru c) with
        | None => c
        | Some e =>
            match elems c !! e with
            | None => c
            | Some entry =>
                evict_loop fuel'
                  (NewCache (maxBytes c) (removelast (lru c)) (delete (ce_key entry) (index c))
                     (elems c) (next c) (curBytes c - zlen (ce_bytes entry)))
            end
        end
      else c
  end.

Definition evictLocked c : StripeCache := evict_loop (length (lru c)) c.

Definition Put c (fileID : string) (stripeIdx : Z) b : StripeCache :=
  if maxBytes c <? zlen b then c
  else
    let k := cacheKey fileID stripeIdx in
    match index c !! k with
    | Some e =>
        let old := default (CacheEntry k []) (elems c !! e) in
        evictLocked (move_to_front
          (NewCache (maxBytes c) (lru c) (index c) (<[e := CacheEntry (ce_key old) b]> (elems c)) (next c)
             (curBytes c - zlen (ce_bytes old) + zlen b)) e)
    | None =>
        let e := next c in
        evictLocked
          (NewCache (maxBytes c) (e :: lru c) (<[k := e]> (index c)) (<[e := CacheEntry k b]> (elems c))
             (S e) (curBytes c + zlen b))
    end.

Definition Stats c : Z * Z := (curBytes c, zlen (lru c)).

(** ** Keys *)

Fixpoint decimal (acc : Z) (s : string) : Z :=
  match s with
  | EmptyString => acc
  | String a s' => decimal (acc * 10 + (Z.of_N (Ascii.N_of_ascii a) - 48)) s'
  end.

Definition parse_int (s : string) : Z :=
  match s with
  | String a s' => if bool_decide (a = "-"%char) then - decimal 0 s' else decimal 0 s
  | EmptyString => 0
  end.

Lemma N_digit n : 0 <= n < 10 -> Z.of_N (Ascii.N_of_ascii (digit n)) = 48 + n.
Proof. intros ?. unfold digit. rewrite Ascii.N_ascii_embedding; lia. Qed.

Lemma decimal_acc s : forall acc, decimal acc s = acc * 10 ^ Z.of_nat (String.length s) + decimal 0 s.
Proof.
  induction s as [|a s IH]; intros acc; [simpl; lia|]. cbn [decimal String.length].
  rewrite IH, (IH (0 * 10 + _)), Nat2Z.inj_succ, Z.pow_succ_r by lia. ring.
Qed.

Lemma itoa_digits_decimal room : forall n s,
  0 <= n < 10 ^ Z.of_nat room ->
  decimal 0 (itoa_digits room n s) = n * 10 ^ Z.of_nat (String.length s) + decimal 0 s.
Proof.
  induction room as [|room IH]; intros n s Hn; cbn [itoa_digits].
  { simpl in Hn. replace n with 0 by lia. lia. }
  rewrite Nat2Z.inj_succ, Z.pow_succ_r in Hn by lia.
  destruct (Z.ltb_spec 0 n) as [Hp|]; [|replace n with 0 by lia; lia].
  rewrite Z.quot_div_nonneg, Z.rem_mod_nonneg by lia.
  pose proof (Z.mod_pos_bound n 10 ltac:(lia)). pose proof (Z.div_mod n 10 ltac:(lia)) as Hd.
  rewrite IH by (split; [apply Z.div_pos; lia|apply Z.div_lt_upper_bound; lia]).
  cbn [decimal String.length]. rewrite decimal_acc, N_digit by done.
  rewrite Nat2Z.inj_succ, Z.pow_succ_r by lia. rewrite Hd at 3. ring.
Qed.

Definition no_colon (s : string) : Prop := forall a, a ∈ String.list_ascii_of_string s -> a <> ":"%char.

Lemma digit_char n : 0 <= n < 10 -> digit n <> ":"%char /\ digit n <> "-"%char.
Proof.
  intros Hn. pose proof (N_digit n Hn) as Hd.
  split; intros E; rewrite E in Hd.
  - change (Z.of_N (Ascii.N_of_ascii ":")) with 58 in Hd. lia.
  - change (Z.of_N (Ascii.N_of_ascii "-")) with 45 in Hd. lia.
Qed.

Lemma itoa_digits_chars room : forall n s a,
  0 <= n -> a ∈ String.list_ascii_of_string (itoa_digits room n s) ->
  (a <> ":"%char /\ a <> "-"%char) \/ a ∈ String.list_ascii_of_string s.
Proof.
  induction room as [|room IH]; intros n s a Hn; cbn [itoa_digits]; [auto|].
  destruct (Z.ltb_spec 0 n); [|auto]. rewrite Z.quot_div_nonneg, Z.rem_mod_nonneg by lia.
  intros [?|Ha]%IH; [auto| |apply Z.div_pos; lia]. simpl in Ha.
  apply elem_of_cons in Ha as [->|Ha]; [|auto]. left. apply digit_char, Z.mod_pos_bound. lia.
Qed.

#[global] Arguments itoa_digits : simpl never.

Lemma int64_digits n : in_int64 n -> n <> - 2 ^ 63 -> 0 <= Z.abs n < 10 ^ Z.of_nat 20.
Proof. unfold in_int64. intros. change (10 ^ Z.of_nat 20) with 100000000000000000000. lia. Qed.

(** The buffer is large enough for every [int64] but the smallest, and the
    digits read back as the number. *)
Lemma parse_itoa n : in_int64 n -> n <> - 2 ^ 63 -> parse_int (itoa n) = n.
Proof.
  intros Hn Hm. pose proof (int64_digits n Hn Hm) as Hb. unfold itoa.
  destruct (Z.eqb_spec n 0) as [->|Hz]; [done|]. unfold in_int64 in Hn.
  destruct (Z.ltb_spec n 0) as [Hneg|Hpos].
  - rewrite wrap64_id by (unfold in_int64; lia). cbn [parse_int].
    rewrite itoa_digits_decimal by lia. simpl. lia.
  - replace (parse_int (itoa_digits 20 n "")) with (decimal 0 (itoa_digits 20 n "")).
    { rewrite itoa_digits_decimal by lia. simpl. lia. }
    destruct (itoa_digits 20 n "") as [|a s] eqn:E; [done|].
    assert (Ha : a <> "-"%char).
    { destruct (itoa_digits_chars 20 n "" a Hpos) as [[_ ?]|Hnil]; [|done|by apply elem_of_nil in Hnil].
      rewrite E. constructor. }
    unfold parse_int. by rewrite bool_decide_eq_false_2.
Qed.

Lemma itoa_no_colon n : in_int64 n -> n <> - 2 ^ 63 -> no_colon (itoa n).
Proof.
  intros Hn Hm a. unfold itoa, in_int64 in *. destruct (Z.eqb_spec n 0); simpl.
  { intros [->|[]%elem_of_nil]%elem_of_cons. done. }
  destruct (Z.ltb_spec n 0); simpl.
  - rewrite wrap64_id by (unfold in_int64; lia).
    intros [->|Ha]%elem_of_cons; [done|].
    apply itoa_digits_chars in Ha as [[? _]|[]%elem_of_nil]; [done|lia].
  - intros Ha. apply itoa_digits_chars in Ha as [[? _]|[]%elem_of_nil]; [done|lia].
Qed.

Lemma split_last {A} (x : A) (l1 k1 l2 k2 : list A) :
  x ∉ k1 -> x ∉ k2 -> l1 ++ x :: k1 = l2 ++ x :: k2 -> l1 = l2 /\ k1 = k2.
Proof.
  intros H1 H2. revert l2. induction l1 as [|y l1 IH]; intros [|z l2] E; simpl in E.
  - by injection E as ->.
  - injection E as -> ->. exfalso. apply H1, elem_of_app. right. constructor.
  - injection E as -> <-. exfalso. apply H2, elem_of_app. right. constructor.
  - injection E as -> E. apply IH in E as [-> ->]. auto.
Qed.

Lemma list_ascii_append s t :
  String.list_ascii_of_string (s +:+ t) = String.list_ascii_of_string s ++ String.list_ascii_of_string t.
Proof. induction s as [|a s IH]; [done|]. cbn. by rewrite <- IH. Qed.

Lemma list_ascii_inj s t : String.list_ascii_of_string s = String.list_ascii_of_string t -> s = t.
Proof.
  intros E. rewrite <- (String.string_of_list_ascii_of_string s), E.
  apply String.string_of_list_ascii_of_string.
Qed.

(** Two stripes never share a cache key, whatever the file identifiers. *)
Lemma cacheKey_inj f1 i1 f2 i2 :
  0 <= i1 < 2 ^ 63 -> 0 <= i2 < 2 ^ 63 -> cacheKey f1 i1 = cacheKey f2 i2 -> f1 = f2 /\ i1 = i2.
Proof.
  intros H1 H2 E.
  assert (B1 : in_int64 i1) by (unfold in_int64; lia). assert (B2 : in_int64 i2) by (unfold in_int64; lia).
  assert (N1 : no_colon (itoa i1)) by (apply itoa_no_colon; [done|lia]).
  assert (N2 : no_colon (itoa i2)) by (apply itoa_no_colon; [done|lia]).
  apply (f_equal String.list_ascii_of_string) in E. unfold cacheKey in E.
  rewrite !list_ascii_append in E. simpl in E. apply split_last in E as [E1 E2].
  - apply list_ascii_inj in E1, E2. split; [done|].
    rewrite <- (parse_itoa i1), <- (parse_itoa i2) by (done || lia). by rewrite E2.
  - intros Hc. by apply N1 in Hc.
  - intros Hc. by apply N2 in Hc.
Qed.

(** ** The abstract cache: a list of keyed stripes, most recent first *)

Definition total (l : list (string * bytes)) : Z := foldr (fun kv n => zlen kv.2 + n) 0 l.

Definition find (k : string) (l : list (string * bytes)) : option bytes :=
  snd <$> head (filter (fun kv => kv.1 = k) l).

Definition drop_key (k : string) (l : list (string * bytes)) : list (string * bytes) :=
  filter (fun kv => kv.1 <> k) l.

(** The longest prefix that fits. *)
Fixpoint fit (room : Z) (l : list (string * bytes)) : list (string * bytes) :=
  match l with
  | [] => []
  | kv :: l' => if room <? zlen kv.2 then [] else kv :: fit (room - zlen kv.2) l'
  end.

Definition spec_get (k : string) (l : list (string * bytes)) : list (string * bytes) :=
  match find k l with
  | Some b => (k, b) :: drop_key k l
  | None => l
  end.

Definition spec_put (max : Z) (k : string) (b : bytes) (l : list (string * bytes)) :=
  if max <? zlen b then l else fit max ((k, b) :: drop_key k l).

Lemma total_nonneg l : 0 <= total l.
Proof. induction l as [|kv l IH]; simpl; [lia|]. pose proof (zlen_nonneg kv.2). lia. Qed.

Lemma total_app l l' : total (l ++ l') = total l + total l'.
Proof. induction l as [|kv l IH]; simpl; [done|]. rewrite IH. lia. Qed.

Lemma fit_all room l : total l <= room -> fit room l = l.
Proof.
  revert room. induction l as [|kv l IH]; intros room Ht; simpl in *; [done|].
  pose proof (total_nonneg l). rewrite (proj2 (Z.ltb_ge _ _)) by lia. f_equal. apply IH. lia.
Qed.

Lemma fit_snoc room l kv : room < total (l ++ [kv]) -> fit room (l ++ [kv]) = fit room l.
Proof.
  revert room. induction l as [|kv' l IH]; intros room Ht; simpl in *.
  - rewrite (proj2 (Z.ltb_lt _ _)) by lia. done.
  - destruct (Z.ltb_spec room (zlen kv'.2)); [done|]. f_equal. apply IH. lia.
Qed.

Lemma fit_total room l : 0 <= room -> total (fit room l) <= room.
Proof.
  revert room. induction l as [|kv l IH]; intros room Hr; simpl; [done|].
  destruct (Z.ltb_spec room (zlen kv.2)); simpl; [done|].
  specialize (IH (room - zlen kv.2)). lia.
Qed.

(** ** Well-formed caches *)

Definition entry_of (els : gmap nat cacheEntry) (e : nat) : option (string * bytes) :=
  (fun en => (ce_key en, ce_bytes en)) <$> els !! e.

Definition entries c : list (string * bytes) := omap (entry_of (elems c)) (lru c).

Record wf c : Prop := {
  wf_nodup : NoDup (lru c);
  wf_lru : forall e, e ∈ lru c -> (e < next c)%nat /\
    exists en, elems c !! e = Some en /\ index c !! ce_key en = Some e;
  wf_index : forall k e, index c !! k = Some e ->
    e ∈ lru c /\ exists b, elems c !! e = Some (CacheEntry k b);
  wf_cur : curBytes c = total (entries c)
}.

Lemma NewStripeCache_wf n : wf (NewStripeCache n).
Proof.
  constructor; simpl; [constructor|intros e He; by apply elem_of_nil in He| |done].
  intros k e. by rewrite lookup_empty.
Qed.

Lemma elem_of_entries c k b :
  wf c -> (k, b) ∈ entries c <-> exists e, index c !! k = Some e /\ elems c !! e = Some (CacheEntry k b).
Proof.
  intros Hw. unfold entries. rewrite list_elem_of_omap. split.
  - intros (e & He & Hen). unfold entry_of in Hen. destruct (wf_lru c Hw e He) as (_ & en & Hel & Hix).
    rewrite Hel in Hen. destruct en as [k' b']. simplify_eq/=. eauto.
  - intros (e & Hix & Hel). exists e. split; [by apply (wf_index c Hw k)|].
    unfold entry_of. by rewrite Hel.
Qed.

(** Distinct positions of the list hold distinct keys. *)
Lemma entries_unique c k b b' : wf c -> (k, b) ∈ entries c -> (k, b') ∈ entries c -> b = b'.
Proof.
  intros Hw (e & H1 & H2)%elem_of_entries (e' & H3 & H4)%elem_of_entries; [|done..]. congruence.
Qed.

Lemma find_Some k b (l : list (string * bytes)) : find k l = Some b -> (k, b) ∈ l.
Proof.
  unfold find. destruct (filter _ l) as [|[k' b'] l'] eqn:E; simpl; [done|]. intros [= ->].
  assert (Hin : (k', b) ∈ filter (fun kv : string * bytes => kv.1 = k) l) by (rewrite E; constructor).
  apply list_elem_of_filter in Hin as [Hk Hin]. simpl in Hk. by subst.
Qed.

Lemma find_elem k b (l : list (string * bytes)) : (k, b) ∈ l -> is_Some (find k l).
Proof.
  intros Hin. unfold find. destruct (filter _ l) as [|kv l'] eqn:E; [|eauto].
  assert (Hf : (k, b) ∈ filter (fun kv : string * bytes => kv.1 = k) l) by (by apply list_elem_of_filter).
  rewrite E in Hf. by apply elem_of_nil in Hf.
Qed.

Lemma find_entries c k :
  wf c -> find k (entries c) = e ← index c !! k; ce_bytes <$> elems c !! e.
Proof.
  intros Hw. destruct (index c !! k) as [e|] eqn:Ex; simpl.
  - destruct (wf_index c Hw k e Ex) as (He & b & Hel). rewrite Hel. simpl.
    assert (Hin : (k, b) ∈ entries c) by (apply elem_of_entries; eauto).
    destruct (find_elem k b _ Hin) as [b' Hb']. rewrite Hb'. f_equal.
    eapply entries_unique; eauto using find_Some.
  - destruct (find k (entries c)) as [b|] eqn:Ef; [|done].
    apply find_Some, elem_of_entries in Ef as (e & He & _); [congruence|done].
Qed.

(** ** Reordering, updating and dropping elements *)

Section elements.
Variable els : gmap nat cacheEntry.
Abbreviation ents l := (omap (entry_of els) l).

Lemma entries_filter (l : list nat) e k :
  (forall x, x ∈ l -> exists en, els !! x = Some en /\ (x = e <-> ce_key en = k)) ->
  ents (filter (fun x => x <> e) l) = drop_key k (ents l).
Proof.
  unfold drop_key. induction l as [|x l IH]; intros Hl; [done|].
  destruct (Hl x ltac:(constructor)) as (en & Hen & Hk).
  rewrite filter_cons. cbn [omap list_omap]. unfold entry_of at 2. rewrite Hen. simpl.
  rewrite filter_cons. simpl. rewrite <- IH by (intros; apply Hl; by constructor).
  repeat case_decide; try (exfalso; tauto); [|done].
  cbn [omap list_omap]. unfold entry_of at 1. by rewrite Hen.
Qed.

Lemma entries_update (l : list nat) e en : e ∉ l -> omap (entry_of (<[e := en]> els)) l = ents l.
Proof.
  induction l as [|x l IH]; intros He; [done|]. apply not_elem_of_cons in He as [Hx He].
  cbn [omap list_omap]. rewrite IH by done. unfold entry_of at 1. by rewrite lookup_insert_ne by done.
Qed.

Lemma total_split (l : list nat) e en :
  NoDup l -> e ∈ l -> els !! e = Some en ->
  total (ents l) = zlen (ce_bytes en) + total (ents (filter (fun x => x <> e) l)).
Proof.
  induction 1 as [|x l Hx Hl IH]; intros He Hen; [by apply elem_of_nil in He|].
  rewrite filter_cons. cbn [omap list_omap]. case_decide as Hxe.
  - apply elem_of_cons in He as [->|He]; [done|]. cbn [omap list_omap].
    destruct (entry_of els x); simpl; rewrite (IH He Hen); lia.
  - rewrite Hxe in *. unfold entry_of at 1. rewrite Hen. simpl.
    rewrite list_filter_all; [done|]. intros x' Hx' ->. done.
Qed.

End elements.

Lemma wf_positions c e k :
  wf c -> index c !! k = Some e ->
  forall x, x ∈ lru c -> exists en, elems c !! x = Some en /\ (x = e <-> ce_key en = k).
Proof.
  intros Hw Hk x Hx. destruct (wf_lru c Hw x Hx) as (_ & en & Hen & Hix). exists en. split; [done|].
  split; [intros ->|intros E; congruence].
  destruct (wf_index c Hw k e Hk) as (_ & b' & Hb). rewrite Hen in Hb. by injection Hb as ->.
Qed.

Lemma drop_key_fresh c k : wf c -> index c !! k = None -> drop_key k (entries c) = entries c.
Proof.
  intros Hw Hk. unfold drop_key. apply list_filter_all. intros [k' b'] Hin E. simpl in E. subst k'.
  apply elem_of_entries in Hin as (e & He & _); [congruence|done].
Qed.

(** ** Refinement: the concrete operations act on [entries] as the abstract ones *)

Lemma move_to_front_spec c e k b :
  wf c -> index c !! k = Some e -> elems c !! e = Some (CacheEntry k b) ->
  wf (move_to_front c e) /\ entries (move_to_front c e) = (k, b) :: drop_key k (entries c).
Proof.
  intros Hw Hk Hb. destruct (wf_index c Hw k e Hk) as (He & _). unfold move_to_front.
  rewrite decide_True by done.
  assert (En : entries (set_lru c (e :: filter (fun x => x <> e) (lru c))) = (k, b) :: drop_key k (entries c)).
  { unfold entries at 1. simpl. unfold entry_of at 1. rewrite Hb. simpl. f_equal.
    by apply entries_filter, wf_positions. }
  split; [|exact En]. destruct Hw as [Hn Hl Hi Hc]. constructor; simpl.
  - constructor; [rewrite list_elem_of_filter; tauto|by apply NoDup_filter].
  - intros x [->|[_ Hx]%list_elem_of_filter]%elem_of_cons; auto.
  - intros k' e' Hk'. destruct (Hi k' e' Hk') as (He' & Hb'). split; [|done].
    destruct (decide (e' = e)) as [->|]; [constructor|]. constructor. by apply list_elem_of_filter.
  - rewrite En, Hc. unfold entries. rewrite (total_split _ _ e _ Hn He Hb). cbn [total foldr]. simpl.
    f_equal. f_equal. by apply entries_filter, wf_positions.
Qed.

(** One round of the eviction loop. *)
Lemma evict_step c l e en :
  wf c -> lru c = l ++ [e] -> elems c !! e = Some en ->
  let c' := NewCache (maxBytes c) l (delete (ce_key en) (index c)) (elems c) (next c)
              (curBytes c - zlen (ce_bytes en)) in
  wf c' /\ entries c = entries c' ++ [(ce_key en, ce_bytes en)].
Proof.
  intros Hw Hl Hen c'.
  assert (En : entries c = entries c' ++ [(ce_key en, ce_bytes en)]).
  { unfold entries. rewrite Hl, omap_app. simpl. unfold entry_of at 2. by rewrite Hen. }
  split; [|exact En]. destruct Hw as [Hn Hlr Hi Hc]. rewrite Hl in Hn, Hlr.
  apply NoDup_app in Hn as (Hn & Hd & _).
  assert (Hne : forall x, x ∈ l -> x <> e) by (intros x Hx ->; apply (Hd e Hx); constructor).
  assert (Hkey : index c !! ce_key en = Some e).
  { destruct (Hlr e ltac:(apply elem_of_app; right; constructor)) as (_ & en' & He' & Hx). congruence. }
  constructor; simpl.
  - done.
  - intros x Hx. destruct (Hlr x ltac:(apply elem_of_app; by left)) as (Hlt & en' & Hen' & Hix).
    split; [done|]. exists en'. split; [done|]. rewrite lookup_delete_ne; [done|].
    intros E. rewrite <- E in Hix. apply (Hne x Hx). congruence.
  - intros k' e' Hk'. apply lookup_delete_Some in Hk' as [Hkk Hk'].
    destruct (Hi k' e' Hk') as (He' & b' & Hb'). split; [|eauto].
    rewrite Hl in He'. apply elem_of_app in He' as [?|He']; [done|]. apply list_elem_of_singleton in He' as ->.
    rewrite Hen in Hb'. injection Hb' as ->. done.
  - rewrite Hc, En, total_app. unfold c'. simpl. lia.
Qed.

Lemma evict_loop_spec fuel : forall c,
  wf c -> (length (lru c) <= fuel)%nat ->
  let c' := evict_loop fuel c in
  wf c' /\ maxBytes c' = maxBytes c /\ entries c' = fit (maxBytes c) (entries c).
Proof.
  induction fuel as [|fuel IH]; intros c Hw Hf; cbn [evict_loop].
  { destruct (lru c) eqn:E; simpl in Hf; [|lia]. unfold entries. by rewrite E. }
  destruct (Z.ltb_spec (maxBytes c) (curBytes c)) as [Hlt|Hle].
  2: { rewrite (wf_cur c Hw) in Hle. by rewrite fit_all. }
  destruct (last (lru c)) as [e|] eqn:El.
  2: { apply last_None in El. unfold entries. by rewrite El. }
  apply last_Some in El as [l El].
  destruct (wf_lru c Hw e) as (_ & en & Hen & _).
  { rewrite El. apply elem_of_app. right. constructor. }
  rewrite Hen, El, removelast_last. destruct (evict_step c l e en Hw El Hen) as [Hw' En].
  destruct (IH _ Hw') as (H1 & H2 & H3).
  { simpl. rewrite El, length_app in Hf. simpl in Hf. lia. }
  split_and!; [done..|]. rewrite H3. simpl. rewrite (wf_cur c Hw), En in Hlt. by rewrite En, fit_snoc.
Qed.

Lemma evictLocked_spec c :
  wf c -> wf (evictLocked c) /\ maxBytes (evictLocked c) = maxBytes c /\
          entries (evictLocked c) = fit (maxBytes c) (entries c).
Proof. intros Hw. by apply evict_loop_spec. Qed.

Lemma update_wf c e k b b' :
  wf c -> index c !! k = Some e -> elems c !! e = Some (CacheEntry k b') ->
  let c' := NewCache (maxBytes c) (lru c) (index c) (<[e := CacheEntry k b]> (elems c)) (next c)
              (curBytes c - zlen b' + zlen b) in
  wf c' /\ drop_key k (entries c') = drop_key k (entries c).
Proof.
  intros Hw Hk Hb c'. destruct (wf_index c Hw k e Hk) as (He & _).
  pose proof (wf_positions c e k Hw Hk) as Hp.
  assert (Hp' : forall x, x ∈ lru c -> exists en, <[e := CacheEntry k b]> (elems c) !! x = Some en /\ (x = e <-> ce_key en = k)).
  { intros x Hx. destruct (decide (x = e)) as [->|Hne].
    - exists (CacheEntry k b). by rewrite lookup_insert_eq.
    - rewrite lookup_insert_ne by done. auto. }
  assert (Hd : forall l : list nat, e ∉ l -> omap (entry_of (elems c')) l = omap (entry_of (elems c)) l).
  { intros l Hl. by apply entries_update. }
  assert (Hf : e ∉ filter (fun x => x <> e) (lru c)) by (rewrite list_elem_of_filter; tauto).
  split.
  - destruct Hw as [Hn Hl Hi Hc]. constructor; simpl.
    + done.
    + intros x Hx. destruct (Hl x Hx) as (Hlt & en & Hen & Hix). split; [done|].
      destruct (decide (x = e)) as [->|Hne].
      * exists (CacheEntry k b). by rewrite lookup_insert_eq.
      * exists en. by rewrite lookup_insert_ne.
    + intros k' e' Hk'. destruct (Hi k' e' Hk') as (He' & b1 & Hb1). split; [done|].
      destruct (decide (e' = e)) as [->|Hne].
      * rewrite Hb in Hb1. injection Hb1 as <- <-. exists b. by rewrite lookup_insert_eq.
      * exists b1. by rewrite lookup_insert_ne.
    + pose proof (total_split (elems c) _ e _ Hn He Hb) as T1.
      pose proof (total_split (elems c') _ e (CacheEntry k b) Hn He ltac:(simpl; by rewrite lookup_insert_eq)) as T2.
      rewrite (Hd _ Hf) in T2. rewrite Hc. unfold entries. simpl in *. lia.
  - etrans; [symmetry; apply (entries_filter (elems c') (lru c) e k); exact Hp'|].
    rewrite (Hd _ Hf). by apply entries_filter.
Qed.

Lemma push_wf c k b :
  wf c -> index c !! k = None ->
  let c' := NewCache (maxBytes c) (next c :: lru c) (<[k := next c]> (index c))
              (<[next c := CacheEntry k b]> (elems c)) (S (next c)) (curBytes c + zlen b) in
  wf c' /\ entries c' = (k, b) :: entries c.
Proof.
  intros Hw Hk c'.
  assert (Hfresh : next c ∉ lru c) by (intros Hx; apply (wf_lru c Hw) in Hx as [? _]; lia).
  assert (En : entries c' = (k, b) :: entries c).
  { unfold entries. simpl. unfold entry_of at 1. rewrite lookup_insert_eq. simpl. f_equal.
    by apply entries_update. }
  split; [|exact En]. destruct Hw as [Hn Hl Hi Hc]. constructor; simpl.
  - by constructor.
  - intros x [->|Hx]%elem_of_cons.
    { split; [lia|]. exists (CacheEntry k b). by rewrite !lookup_insert_eq. }
    destruct (Hl x Hx) as (Hlt & en & Hen & Hix). split; [lia|]. exists en.
    rewrite !lookup_insert_ne; [done|congruence|lia].
  - intros k' e' [[<- <-]|[Hne Hk']]%lookup_insert_Some.
    { split; [constructor|]. exists b. by rewrite lookup_insert_eq. }
    destruct (Hi k' e' Hk') as (He' & b' & Hb'). split; [by constructor|]. exists b'.
    rewrite lookup_insert_ne; [done|]. intros E. by rewrite E in Hfresh.
  - rewrite En, Hc. simpl. lia.
Qed.

Lemma lru_Put_spec c f i b :
  wf c ->
  wf (Put c f i b) /\ maxBytes (Put c f i b) = maxBytes c /\
  entries (Put c f i b) = spec_put (maxBytes c) (cacheKey f i) b (entries c).
Proof.
  intros Hw. unfold Put, spec_put. destruct (Z.ltb_spec (maxBytes c) (zlen b)); [done|].
  set (k := cacheKey f i). destruct (index c !! k) as [e|] eqn:Hk.
  - destruct (wf_index c Hw k e Hk) as (He & b' & Hb). rewrite Hb. simpl.
    destruct (update_wf c e k b b' Hw Hk Hb) as [Hw1 Hd].
    destruct (move_to_front_spec _ e k b Hw1 Hk) as [Hw2 En]; [simpl; by rewrite lookup_insert_eq|].
    destruct (evictLocked_spec _ Hw2) as (H1 & H2 & H3). rewrite En, Hd in H3.
    unfold move_to_front in *. simpl in *. rewrite decide_True in * by done. done.
  - destruct (push_wf c k b Hw Hk) as [Hw1 En]. rewrite (drop_key_fresh c k Hw Hk), <- En.
    exact (evictLocked_spec _ Hw1).
Qed.

Lemma lru_Get_spec c f i :
  wf c ->
  let '(c', r) := Get c f i in
  wf c' /\ maxBytes c' = maxBytes c /\ r = find (cacheKey f i) (entries c) /\
  entries c' = spec_get (cacheKey f i) (entries c).
Proof.
  intros Hw. unfold Get, spec_get. rewrite (find_entries c _ Hw). set (k := cacheKey f i).
  destruct (index c !! k) as [e|] eqn:Hk; simpl; [|done].
  destruct (wf_index c Hw k e Hk) as (He & b & Hb). rewrite Hb. simpl.
  destruct (move_to_front_spec c e k b Hw Hk Hb) as [Hw' En]. split_and!; try done.
  unfold move_to_front. by rewrite decide_True.
Qed.

Lemma Get_curBytes c f i : curBytes (Get c f i).1 = curBytes c.
Proof. unfold Get, move_to_front. by destruct (index c !! _); simpl; [case_decide|]. Qed.

(** ** Traces of cache operations *)

Inductive op := OpGet (fileID : string) (stripeIdx : Z) | OpPut (fileID : string) (stripeIdx : Z) (b : bytes).

Definition run1 c (o : op) : StripeCache :=
  match o with
  | OpGet f i => (Get c f i).1
  | OpPut f i b => Put c f i b
  end.

Definition run (max : Z) (ops : list op) : StripeCache := fold_left run1 ops (NewStripeCache max).

Definition spec1 (max : Z) (l : list (string * bytes)) (o : op) :=
  match o with
  | OpGet f i => spec_get (cacheKey f i) l
  | OpPut f i b => spec_put max (cacheKey f i) b l
  end.

Lemma run_spec max ops :
  wf (run max ops) /\ maxBytes (run max ops) = max /\
  entries (run max ops) = fold_left (spec1 max) ops [].
Proof.
  unfold run. induction ops as [|o ops IH] using rev_ind.
  { split_and!; [apply NewStripeCache_wf|done|done]. }
  rewrite !fold_left_app. simpl. set (c := fold_left run1 ops (NewStripeCache max)) in *.
  destruct IH as (Hw & Hm & He). rewrite <- He, <- Hm. destruct o as [f i|f i b]; simpl.
  - pose proof (lru_Get_spec c f i Hw) as H. destruct (Get c f i) as [c' r]. simpl. tauto.
  - by apply lru_Put_spec.
Qed.

Lemma spec_total max ops : 0 <= max -> total (fold_left (spec1 max) ops []) <= max.
Proof.
  intros Hmax. induction ops as [|o ops IH] using rev_ind; [done|]. rewrite fold_left_app. simpl.
  destruct (run_spec max ops) as (Hw & _ & He). set (l := fold_left _ ops []) in *.
  destruct o as [f i|f i b]; simpl.
  - rewrite <- He in *. pose proof (lru_Get_spec _ f i Hw) as Hg. pose proof (Get_curBytes (run max ops) f i) as Hc.
    destruct (Get _ f i) as [c' r]. destruct Hg as (Hw' & _ & _ & <-). simpl in Hc.
    by rewrite <- (wf_cur c' Hw'), Hc, (wf_cur _ Hw).
  - unfold spec_put. destruct (Z.ltb_spec max (zlen b)); [done|]. by apply fit_total.
Qed.

(** ** Correctness *)

(** [C8] The cache is a byte-bounded LRU.  After any sequence of [Get] and
    [Put] calls on a fresh cache of [max] bytes, the element list and the index
    agree ([wf]), the stripes held are those of the abstract cache, in its
    order - a hit moves to the front, an insertion goes to the front and the
    longest prefix that fits is kept - and [curBytes] is the exact number of
    bytes held, never above [max]; [Get] answers as the abstract cache does. *)
Theorem lru_refinement max ops f i :
  0 <= max ->
  let c := run max ops in
  let l := fold_left (spec1 max) ops [] in
  wf c /\ entries c = l /\ curBytes c = total l /\ curBytes c <= max /\
  (Get c f i).2 = find (cacheKey f i) l.
Proof.
  intros Hmax c l. destruct (run_spec max ops) as (Hw & Hm & He). fold c l in Hw, Hm, He.
  pose proof (lru_Get_spec c f i Hw) as Hg. destruct (Get c f i) as [c' r]. destruct Hg as (_ & _ & Hr & _).
  pose proof (spec_total max ops Hmax) as Ht. fold l in Ht.
  rewrite (wf_cur c Hw), He in *. by split_and!.
Qed.

Lemma lru_refinement_witness :
  let ops := [OpPut "f" 0 [Byte.x01; Byte.x02]; OpPut "f" 1 [Byte.x03]; OpGet "f" 0; OpPut "g" 0 [Byte.x04; Byte.x05]] in
  let c := run 4 ops in
  0 <= 4 /\ entries c = [("g:0", [Byte.x04; Byte.x05]); ("f:0", [Byte.x01; Byte.x02])] /\
  curBytes c = 4 /\ (Get c "f" 1).2 = None.
Proof.
  intros ops c. destruct (lru_refinement 4 ops "f" 1) as (_ & He & Hc & _ & Hg); [lia|].
  fold c in He, Hc, Hg. rewrite He, Hc, Hg. repeat split; [lia|..]; vm_compute; reflexivity.
Defined.

Lemma find_fit_head max k b l : zlen b <= max -> find k (fit max ((k, b) :: l)) = Some b.
Proof.
  intros Hb. cbn [fit]. simpl. rewrite (proj2 (Z.ltb_ge _ _)) by done.
  unfold find. rewrite filter_cons. simpl. by rewrite decide_True.
Qed.

Lemma find_cons k kv l : find k (kv :: l) = if decide (kv.1 = k) then Some kv.2 else find k l.
Proof. unfold find. rewrite filter_cons. by case_decide. Qed.

Lemma find_drop_ne k k' l : k <> k' -> find k' (drop_key k l) = find k' l.
Proof.
  intros Hne. unfold drop_key. induction l as [|kv l IH]; [done|]. rewrite filter_cons, (find_cons k' kv l).
  case_decide as H1; [rewrite find_cons|]; case_decide as H2; try done. congruence.
Qed.

Lemma find_fit room k l : find k (fit room l) = find k l \/ find k (fit room l) = None.
Proof.
  revert room. induction l as [|kv l IH]; intros room; cbn [fit]; [auto|].
  destruct (room <? zlen kv.2); [auto|]. rewrite !find_cons. case_decide; auto.
Qed.

Lemma find_fit_sub max k k' b l :
  k <> k' -> let r := find k' (fit max ((k, b) :: drop_key k l)) in r = find k' l \/ r = None.
Proof.
  intros Hne. destruct (find_fit max k' ((k, b) :: drop_key k l)) as [E|E]; [left|by right].
  rewrite E, find_cons, decide_False by done. by apply find_drop_ne.
Qed.

(** A stripe that fits the budget is served back by the next [Get] of the
    same file and index, and a lookup of any other stripe answers what it
    answered before the insertion or misses - never another stripe's bytes.
    The key string of two different stripes is never the same. *)
Lemma Put_Get_hit max ops f i f' i' b :
  zlen b <= max -> 0 <= i < 2 ^ 63 -> 0 <= i' < 2 ^ 63 -> (f', i') <> (f, i) ->
  let c := run max ops in
  (Get (Put c f i b) f i).2 = Some b /\
  ((Get (Put c f i b) f' i').2 = (Get c f' i').2 \/ (Get (Put c f i b) f' i').2 = None).
Proof.
  intros Hb Hi Hi' Hne c. destruct (run_spec max ops) as (Hw & Hm & _). fold c in Hw, Hm.
  destruct (lru_Put_spec c f i b Hw) as (Hw' & _ & He).
  pose proof (lru_Get_spec c f' i' Hw) as G0. pose proof (lru_Get_spec _ f i Hw') as G1.
  pose proof (lru_Get_spec _ f' i' Hw') as G2.
  destruct (Get c f' i'), (Get (Put c f i b) f i), (Get (Put c f i b) f' i'). simpl.
  destruct G0 as (_ & _ & -> & _), G1 as (_ & _ & -> & _), G2 as (_ & _ & -> & _).
  rewrite He. unfold spec_put. rewrite Hm, (proj2 (Z.ltb_ge _ _)) by done.
  split; [by apply find_fit_head|].
  assert (Hk : cacheKey f i <> cacheKey f' i') by (intros E; apply cacheKey_inj in E as [-> ->]; done).
  destruct (find_fit_sub max (cacheKey f i) (cacheKey f' i') b (entries c) Hk) as [-> | ->]; auto.
Qed.

Lemma Put_Get_hit_witness :
  let c := run 4 [OpPut "f" 7 [Byte.x01; Byte.x02]] in
  (Get (Put c "f" 1 [Byte.x03]) "f" 1).2 = Some [Byte.x03] /\
  (Get (Put c "f" 1 [Byte.x03]) "f" 7).2 = Some [Byte.x01; Byte.x02].
Proof.
  split; [|reflexivity].
  apply (Put_Get_hit 4 [OpPut "f" 7 [Byte.x01; Byte.x02]] "f" 1 "f" 7); [vm_compute; discriminate|lia|lia|discriminate].
Defined.

(** A cache whose entries for one file agree with [f] stays so. *)
Definition agrees c (fileID : string) (f : Z -> bytes) : Prop :=
  wf c /\ forall i b, 0 <= i < 2 ^ 63 -> find (cacheKey fileID i) (entries c) = Some b -> b = f i.

Lemma find_spec_get k k' l : find k' (spec_get k l) = find k' l.
Proof.
  unfold spec_get. destruct (find k l) as [b|] eqn:E; [|done]. rewrite find_cons. simpl.
  case_decide as Ek; [by subst|]. by apply find_drop_ne.
Qed.

Lemma find_spec_put max k k' b b' l :
  find k' (spec_put max k b l) = Some b' -> find k' l = Some b' \/ (k' = k /\ b' = b).
Proof.
  unfold spec_put. destruct (max <? zlen b); [auto|]. intros Hf.
  destruct (find_fit max k' ((k, b) :: drop_key k l)) as [E|E]; rewrite E in Hf; [|done].
  rewrite find_cons in Hf. simpl in Hf. case_decide as Ek; [injection Hf as <-; auto|].
  left. by rewrite find_drop_ne in Hf.
Qed.

Lemma Get_agrees c fileID f i :
  0 <= i < 2 ^ 63 -> agrees c fileID f ->
  agrees (Get c fileID i).1 fileID f /\ forall b, (Get c fileID i).2 = Some b -> b = f i.
Proof.
  intros Hi [Hw Hf]. pose proof (lru_Get_spec c fileID i Hw) as Hg. destruct (Get c fileID i) as [c' r].
  destruct Hg as (Hw' & _ & Hr & He). simpl. split.
  - split; [done|]. intros j b Hj. rewrite He, find_spec_get. auto.
  - intros b ->. by apply Hf.
Qed.

Lemma Put_agrees c fileID f i : 0 <= i < 2 ^ 63 -> agrees c fileID f -> agrees (Put c fileID i (f i)) fileID f.
Proof.
  intros Hi [Hw Hf]. destruct (lru_Put_spec c fileID i (f i) Hw) as (Hw' & _ & He). split; [done|].
  intros j b Hj. rewrite He. intros [?|[E ->]]%find_spec_put; [auto|].
  by apply cacheKey_inj in E as [_ ->].
Qed.

(** The same when other files are asked for and put. *)
Lemma Get_keeps c fileID f fileID' i : agrees c fileID f -> agrees (Get c fileID' i).1 fileID f.
Proof.
  intros [Hw Hf]. pose proof (lru_Get_spec c fileID' i Hw) as Hg. destruct (Get c fileID' i) as [c' r].
  destruct Hg as (Hw' & _ & _ & He). split; [done|]. intros j b Hj. simpl. rewrite He, find_spec_get. auto.
Qed.

Lemma Put_keeps c fileID f fileID' i b :
  0 <= i < 2 ^ 63 -> (fileID' = fileID -> b = f i) -> agrees c fileID f -> agrees (Put c fileID' i b) fileID f.
Proof.
  intros Hi Hb [Hw Hf]. destruct (lru_Put_spec c fileID' i b Hw) as (Hw' & _ & He). split; [done|].
  intros j b' Hj. rewrite He. intros [?|[E ->]]%find_spec_put; [auto|].
  apply cacheKey_inj in E as [-> ->]; [by apply Hb|done..].
Qed.

Lemma NewStripeCache_agrees max fileID f : agrees (NewStripeCache max) fileID f.
Proof. split; [apply NewStripeCache_wf|]. done. Qed.

End cache.
