(* ===== verification/Manifest.v ===== *)
(** * internal/manifest/manifest.go: file manifests and their records

    The manifest describes how a file was cut into stripes and which peer holds
    which shard slot.  Manifests live in the key/value store under
    [manifest/<file id>], encoded as CBOR. *)

From S2P Require Import Prelude Ext Concrete Store.

Module manifest.

Record Stripe := NewStripe {
  Index : Z;
  ShardIDs : list string;
  PlaintextBytes : Z;
  CiphertextBytes : Z
}.

Record Manifest := NewManifest {
  FileID : string;
  GroupID : string;
  Filename : string;
  Size : Z;
  DataShards : Z;
  ParityShards : Z;
  StripeDataSize : Z;
  Holders : list string;
  Stripes : list Stripe;
  CreatedAt : Z;
  OwnerPeerID : string;
  Mode : string;
  WrappedKey : bytes;
  FilenameEncrypted : bool
}.

Definition ModeShared : string := "shared".
Definition ModePrivate : string := "private".

#[global] Instance Stripe_eq_dec : EqDecision Stripe.
Proof. solve_decision. Defined.
#[global] Instance Manifest_eq_dec : EqDecision Manifest.
Proof. solve_decision. Defined.

Implicit Types m : Manifest.

Definition HolderForShard m (idx : Z) : string :=
  if (idx <? 0) || (zlen (Holders m) <=? idx) then ""
  else default "" (Holders m !! Z.to_nat idx).

(** ** What the encoding keeps

    Text must be UTF-8, integers fit their type, arrays stay under the decoder's
    limit of 131072 elements; the creation time is written in whole seconds. *)
Definition max_array : Z := 131072.

Definition stripe_ok (st : Stripe) : bool :=
  int64_ok (Index st) && forallb text_ok (ShardIDs st) && (zlen (ShardIDs st) <=? max_array)
  && int64_ok (PlaintextBytes st) && int64_ok (CiphertextBytes st).

Definition manifest_ok m : bool :=
  text_ok (FileID m) && text_ok (GroupID m) && text_ok (Filename m) && int64_ok (Size m)
  && int64_ok (DataShards m) && int64_ok (ParityShards m) && int64_ok (StripeDataSize m)
  && forallb text_ok (Holders m) && (zlen (Holders m) <=? max_array)
  && forallb stripe_ok (Stripes m) && (zlen (Stripes m) <=? max_array)
  && int64_ok (Unix (CreatedAt m)) && text_ok (OwnerPeerID m) && text_ok (Mode m).

Definition manifest_norm m : Manifest :=
  NewManifest (FileID m) (GroupID m) (Filename m) (Size m) (DataShards m) (ParityShards m)
    (StripeDataSize m) (Holders m) (Stripes m) (whole_second (CreatedAt m)) (OwnerPeerID m)
    (Mode m) (WrappedKey m) (FilenameEncrypted m).

Lemma norm_idemp m : manifest_norm (manifest_norm m) = manifest_norm m.
Proof. unfold manifest_norm. simpl. by rewrite whole_second_idemp. Qed.

Abbreviation ManifestCbor := (Cbor Manifest manifest_ok manifest_norm).

Section with_libraries.
Context `{Badger, !ManifestCbor}.
Implicit Types s : db.

Definition keyPrefix : string := "manifest/".

Definition key (fileID : string) : string := keyPrefix +:+ fileID.

Definition Put s m : db * outcome unit :=
  match Marshal m with
  | Ok raw => store.Put s (key (FileID m)) raw
  | Err e => (s, Err e)
  | Panic => (s, Panic)
  end.

Definition Get s (fileID : string) : outcome Manifest :=
  match store.Get s (key fileID) with
  | Err e => if errors_Is e ErrStoreNotFound then Err ErrManifestNotFound else Err e
  | Panic => Panic
  | Ok raw => Unmarshal raw
  end.

Definition List s : outcome (list Manifest) :=
  let '(out, err) := store.Iterate s keyPrefix
    (fun out _ v => (match Unmarshal v with Ok m => out ++ [m] | _ => out end, true)) [] in
  let! _ := err in Ok out.

(** [Marshal] and [Unmarshal] of the package. *)
Definition Marshal' m : outcome bytes := Marshal m.

Definition Unmarshal' (raw : bytes) : outcome Manifest := Unmarshal raw.

(** ** Lemmas *)

Definition dec (v : bytes) : option Manifest := match Unmarshal v with Ok m => Some m | _ => None end.

Lemma List_scan s : List s = Ok (omap (fun kv => dec kv.2) (store.scan s keyPrefix)).
Proof.
  unfold List. erewrite store.Iterate_ext, (store.Iterate_collect s keyPrefix (fun _ v => dec v)); [done|].
  intros out k v. unfold dec. by destruct (Unmarshal v).
Qed.

Lemma key_inj f f' : key f = key f' -> f = f'.
Proof. unfold key. apply (inj (String.app keyPrefix)). Qed.

Lemma Get_view s f : Get s f = match db_view s !! key f with
  | Some raw => Unmarshal raw | None => Err ErrManifestNotFound end.
Proof. unfold Get. rewrite store.Get_spec. by destruct (db_view s !! key f). Qed.

Lemma Put_Get_same s m s' :
  manifest_ok m = true -> Put s m = (s', Ok tt) -> Get s' (FileID m) = Ok (manifest_norm m).
Proof.
  unfold Put. intros Hok. destruct (Marshal_total m) as [raw Hraw]. rewrite Hraw. intros HP.
  rewrite Get_view, (store.Put_Ok _ _ _ _ HP), lookup_insert_eq. by apply Unmarshal_Marshal.
Qed.

(** A manifest that does not decode again leaves nothing to find. *)
Lemma Put_Get_bad s m s' :
  manifest_ok m = false -> Put s m = (s', Ok tt) -> exists e, Get s' (FileID m) = Err e.
Proof.
  unfold Put. intros Hok. destruct (Marshal_total m) as [raw Hraw]. rewrite Hraw. intros HP.
  rewrite Get_view, (store.Put_Ok _ _ _ _ HP), lookup_insert_eq. by eapply Unmarshal_bad.
Qed.

Lemma Put_Get_other s m s' r f : Put s m = (s', r) -> f <> FileID m -> Get s' f = Get s f.
Proof.
  unfold Put, Get. intros HP Hne. destruct (Marshal m); [|by simplify_eq..].
  rewrite (store.Put_other _ _ _ _ _ (key f) HP); [done|]. by intros E%key_inj.
Qed.

Lemma Put_Err_same s m s' e f : Put s m = (s', Err e) -> Get s' f = Get s f.
Proof.
  unfold Put. rewrite !Get_view. intros HP. destruct (Marshal m); [|by simplify_eq..].
  by rewrite (store.Put_Err _ _ _ _ _ HP).
Qed.

Lemma Put_never_panics s m s' : Put s m <> (s', Panic).
Proof. unfold Put. destruct (Marshal_total m) as [raw ->]. apply store.Put_no_panic. Qed.

Lemma elem_of_List s ms m :
  List s = Ok ms -> m ∈ ms <-> exists f, Get s f = Ok m.
Proof.
  rewrite List_scan. intros [= <-]. rewrite list_elem_of_omap. split.
  - intros ([k v] & [Hv [f ->]%has_prefix_spec]%store.elem_of_scan & Hm). exists f.
    rewrite Get_view. fold (key f) in Hv. unfold key in *. rewrite Hv. unfold dec in Hm. simpl in Hm.
    destruct (Unmarshal v); by simplify_eq.
  - intros (f & Hg). rewrite Get_view in Hg. destruct (db_view s !! key f) as [v|] eqn:Hv; [|done].
    exists (key f, v). split; [|by unfold dec; simpl; rewrite Hg].
    apply store.elem_of_scan. split; [done|apply has_prefix_app].
Qed.

(** Every record sits under its own file identifier. *)
Definition filed s : Prop := forall f m, Get s f = Ok m -> FileID m = f.

Lemma Put_filed s m s' r : filed s -> Put s m = (s', r) -> filed s'.
Proof.
  intros Hf HP f m' Hg. destruct (decide (f = FileID m)) as [->|Hne].
  2: { rewrite (Put_Get_other _ _ _ _ _ HP Hne) in Hg. auto. }
  destruct r as [[]|e|].
  - destruct (manifest_ok m) eqn:Hok.
    + rewrite (Put_Get_same _ _ _ Hok HP) in Hg. by injection Hg as <-.
    + destruct (Put_Get_bad _ _ _ Hok HP) as [e E]. by rewrite E in Hg.
  - rewrite (Put_Err_same _ _ _ _ _ HP) in Hg. auto.
  - by apply Put_never_panics in HP.
Qed.

(** The manifest table.  In a table where each record sits under its own
    file identifier, [Put] keeps that so whether or not the write succeeds, a
    successful [Put] makes [Get] of that file return the manifest (its creation
    time cut to whole seconds), every other file's [Get] is unchanged, and
    [List] returns exactly the manifests [Get] returns. *)
Theorem Put_Get_List s m s' r :
  filed s -> manifest_ok m = true -> Put s m = (s', r) ->
  filed s' /\
  (r = Ok tt -> Get s' (FileID m) = Ok (manifest_norm m)) /\
  (forall f, f <> FileID m -> Get s' f = Get s f) /\
  (r <> Ok tt -> forall f, Get s' f = Get s f) /\
  exists ms, List s' = Ok ms /\ forall m', m' ∈ ms <-> Get s' (FileID m') = Ok m'.
Proof.
  intros Hf Hok HP. pose proof (Put_filed _ _ _ _ Hf HP) as Hf'. split_and!; [done|..].
  - intros ->. by apply (Put_Get_same s).
  - intros f. by apply (Put_Get_other _ _ _ r).
  - intros Hr f. destruct r as [[]|e|]; [done|by apply (Put_Err_same _ _ _ e _ HP)|].
    unfold Put in HP. destruct (Marshal_total m) as [raw Hraw]. rewrite Hraw in HP.
    by apply store.Put_no_panic in HP.
  - exists (omap (fun kv => dec kv.2) (store.scan s' keyPrefix)). split; [apply List_scan|].
    intros m'. rewrite (elem_of_List s') by apply List_scan. split; [|eauto].
    intros (f & Hg). by rewrite (Hf' f m' Hg).
Qed.

End with_libraries.

Lemma filed_empty `{!ManifestCbor} : filed store.empty.
Proof. intros f m. by rewrite Get_view. Qed.

(** ** An executable codec, and the witness *)

Definition stripe_to (st : Stripe) : ctree :=
  GenNode 1 [tz (Index st); tlist ts (ShardIDs st); tz (PlaintextBytes st); tz (CiphertextBytes st)].

Definition stripe_of (t : ctree) : option Stripe :=
  match t with
  | GenNode _ [a; b; c; d] =>
      a ← of_tz a; b ← of_tlist of_ts b; c ← of_tz c; d ← of_tz d; Some (NewStripe a b c d)
  | _ => None
  end.

Definition manifest_to m : ctree :=
  GenNode 2 [ts (FileID m); ts (GroupID m); ts (Filename m); tz (Size m); tz (DataShards m);
    tz (ParityShards m); tz (StripeDataSize m); tlist ts (Holders m); tlist stripe_to (Stripes m);
    tz (CreatedAt m); ts (OwnerPeerID m); ts (Mode m); tb (WrappedKey m); tbool (FilenameEncrypted m)].

Definition manifest_of (t : ctree) : option Manifest :=
  match t with
  | GenNode _ [a; b; c; d; e; f; g; h; i; j; k; l; m; n] =>
      a ← of_ts a; b ← of_ts b; c ← of_ts c; d ← of_tz d; e ← of_tz e; f ← of_tz f; g ← of_tz g;
      h ← of_tlist of_ts h; i ← of_tlist stripe_of i; j ← of_tz j; k ← of_ts k; l ← of_ts l;
      m ← of_tb m; n ← of_tbool n; Some (NewManifest a b c d e f g h i j k l m n)
  | _ => None
  end.

Lemma stripe_of_to st : stripe_of (stripe_to st) = Some st.
Proof.
  destruct st. unfold stripe_of, stripe_to. cbn [Index ShardIDs PlaintextBytes CiphertextBytes].
  rewrite (of_tlist_tlist ts of_ts) by done. reflexivity.
Qed.

#[global] Instance manifest_cbor : ManifestCbor.
Proof.
  refine (tree_cbor _ _ manifest_to manifest_of _ _).
  2: { intros m. unfold manifest_ok. simpl. by rewrite Unix_whole_second. }
  intros [].
  unfold manifest_of, manifest_to.
  cbn [FileID GroupID Filename Size DataShards ParityShards StripeDataSize Holders Stripes CreatedAt
    OwnerPeerID Mode WrappedKey FilenameEncrypted].
  rewrite (of_tlist_tlist ts of_ts), (of_tlist_tlist stripe_to stripe_of), of_tb_tb, of_tbool_tbool
    by (done || apply stripe_of_to).
  reflexivity.
Defined.

Definition sample : Manifest :=
  NewManifest "ab01" "g" "a.txt" 3 2 1 4 ["p0"; "p1"; "p2"] [NewStripe 0 ["s0"; "s1"; "s2"] 3 31]
    1700000000123456789 "p0" ModeShared [Byte.x07] false.

Lemma Put_Get_List_witness :
  let s' := (Put store.empty sample).1 in
  Get s' "ab01" = Ok (manifest_norm sample) /\ List s' = Ok [manifest_norm sample].
Proof.
  destruct (Put_Get_List store.empty sample
    (Put store.empty sample).1 (Ok tt) filed_empty)
    as (_ & Hg & _); [vm_compute; reflexivity..|].
  split; [exact (Hg eq_refl)|vm_compute; reflexivity].
Defined.

End manifest.
