(* ===== verification/Ledger.v ===== *)
(** * internal/ledger/ledger.go: traffic accounting and peer liveness

    The ledger is a write-coalescing cache: [dirty] holds the entries touched
    since the last [Flush], the key/value store the rest.  The mutex is held
    for the whole of each [Record...] call, which is therefore one step; [Flush]
    takes the dirty map under the mutex and writes after releasing it. *)

From S2P Require Import Prelude Ext Concrete Store.

Module ledger.

Record Entry := NewEntry {
  PeerID : string;
  StoredForThemBytes : Z;
  ServedToThemBytes : Z;
  StoredOnThemBytes : Z;
  DownloadedFromBytes : Z;
  IsOnline_ : bool;
  ConsecFailures : Z;
  LastPingAt : Z;
  LastSeenAt : Z;
  OfflineSince : Z;
  Reputation : Z;
  UpdatedAt : Z
}.

#[global] Instance Entry_eq_dec : EqDecision Entry.
Proof. solve_decision. Defined.

Implicit Types (e : Entry) (p : string).

(** [&Entry{PeerID: peerID}] *)
Definition zeroEntry p : Entry :=
  NewEntry p 0 0 0 0 false 0 time_zero time_zero time_zero 0 time_zero.

Definition set_UpdatedAt e (t : Z) : Entry :=
  NewEntry (PeerID e) (StoredForThemBytes e) (ServedToThemBytes e) (StoredOnThemBytes e)
    (DownloadedFromBytes e) (IsOnline_ e) (ConsecFailures e) (LastPingAt e) (LastSeenAt e)
    (OfflineSince e) (Reputation e) t.

(** The entry with the four byte counters increased. *)
Definition add_bytes e (stored served on dl : Z) : Entry :=
  NewEntry (PeerID e) (wrap64 (StoredForThemBytes e + stored)) (wrap64 (ServedToThemBytes e + served))
    (wrap64 (StoredOnThemBytes e + on)) (wrap64 (DownloadedFromBytes e + dl)) (IsOnline_ e)
    (ConsecFailures e) (LastPingAt e) (LastSeenAt e) (OfflineSince e) (Reputation e) (UpdatedAt e).

Definition set_liveness e (online : bool) (failures ping seen offline rep : Z) : Entry :=
  NewEntry (PeerID e) (StoredForThemBytes e) (ServedToThemBytes e) (StoredOnThemBytes e)
    (DownloadedFromBytes e) online failures ping seen offline rep (UpdatedAt e).

Definition OfflineThreshold : Z := 3.
Definition ReputationBaseline : Z := 100.
Definition ReputationMin : Z := 0.
Definition ReputationMax : Z := 100.
Definition ReputationGainOnPing : Z := 1.
Definition ReputationLossOnFail : Z := 5.

(** What the encoding keeps of an entry: UTF-8 text, whole seconds. *)
Definition entry_ok e : bool :=
  text_ok (PeerID e) && int64_ok (StoredForThemBytes e) && int64_ok (ServedToThemBytes e)
  && int64_ok (StoredOnThemBytes e) && int64_ok (DownloadedFromBytes e) && int64_ok (ConsecFailures e)
  && int64_ok (Unix (LastPingAt e)) && int64_ok (Unix (LastSeenAt e)) && int64_ok (Unix (OfflineSince e))
  && int64_ok (Reputation e) && int64_ok (Unix (UpdatedAt e)).

Definition entry_norm e : Entry :=
  NewEntry (PeerID e) (StoredForThemBytes e) (ServedToThemBytes e) (StoredOnThemBytes e)
    (DownloadedFromBytes e) (IsOnline_ e) (ConsecFailures e) (whole_second (LastPingAt e))
    (whole_second (LastSeenAt e)) (whole_second (OfflineSince e)) (Reputation e)
    (whole_second (UpdatedAt e)).

Abbreviation EntryCbor := (Cbor Entry entry_ok entry_norm).

Record PingResult := NewPingResult {
  WentOffline : bool;
  WentOnline : bool;
  ResIsOnline : bool;
  ResReputation : Z
}.

(** [Ledger.dirty] *)
Abbreviation dirty_map := (gmap string Entry).

Section with_libraries.
Context `{Badger, !EntryCbor}.
Implicit Types (s : db) (l : dirty_map).

Definition keyPrefix : string := "ledger/local/".

Definition key p : string := keyPrefix +:+ p.

Definition loadEntry s p : option Entry :=
  match store.Get s (key p) with
  | Ok raw => match Unmarshal raw with Ok e => Some e | _ => None end
  | _ => None
  end.

(** [touchLocked] returns a pointer to the entry that is in [dirty] afterwards:
    here its contents, the callers store what they make of it. *)
Definition touchLocked s l p (now : Z) : Entry :=
  match l !! p with
  | Some e => set_UpdatedAt e now
  | None => set_UpdatedAt (default (zeroEntry p) (loadEntry s p)) now
  end.

Definition RecordStoredForThem s l p (n now : Z) : dirty_map :=
  <[p := add_bytes (touchLocked s l p now) n 0 0 0]> l.

Definition RecordServedToThem s l p (n now : Z) : dirty_map :=
  <[p := add_bytes (touchLocked s l p now) 0 n 0 0]> l.

Definition RecordStoredOnThem s l p (n now : Z) : dirty_map :=
  <[p := add_bytes (touchLocked s l p now) 0 0 n 0]> l.

Definition RecordDownloadedFrom s l p (n now : Z) : dirty_map :=
  <[p := add_bytes (touchLocked s l p now) 0 0 0 n]> l.

(** The update of the entry in [RecordPing]. *)
Definition probe e (ok : bool) (now : Z) : Entry :=
  let rep0 := if IsZero (LastPingAt e) then ReputationBaseline else Reputation e in
  if ok then
    let rep := if rep0 <? ReputationMax then
                 let r := rep0 + ReputationGainOnPing in
                 if ReputationMax <? r then ReputationMax else r
               else rep0 in
    set_liveness e true 0 now now
      (if negb (IsZero (OfflineSince e)) then time_zero else OfflineSince e) rep
  else
    let failures := wrap64 (ConsecFailures e + 1) in
    if OfflineThreshold <=? failures then
      let loss := if wrap64 (rep0 - ReputationLossOnFail) <? ReputationMin
                  then rep0 - ReputationMin else ReputationLossOnFail in
      set_liveness e false failures now (LastSeenAt e)
        (if IsZero (OfflineSince e) then now else OfflineSince e)
        (if 0 <? loss then rep0 - loss else rep0)
    else
      set_liveness e (IsOnline_ e) failures now (LastSeenAt e) (OfflineSince e) rep0.

(** [RecordPing]; [now] is the first and [now'] the second clock reading. *)
Definition RecordPing s l p (ok : bool) (now now' : Z) : dirty_map * PingResult :=
  let e := touchLocked s l p now in
  let wasOnline := if IsZero (LastPingAt e) then ok else IsOnline_ e in
  let e' := probe e ok now' in
  (<[p := e']> l,
   NewPingResult (wasOnline && negb (IsOnline_ e')) (negb wasOnline && IsOnline_ e') (IsOnline_ e')
     (Reputation e')).

Definition IsOnline s l p : bool :=
  match l !! p with
  | Some e => IsOnline_ e
  | None => match loadEntry s p with Some e => IsOnline_ e | None => false end
  end.

(** [Flush]: the loop over the entries taken, in the order the runtime ranges
    over the map.  The entries after a failed write are not kept. *)
Fixpoint flush_loop s (pending : list (string * Entry)) : db * outcome unit :=
  match pending with
  | [] => (s, Ok tt)
  | (_, e) :: pending' =>
      match Marshal e with
      | Err err => (s, Err err)
      | Panic => (s, Panic)
      | Ok raw =>
          match store.Put s (key (PeerID e)) raw with
          | (s', Ok _) => flush_loop s' pending'
          | (s', r) => (s', r)
          end
      end
  end.

(** Go ranges over a map in an order of its own choice. *)
Context (range : dirty_map -> list (string * Entry)).

Definition Flush s l : db * dirty_map * outcome unit :=
  let '(s', r) := flush_loop s (range l) in (s', ∅, r).

Definition All s l : outcome (list Entry) :=
  let '(disk, err) := store.Iterate s keyPrefix
    (fun (disk : dirty_map) _ v =>
       (match Unmarshal v with Ok e => <[PeerID e := e]> disk | _ => disk end, true)) ∅ in
  let! _ := err in
  Ok (map snd (range (l ∪ disk))).

(** ** Looking entries up *)

(** The entry the ledger has for a peer, written back or not. *)
Definition view s l p : option Entry :=
  match l !! p with Some e => Some e | None => loadEntry s p end.

(** Written entries sit under the peer they are about. *)
Definition filed s : Prop := forall p e, loadEntry s p = Some e -> PeerID e = p.

Lemma entry_key_inj p p' : key p = key p' -> p = p'.
Proof. unfold key. apply (inj (String.app keyPrefix)). Qed.

Lemma touchLocked_view s l p now :
  touchLocked s l p now = set_UpdatedAt (default (zeroEntry p) (view s l p)) now.
Proof. unfold touchLocked, view. by destruct (l !! p). Qed.

Lemma view_insert s l p e p' :
  view s (<[p := e]> l) p' = if decide (p' = p) then Some e else view s l p'.
Proof.
  unfold view. case_decide as E; [subst; by rewrite lookup_insert_eq|by rewrite lookup_insert_ne].
Qed.

Lemma IsOnline_view s l p : IsOnline s l p = default false (IsOnline_ <$> view s l p).
Proof. unfold IsOnline, view. by destruct (l !! p), (loadEntry s p). Qed.

(** Accounting says nothing about who is online. *)
Lemma StoredOnThem_online s l q n now p : IsOnline s (RecordStoredOnThem s l q n now) p = IsOnline s l p.
Proof.
  unfold IsOnline, RecordStoredOnThem. destruct (decide (q = p)) as [->|Hne]; [|by rewrite lookup_insert_ne].
  rewrite lookup_insert_eq. unfold touchLocked. destruct (l !! p); [done|]. by destruct (loadEntry s p).
Qed.

Lemma loadEntry_put s e raw s' p :
  entry_ok e = true -> Marshal e = Ok raw -> store.Put s (key (PeerID e)) raw = (s', Ok tt) ->
  loadEntry s' p = if decide (p = PeerID e) then Some (entry_norm e) else loadEntry s p.
Proof.
  intros Hok Hm HP. unfold loadEntry. rewrite !store.Get_spec, (store.Put_Ok _ _ _ _ HP).
  case_decide as E.
  - subst. rewrite lookup_insert_eq, (Unmarshal_Marshal e raw Hok Hm). done.
  - rewrite lookup_insert_ne; [done|]. by intros E'%entry_key_inj.
Qed.

Lemma flush_loop_spec pending : forall s s',
  Forall (fun pe => PeerID pe.2 = pe.1 /\ entry_ok pe.2 = true) pending -> NoDup pending.*1 ->
  flush_loop s pending = (s', Ok tt) ->
  forall p, loadEntry s' p = match (list_to_map pending : dirty_map) !! p with
                             | Some e => Some (entry_norm e)
                             | None => loadEntry s p
                             end.
Proof.
  induction pending as [|[p0 e] pending IH]; intros s s' Hp Hn HF p; simpl in *.
  { injection HF as <-. by rewrite lookup_empty. }
  apply Forall_cons in Hp as [[He Hok] Hp]. apply NoDup_cons in Hn as [Hnin Hn]. simpl in He. subst p0.
  destruct (Marshal e) as [raw| |] eqn:Hm; [|done..].
  destruct (store.Put s _ raw) as [s1 [[]| |]] eqn:HP; [|done..].
  rewrite (IH s1 s' Hp Hn HF p), (loadEntry_put _ _ _ _ p Hok Hm HP).
  case_decide as E.
  - subst. rewrite lookup_insert_eq, (not_elem_of_list_to_map_1 _ _ Hnin). done.
  - by rewrite lookup_insert_ne.
Qed.

Hypothesis range_spec : forall l, range l ≡ₚ map_to_list l.

Lemma range_NoDup l : NoDup (range l).*1.
Proof. rewrite (range_spec l). apply NoDup_fst_map_to_list. Qed.

Lemma range_map l : (list_to_map (range l) : dirty_map) = l.
Proof.
  etrans; [|apply list_to_map_to_list]. apply list_to_map_proper; [apply range_NoDup|apply range_spec].
Qed.

(** A flush that returns without error leaves the ledger's answers as they
    were, times cut to whole seconds. *)
Lemma Flush_load s l s' l' :
  (forall p e, l !! p = Some e -> PeerID e = p /\ entry_ok e = true) -> Flush s l = (s', l', Ok tt) ->
  l' = ∅ /\
  forall p, loadEntry s' p = match l !! p with Some e => Some (entry_norm e) | None => loadEntry s p end.
Proof.
  intros Hd. unfold Flush. destruct (flush_loop s (range l)) as [s1 r] eqn:HF. intros [= <- <- ->].
  split; [done|]. intros p. rewrite (flush_loop_spec (range l) s s1), range_map; [done| |apply range_NoDup|done].
  apply Forall_forall. intros [p' e]. rewrite (range_spec l), elem_of_map_to_list. simpl. auto.
Qed.

(** ** Histories

    What happened to a peer: the bytes counted in each direction and the
    probes, newest first. *)
Inductive event :=
  | EvStoredForThem p (n : Z)
  | EvServedToThem p (n : Z)
  | EvStoredOnThem p (n : Z)
  | EvDownloadedFrom p (n : Z)
  | EvPing p (ok : bool)
  | EvFlush.

Definition event_ok (ev : event) : bool :=
  match ev with
  | EvStoredForThem p _ | EvServedToThem p _ | EvStoredOnThem p _ | EvDownloadedFrom p _ | EvPing p _ => text_ok p
  | EvFlush => true
  end.

Definition clock (t : Z) : Prop := 0 <= t < 2 ^ 63.

Inductive step : db * dirty_map -> event -> db * dirty_map -> Prop :=
  | step_stored s l p n t : clock t -> step (s, l) (EvStoredForThem p n) (s, RecordStoredForThem s l p n t)
  | step_served s l p n t : clock t -> step (s, l) (EvServedToThem p n) (s, RecordServedToThem s l p n t)
  | step_on s l p n t : clock t -> step (s, l) (EvStoredOnThem p n) (s, RecordStoredOnThem s l p n t)
  | step_dl s l p n t : clock t -> step (s, l) (EvDownloadedFrom p n) (s, RecordDownloadedFrom s l p n t)
  | step_ping s l p ok t t' : clock t -> clock t' -> step (s, l) (EvPing p ok) (s, (RecordPing s l p ok t t').1)
  | step_flush s l s' l' : Flush s l = (s', l', Ok tt) -> step (s, l) EvFlush (s', l').

(** The history is kept newest event first. *)
Inductive reach (s0 : db) : list event -> db * dirty_map -> Prop :=
  | reach_nil : reach s0 [] (s0, ∅)
  | reach_step tr st ev st' :
      reach s0 tr st -> event_ok ev = true -> step st ev st' -> reach s0 (ev :: tr) st'.

Definition amount (pick : event -> option (string * Z)) (p : string) (tr : list event) : Z :=
  foldr (fun ev n => match pick ev with Some (p', b) => if decide (p' = p) then n + b else n | None => n end) 0 tr.

Definition stored ev := match ev with EvStoredForThem p n => Some (p, n) | _ => None end.
Definition served ev := match ev with EvServedToThem p n => Some (p, n) | _ => None end.
Definition stored_on ev := match ev with EvStoredOnThem p n => Some (p, n) | _ => None end.
Definition downloaded ev := match ev with EvDownloadedFrom p n => Some (p, n) | _ => None end.

Definition probes (p : string) (tr : list event) : list bool :=
  omap (fun ev => match ev with EvPing p' ok => if decide (p' = p) then Some ok else None | _ => None end) tr.

(** The current run of failed probes. *)
Fixpoint streak (h : list bool) : Z :=
  match h with
  | false :: h' => 1 + streak h'
  | _ => 0
  end.

(** Online: some probe succeeded, and fewer than three have failed since. *)
Definition online (h : list bool) : bool := existsb id h && (streak h <? OfflineThreshold).

Fixpoint reputation (h : list bool) : Z :=
  match h with
  | [] => 0
  | ok :: h' =>
      let r := match h' with [] => ReputationBaseline | _ => reputation h' end in
      if ok then Z.min ReputationMax (r + ReputationGainOnPing)
      else if OfflineThreshold <=? streak h then Z.max ReputationMin (r - ReputationLossOnFail) else r
  end.

Record live e (h : list bool) : Prop := {
  live_failures : ConsecFailures e = streak h;
  live_online : IsOnline_ e = online h;
  live_rep : Reputation e = reputation h;
  live_pinged : IsZero (LastPingAt e) = bool_decide (h = []);
  live_offline : IsZero (OfflineSince e) = (streak h <? OfflineThreshold);
  live_times : Forall (fun t => t = time_zero \/ clock t) [LastPingAt e; LastSeenAt e; OfflineSince e; UpdatedAt e]
}.

Record counts e p (tr : list event) : Prop := {
  counts_stored : StoredForThemBytes e = wrap64 (amount stored p tr);
  counts_served : ServedToThemBytes e = wrap64 (amount served p tr);
  counts_on : StoredOnThemBytes e = wrap64 (amount stored_on p tr);
  counts_dl : DownloadedFromBytes e = wrap64 (amount downloaded p tr)
}.

(** What the ledger has for a peer tells its history; a peer it has nothing for
    has none. *)
Definition tells (o : option Entry) p (tr : list event) : Prop :=
  let e := default (zeroEntry p) o in
  PeerID e = p /\ counts e p tr /\ live e (probes p tr) /\ (is_Some o -> text_ok p = true).

Lemma streak_nonneg h : 0 <= streak h <= zlen h.
Proof. unfold zlen. induction h as [|[] h IH]; cbn [streak length]; lia. Qed.

Lemma probes_length p tr : zlen (probes p tr) <= zlen tr.
Proof.
  unfold zlen, probes. induction tr as [|ev tr IH]; [done|]. cbn [omap list_omap].
  destruct (match ev with EvPing _ _ => _ | _ => _ end); cbn [length]; lia.
Qed.

Lemma reputation_bounds h : 0 <= reputation h <= 100.
Proof.
  induction h as [|b h IH]; [simpl; lia|]. cbn [reputation].
  unfold ReputationBaseline, ReputationMax, ReputationMin, ReputationGainOnPing, ReputationLossOnFail.
  destruct h, b; repeat case_match; lia.
Qed.

Lemma clock_pos t : clock t -> IsZero t = false.
Proof. unfold clock, IsZero, time_zero. intros. apply Z.eqb_neq. lia. Qed.

Lemma time_ok t : t = time_zero \/ clock t -> int64_ok (Unix t) = true.
Proof.
  intros [->|Ht]; [reflexivity|]. unfold clock in Ht. unfold int64_ok, Unix.
  pose proof (Z.div_pos t (10 ^ 9) ltac:(lia) ltac:(lia)).
  pose proof (Z.div_le_upper_bound t (10 ^ 9) t ltac:(lia) ltac:(lia)).
  rewrite (proj2 (Z.leb_le _ _)), (proj2 (Z.ltb_lt _ _)) by lia. done.
Qed.

Lemma time_norm t : t = time_zero \/ clock t ->
  IsZero (whole_second t) = IsZero t /\ (whole_second t = time_zero \/ clock (whole_second t)).
Proof.
  intros [->|Ht]; [split; [reflexivity|by left]|]. pose proof (whole_second_nonneg t ltac:(apply Ht)).
  assert (Hc : clock (whole_second t)) by (unfold clock in *; lia). rewrite !clock_pos by done. auto.
Qed.

Lemma int64_wrap z : int64_ok (wrap64 z) = true.
Proof.
  pose proof (wrap64_range z) as [? ?]. unfold int64_ok.
  rewrite (proj2 (Z.leb_le _ _)), (proj2 (Z.ltb_lt _ _)) by lia. done.
Qed.

Lemma int64_small z : 0 <= z < 2 ^ 63 -> int64_ok z = true.
Proof. intros. rewrite <- (wrap64_id z) by (unfold in_int64; lia). apply int64_wrap. Qed.

Lemma live_norm e h : live e h -> live (entry_norm e) h.
Proof.
  intros [H1 H2 H3 H4 H5 H6]. rewrite !Forall_cons in H6. destruct H6 as (T1 & T2 & T3 & T4 & _).
  constructor; simpl; try done.
  - by rewrite (proj1 (time_norm _ T1)).
  - by rewrite (proj1 (time_norm _ T3)).
  - repeat (apply Forall_cons; split; [by apply time_norm|]). by apply Forall_nil.
Qed.

Lemma live_touch e h t : clock t -> live e h -> live (set_UpdatedAt e t) h.
Proof.
  intros Ht [H1 H2 H3 H4 H5 H6]. rewrite !Forall_cons in H6. constructor; simpl; try done.
  rewrite !Forall_cons. tauto.
Qed.

Lemma live_zero p : live (zeroEntry p) [].
Proof. constructor; try reflexivity. simpl. repeat (apply Forall_cons; split; [by left|]). by apply Forall_nil. Qed.

Lemma tells_entry_ok e p tr : zlen tr < 2 ^ 63 -> tells (Some e) p tr -> entry_ok e = true.
Proof.
  intros Hlen (HP & [C1 C2 C3 C4] & [L1 L2 L3 L4 L5 L6] & Ht). simpl in *.
  rewrite !Forall_cons in L6. destruct L6 as (T1 & T2 & T3 & T4 & _).
  pose proof (streak_nonneg (probes p tr)). pose proof (probes_length p tr).
  pose proof (reputation_bounds (probes p tr)).
  unfold entry_ok. rewrite HP, C1, C2, C3, C4, L1, L3, Ht, !int64_wrap, !time_ok by eauto.
  by rewrite !int64_small by lia.
Qed.

Lemma tells_norm e p tr : tells (Some e) p tr -> tells (Some (entry_norm e)) p tr.
Proof.
  intros (HP & [C1 C2 C3 C4] & HL & Ht). split_and!; [done|by constructor|by apply live_norm|auto].
Qed.

(** An event about another peer, or a flush, does not change a peer's history. *)
Definition about (ev : event) : option string :=
  match ev with
  | EvStoredForThem p _ | EvServedToThem p _ | EvStoredOnThem p _ | EvDownloadedFrom p _ | EvPing p _ => Some p
  | EvFlush => None
  end.

Lemma tells_other o p ev tr : about ev <> Some p -> tells o p tr -> tells o p (ev :: tr).
Proof.
  intros Hne (HP & [C1 C2 C3 C4] & HL & Ht). unfold tells.
  assert (Hpr : probes p (ev :: tr) = probes p tr).
  { unfold probes. cbn [omap list_omap]. destruct ev; try done. case_decide; [|done]. simpl in Hne. congruence. }
  rewrite Hpr. split_and!; try done.
  destruct ev; simpl in Hne; constructor; simpl; try done; case_decide; try done; congruence.
Qed.

(** Counting bytes. *)
Lemma tells_add o p tr t a b c d ev :
  clock t -> text_ok p = true -> tells o p tr -> probes p (ev :: tr) = probes p tr ->
  amount stored p (ev :: tr) = amount stored p tr + a ->
  amount served p (ev :: tr) = amount served p tr + b ->
  amount stored_on p (ev :: tr) = amount stored_on p tr + c ->
  amount downloaded p (ev :: tr) = amount downloaded p tr + d ->
  tells (Some (add_bytes (set_UpdatedAt (default (zeroEntry p) o) t) a b c d)) p (ev :: tr).
Proof.
  intros Ht Hp (HP & [C1 C2 C3 C4] & HL & _) Hpr E1 E2 E3 E4. unfold tells. rewrite Hpr.
  split_and!; [done| | |done].
  - constructor; rewrite ?E1, ?E2, ?E3, ?E4; simpl; rewrite ?C1, ?C2, ?C3, ?C4; apply wrap64_add_l.
  - by destruct (live_touch _ _ _ Ht HL).
Qed.

Lemma online_cons ok h :
  online (ok :: h) = if ok then true else if OfflineThreshold <=? 1 + streak h then false else online h.
Proof.
  unfold online, OfflineThreshold. destruct ok; [reflexivity|]. simpl.
  destruct (Z.leb_spec 3 (1 + streak h)).
  - rewrite (proj2 (Z.ltb_ge _ _)) by lia. apply andb_false_r.
  - by rewrite !(proj2 (Z.ltb_lt _ _)) by lia.
Qed.

Lemma reputation_cons ok h :
  reputation (ok :: h) =
    let r := if bool_decide (h = []) then ReputationBaseline else reputation h in
    if ok then Z.min ReputationMax (r + ReputationGainOnPing)
    else if OfflineThreshold <=? 1 + streak h then Z.max ReputationMin (r - ReputationLossOnFail) else r.
Proof. by destruct h, ok. Qed.

(** One probe updates the entry as it extends the history. *)
Lemma live_probe e h ok t :
  zlen h < 2 ^ 63 - 1 -> clock t -> live e h -> live (probe e ok t) (ok :: h).
Proof.
  intros Hlen Ht [H1 H2 H3 H4 H5 H6]. rewrite !Forall_cons in H6. destruct H6 as (T1 & T2 & T3 & T4 & _).
  pose proof (streak_nonneg h). pose proof (reputation_bounds h) as Hr. unfold probe.
  rewrite H1, H3, H4, wrap64_id by (unfold in_int64; lia). rewrite (Z.add_comm (streak h) 1).
  pose proof (online_cons ok h) as Ho. pose proof (reputation_cons ok h) as Hrep. cbv zeta in Hrep.
  set (r0 := if bool_decide (h = []) then ReputationBaseline else reputation h) in *.
  assert (Hr0 : 0 <= r0 <= 100) by (unfold r0, ReputationBaseline; case_bool_decide; lia).
  unfold OfflineThreshold, ReputationMax, ReputationMin, ReputationGainOnPing, ReputationLossOnFail in *.
  assert (Hz : bool_decide (ok :: h = []) = false) by (by apply bool_decide_eq_false_2).
  destruct ok; [|destruct (Z.leb_spec 3 (1 + streak h))]; constructor; cbn [set_liveness ConsecFailures
    IsOnline_ Reputation LastPingAt LastSeenAt OfflineSince UpdatedAt]; rewrite ?Ho, ?Hrep, ?Hz, ?(clock_pos _ Ht);
    try done; cbn [streak]; unfold OfflineThreshold.
  - destruct (Z.ltb_spec r0 100); [|lia]. destruct (Z.ltb_spec 100 (r0 + 1)); lia.
  - destruct (IsZero (OfflineSince e)) eqn:E; [exact E|reflexivity].
  - rewrite !Forall_cons, Forall_nil. destruct (negb _); auto 6.
  - rewrite wrap64_id by (unfold in_int64; lia).
    destruct (Z.ltb_spec (r0 - 5) 0); [destruct (Z.ltb_spec 0 (r0 - 0)); lia|simpl; lia].
  - rewrite (proj2 (Z.ltb_ge (1 + streak h) 3)) by lia. destruct (IsZero (OfflineSince e)) eqn:E; [|exact E].
    by apply clock_pos.
  - rewrite !Forall_cons, Forall_nil. destruct (IsZero (OfflineSince e)); auto 6.
  - rewrite (proj2 (Z.ltb_lt (1 + streak h) 3)) by lia. rewrite H5. apply Z.ltb_lt. lia.
  - rewrite !Forall_cons, Forall_nil. auto 6.
Qed.

Lemma tells_ping o p tr t t' ok :
  zlen tr < 2 ^ 63 - 1 -> clock t -> clock t' -> text_ok p = true -> tells o p tr ->
  tells (Some (probe (set_UpdatedAt (default (zeroEntry p) o) t) ok t')) p (EvPing p ok :: tr).
Proof.
  intros Hlen Ht Ht' Hp (HP & [C1 C2 C3 C4] & HL & _). unfold tells.
  replace (probes p (EvPing p ok :: tr)) with (ok :: probes p tr)
    by (unfold probes; cbn [omap list_omap]; by rewrite decide_True).
  pose proof (probes_length p tr). cbn [default from_option id].
  assert (Hs : forall e, PeerID (probe e ok t') = PeerID e /\ StoredForThemBytes (probe e ok t') = StoredForThemBytes e /\
    ServedToThemBytes (probe e ok t') = ServedToThemBytes e /\ StoredOnThemBytes (probe e ok t') = StoredOnThemBytes e /\
    DownloadedFromBytes (probe e ok t') = DownloadedFromBytes e)
    by (intros e; unfold probe; by destruct ok; [|case_match]).
  destruct (Hs (set_UpdatedAt (default (zeroEntry p) o) t)) as (S1 & S2 & S3 & S4 & S5). split_and!.
  - by rewrite S1.
  - constructor; rewrite ?S2, ?S3, ?S4, ?S5; done.
  - apply live_probe; [lia|done|]. by apply live_touch.
  - auto.
Qed.

(** Every step keeps the ledger telling the truth. *)
Lemma reach_tells s0 tr st :
  (forall p, loadEntry s0 p = None) -> zlen tr < 2 ^ 63 -> reach s0 tr st ->
  filed st.1 /\ forall p, tells (view st.1 st.2 p) p tr.
Proof.
  intros Hs0 Hlen. induction 1 as [|tr st ev st' Hr IH Hev Hst].
  { split; [intros p e; by rewrite Hs0|]. intros p.
    unfold view. simpl. rewrite lookup_empty, Hs0. split_and!; [done|by constructor|apply live_zero|by intros []]. }
  assert (Hl : zlen tr < 2 ^ 63 - 1) by (unfold zlen in *; simpl in *; lia).
  specialize (IH ltac:(lia)). destruct IH as [Hf IH].
  assert (Hdirty : forall p' e, st.2 !! p' = Some e -> PeerID e = p' /\ entry_ok e = true).
  { intros p' e Hl'. specialize (IH p'). unfold view in IH. rewrite Hl' in IH.
    split; [apply IH|]. eapply tells_entry_ok; [|exact IH]. lia. }
  destruct Hst; simpl in Hev, IH, Hf, Hdirty |- *.
  6: { destruct (Flush_load _ _ _ _ Hdirty ltac:(eassumption)) as [-> HL]. split.
       - intros p' e. rewrite HL. destruct (l !! p') eqn:El; [|by apply Hf].
         intros [= <-]. by destruct (Hdirty _ _ El).
       - intros p. apply tells_other; [done|]. specialize (IH p). unfold view in *. rewrite lookup_empty, HL.
         destruct (l !! p); [|done]. by apply tells_norm. }
  all: split; [done|]; intros q;
    unfold RecordStoredForThem, RecordServedToThem, RecordStoredOnThem, RecordDownloadedFrom, RecordPing; simpl;
    rewrite touchLocked_view, view_insert; case_decide as E; [subst|apply tells_other; [simpl; congruence|apply IH]].
  5: by apply tells_ping.
  all: apply tells_add; try done; try apply IH; simpl; rewrite ?decide_True by done; lia.
Qed.

(** Executing a history at a fixed time. *)
Definition exec (t : Z) (st : db * dirty_map) (ev : event) : db * dirty_map * bool :=
  let '(s, l) := st in
  match ev with
  | EvStoredForThem p n => (s, RecordStoredForThem s l p n t, true)
  | EvServedToThem p n => (s, RecordServedToThem s l p n t, true)
  | EvStoredOnThem p n => (s, RecordStoredOnThem s l p n t, true)
  | EvDownloadedFrom p n => (s, RecordDownloadedFrom s l p n t, true)
  | EvPing p ok => (s, (RecordPing s l p ok t t).1, true)
  | EvFlush => let '(s', l', r) := Flush s l in (s', l', bool_decide (r = Ok tt))
  end.

Fixpoint run (t : Z) (s0 : db) (tr : list event) : db * dirty_map * bool :=
  match tr with
  | [] => (s0, ∅, true)
  | ev :: tr' =>
      let '(st, ok) := run t s0 tr' in
      let '(st', ok') := exec t st ev in
      (st', ok && event_ok ev && ok')
  end.

Lemma run_reach t s0 tr : clock t -> (run t s0 tr).2 = true -> reach s0 tr (run t s0 tr).1.
Proof.
  intros Ht. induction tr as [|ev tr IH]; intros Hok; simpl in *; [constructor|].
  destruct (run t s0 tr) as [st ok]. destruct (exec t st ev) as [st' ok'] eqn:Ex. simpl in *. go_bool.
  eapply reach_step; [apply IH; done|done|]. destruct st as [s l].
  destruct ev; simpl in Ex; try (injection Ex as <- _; by constructor).
  destruct (Flush s l) as [[s' l'] r] eqn:EF. injection Ex as <- <-. go_bool. subst. by constructor.
Qed.

(** The transitions of the liveness flag, in terms of the history. *)
Lemma transitions h ok :
  let was := if bool_decide (h = []) then ok else online h in
  let now := online (ok :: h) in
  (was && negb now = true <-> ok = false /\ streak h = 2 /\ existsb id h = true) /\
  (negb was && now = true <-> ok = true /\ h <> [] /\ online h = false).
Proof.
  cbv zeta. rewrite online_cons. pose proof (streak_nonneg h). case_bool_decide as Eh.
  { subst h. destruct ok; simpl; split; split; try done; intros (?&?&?); congruence. }
  destruct ok.
  { rewrite andb_false_r. destruct (online h); simpl; split; split; try done; intros (?&?&?); congruence. }
  destruct (Z.leb_spec OfflineThreshold (1 + streak h)) as [Hle|Hgt]; unfold OfflineThreshold in *.
  - rewrite andb_true_r, andb_false_r. unfold online, OfflineThreshold. split; split; try done.
    + intros (Hx & Hs)%andb_prop. go_bool. split_and!; [done|lia|done].
    + intros (_ & Hs & Hx). rewrite Hx, Hs. done.
    + by intros (? & _).
  - rewrite andb_negb_r. rewrite (andb_comm (negb _)), andb_negb_r. split; split; try done.
    + intros (_ & Hs & _). lia.
    + by intros (? & _).
Qed.

(** ** Correctness *)

(** [C10] The ledger tells each peer's history.  Start from a store without
    ledger records and run any sequence of [Record...] calls, probes and
    successful flushes: for every peer the four counters are the sums of the
    bytes recorded (in 64-bit arithmetic), [ConsecFailures] is the current run
    of failed probes, the peer is online exactly when some probe has succeeded
    and fewer than three have failed since, and its reputation is the reference
    value, between 0 and 100.  Flushing in between changes none of this. *)
Theorem ledger_trace s0 tr s l p :
  (forall q, loadEntry s0 q = None) -> zlen tr < 2 ^ 63 -> reach s0 tr (s, l) ->
  let e := default (zeroEntry p) (view s l p) in
  let h := probes p tr in
  PeerID e = p /\
  StoredForThemBytes e = wrap64 (amount stored p tr) /\
  ServedToThemBytes e = wrap64 (amount served p tr) /\
  StoredOnThemBytes e = wrap64 (amount stored_on p tr) /\
  DownloadedFromBytes e = wrap64 (amount downloaded p tr) /\
  ConsecFailures e = streak h /\
  IsOnline s l p = online h /\
  Reputation e = reputation h /\ 0 <= Reputation e <= 100.
Proof.
  intros Hs0 Hlen Hr e h. destruct (reach_tells _ _ _ Hs0 Hlen Hr) as [_ Ht].
  destruct (Ht p) as (HP & [C1 C2 C3 C4] & [L1 L2 L3 _ _ _] & _). simpl in HP, C1, C2, C3, C4, L1, L2, L3.
  fold e in HP, C1, C2, C3, C4, L1, L2, L3. fold h in L1, L2, L3.
  pose proof (reputation_bounds h). rewrite <- L3 in *. split_and!; try done; try lia.
  rewrite IsOnline_view, <- L2. unfold e. by destruct (view s l p).
Qed.

(** The transitions reported to the heartbeat.  [RecordPing] reports that
    a peer went offline exactly at the third failed probe in a row after some
    probe has succeeded - once per outage - and that it came back exactly at a
    success while it was not online and had been probed before; never both. *)
Theorem RecordPing_transitions s0 tr s l p ok t t' :
  (forall q, loadEntry s0 q = None) -> zlen tr < 2 ^ 63 - 1 -> reach s0 tr (s, l) -> clock t -> clock t' ->
  let h := probes p tr in
  let r := (RecordPing s l p ok t t').2 in
  (WentOffline r = true <-> ok = false /\ streak h = 2 /\ existsb id h = true) /\
  (WentOnline r = true <-> ok = true /\ h <> [] /\ online h = false) /\
  ResIsOnline r = online (ok :: h).
Proof.
  intros Hs0 Hlen Hr Ht Ht' h r. assert (Hl : zlen tr < 2 ^ 63) by lia.
  destruct (reach_tells _ _ _ Hs0 Hl Hr) as [_ HT].
  destruct (HT p) as (_ & _ & HL & _). fold h in HL. simpl in HL.
  pose proof (probes_length p tr) as Hh. fold h in Hh.
  pose proof (live_touch _ _ _ Ht HL) as HLt. assert (Hb : zlen h < 2 ^ 63 - 1) by lia.
  pose proof (live_probe _ _ ok _ Hb Ht' HLt) as [_ Lo _ _ _ _].
  unfold r, RecordPing. rewrite touchLocked_view. cbn [snd WentOffline WentOnline ResIsOnline].
  rewrite Lo, (live_pinged _ _ HLt), (live_online _ _ HLt).
  destruct (transitions h ok) as [T1 T2]. by split_and!.
Qed.

Definition disk_add (disk : dirty_map) (v : bytes) : dirty_map :=
  match Unmarshal v with Ok e => <[PeerID e := e]> disk | _ => disk end.

Lemma disk_fold (L : list (string * bytes)) p e :
  NoDup L.*1 -> (forall k v e', (k, v) ∈ L -> Unmarshal v = Ok e' -> k = key (PeerID e')) ->
  fold_left (fun disk kv => disk_add disk kv.2) L ∅ !! p = Some e <->
  exists v, (key p, v) ∈ L /\ Unmarshal v = Ok e.
Proof.
  induction L as [|[k v] L IH] using rev_ind; intros Hn Hk.
  { simpl. rewrite lookup_empty. split; [done|]. by intros (v & Hv%elem_of_nil & _). }
  rewrite fmap_app in Hn. apply NoDup_app in Hn as (Hn & Hd & _).
  rewrite fold_left_app. simpl. unfold disk_add at 1.
  assert (IH' := IH Hn ltac:(intros; eapply Hk; [apply elem_of_app; by left|done])). clear IH.
  setoid_rewrite elem_of_app. setoid_rewrite list_elem_of_singleton.
  destruct (Unmarshal v) as [e0|er|] eqn:Hv.
  - assert (k = key (PeerID e0)) as -> by (eapply Hk; [apply elem_of_app; right; constructor|done]).
    rewrite lookup_insert_Some, IH'. split.
    + intros [[-> ->]|(_ & v' & Hin & Hv')]; eauto.
    + intros (v' & [Hin|Eq] & Hv').
      2: { apply pair_eq in Eq as [E%entry_key_inj ->]. left. split; congruence. }
      right. split; [|eauto]. intros <-. apply (Hd (key (PeerID e0))); [|constructor].
      apply list_elem_of_fmap. by exists (key (PeerID e0), v').
  - rewrite IH'. split; [intros (v' & ? & ?); eauto|]. intros (v' & [?|[= _ ->]] & ?); [eauto|congruence].
  - rewrite IH'. split; [intros (v' & ? & ?); eauto|]. intros (v' & [?|[= _ ->]] & ?); [eauto|congruence].
Qed.

Lemma All_lookup s l :
  filed s -> exists m, All s l = Ok (map snd (range m)) /\ forall p, m !! p = view s l p.
Proof.
  intros Hf. unfold All.
  rewrite (store.Iterate_ext s keyPrefix _ (fun disk _ v => (disk_add disk v, true)))
    by (intros d k v; unfold disk_add; by destruct (Unmarshal v)).
  rewrite (store.Iterate_fold s keyPrefix (fun disk _ v => disk_add disk v)). simpl. eexists. split; [done|]. intros p. rewrite lookup_union. unfold view, loadEntry.
  destruct (l !! p) as [e|]; simpl; [by destruct (fold_left _ _ _ !! p)|].
  rewrite (left_id_L None _). apply option_eq. intros e. rewrite disk_fold; [|apply store.scan_NoDup|].
  - rewrite store.Get_spec. setoid_rewrite store.elem_of_scan. split.
    + intros (v & [Hv _] & He). by rewrite Hv, He.
    + destruct (db_view s !! key p) as [v|] eqn:Hv; [|done]. intros He. exists v.
      split; [split; [done|apply has_prefix_app]|]. by destruct (Unmarshal v); simplify_eq.
  - intros k v e' [Hv [q ->]%has_prefix_spec]%store.elem_of_scan He'. unfold key. f_equal.
    symmetry. apply Hf. unfold loadEntry. rewrite store.Get_spec. unfold key. by rewrite Hv, He'.
Qed.

(** [All] lists, each once, exactly the peers the ledger has an entry for,
    with the entry a lookup returns: unflushed changes win over the store. *)
Theorem All_exact s0 tr s l :
  (forall q, loadEntry s0 q = None) -> zlen tr < 2 ^ 63 -> reach s0 tr (s, l) ->
  exists es, All s l = Ok es /\ NoDup (map PeerID es) /\
    forall e, e ∈ es <-> view s l (PeerID e) = Some e.
Proof.
  intros Hs0 Hlen Hr. destruct (reach_tells _ _ _ Hs0 Hlen Hr) as [Hf Ht].
  destruct (All_lookup s l Hf) as (m & Hall & Hm).
  assert (HP : forall p e, m !! p = Some e -> PeerID e = p).
  { intros p e. rewrite Hm. intros Hv. destruct (Ht p) as [HP _]. simpl in HP. by rewrite Hv in HP. }
  exists (map snd (range m)). split_and!; [done| |].
  - rewrite map_map. replace (map _ (range m)) with (range m).*1; [apply range_NoDup|].
    apply map_ext_Forall, Forall_forall. intros [p e] Hin. simpl.
    rewrite (range_spec m), elem_of_map_to_list in Hin. by rewrite (HP p e).
  - intros e. rewrite <- Hm. rewrite (list_elem_of_fmap snd (range m)). split.
    + intros ([p e'] & -> & Hin). rewrite (range_spec m), elem_of_map_to_list in Hin. simpl. by rewrite (HP p e').
    + intros Hin. exists (PeerID e, e). by rewrite (range_spec m), elem_of_map_to_list.
Qed.

(** [C23] [Flush] is not atomic.  It takes the dirty map under the mutex and
    writes it after releasing the mutex; when [m] more bytes are recorded for a
    peer in between, [touchLocked] starts from the record that is not written
    yet, and the next flush overwrites the first: although both flushes return
    without error, the [n] bytes counted before them are lost. *)
Theorem Flush_race_loses s p n m t t' s1 s2 l2 :
  text_ok p = true -> clock t -> clock t' -> loadEntry s p = None ->
  (* n bytes are recorded and a flush takes the dirty map, *)
  let taken := range (RecordStoredForThem s ∅ p n t) in
  (* m bytes are recorded before it writes, *)
  let l1 := RecordStoredForThem s ∅ p m t' in
  (* it writes, and a second flush follows. *)
  flush_loop s taken = (s1, Ok tt) -> Flush s1 l1 = (s2, l2, Ok tt) ->
  StoredForThemBytes <$> view s2 l2 p = Some (wrap64 m).
Proof.
  intros Hp Ht Ht' Hs taken l1 HF HF2.
  assert (Hr : tells (Some (add_bytes (set_UpdatedAt (zeroEntry p) t') m 0 0 0)) p [EvStoredForThem p m]).
  { apply (tells_add None p []); try done; simpl; rewrite ?decide_True by done; try lia.
    split_and!; [done|by constructor|apply live_zero|by intros []]. }
  assert (El : l1 = {[p := add_bytes (set_UpdatedAt (zeroEntry p) t') m 0 0 0]}).
  { unfold l1, RecordStoredForThem. rewrite touchLocked_view. unfold view. by rewrite lookup_empty, Hs. }
  destruct (Flush_load s1 l1 s2 l2) as [-> HL]; [|done|].
  - rewrite El. intros q e [<- <-]%lookup_singleton_Some. split; [done|].
    eapply tells_entry_ok; [|exact Hr]. by vm_compute.
  - unfold view. rewrite lookup_empty, HL, El, lookup_singleton_eq. done.
Qed.

(** A failed flush has written the entries before the one that failed. *)
Lemma flush_loop_Err pending : forall s s' err, flush_loop s pending = (s', Err err) ->
  exists done pe lost s1, pending = done ++ pe :: lost /\ flush_loop s done = (s1, Ok tt) /\
    forall q, loadEntry s' q = loadEntry s1 q.
Proof.
  induction pending as [|[p e] pending IH]; intros s s' err HF; simpl in HF; [done|].
  destruct (Marshal_total e) as [raw Hm]. rewrite Hm in HF. destruct (store.Put s _ raw) as [s1 [[]|e1|]] eqn:HP.
  - destruct (IH _ _ _ HF) as (done & pe & lost & s2 & -> & Hd & HL). exists ((p, e) :: done), pe, lost, s2.
    split_and!; [done| |done]. simpl. by rewrite Hm, HP.
  - injection HF as <- _. exists [], (p, e), pending, s. split_and!; [done..|]. intros q. unfold loadEntry.
    by rewrite !store.Get_spec, (store.Put_Err _ _ _ _ _ HP).
  - by apply store.Put_no_panic in HP.
Qed.

(** [C24] A failed [Flush] forgets.  The dirty map is emptied before the entries
    are written; when a write fails, the entries not written yet, the one that
    failed among them, are in neither place: the ledger is back at what the store
    had for these peers, and everything recorded for them since the last flush
    is lost, although the database may take the next write. *)
Theorem Flush_failure_loses s l s' l' err :
  (forall q e, l !! q = Some e -> PeerID e = q /\ entry_ok e = true) -> Flush s l = (s', l', Err err) ->
  exists written lost, range l = written ++ lost /\ lost <> [] /\
    (forall q e, (q, e) ∈ written -> view s' l' q = Some (entry_norm e)) /\
    (forall q e, (q, e) ∈ lost -> view s l q = Some e /\ view s' l' q = loadEntry s q).
Proof.
  intros Hd. unfold Flush. destruct (flush_loop s (range l)) as [s2 r] eqn:HF. intros [= <- <- ->].
  destruct (flush_loop_Err _ _ _ _ HF) as (written & pe & lost & s1 & Hr & Hw & HL).
  assert (Hl : forall q e, (q, e) ∈ written ++ pe :: lost -> l !! q = Some e).
  { intros q e. by rewrite <- Hr, (range_spec l), elem_of_map_to_list. }
  pose proof (range_NoDup l) as Hn. rewrite Hr, fmap_app in Hn. apply NoDup_app in Hn as (Hn1 & Hn2 & _).
  assert (Hs1 : forall q, loadEntry s2 q = match (list_to_map written : dirty_map) !! q with
    | Some e => Some (entry_norm e) | None => loadEntry s q end).
  { intros q. rewrite HL. apply flush_loop_spec; [|done..]. apply Forall_forall. intros [q' e] Hin. apply Hd, Hl, elem_of_app. by left. }
  exists written, (pe :: lost). split_and!; [done..| |]; intros q e Hin; unfold view; rewrite lookup_empty, Hs1.
  - by rewrite (elem_of_list_to_map_1 _ q e).
  - split; [by rewrite (Hl q e) by (apply elem_of_app; by right)|]. rewrite not_elem_of_list_to_map_1; [done|].
    intros Hq. apply (Hn2 q Hq). by apply (list_elem_of_fmap_2 fst _ (q, e)).
Qed.

End with_libraries.

(** ** An executable codec, and the witnesses *)

Definition entry_to e : ctree :=
  GenNode 3 [ts (PeerID e); tz (StoredForThemBytes e); tz (ServedToThemBytes e); tz (StoredOnThemBytes e);
    tz (DownloadedFromBytes e); tbool (IsOnline_ e); tz (ConsecFailures e); tz (LastPingAt e);
    tz (LastSeenAt e); tz (OfflineSince e); tz (Reputation e); tz (UpdatedAt e)].

Definition entry_of (t : ctree) : option Entry :=
  match t with
  | GenNode _ [a; b; c; d; e; f; g; h; i; j; k; l] =>
      a ← of_ts a; b ← of_tz b; c ← of_tz c; d ← of_tz d; e ← of_tz e; f ← of_tbool f; g ← of_tz g;
      h ← of_tz h; i ← of_tz i; j ← of_tz j; k ← of_tz k; l ← of_tz l;
      Some (NewEntry a b c d e f g h i j k l)
  | _ => None
  end.

#[global] Instance entry_cbor : EntryCbor.
Proof.
  refine (tree_cbor _ _ entry_to entry_of _ _).
  2: { intros e. unfold entry_ok. simpl. by rewrite !Unix_whole_second. }
  intros [? ? ? ? ? [] ? ? ? ? ? ?]; reflexivity.
Defined.

Lemma load_empty p : loadEntry store.empty p = None.
Proof. unfold loadEntry. by rewrite store.Get_spec. Qed.

Definition sample_history : list event :=
  [EvPing "p" false; EvFlush; EvPing "p" false; EvStoredForThem "p" 5; EvPing "q" true; EvPing "p" true;
   EvStoredForThem "p" 7].

Definition sample_state := run map_to_list 1700000000000000000 store.empty sample_history.

Lemma sample_reach : reach map_to_list store.empty sample_history sample_state.1.
Proof. apply run_reach; [by unfold clock|]. vm_compute. reflexivity. Qed.

Lemma ledger_trace_witness :
  let '(s, l) := sample_state.1 in
  StoredForThemBytes (default (zeroEntry "p") (view s l "p")) = 12 /\
  ConsecFailures (default (zeroEntry "p") (view s l "p")) = 2 /\ IsOnline s l "p" = true.
Proof.
  pose proof sample_reach as Hr. destruct sample_state.1 as [s l].
  destruct (ledger_trace map_to_list (fun _ => reflexivity _) store.empty sample_history s l "p" load_empty)
    as (_ & H1 & _ & _ & _ & H2 & H3 & _); [by vm_compute|exact Hr|].
  rewrite H1, H2, H3. vm_compute. auto.
Defined.

(** The third failure in a row reports the peer offline. *)
Lemma RecordPing_transitions_witness :
  let '(s, l) := sample_state.1 in
  WentOffline (RecordPing s l "p" false 1700000000000000000 1700000000000000000).2 = true.
Proof.
  pose proof sample_reach as Hr. destruct sample_state.1 as [s l].
  destruct (RecordPing_transitions map_to_list (fun _ => reflexivity _) store.empty sample_history s l "p" false
    1700000000000000000 1700000000000000000 load_empty) as (H1 & _);
    [by vm_compute|exact Hr|by unfold clock|by unfold clock|].
  apply H1. vm_compute. auto.
Defined.

Lemma All_exact_witness :
  let '(s, l) := sample_state.1 in
  exists es, All map_to_list s l = Ok es /\ NoDup (map PeerID es).
Proof.
  pose proof sample_reach as Hr. destruct sample_state.1 as [s l].
  destruct (All_exact map_to_list (fun _ => reflexivity _) store.empty sample_history s l load_empty)
    as (es & H1 & H2 & _); [by vm_compute|exact Hr|]. eauto.
Defined.

Lemma Flush_race_loses_witness :
  let t := 1700000000000000000 in
  let s := store.empty in
  let s1 := (flush_loop s (map_to_list (RecordStoredForThem s ∅ "p" 10 t))).1 in
  let '(s2, l2, _) := Flush map_to_list s1 (RecordStoredForThem s ∅ "p" 5 t) in
  StoredForThemBytes <$> view s2 l2 "p" = Some 5.
Proof.
  apply (Flush_race_loses map_to_list (fun _ => reflexivity _) store.empty "p" 10 5 1700000000000000000
    1700000000000000000 (flush_loop store.empty (map_to_list (RecordStoredForThem store.empty ∅ "p" 10 1700000000000000000))).1);
    [by vm_compute|by unfold clock|by unfold clock|apply load_empty|vm_compute; reflexivity|vm_compute; reflexivity].
Defined.

Definition full_db : db (Badger := mem_badger) := MemDB ∅ true.

Lemma Flush_failure_loses_witness :
  let l := RecordStoredForThem full_db ∅ "p" 10 1700000000000000000 in
  StoredForThemBytes <$> view full_db l "p" = Some 10 /\
  (let '(s', l', _) := Flush map_to_list full_db l in view s' l' "p" = None).
Proof.
  intros l. assert (E : Flush map_to_list full_db l = (full_db, ∅, Err (ErrMsg "no space left on device"))) by (vm_compute; reflexivity).
  destruct (Flush_failure_loses map_to_list (fun _ => reflexivity _) full_db l full_db ∅ (ErrMsg "no space left on device"))
    as (written & lost & Hr & Hne & _ & Hlost).
  - intros q e. unfold l, RecordStoredForThem. rewrite lookup_insert_Some. intros [[<- <-]|[_ Hq]]; [|by rewrite lookup_empty in Hq].
    split; vm_compute; reflexivity.
  - exact E.
  - destruct lost as [|[q e] lost]; [done|]. destruct (Hlost q e ltac:(constructor)) as [_ HL].
    assert (Hin : (q, e) ∈ map_to_list l) by (rewrite Hr; apply elem_of_app; right; constructor).
    apply elem_of_map_to_list in Hin. unfold l, RecordStoredForThem in Hin. apply lookup_insert_Some in Hin as [[<- _]|[_ Hq]]; [|by rewrite lookup_empty in Hq].
    split; [vm_compute; reflexivity|]. rewrite E, HL. vm_compute. reflexivity.
Defined.

End ledger.
