(* ===== verification/Group.v ===== *)
(** * internal/group/group.go: groups, members, bootstrap addresses

    Group descriptors live under [group/<gid>], members under
    [member/<gid>/<peer id>], bootstrap addresses under [bootstrap/<gid>]. *)

From stdpp Require Import pretty.
From S2P Require Import Prelude Ext Concrete Store Crypto.

Module group.

Record Group := NewGroup {
  ID : string;
  Name : string;
  AdminPub : bytes;
  AdminPriv : bytes;
  CreatedAt : Z;
  IsAdminNode : bool;
  SharedKey : bytes
}.

Record Member := NewMember {
  PeerID : string;
  Nickname : string;
  NodePub : bytes;
  EncPub : bytes;
  ContributedB : Z;
  JoinedAt : Z;
  AdmittedBySig : bytes;
  LastAddrs : list string;
  AdmissionInvite : bytes
}.

#[global] Instance Group_eq_dec : EqDecision Group.
Proof. solve_decision. Defined.
#[global] Instance Member_eq_dec : EqDecision Member.
Proof. solve_decision. Defined.

(** The signed part of an invite, and the fields [VerifyMembership] decodes. *)
Record signedPayload := NewPayload {
  sp_GroupID : string;
  sp_GroupName : string;
  sp_GroupAdminPub : bytes;
  sp_GroupSharedKey : bytes;
  sp_BootstrapPeers : list string;
  sp_Nonce : bytes;
  sp_IssuedAt : Z;
  sp_ExpiresAt : Z;
  sp_QuotaCap : Z
}.

#[global] Instance signedPayload_eq_dec : EqDecision signedPayload.
Proof. solve_decision. Defined.

Definition group_ok (g : Group) : bool := text_ok (ID g) && text_ok (Name g) && int64_ok (Unix (CreatedAt g)).

Definition group_norm (g : Group) : Group :=
  NewGroup (ID g) (Name g) (AdminPub g) (AdminPriv g) (whole_second (CreatedAt g)) (IsAdminNode g) (SharedKey g).

Definition member_ok (m : Member) : bool :=
  text_ok (PeerID m) && text_ok (Nickname m) && int64_ok (ContributedB m) && int64_ok (Unix (JoinedAt m))
  && forallb text_ok (LastAddrs m) && (zlen (LastAddrs m) <=? 131072).

Definition member_norm (m : Member) : Member :=
  NewMember (PeerID m) (Nickname m) (NodePub m) (EncPub m) (ContributedB m) (whole_second (JoinedAt m))
    (AdmittedBySig m) (LastAddrs m) (AdmissionInvite m).

Definition payload_ok (p : signedPayload) : bool :=
  text_ok (sp_GroupID p) && text_ok (sp_GroupName p) && forallb text_ok (sp_BootstrapPeers p)
  && (zlen (sp_BootstrapPeers p) <=? 131072) && int64_ok (sp_IssuedAt p) && int64_ok (sp_ExpiresAt p)
  && int64_ok (sp_QuotaCap p).

Definition addrs_ok (l : list string) : bool := forallb text_ok l && (zlen l <=? 131072).

Abbreviation GroupCbor := (Cbor Group group_ok group_norm).
Abbreviation MemberCbor := (Cbor Member member_ok member_norm).
Abbreviation PayloadCbor := (Cbor signedPayload payload_ok id).
Abbreviation AddrsCbor := (Cbor (list string) addrs_ok id).

(** Decoding the bytes of an invite into the partial structures of this
    package: [(gid, apub, sig)], and the "sig" entry of the generic map (present
    or not, then decoded as a byte string). *)
Class InviteFields := {
  Unmarshal_brief : bytes -> outcome (string * bytes * bytes);
  Unmarshal_sig : bytes -> outcome (option (outcome bytes))
}.

(** [strings.Cut(s, "/")] *)
Fixpoint cut_slash (s : string) : option (string * string) :=
  match s with
  | EmptyString => None
  | String a s' =>
      if bool_decide (a = "/"%char) then Some (EmptyString, s')
      else match cut_slash s' with Some (l, r) => Some (String a l, r) | None => None end
  end.

(** [strings.TrimPrefix] *)
Fixpoint trim_prefix (p s : string) : string :=
  match p, s with
  | EmptyString, _ => s
  | String a p', String b s' => if bool_decide (a = b) then trim_prefix p' s' else s
  | _, EmptyString => s
  end.

Definition groupKeyPrefix : string := "group/".
Definition memberKeyPrefix : string := "member/".
Definition bootstrapKeyPrefix : string := "bootstrap/".

Definition groupKey (gid : string) : string := groupKeyPrefix +:+ gid.
Definition memberKey (gid pid : string) : string := memberKeyPrefix +:+ gid +:+ "/" +:+ pid.
Definition bootstrapKey (gid : string) : string := bootstrapKeyPrefix +:+ gid.

(** [fmt.Sprintf("fnshare-admit|%s|%s|%d", groupID, peerID, t.UnixNano())] *)
Definition admitMessage (groupID peerID : string) (t : Z) : bytes :=
  bytes_of_string ("fnshare-admit|" +:+ groupID +:+ "|" +:+ peerID +:+ "|" +:+ pretty (wrap64 t)).

Section with_libraries.
Context `{Badger, !GroupCbor, !MemberCbor, !PayloadCbor, !AddrsCbor, !InviteFields, Ed25519}.
Implicit Types (s : db) (g : Group) (m : Member) (gid pid : string).

(** ** Group lifecycle *)

Definition Create (rng : bytes) (name : string) (now : Z) : bytes * outcome Group :=
  match rand_Read rng 32 with
  | (rng1, Ok seed) =>
      let priv := ed25519_from_seed seed in
      let pub := ed25519_pub priv in
      match crypto.NewSymmetricKey rng1 with
      | (rng2, Ok sk) => (rng2, Ok (NewGroup (hex_encode pub) name pub priv now true sk))
      | (rng2, Err e) => (rng2, Err e)
      | (rng2, Panic) => (rng2, Panic)
      end
  | (rng1, Err e) => (rng1, Err e)
  | (rng1, Panic) => (rng1, Panic)
  end.

Definition Save s g : db * outcome unit :=
  match Marshal g with
  | Ok raw => store.Put s (groupKey (ID g)) raw
  | Err e => (s, Err e)
  | Panic => (s, Panic)
  end.

Definition LoadByID s gid : outcome Group :=
  match store.Get s (groupKey gid) with
  | Err e => if errors_Is e ErrStoreNotFound then Err ErrNoGroup else Err e
  | Panic => Panic
  | Ok raw => Unmarshal raw
  end.

(** The body of the listing callbacks: keep what decodes. *)
Definition collect {A} (dec : bytes -> outcome A) (out : list A) (_ : string) (v : bytes) : list A * bool :=
  (match dec v with Ok a => out ++ [a] | _ => out end, true).

Definition ListGroups s : outcome (list Group) :=
  let '(out, err) := store.Iterate s groupKeyPrefix (collect Unmarshal) [] in
  let! _ := err in Ok out.

Definition AdmitMember g (peerID : string) (joinedAt : Z) : outcome bytes :=
  if negb (zlen (AdminPriv g) =? 64) then Err (ErrMsg "not the admin node - cannot admit members")
  else Ok (ed25519_sign (AdminPriv g) (admitMessage (ID g) peerID joinedAt)).

Definition VerifyAdmission g (peerID : string) (joinedAt : Z) (sig : bytes) : outcome bool :=
  ed25519_Verify (AdminPub g) (admitMessage (ID g) peerID joinedAt) sig.

Definition verifyInviteSignature (raw adminPub : bytes) : outcome bool :=
  match Unmarshal_sig raw with
  | Ok (Some (Ok sig)) =>
      match Unmarshal (A := signedPayload) raw with
      | Ok body =>
          match Marshal body with
          | Ok canonical => ed25519_Verify adminPub canonical sig
          | Err _ => Ok false
          | Panic => Panic
          end
      | Err _ => Ok false
      | Panic => Panic
      end
  | Ok _ | Err _ => Ok false
  | Panic => Panic
  end.

Definition VerifyMembership g m : outcome bool :=
  let! admitted :=
    (if 0 <? zlen (AdmittedBySig m) then VerifyAdmission g (PeerID m) (JoinedAt m) (AdmittedBySig m)
     else Ok false) in
  if admitted then Ok true
  else if 0 <? zlen (AdmissionInvite m) then
    match Unmarshal_brief (AdmissionInvite m) with
    | Err _ => Ok false
    | Panic => Panic
    | Ok (gid, apub, _) =>
        if negb (bool_decide (gid = ID g)) then Ok false
        else if negb (bool_decide (apub = AdminPub g)) then Ok false
        else verifyInviteSignature (AdmissionInvite m) (AdminPub g)
    end
  else Ok false.

(** ** Members *)

Definition PutMember s gid m : db * outcome unit :=
  match Marshal m with
  | Ok raw => store.Put s (memberKey gid (PeerID m)) raw
  | Err e => (s, Err e)
  | Panic => (s, Panic)
  end.

Definition GetMember s gid (peerID : string) : outcome Member :=
  match store.Get s (memberKey gid peerID) with
  | Err e => if errors_Is e ErrStoreNotFound then Err ErrMemberNotFound else Err e
  | Panic => Panic
  | Ok raw => Unmarshal raw
  end.

Definition ListMembers s gid : outcome (list Member) :=
  let '(out, err) := store.Iterate s (memberKeyPrefix +:+ gid +:+ "/") (collect Unmarshal) [] in
  let! _ := err in Ok out.

(** [range] is the order in which the runtime ranges over the map [seen]. *)
Definition AllMembersAcrossGroups (range : gmap string Member -> list (string * Member)) s :
    outcome (list Member) :=
  let '(seen, err) := store.Iterate s memberKeyPrefix
    (fun (seen : gmap string Member) _ v =>
       (match Unmarshal v with
        | Ok m => match seen !! PeerID m with None => <[PeerID m := m]> seen | Some _ => seen end
        | _ => seen
        end, true)) ∅ in
  let! _ := err in
  Ok (map snd (range seen)).

Definition MemberOf s (peerID : string) : outcome (list string) :=
  let '(gids, err) := store.Iterate s memberKeyPrefix
    (fun gids k _ =>
       (match cut_slash (trim_prefix memberKeyPrefix k) with
        | Some (g, p) => if bool_decide (p = peerID) then gids ++ [g] else gids
        | None => gids
        end, true)) [] in
  let! _ := err in Ok gids.

(** ** Bootstrap addresses *)

Definition SaveBootstrap s gid (addrs : list string) : db * outcome unit :=
  match Marshal addrs with
  | Ok raw => store.Put s (bootstrapKey gid) raw
  | Err e => (s, Err e)
  | Panic => (s, Panic)
  end.

Definition LoadBootstrap s gid : outcome (list string) :=
  match store.Get s (bootstrapKey gid) with
  | Err e => if errors_Is e ErrStoreNotFound then Ok [] else Err e
  | Panic => Panic
  | Ok raw => Unmarshal raw
  end.

Definition AllBootstrapAddrs s : outcome (list string) :=
  let '(out, err) := store.Iterate s bootstrapKeyPrefix
    (fun out _ v => (match Unmarshal (A := list string) v with Ok addrs => out ++ addrs | _ => out end, true)) [] in
  let! _ := err in Ok out.

(** ** Lemmas: keys and listings *)

Definition no_slash (x : string) : Prop := cut_slash x = None.

Lemma cut_slash_app x y : no_slash x -> cut_slash (x +:+ "/" +:+ y) = Some (x, y).
Proof.
  unfold no_slash. induction x as [|a x IH]; simpl; [done|].
  case_bool_decide; [done|]. intros Hx. destruct (cut_slash x) as [[]|]; [done|]. by rewrite IH.
Qed.

Lemma app_assoc_str (x y z : string) : (x +:+ y) +:+ z = x +:+ (y +:+ z).
Proof. induction x as [|a x IH]; [done|]. exact (f_equal (String a) IH). Qed.

(** Keys of two groups never share a member prefix. *)
Lemma member_prefix gid gid' pid :
  no_slash gid -> no_slash gid' ->
  has_prefix (memberKeyPrefix +:+ gid +:+ "/") (memberKey gid' pid) = true -> gid' = gid.
Proof.
  intros Hg Hg' [r E]%has_prefix_spec. unfold memberKey in E. rewrite !app_assoc_str in E.
  apply (inj (String.app memberKeyPrefix)) in E. apply (f_equal cut_slash) in E.
  rewrite !cut_slash_app in E by done. by simplify_eq.
Qed.

Lemma memberKey_inj gid gid' pid pid' :
  no_slash gid -> no_slash gid' -> memberKey gid pid = memberKey gid' pid' -> gid = gid' /\ pid = pid'.
Proof.
  intros Hg Hg' E. unfold memberKey in E. apply (inj (String.app memberKeyPrefix)) in E.
  apply (f_equal cut_slash) in E. rewrite !cut_slash_app in E by done. by simplify_eq.
Qed.

Lemma hex_digit_slash n : 0 <= n < 16 -> hex_digit n <> "/"%char.
Proof.
  intros Hn E. apply (f_equal Ascii.N_of_ascii) in E. unfold hex_digit in E.
  rewrite Ascii.N_ascii_embedding in E by (destruct (n <? 10); lia).
  change (Ascii.N_of_ascii "/") with 47%N in E. destruct (Z.ltb_spec n 10); lia.
Qed.

Lemma hex_no_slash b : no_slash (hex_encode b).
Proof.
  unfold no_slash. induction b as [|x b IH]; simpl; [done|]. pose proof (byteZ_bound x).
  rewrite !bool_decide_eq_false_2, IH; [done|apply hex_digit_slash, Z.mod_pos_bound; lia|].
  apply hex_digit_slash. split; [apply Z.div_pos; lia|apply Z.div_lt_upper_bound; lia].
Qed.

Definition ok_of {A} (o : outcome A) : option A := match o with Ok a => Some a | _ => None end.

Lemma collect_scan {A} (dec : bytes -> outcome A) s p :
  store.Iterate s p (collect dec) [] = (omap (fun kv => ok_of (dec kv.2)) (store.scan s p), Ok tt).
Proof.
  rewrite <- (store.Iterate_collect s p (fun _ v => ok_of (dec v))). apply store.Iterate_ext.
  intros a k v. unfold collect. by destruct (dec v).
Qed.

Lemma ListMembers_scan s gid :
  ListMembers s gid =
  Ok (omap (fun kv => ok_of (Unmarshal kv.2)) (store.scan s (memberKeyPrefix +:+ gid +:+ "/"))).
Proof. unfold ListMembers. by rewrite collect_scan. Qed.

Lemma GetMember_view s gid pid :
  GetMember s gid pid = match db_view s !! memberKey gid pid with
                        | Some raw => Unmarshal raw | None => Err ErrMemberNotFound end.
Proof. unfold GetMember. rewrite store.Get_spec. by destruct (db_view s !! _). Qed.

Lemma PutMember_Ok s gid m s' :
  PutMember s gid m = (s', Ok tt) ->
  exists raw, Marshal m = Ok raw /\ db_view s' = <[memberKey gid (PeerID m) := raw]> (db_view s).
Proof.
  unfold PutMember. destruct (Marshal m) as [raw| |]; intros HP; [|done..]. eauto using store.Put_Ok.
Qed.

Lemma PutMember_other_key s gid m s' r k :
  PutMember s gid m = (s', r) -> k <> memberKey gid (PeerID m) -> db_view s' !! k = db_view s !! k.
Proof.
  unfold PutMember. destruct (Marshal m) as [raw| |]; [|by intros [= <- _]..]. intros HP Hk.
  pose proof (store.Put_other _ _ _ _ _ k HP Hk) as E. rewrite !store.Get_spec in E.
  by destruct (db_view s' !! k), (db_view s !! k); simplify_eq.
Qed.

Lemma elem_of_ListMembers s gid m :
  m ∈ default [] (ok_of (ListMembers s gid)) <-> exists pid, GetMember s gid pid = Ok m.
Proof.
  rewrite ListMembers_scan. simpl. rewrite list_elem_of_omap. split.
  - intros ([k v] & [Hv [pid ->]%has_prefix_spec]%store.elem_of_scan & Hm). exists pid.
    rewrite !app_assoc_str in Hv. rewrite GetMember_view. unfold memberKey. rewrite Hv. simpl in Hm.
    by destruct (Unmarshal v); simplify_eq/=.
  - intros (pid & Hg). rewrite GetMember_view in Hg. destruct (db_view s !! memberKey gid pid) as [v|] eqn:Hv; [|done].
    exists (memberKey gid pid, v). simpl. rewrite Hg. split; [|done]. apply store.elem_of_scan.
    split; [done|]. unfold memberKey. rewrite <- !app_assoc_str. apply has_prefix_app.
Qed.

(** Membership tables of different groups are independent.  After a
    successful [PutMember] in one group, [GetMember] and [ListMembers] of that
    group show the member (its join time cut to whole seconds) beside the ones
    listed before, and the listing of every other group is what it was,
    although all tables share one key space.  Group identifiers contain no
    slash. *)
Theorem PutMember_tables s gid m s' gid' :
  no_slash gid -> no_slash gid' -> gid' <> gid -> member_ok m = true -> PutMember s gid m = (s', Ok tt) ->
  GetMember s' gid (PeerID m) = Ok (member_norm m) /\
  (forall m', m' ∈ default [] (ok_of (ListMembers s' gid)) <->
    m' = member_norm m \/ exists pid, pid <> PeerID m /\ GetMember s gid pid = Ok m') /\
  ListMembers s' gid' = ListMembers s gid'.
Proof.
  intros Hg Hg' Hne Hok HP. destruct (PutMember_Ok _ _ _ _ HP) as (raw & Hraw & Hv).
  assert (Hget : GetMember s' gid (PeerID m) = Ok (member_norm m)).
  { rewrite GetMember_view, Hv, lookup_insert_eq. by apply Unmarshal_Marshal. }
  assert (Hold : forall pid, pid <> PeerID m -> GetMember s' gid pid = GetMember s gid pid).
  { intros pid Hp. rewrite !GetMember_view, Hv, lookup_insert_ne; [done|].
    intros E. by apply memberKey_inj in E as [_ <-]. }
  split_and!; [done| |].
  - intros m'. rewrite elem_of_ListMembers. split.
    + intros (pid & Hm'). destruct (decide (pid = PeerID m)) as [->|Hp].
      * left. rewrite Hget in Hm'. by injection Hm' as <-.
      * right. exists pid. by rewrite <- Hold.
    + intros [->|(pid & Hp & Hm')]; [eauto|]. exists pid. by rewrite Hold.
  - rewrite !ListMembers_scan. f_equal. f_equal. apply store.scan_ext. intros k Hk.
    rewrite Hv, lookup_insert_ne; [done|]. intros <-. apply member_prefix in Hk; done.
Qed.

(** ** Admission signatures *)

Lemma Create_inv rng name now rng' g :
  Create rng name now = (rng', Ok g) ->
  exists seed, length seed = 32%nat /\ AdminPriv g = ed25519_from_seed seed /\
    AdminPub g = ed25519_pub (AdminPriv g) /\ ID g = hex_encode (AdminPub g) /\
    length (SharedKey g) = 32%nat /\ IsAdminNode g = true.
Proof.
  unfold Create. destruct (rand_Read rng 32) as [rng1 [seed| |]] eqn:E1; [|done..].
  destruct (crypto.NewSymmetricKey rng1) as [rng2 [sk| |]] eqn:E2; [|done..]. intros [= <- <-].
  apply rand_Read_Ok in E1 as [? _], E2 as [? _]. eauto 10.
Qed.

Lemma ed25519_Verify_pub k msg sig :
  ed25519_Verify (ed25519_pub k) msg sig = Ok (ed25519_check (ed25519_pub k) msg sig).
Proof. unfold ed25519_Verify. by rewrite bool_decide_eq_true_2 by apply ed25519_pub_length. Qed.

Lemma AdmitMember_created rng name now rng' g p t :
  Create rng name now = (rng', Ok g) ->
  AdmitMember g p t = Ok (ed25519_sign (AdminPriv g) (admitMessage (ID g) p t)).
Proof.
  intros (seed & Hs & Hpriv & _)%Create_inv. unfold AdmitMember.
  rewrite Hpriv at 1. unfold zlen. by rewrite ed25519_from_seed_length.
Qed.

(** A fresh group can admit: the admin key that [Create] draws signs an
    admission for any peer and time, [VerifyAdmission] accepts it without
    panicking, and the group identifier is the hexadecimal public key. *)
Lemma Create_can_admit rng name now rng' g p t :
  Create rng name now = (rng', Ok g) ->
  exists sig, AdmitMember g p t = Ok sig /\ VerifyAdmission g p t sig = Ok true /\
    ID g = hex_encode (AdminPub g) /\ no_slash (ID g).
Proof.
  intros HC. eexists. split; [by eapply AdmitMember_created|].
  apply Create_inv in HC as (seed & _ & _ & Hpub & Hid & _). split_and!; [|done|].
  - unfold VerifyAdmission. by rewrite Hpub, ed25519_Verify_pub, ed25519_check_sign.
  - rewrite Hid. apply hex_no_slash.
Qed.

Lemma admitMessage_time gid p t t' :
  in_int64 t -> in_int64 t' -> admitMessage gid p t = admitMessage gid p t' -> t = t'.
Proof.
  intros Ht Ht' E. apply (inj bytes_of_string) in E.
  apply (inj (String.app "fnshare-admit|")), (inj (String.app gid)), (inj (String.app "|")),
    (inj (String.app p)), (inj (String.app "|")), (inj pretty) in E.
  by rewrite !wrap64_id in E.
Qed.

(** [C28] The admin's signature does not survive the member table.  It covers
    the join time in nanoseconds, the table keeps whole seconds: unless the
    member joined exactly on a second, the record read back from the store no
    longer verifies, so a peer that syncs it rejects a member the admin
    admitted (signatures being bound to the signed message). *)
Theorem stored_admission_rejected s rng name now rng' g m s' :
  (forall k msg msg', ed25519_check (ed25519_pub k) msg' (ed25519_sign k msg) = true -> msg' = msg) ->
  Create rng name now = (rng', Ok g) -> member_ok m = true ->
  0 <= JoinedAt m < 2 ^ 63 -> JoinedAt m mod 10 ^ 9 <> 0 -> AdmissionInvite m = [] ->
  AdmitMember g (PeerID m) (JoinedAt m) = Ok (AdmittedBySig m) ->
  PutMember s (ID g) m = (s', Ok tt) ->
  VerifyAdmission g (PeerID m) (JoinedAt m) (AdmittedBySig m) = Ok true /\
  exists m', GetMember s' (ID g) (PeerID m) = Ok m' /\ VerifyMembership g m' = Ok false.
Proof.
  intros Hbind HC Hok Ht Hfrac Hinv Hsig HP.
  rewrite (AdmitMember_created _ _ _ _ _ _ _ HC) in Hsig. injection Hsig as Hsig.
  apply Create_inv in HC as (seed & _ & _ & Hpub & _). split.
  { unfold VerifyAdmission. by rewrite <- Hsig, Hpub, ed25519_Verify_pub, ed25519_check_sign. }
  destruct (PutMember_Ok _ _ _ _ HP) as (raw & Hraw & Hv). exists (member_norm m). split.
  { rewrite GetMember_view, Hv, lookup_insert_eq. by apply Unmarshal_Marshal. }
  unfold VerifyMembership, VerifyAdmission. simpl. rewrite Hinv, Hpub, ed25519_Verify_pub, <- Hsig.
  destruct (ed25519_check _ _ _) eqn:E; [|by destruct (0 <? _)].
  apply Hbind, admitMessage_time in E; [|pose proof (whole_second_nonneg (JoinedAt m)); unfold in_int64; lia..].
  exfalso. apply Hfrac. rewrite <- E. unfold whole_second. by rewrite Z.mod_mul by lia.
Qed.

(** ** The union of the members of all groups *)

Definition seen_add (seen : gmap string Member) (v : bytes) : gmap string Member :=
  match Unmarshal v with
  | Ok m => match seen !! PeerID m with None => <[PeerID m := m]> seen | Some _ => seen end
  | _ => seen
  end.

Lemma seen_fold (L : list (string * bytes)) :
  let seen := fold_left (fun seen kv => seen_add seen kv.2) L ∅ in
  (forall pid m, seen !! pid = Some m -> PeerID m = pid /\ exists k v, (k, v) ∈ L /\ Unmarshal v = Ok m) /\
  (forall k v m, (k, v) ∈ L -> Unmarshal v = Ok m -> is_Some (seen !! PeerID m)).
Proof.
  cbv zeta. induction L as [|[k v] L [IH1 IH2]] using rev_ind.
  { split; [simpl; intros pid m; by rewrite lookup_empty|]. intros k v m Hin. by apply elem_of_nil in Hin. }
  rewrite fold_left_app. simpl. set (seen := fold_left _ L ∅) in *. unfold seen_add.
  assert (Hup : forall pid m, seen !! pid = Some m ->
    PeerID m = pid /\ exists k' v', (k', v') ∈ L ++ [(k, v)] /\ Unmarshal v' = Ok m).
  { intros pid m Hm. destruct (IH1 pid m Hm) as (? & k' & v' & ? & ?). split; [done|].
    exists k', v'. split; [apply elem_of_app; by left|done]. }
  assert (Hin : forall k' v', (k', v') ∈ L ++ [(k, v)] -> (k', v') ∈ L \/ v' = v).
  { intros k' v' [?|E]%elem_of_app; [by left|]. apply list_elem_of_singleton in E. right. by injection E. }
  destruct (Unmarshal v) as [m0| |] eqn:Hv; [destruct (seen !! PeerID m0) as [m1|] eqn:Hs|..]; split; try done.
  - intros k' v' m [?| ->]%Hin Hm; [eauto|]. rewrite Hv in Hm. injection Hm as <-. eauto.
  - intros pid m [[<- <-]|[_ Hm]]%lookup_insert_Some; [|auto]. split; [done|].
    exists k, v. split; [apply elem_of_app; right; constructor|done].
  - intros k' v' m Hm' Hm. destruct (decide (PeerID m = PeerID m0)) as [->|]; [rewrite lookup_insert_eq; eauto|].
    rewrite lookup_insert_ne by done. apply Hin in Hm' as [?| ->]; [eauto|]. congruence.
  - intros k' v' m [?| ->]%Hin Hm; [eauto|congruence].
  - intros k' v' m [?| ->]%Hin Hm; [eauto|congruence].
Qed.

Lemma AllMembers_spec range s :
  (forall l, range l ≡ₚ map_to_list l) ->
  exists ms, AllMembersAcrossGroups range s = Ok ms /\ NoDup (map PeerID ms) /\
    (forall m, m ∈ ms -> exists k, db_view s !! k ≫= (fun v => ok_of (Unmarshal v)) = Some m) /\
    (forall gid pid m, GetMember s gid pid = Ok m -> PeerID m ∈ map PeerID ms).
Proof.
  intros Hrange. unfold AllMembersAcrossGroups.
  rewrite (store.Iterate_ext s memberKeyPrefix _ (fun seen _ v => (seen_add seen v, true)))
    by (intros d k v; unfold seen_add; by destruct (Unmarshal v)).
  rewrite (store.Iterate_fold s memberKeyPrefix (fun seen _ v => seen_add seen v)). simpl.
  destruct (seen_fold (store.scan s memberKeyPrefix)) as [S1 S2]. set (seen := fold_left _ _ ∅) in *.
  assert (Hel : forall pid m, (pid, m) ∈ range seen <-> seen !! pid = Some m).
  { intros pid m. by rewrite (Hrange seen), elem_of_map_to_list. }
  exists (map snd (range seen)). split_and!; [done|..].
  - rewrite map_map. replace (map _ (range seen)) with (range seen).*1.
    { rewrite (Hrange seen). apply NoDup_fst_map_to_list. }
    apply map_ext_Forall, Forall_forall. intros [pid m] Hm%Hel. by apply S1 in Hm as [<- _].
  - intros m ([pid m'] & -> & Hm%Hel)%list_elem_of_fmap. apply S1 in Hm as (_ & k & v & Hk & Hv).
    apply store.elem_of_scan in Hk as [Hk _]. exists k. rewrite Hk. simpl. by rewrite Hv.
  - intros gid pid m Hg. rewrite GetMember_view in Hg.
    destruct (db_view s !! memberKey gid pid) as [v|] eqn:Hv; [|done].
    destruct (S2 (memberKey gid pid) v m) as [m' Hm']; [|done|].
    { apply store.elem_of_scan. split; [done|apply has_prefix_app]. }
    destruct (S1 _ _ Hm') as [E _]. rewrite map_map. apply list_elem_of_fmap.
    exists (PeerID m, m'). split; [done|]. by apply Hel.
Qed.

End with_libraries.

(** ** Executable codecs, and the witnesses *)

Definition group_to (g : Group) : ctree :=
  GenNode 4 [ts (ID g); ts (Name g); tb (AdminPub g); tb (AdminPriv g); tz (CreatedAt g); tbool (IsAdminNode g);
    tb (SharedKey g)].

Definition group_of (t : ctree) : option Group :=
  match t with
  | GenNode _ [a; b; c; d; e; f; g] =>
      a ← of_ts a; b ← of_ts b; c ← of_tb c; d ← of_tb d; e ← of_tz e; f ← of_tbool f; g ← of_tb g;
      Some (NewGroup a b c d e f g)
  | _ => None
  end.

#[global] Instance group_cbor : GroupCbor.
Proof.
  refine (tree_cbor _ _ group_to group_of _ _).
  2: { intros g. unfold group_ok. simpl. by rewrite Unix_whole_second. }
  intros [? ? ? ? ? ? ?]. unfold group_of, group_to.
  cbn [ID Name AdminPub AdminPriv CreatedAt IsAdminNode SharedKey]. by rewrite !of_tb_tb, of_tbool_tbool.
Defined.

Definition member_to (m : Member) : ctree :=
  GenNode 5 [ts (PeerID m); ts (Nickname m); tb (NodePub m); tb (EncPub m); tz (ContributedB m); tz (JoinedAt m);
    tb (AdmittedBySig m); tlist ts (LastAddrs m); tb (AdmissionInvite m)].

Definition member_of (t : ctree) : option Member :=
  match t with
  | GenNode _ [a; b; c; d; e; f; g; h; i] =>
      a ← of_ts a; b ← of_ts b; c ← of_tb c; d ← of_tb d; e ← of_tz e; f ← of_tz f; g ← of_tb g;
      h ← of_tlist of_ts h; i ← of_tb i; Some (NewMember a b c d e f g h i)
  | _ => None
  end.

#[global] Instance member_cbor : MemberCbor.
Proof.
  refine (tree_cbor _ _ member_to member_of _ _).
  2: { intros m. unfold member_ok. simpl. by rewrite Unix_whole_second. }
  intros [? ? ? ? ? ? ? ? ?]. unfold member_of, member_to.
  cbn [PeerID Nickname NodePub EncPub ContributedB JoinedAt AdmittedBySig LastAddrs AdmissionInvite].
  by rewrite !of_tb_tb, (of_tlist_tlist ts of_ts) by done.
Defined.

(** A payload, or an invite: the payload's fields followed by a signature,
    which the decoder of the payload ignores. *)
Definition payload_fields (p : signedPayload) : list ctree :=
  [ts (sp_GroupID p); ts (sp_GroupName p); tb (sp_GroupAdminPub p); tb (sp_GroupSharedKey p);
   tlist ts (sp_BootstrapPeers p); tb (sp_Nonce p); tz (sp_IssuedAt p); tz (sp_ExpiresAt p); tz (sp_QuotaCap p)].

Definition payload_of (t : ctree) : option signedPayload :=
  match t with
  | GenNode _ (a :: b :: c :: d :: e :: f :: g :: h :: i :: _) =>
      a ← of_ts a; b ← of_ts b; c ← of_tb c; d ← of_tb d; e ← of_tlist of_ts e; f ← of_tb f; g ← of_tz g;
      h ← of_tz h; i ← of_tz i; Some (NewPayload a b c d e f g h i)
  | _ => None
  end.

Lemma payload_of_fields n p rest : payload_of (GenNode n (payload_fields p ++ rest)) = Some p.
Proof.
  destruct p. unfold payload_of, payload_fields. simpl app.
  cbn [sp_GroupID sp_GroupName sp_GroupAdminPub sp_GroupSharedKey sp_BootstrapPeers sp_Nonce sp_IssuedAt
    sp_ExpiresAt sp_QuotaCap]. by rewrite !of_tb_tb, (of_tlist_tlist ts of_ts) by done.
Qed.

#[global] Instance payload_cbor : PayloadCbor.
Proof.
  refine (tree_cbor _ _ (fun p => GenNode 6 (payload_fields p ++ [])) payload_of _ _); [|done]. intros p.
  apply payload_of_fields.
Defined.

#[global] Instance addrs_cbor : AddrsCbor.
Proof. refine (tree_cbor _ _ (tlist ts) (of_tlist of_ts) _ _); [|done]. intros l. by apply of_tlist_tlist. Defined.

Definition sig_of (t : ctree) : option bytes :=
  match t with
  | GenNode _ [_; _; _; _; _; _; _; _; _; sig] => of_tb sig
  | _ => None
  end.

#[global] Instance invite_fields : InviteFields := {|
  Unmarshal_brief raw :=
    tree_unmarshal (fun _ => true) (fun t => p ← payload_of t; sig ← sig_of t; Some (sp_GroupID p, sp_GroupAdminPub p, sig)) raw;
  Unmarshal_sig raw := Ok (Ok <$> (decode (bytes_pos raw) ≫= sig_of))
|}.

Definition sample_rng : bytes := replicate 100 Byte.x2a.

Definition sample_group : Group :=
  match (Create sample_rng "friends" 1700000000123456789).2 with Ok g => g | _ => NewGroup "" "" [] [] 0 false [] end.

Definition sample_member (pid : string) (sig : bytes) : Member :=
  NewMember pid "bob" [] [] 0 1700000000123456789 sig [] [].

Lemma PutMember_tables_witness :
  let s' := (PutMember store.empty "g1" (sample_member "p" [])).1 in
  GetMember s' "g1" "p" = Ok (member_norm (sample_member "p" [])) /\ ListMembers s' "g2" = Ok [].
Proof.
  intros s'. destruct (PutMember_tables store.empty "g1" (sample_member "p" []) s' "g2") as (H1 & _ & H3);
    [reflexivity|reflexivity|discriminate|reflexivity|vm_compute; reflexivity|].
  split; [exact H1|]. rewrite H3. vm_compute. reflexivity.
Defined.

Lemma Create_can_admit_witness :
  exists sig, AdmitMember sample_group "p" 7 = Ok sig /\ VerifyAdmission sample_group "p" 7 sig = Ok true.
Proof.
  destruct (Create_can_admit sample_rng "friends" 1700000000123456789
    (Create sample_rng "friends" 1700000000123456789).1 sample_group "p" 7) as (sig & H1 & H2 & _);
    [vm_compute; reflexivity|]. eauto.
Defined.

Lemma stored_admission_rejected_witness :
  let sig := match AdmitMember sample_group "p" 1700000000123456789 with Ok x => x | _ => [] end in
  let s' := (PutMember store.empty (ID sample_group) (sample_member "p" sig)).1 in
  exists m', GetMember s' (ID sample_group) "p" = Ok m' /\ VerifyMembership sample_group m' = Ok false.
Proof.
  intros sig s'.
  apply (stored_admission_rejected store.empty sample_rng "friends" 1700000000123456789
    (Create sample_rng "friends" 1700000000123456789).1 sample_group (sample_member "p" sig) s').
  - simpl. intros k msg msg' E. apply bool_decide_eq_true in E. by apply app_inv_head in E.
  - vm_compute. reflexivity.
  - vm_compute. reflexivity.
  - simpl. lia.
  - vm_compute. discriminate.
  - reflexivity.
  - vm_compute. reflexivity.
  - etrans; [apply surjective_pairing|]. by f_equal.
Defined.

End group.
