(* ===== verification/Blocks.v ===== *)
(** * internal/node/blocks.go: the blocks protocol, server and client

    Several nodes live in one [World]: each has its key/value store, its file
    system, its block store (once attached) and its ledger.  A request crosses
    the network as length-prefixed CBOR frames; the network's behaviour - no
    stream, the request or the response lost, or both through - is an oracle
    indexed by the number of requests made so far, as are each node's clock and
    the faults of its disk. *)

From stdpp Require Import pretty.
From S2P Require Import Prelude Ext Concrete Store Fs Blockstore Manifest Ledger.

(** ** Framing *)

Module node.

Definition maxFrameSize : Z := 64 * 1024 * 1024.

(** [type Op uint8]; the numbers the constants of the source stand for. *)
Definition OpPutShard : Z := 1.
Definition OpGetShard : Z := 2.
Definition OpPutManifest : Z := 3.
Definition OpGetManifest : Z := 4.

Record Request := NewRequest { Op : Z; ReqID : string; ReqBody : bytes }.

Record Response := NewResponse { OK : bool; Error : string; RespBody : bytes }.

Definition request_ok (r : Request) : bool := (0 <=? Op r) && (Op r <? 256) && text_ok (ReqID r).
Definition response_ok (r : Response) : bool := text_ok (Error r).

Abbreviation RequestCbor := (Cbor Request request_ok id).
Abbreviation ResponseCbor := (Cbor Response response_ok id).

(** [err.Error()] *)
Fixpoint error_string (e : goerr) : string :=
  match e with
  | ErrKeyNotFound => "Key not found"
  | ErrStoreNotFound => "store: key not found"
  | ErrNotExist => "file does not exist"
  | ErrShardNotFound => "blockstore: shard not found"
  | ErrHashMismatch => "blockstore: payload hash does not match shard id"
  | ErrManifestNotFound => "manifest: not found"
  | ErrNoGroup => "group: not found"
  | ErrMemberNotFound => "group: member not found"
  | ErrBadPassword => "auth: bad password"
  | EOF => "EOF"
  | ErrUnexpectedEOF => "unexpected EOF"
  | ErrMsg msg => msg
  | ErrWrap msg inner => msg +:+ error_string inner
  end.

(** [io.ReadFull(r, buf)] on a stream that holds [input]: the bytes read, the
    rest, and the error. *)
Definition ReadFull (input : bytes) (n : nat) : outcome (bytes * bytes) :=
  match n with
  | O => Ok ([], input)
  | _ =>
      if decide (n <= length input)%nat then Ok (take n input, drop n input)
      else match input with [] => Err EOF | _ => Err ErrUnexpectedEOF end
  end.

Section framing.
Context {T : Type} {ok : T -> bool} {norm : T -> T} `{!Cbor T ok norm}.

(** What [writeFrame] puts on the stream. *)
Definition writeFrame (v : T) : outcome bytes :=
  let! raw := Marshal v in
  if maxFrameSize <? zlen raw then Err (ErrMsg "frame too large")
  else Ok (be_encode 4 (zlen raw mod 2 ^ 32) ++ raw).

Definition readFrame (input : bytes) : outcome T :=
  let! (hdr, rest) := ReadFull input 4 in
  let n := be_decode hdr in
  if maxFrameSize <? n then Err (ErrMsg "frame too large")
  else
    let! (buf, _) := ReadFull rest (Z.to_nat n) in
    Unmarshal buf.

(** A frame is small when its encoding fits the limit. *)
Definition fits (v : T) : Prop := exists raw, Marshal v = Ok raw /\ zlen raw <= maxFrameSize.

Lemma ReadFull_app a b : ReadFull (a ++ b) (length a) = Ok (a, b).
Proof.
  unfold ReadFull. destruct (length a) as [|n] eqn:E.
  { apply length_zero_iff_nil in E as ->. done. }
  rewrite <- E. rewrite decide_True by (rewrite length_app; lia).
  by rewrite take_app_length, drop_app_length.
Qed.

Lemma writeFrame_fits v : fits v -> exists frame, writeFrame v = Ok frame.
Proof.
  intros (raw & Hm & Hl). unfold writeFrame. rewrite Hm. simpl.
  rewrite (proj2 (Z.ltb_ge _ _)) by done. eauto.
Qed.

Lemma writeFrame_inv v frame :
  writeFrame v = Ok frame ->
  exists raw, Marshal v = Ok raw /\ zlen raw <= maxFrameSize /\ frame = be_encode 4 (zlen raw) ++ raw.
Proof.
  unfold writeFrame. destruct (Marshal v) as [raw| |]; simpl; [|done..].
  destruct (Z.ltb_spec maxFrameSize (zlen raw)) as [|Hl]; intros [= <-]. exists raw.
  split_and!; [done..|]. unfold maxFrameSize in Hl. pose proof (zlen_nonneg raw).
  by rewrite Z.mod_small by lia.
Qed.

(** A frame read back is the value written, whatever follows it. *)
Lemma readFrame_writeFrame v frame rest :
  ok v = true -> writeFrame v = Ok frame -> readFrame (frame ++ rest) = Ok (norm v).
Proof.
  intros Hok (raw & Hm & Hl & ->)%writeFrame_inv. unfold readFrame.
  rewrite <- app_assoc. pose proof (ReadFull_app (be_encode 4 (zlen raw)) (raw ++ rest)) as E.
  rewrite length_be_encode in E. rewrite E. cbn [obind].
  unfold maxFrameSize in Hl. pose proof (zlen_nonneg raw).
  rewrite be_decode_encode, Z.mod_small by lia. unfold maxFrameSize.
  rewrite (proj2 (Z.ltb_ge _ _)) by lia. replace (Z.to_nat (zlen raw)) with (length raw) by (unfold zlen; lia).
  rewrite ReadFull_app. simpl. by apply Unmarshal_Marshal.
Qed.

Lemma ReadFull_short input n : (length input < n)%nat -> exists e, ReadFull input n = Err e.
Proof.
  intros Hn. unfold ReadFull. destruct n as [|n]; [lia|]. rewrite decide_False by lia. destruct input; eauto.
Qed.

Lemma readFrame_short raw n :
  zlen raw <= maxFrameSize -> (n < length (be_encode 4 (zlen raw) ++ raw))%nat ->
  exists e, readFrame (take n (be_encode 4 (zlen raw) ++ raw)) = Err e.
Proof.
  intros Hl Hn. unfold readFrame. destruct (decide (n < 4)%nat).
  - destruct (ReadFull_short (take n (be_encode 4 (zlen raw) ++ raw)) 4) as [e ->]; [rewrite length_take; lia|].
    simpl. eauto.
  - rewrite take_app_ge by (rewrite length_be_encode; lia). rewrite length_be_encode.
    pose proof (ReadFull_app (be_encode 4 (zlen raw)) (take (n - 4) raw)) as E. rewrite length_be_encode in E.
    rewrite E. cbn [obind]. unfold maxFrameSize in *. pose proof (zlen_nonneg raw).
    rewrite be_decode_encode, Z.mod_small by lia. rewrite (proj2 (Z.ltb_ge _ _)) by lia.
    rewrite length_app, length_be_encode in Hn.
    destruct (ReadFull_short (take (n - 4) raw) (Z.to_nat (zlen raw))) as [e ->]; [|simpl; eauto].
    rewrite length_take. unfold zlen. lia.
Qed.

Lemma readFrame_bad v frame : ok v = false -> writeFrame v = Ok frame -> exists e, readFrame frame = Err e.
Proof.
  intros Hok (raw & Hm & Hl & ->)%writeFrame_inv. unfold readFrame.
  pose proof (ReadFull_app (be_encode 4 (zlen raw)) raw) as E.
  rewrite length_be_encode in E. rewrite E. cbn [obind].
  unfold maxFrameSize in *. pose proof (zlen_nonneg raw).
  rewrite be_decode_encode, Z.mod_small by lia. rewrite (proj2 (Z.ltb_ge _ _)) by lia.
  pose proof (ReadFull_app raw []) as E'. rewrite app_nil_r in E'.
  replace (Z.to_nat (zlen raw)) with (length raw) by (unfold zlen; lia). rewrite E'. simpl.
  by eapply Unmarshal_bad.
Qed.

(** Framing round trip, and its limit: a value whose encoding is at most
    64 MiB is written as a frame that reads back as the value, whatever follows
    it on the stream; a larger one is refused by the writer; and a frame cut
    short anywhere is an error for the reader, never another value. *)
Theorem frame_roundtrip v raw :
  ok v = true -> Marshal v = Ok raw ->
  (zlen raw <= maxFrameSize ->
     exists frame, writeFrame v = Ok frame /\ zlen frame = zlen raw + 4 /\
       (forall rest, readFrame (frame ++ rest) = Ok (norm v)) /\
       (forall n, (n < length frame)%nat -> exists e, readFrame (take n frame) = Err e)) /\
  (maxFrameSize < zlen raw -> exists e, writeFrame v = Err e).
Proof.
  intros Hok Hm. split; intros Hl.
  - destruct (writeFrame_fits v) as [frame Hf]; [by exists raw|]. exists frame.
    destruct (writeFrame_inv v frame Hf) as (raw' & Hm' & _ & Ef). rewrite Hm in Hm'. injection Hm' as <-.
    split_and!; [done| |intros rest; by apply readFrame_writeFrame|].
    + rewrite Ef, zlen_app. unfold zlen at 1. rewrite length_be_encode. lia.
    + intros n Hn. rewrite Ef in Hn |- *. by apply readFrame_short.
  - unfold writeFrame. rewrite Hm. simpl. rewrite (proj2 (Z.ltb_lt _ _)) by done. eauto.
Qed.

End framing.

(** ** Nodes and the world *)

Section with_libraries.
Context `{Badger, !Sha256, !manifest.ManifestCbor, !ledger.EntryCbor, !RequestCbor, !ResponseCbor, PeerIDs}.

Record NodeState := NewNode {
  nstore : db;
  nfs : fs;
  nblocks : option blockstore.Store;
  nledger : option ledger.dirty_map
}.

Implicit Types (st : NodeState) (req : Request) (resp : Response).

Definition set_store st s : NodeState := NewNode s (nfs st) (nblocks st) (nledger st).
Definition set_fs st f : NodeState := NewNode (nstore st) f (nblocks st) (nledger st).
Definition set_ledger st l : NodeState := NewNode (nstore st) (nfs st) (nblocks st) l.

Definition AttachBlockstore st (bs : blockstore.Store) : NodeState :=
  NewNode (nstore st) (nfs st) (Some bs) (nledger st).

Definition refuse (e : string) : Response := NewResponse false e [].

Definition serveBlock (io : wio) st req : NodeState * Response :=
  match nblocks st with
  | None => (st, refuse "blockstore not initialized")
  | Some bs =>
      if Op req =? OpPutShard then
        match blockstore.Put io (nfs st) bs (ReqID req) (ReqBody req) with
        | (f', Ok _) => (set_fs st f', NewResponse true "" [])
        | (f', Err e) => (set_fs st f', refuse (error_string e))
        | (f', Panic) => (set_fs st f', refuse "")
        end
      else if Op req =? OpGetShard then
        match blockstore.Get (nfs st) bs (ReqID req) with
        | Ok raw => (st, NewResponse true "" raw)
        | Err e => (st, refuse (error_string e))
        | Panic => (st, refuse "")
        end
      else if Op req =? OpPutManifest then
        match manifest.Unmarshal' (ReqBody req) with
        | Ok m =>
            if negb (bool_decide (manifest.FileID m = ReqID req)) then (st, refuse "file id mismatch")
            else match manifest.Put (nstore st) m with
                 | (s', Ok _) => (set_store st s', NewResponse true "" [])
                 | (s', Err e) => (set_store st s', refuse (error_string e))
                 | (s', Panic) => (set_store st s', refuse "")
                 end
        | Err e => (st, refuse ("manifest decode: " +:+ error_string e))
        | Panic => (st, refuse "")
        end
      else if Op req =? OpGetManifest then
        match manifest.Get (nstore st) (ReqID req) with
        | Ok m =>
            match manifest.Marshal' m with
            | Ok raw => (st, NewResponse true "" raw)
            | Err e => (st, refuse (error_string e))
            | Panic => (st, refuse "")
            end
        | Err e => (st, refuse (error_string e))
        | Panic => (st, refuse "")
        end
      else (st, refuse ("unknown op " +:+ pretty (Op req)))
  end.

(** The accounting in [handleBlocks]. *)
Definition account (now : Z) (remote : string) st req resp : NodeState :=
  match nledger st with
  | Some l =>
      if OK resp then
        if Op req =? OpPutShard then
          set_ledger st (Some (ledger.RecordStoredForThem (nstore st) l remote (zlen (ReqBody req)) now))
        else if Op req =? OpGetShard then
          set_ledger st (Some (ledger.RecordServedToThem (nstore st) l remote (zlen (RespBody resp)) now))
        else st
      else st
  | None => st
  end.

(** [handleBlocks]: the bytes that arrive, the bytes sent back (none when the
    response cannot be written). *)
Definition handleBlocks (io : wio) (now : Z) (remote : string) st (input : bytes) : NodeState * bytes :=
  match readFrame (T := Request) input with
  | Ok req =>
      let '(st1, resp) := serveBlock io st req in
      let st2 := account now remote st1 req resp in
      (st2, match writeFrame resp with Ok out => out | _ => [] end)
  | Err e => (st, match writeFrame (refuse ("decode: " +:+ error_string e)) with Ok out => out | _ => [] end)
  | Panic => (st, [])
  end.

Inductive Fate := NoStream (e : goerr) | RequestLost (e : goerr) | ResponseLost (e : goerr) | Through.

Record World := NewWorld { nodes : gmap string NodeState; tick : nat }.

Implicit Types W : World.

Definition set_node W p st : World := NewWorld (<[p := st]> (nodes W)) (tick W).

(** The network, the clocks and the disks. *)
Context (fate : nat -> string -> string -> Fate) (clock : nat -> Z) (disk : nat -> wio).

(** [blockRequest] of node [self] to peer [p]. *)
Definition blockRequest W (self : string) (p : pid) req : World * outcome Response :=
  let to := peer_String p in
  let W1 := NewWorld (nodes W) (S (tick W)) in
  match (if bool_decide (to = self) then NoStream (ErrMsg "dial to self attempted") else fate (tick W) self to),
        nodes W !! to with
  | NoStream e, _ => (W1, Err (ErrWrap "open blocks stream: " e))
  | _, None => (W1, Err (ErrWrap "open blocks stream: " (ErrMsg "no addresses")))
  | ft, Some st =>
      match writeFrame req with
      | Err e => (W1, Err e)
      | Panic => (W1, Panic)
      | Ok frame =>
          match ft with
          | RequestLost e | NoStream e => (W1, Err e)
          | _ =>
              let '(st', out) := handleBlocks (disk (tick W)) (clock (tick W)) self st frame in
              let W2 := set_node W1 to st' in
              match ft with
              | ResponseLost e => (W2, Err e)
              | _ => (W2, readFrame out)
              end
          end
      end
  end.

(** The caller's own accounting. *)
Definition record W (self : string) (f : db -> ledger.dirty_map -> ledger.dirty_map) : World :=
  match nodes W !! self with
  | Some st =>
      match nledger st with
      | Some l => set_node W self (set_ledger st (Some (f (nstore st) l)))
      | None => W
      end
  | None => W
  end.

Definition PutShardOnPeer W (self : string) (p : pid) (shardID : string) (data : bytes) : World * outcome unit :=
  match blockRequest W self p (NewRequest OpPutShard shardID data) with
  | (W', Ok resp) =>
      if negb (OK resp) then (W', Err (ErrMsg (Error resp)))
      else (record W' self (fun s l => ledger.RecordStoredOnThem s l (peer_String p) (zlen data) (clock (tick W))), Ok tt)
  | (W', Err e) => (W', Err e)
  | (W', Panic) => (W', Panic)
  end.

Definition GetShardFromPeer W (self : string) (p : pid) (shardID : string) : World * outcome bytes :=
  match blockRequest W self p (NewRequest OpGetShard shardID []) with
  | (W', Ok resp) =>
      if negb (OK resp) then (W', Err (ErrMsg (Error resp)))
      else (record W' self (fun s l =>
              ledger.RecordDownloadedFrom s l (peer_String p) (zlen (RespBody resp)) (clock (tick W))),
            Ok (RespBody resp))
  | (W', Err e) => (W', Err e)
  | (W', Panic) => (W', Panic)
  end.

Definition PutManifestRawOnPeer W (self : string) (p : pid) (fileID : string) (raw : bytes) : World * outcome unit :=
  match blockRequest W self p (NewRequest OpPutManifest fileID raw) with
  | (W', Ok resp) => if negb (OK resp) then (W', Err (ErrMsg (Error resp))) else (W', Ok tt)
  | (W', Err e) => (W', Err e)
  | (W', Panic) => (W', Panic)
  end.

Definition PutManifestOnPeer W (self : string) (p : pid) (m : manifest.Manifest) : World * outcome unit :=
  match manifest.Marshal' m with
  | Ok raw => PutManifestRawOnPeer W self p (manifest.FileID m) raw
  | Err e => (W, Err e)
  | Panic => (W, Panic)
  end.

Definition GetManifestFromPeer W (self : string) (p : pid) (fileID : string) : World * outcome manifest.Manifest :=
  match blockRequest W self p (NewRequest OpGetManifest fileID []) with
  | (W', Ok resp) =>
      if negb (OK resp) then (W', Err (ErrMsg (Error resp))) else (W', manifest.Unmarshal' (RespBody resp))
  | (W', Err e) => (W', Err e)
  | (W', Panic) => (W', Panic)
  end.

(** ** What a request does *)

Lemma hex_string_text s : hex_string s = true -> text_ok s = true.
Proof.
  unfold text_ok, bytes_of_string. induction s as [|c s IH]; [done|]. cbn [hex_string]. intros [Hc Hs]%andb_true_iff.
  cbn [String.list_ascii_of_string map utf8_valid].
  assert (Hr : in_range 0 127 (Ascii.byte_of_ascii c) = true) by (clear -Hc; by destruct c as [[] [] [] [] [] [] [] []]).
  rewrite Hr. by apply IH.
Qed.

Lemma text_ok_hex b : text_ok (hex_encode b) = true.
Proof. apply hex_string_text, hex_encode_string. Qed.

Lemma shard_id_text id : blockstore.shard_id id -> text_ok id = true.
Proof. intros (h & _ & ->). apply text_ok_hex. Qed.

(** A request reaches the server whole or not at all; what comes back, if
    anything, is the server's answer. *)
Lemma blockRequest_inv W self p req W' r :
  request_ok req = true -> blockRequest W self p req = (W', r) ->
  (nodes W' = nodes W /\ exists e, r = Err e) \/
  (exists st, peer_String p <> self /\ nodes W !! peer_String p = Some st /\
    let '(st1, resp) := serveBlock (disk (tick W)) st req in
    nodes W' = <[peer_String p := account (clock (tick W)) self st1 req resp]> (nodes W) /\
    ((exists e, r = Err e) \/ (fits resp /\ r = Ok resp))).
Proof.
  intros Hok. unfold blockRequest. destruct (writeFrame req) as [frame|e|] eqn:Ef.
  3: { exfalso. unfold writeFrame in Ef. destruct (Marshal_total req) as [raw Hr]. rewrite Hr in Ef. simpl in Ef.
       by destruct (_ <? _). }
  2: { intros E. left. case_bool_decide; [by injection E as <- <-; eauto|].
       destruct (fate (tick W) self (peer_String p)), (nodes W !! peer_String p); injection E as <- <-; eauto. }
  assert (Hrd : readFrame frame = Ok req).
  { rewrite <- (app_nil_r frame). by apply (readFrame_writeFrame (norm := id)). }
  case_bool_decide as Hself; [intros [= <- <-]; left; eauto|].
  destruct (nodes W !! peer_String p) as [st|] eqn:Hst.
  2: { intros E. left. destruct (fate (tick W) self (peer_String p)); injection E as <- <-; eauto. }
  unfold handleBlocks. rewrite Hrd. intros E.
  destruct (fate (tick W) self (peer_String p)) as [e|e|e|]; try (injection E as <- <-; left; eauto).
  - right. exists st. destruct (serveBlock _ st req) as [st1 resp]. injection E as <- <-. eauto 10.
  - right. exists st. destruct (serveBlock _ st req) as [st1 resp]. injection E as <- <-. split_and!; [done..|].
    destruct (writeFrame resp) as [out|e|] eqn:Eo.
    + destruct (response_ok resp) eqn:Hro.
      * right. split; [apply writeFrame_inv in Eo as (raw & ? & ? & _); by exists raw|].
        rewrite <- (app_nil_r out). by apply (readFrame_writeFrame (norm := id)).
      * left. by eapply readFrame_bad.
    + left. unfold readFrame. simpl. eauto.
    + left. unfold readFrame. simpl. eauto.
Qed.

Lemma blockRequest_through W self p req st :
  request_ok req = true -> fits req -> peer_String p <> self -> fate (tick W) self (peer_String p) = Through ->
  nodes W !! peer_String p = Some st ->
  let resp := (serveBlock (disk (tick W)) st req).2 in
  response_ok resp = true -> fits resp -> (blockRequest W self p req).2 = Ok resp.
Proof.
  intros Hok Hfit Hself Hfate Hst resp Hrok Hrfit. unfold blockRequest.
  rewrite bool_decide_eq_false_2 by done. rewrite Hfate, Hst.
  destruct (writeFrame_fits req Hfit) as [frame Ef]. rewrite Ef.
  assert (Hrd : readFrame frame = Ok req).
  { rewrite <- (app_nil_r frame). by apply (readFrame_writeFrame (norm := id)). }
  unfold handleBlocks. rewrite Hrd. unfold resp in *. destruct (serveBlock _ st req) as [st1 r]. simpl in *.
  destruct (writeFrame_fits r Hrfit) as [out Eo]. rewrite Eo. simpl.
  rewrite <- (app_nil_r out). by apply (readFrame_writeFrame (norm := id)).
Qed.

(** ** The shards of the world *)

(** The part of the nodes' state that holds shards. *)
Definition disk_of st : fs * option blockstore.Store := (nfs st, nblocks st).
Definition disks W : gmap string (fs * option blockstore.Store) := disk_of <$> nodes W.

Implicit Types D : gmap string (fs * option blockstore.Store).

Definition shard_in D p id : option bytes :=
  match D !! p with
  | Some (f, Some bs) => match blockstore.Get f bs id with Ok d => Some d | _ => None end
  | _ => None
  end.

(** Node [p] has bytes that hash to [id] under [id]. *)
Definition has D p id : Prop := exists d, shard_in D p id = Some d /\ blockstore.HashOf d = id.

(** No node holds bytes under a shard identifier that do not hash to it. *)
Definition all_sound D : Prop := forall p f bs, D !! p = Some (f, Some bs) -> blockstore.sound f bs.

(** What nodes do to their disks: store a shard, or write elsewhere. *)
Inductive dstep D : gmap string (fs * option blockstore.Store) -> Prop :=
  | ds_put io p f bs id data f' r :
      D !! p = Some (f, Some bs) -> blockstore.Put io f bs id data = (f', r) ->
      dstep D (<[p := (f', Some bs)]> D)
  | ds_other p f ob f' :
      D !! p = Some (f, ob) ->
      (forall bs id, ob = Some bs -> blockstore.shard_id id -> blockstore.Get f' bs id = blockstore.Get f bs id) ->
      dstep D (<[p := (f', ob)]> D).

Lemma shard_in_insert D p x q id :
  shard_in (<[p := x]> D) q id = if decide (q = p) then shard_in {[ p := x ]} p id else shard_in D q id.
Proof.
  unfold shard_in. case_decide as E; [subst; by rewrite lookup_insert_eq, lookup_singleton_eq|].
  by rewrite lookup_insert_ne.
Qed.

Lemma dstep_shard D D' q id d :
  dstep D D' -> blockstore.shard_id id -> shard_in D q id = Some d ->
  exists d', shard_in D' q id = Some d' /\ (d' = d \/ blockstore.HashOf d' = id).
Proof.
  intros Hst Hid Hs. destruct Hst as [io p f bs id0 data f' r HD HP|p f ob f' HD Hf].
  - rewrite shard_in_insert. case_decide as E; [subst q|eauto]. unfold shard_in in *. rewrite HD in Hs.
    rewrite lookup_singleton_eq. destruct (blockstore.Get f bs id) as [d0| |] eqn:Hg; [|done..].
    injection Hs as ->. apply blockstore.Put_spec in HP. apply blockstore.Get_file_at in Hg.
    destruct r as [u|e|]; [|exists d|done].
    + destruct HP as [Hh Hf]. destruct (decide (blockstore.path_of bs id0 = blockstore.path_of bs id)) as [Ep|Ep].
      * apply blockstore.shard_path_inj in Ep as ->; [|rewrite <- Hh; apply blockstore.HashOf_shard_id|done].
        exists data. split; [|by right]. specialize (Hf (blockstore.path_of bs id)). rewrite decide_True in Hf by done.
        apply blockstore.Get_file_at in Hf. by rewrite Hf.
      * exists d. split; [|by left]. specialize (Hf (blockstore.path_of bs id)). rewrite decide_False in Hf by done.
        rewrite Hg in Hf. apply blockstore.Get_file_at in Hf. by rewrite Hf.
    + specialize (HP id Hid). rewrite Hg in HP. apply blockstore.Get_file_at in HP. rewrite HP. auto.
  - rewrite shard_in_insert. case_decide as E; [subst q|eauto]. unfold shard_in in *. rewrite HD in Hs.
    rewrite lookup_singleton_eq. destruct ob as [bs|]; [|done]. rewrite (Hf bs id) by done. eauto.
Qed.

Lemma dsteps_has D D' p id : rtc dstep D D' -> blockstore.shard_id id -> has D p id -> has D' p id.
Proof.
  intros Hst Hid. induction Hst as [|D D1 D' Hs _ IH]; [done|]. intros (d & Hd & Hh). apply IH.
  destruct (dstep_shard _ _ _ _ _ Hs Hid Hd) as (d' & Hd' & [->|Hh']); [by exists d|by exists d'].
Qed.

Lemma dstep_sound D D' : dstep D D' -> all_sound D -> all_sound D'.
Proof.
  intros Hst HD. destruct Hst as [io p f bs id0 data f' r Hp HP|p f ob f' Hp Hf]; intros q f1 bs1 Hq;
    apply lookup_insert_Some in Hq as [[<- Hq]|[_ Hq]]; eauto.
  - injection Hq as <- <-. eapply blockstore.Put_sound; eauto.
  - injection Hq as <- ->. intros id data Hid Hg. rewrite (Hf bs1) in Hg by done. eapply HD; eauto.
Qed.

Lemma dsteps_sound D D' : rtc dstep D D' -> all_sound D -> all_sound D'.
Proof. induction 1; eauto using dstep_sound. Qed.

Lemma disks_set_node W p st : disks (set_node W p st) = <[p := disk_of st]> (disks W).
Proof. unfold disks. simpl. by rewrite fmap_insert. Qed.

Lemma disks_record W self f : disks (record W self f) = disks W.
Proof.
  unfold record. destruct (nodes W !! self) as [st|] eqn:E; [|done]. destruct (nledger st); [|done].
  rewrite disks_set_node. apply insert_id. unfold disks. by rewrite lookup_fmap, E.
Qed.

Lemma disk_account now remote st req resp : disk_of (account now remote st req resp) = disk_of st.
Proof. unfold account. by repeat case_match. Qed.

Lemma account_store now remote st req resp : nstore (account now remote st req resp) = nstore st.
Proof. unfold account. by repeat case_match. Qed.

Lemma serveBlock_disk io st req :
  let st' := (serveBlock io st req).1 in
  disk_of st' = disk_of st \/
  (Op req = OpPutShard /\ exists bs f' r, nblocks st = Some bs /\ blockstore.Put io (nfs st) bs (ReqID req) (ReqBody req) = (f', r) /\
    disk_of st' = (f', Some bs)).
Proof.
  unfold serveBlock. destruct (nblocks st) as [bs|] eqn:Eb; simpl; [|by left].
  destruct (Z.eqb_spec (Op req) OpPutShard) as [Ho|_].
  - right. split; [done|]. exists bs. destruct (blockstore.Put _ _ _ _ _) as [f' r] eqn:EP. exists f', r.
    split_and!; [done..|]. unfold disk_of. destruct r; simpl; by rewrite Eb.
  - left. repeat case_match; done.
Qed.

(** A request, whatever is in it, changes at most the node it is sent to, the
    way [handleBlocks] does on some input. *)
Lemma blockRequest_handled W self p req W' r :
  blockRequest W self p req = (W', r) ->
  nodes W' = nodes W \/
  exists st input, peer_String p <> self /\ nodes W !! peer_String p = Some st /\
    nodes W' = <[peer_String p := (handleBlocks (disk (tick W)) (clock (tick W)) self st input).1]> (nodes W).
Proof.
  unfold blockRequest. case_bool_decide as Hself; [intros [= <- <-]; by left|].
  destruct (nodes W !! peer_String p) as [st|] eqn:Hst.
  2: { intros E. left. destruct (fate (tick W) self (peer_String p)); by injection E as <- <-. }
  destruct (writeFrame req) as [frame|e|].
  2-3: intros E; left; destruct (fate (tick W) self (peer_String p)); by injection E as <- <-.
  intros E. destruct (fate (tick W) self (peer_String p)) as [e|e|e|]; try (injection E as <- <-; by left);
    right; exists st, frame; destruct (handleBlocks _ _ _ _ _) as [st' out]; by injection E as <- <-.
Qed.

Lemma handleBlocks_disk io now remote st input :
  let st' := (handleBlocks io now remote st input).1 in
  disk_of st' = disk_of st \/
  exists bs id data f' r, nblocks st = Some bs /\ blockstore.Put io (nfs st) bs id data = (f', r) /\
    disk_of st' = (f', Some bs).
Proof.
  unfold handleBlocks. destruct (readFrame input) as [req|e|]; [|by left..].
  pose proof (serveBlock_disk io st req) as Hd. destruct (serveBlock io st req) as [st1 resp].
  cbv zeta in *. cbn [fst] in *. rewrite disk_account. destruct Hd as [?|(_ & bs & f' & r & ? & ? & ?)]; [by left|eauto 10].
Qed.

Lemma blockRequest_disks W self p req W' r :
  blockRequest W self p req = (W', r) -> rtc dstep (disks W) (disks W').
Proof.
  intros [Hn|(st & input & _ & Hst & Hn)]%blockRequest_handled; [unfold disks; by rewrite Hn|].
  assert (HD : disks W !! peer_String p = Some (disk_of st)) by (unfold disks; by rewrite lookup_fmap, Hst).
  unfold disks at 2. rewrite Hn, fmap_insert. fold (disks W).
  destruct (handleBlocks_disk (disk (tick W)) (clock (tick W)) self st input) as [->|(bs & id & data & f' & r' & Hb & HP & ->)].
  { by rewrite insert_id. }
  apply rtc_once. unfold disk_of in HD. rewrite Hb in HD. by eapply ds_put.
Qed.

(** Requests that read leave every disk as it is. *)
Lemma blockRequest_read W self p req W' r :
  request_ok req = true -> Op req <> OpPutShard -> blockRequest W self p req = (W', r) -> disks W' = disks W.
Proof.
  intros Hok Hop HB. destruct (blockRequest_inv _ _ _ _ _ _ Hok HB) as [[Hn _]|(st & _ & Hst & HS)].
  { unfold disks. by rewrite Hn. }
  pose proof (serveBlock_disk (disk (tick W)) st req) as Hd.
  destruct (serveBlock (disk (tick W)) st req) as [st1 resp]. destruct HS as [Hn _]. simpl in Hd.
  unfold disks at 1. rewrite Hn, fmap_insert, disk_account. fold (disks W).
  destruct Hd as [->|[? _]]; [|done]. apply insert_id. unfold disks. by rewrite lookup_fmap, Hst.
Qed.

Lemma request_ok_shard op id data :
  op = OpPutShard \/ op = OpGetShard -> blockstore.shard_id id -> request_ok (NewRequest op id data) = true.
Proof. intros [->| ->] Hid%shard_id_text; unfold request_ok; simpl; by rewrite Hid. Qed.

Lemma PutShardOnPeer_steps W self p id data W' r :
  PutShardOnPeer W self p id data = (W', r) -> rtc dstep (disks W) (disks W').
Proof.
  unfold PutShardOnPeer. destruct (blockRequest _ _ _ _) as [W1 r1] eqn:HB. apply blockRequest_disks in HB. intros E.
  destruct r1 as [resp| |]; [destruct (negb (OK resp))|..]; injection E as <- <-; rewrite ?disks_record; done.
Qed.

(** The client's own disk is not touched. *)
Lemma blockRequest_self W self p req W' r :
  blockRequest W self p req = (W', r) -> nodes W' !! self = nodes W !! self.
Proof. intros [->|(st & input & Hne & _ & ->)]%blockRequest_handled; [done|]. by rewrite lookup_insert_ne.
Qed.

(** A node does not get an answer from itself. *)
Lemma blockRequest_remote W self p req W' resp :
  blockRequest W self p req = (W', Ok resp) -> peer_String p <> self.
Proof. unfold blockRequest. by case_bool_decide. Qed.

Lemma PutShardOnPeer_remote W self p id data W' :
  PutShardOnPeer W self p id data = (W', Ok tt) -> peer_String p <> self.
Proof.
  unfold PutShardOnPeer. destruct (blockRequest _ _ _ _) as [W1 [resp| |]] eqn:HB; [|done..]. intros _.
  by eapply blockRequest_remote.
Qed.

Lemma PutManifestRawOnPeer_remote W self p id raw W' :
  PutManifestRawOnPeer W self p id raw = (W', Ok tt) -> peer_String p <> self.
Proof.
  unfold PutManifestRawOnPeer. destruct (blockRequest _ _ _ _) as [W1 [resp| |]] eqn:HB; [|done..]. intros _.
  by eapply blockRequest_remote.
Qed.

Lemma PutShardOnPeer_self W self p id data W' r :
  PutShardOnPeer W self p id data = (W', r) -> disks W' !! self = disks W !! self.
Proof.
  unfold PutShardOnPeer. destruct (blockRequest _ _ _ _) as [W1 r1] eqn:HB. apply blockRequest_self in HB.
  assert (E : disks W1 !! self = disks W !! self) by (unfold disks; by rewrite !lookup_fmap, HB). rewrite <- E.
  destruct r1 as [resp| |]; [destruct (negb (OK resp))|..]; intros [= <- <-]; by rewrite ?disks_record.
Qed.

Lemma PutShardOnPeer_Ok W self p id data W' :
  blockstore.shard_id id -> PutShardOnPeer W self p id data = (W', Ok tt) ->
  peer_String p <> self /\ blockstore.HashOf data = id /\ shard_in (disks W') (peer_String p) id = Some data.
Proof.
  intros Hid. unfold PutShardOnPeer. destruct (blockRequest _ _ _ _) as [W1 r1] eqn:HB.
  destruct r1 as [resp| |]; [|done..]. destruct (OK resp) eqn:HOK; [|done]. simpl. intros [= <-].
  rewrite disks_record.
  apply blockRequest_inv in HB as [[_ [e E]]|(st & Hself & Hst & HS)]; [done| |apply request_ok_shard; auto].
  split; [done|]. unfold serveBlock in HS. destruct (nblocks st) as [bs|] eqn:Eb.
  2: { by destruct HS as [_ [[e E]|[_ E]]]; simplify_eq. }
  simpl in HS. destruct (blockstore.Put _ _ _ _ _) as [f' r'] eqn:HP. destruct r' as [[]|e|].
  - destruct HS as [Hn _]. destruct (blockstore.Put_spec _ _ _ _ _ _ _ HP) as [Hh Hf]. split; [done|].
    unfold disks, shard_in. rewrite Hn, fmap_insert, disk_account, lookup_insert_eq. unfold disk_of. simpl.
    rewrite Eb. specialize (Hf (blockstore.path_of bs id)). rewrite decide_True in Hf by done.
    apply blockstore.Get_file_at in Hf. by rewrite Hf.
  - by destruct HS as [_ [[e' E]|[_ E]]]; simplify_eq.
  - by apply blockstore.Put_spec in HP.
Qed.

(** *** Manifests *)

(** Node [p] has a manifest under the file identifier. *)
Definition has_manifest W p fileID : Prop :=
  exists st m, nodes W !! p = Some st /\ manifest.Get (nstore st) fileID = Ok m.

Lemma handleBlocks_manifest io now remote st input fileID m :
  manifest.Get (nstore st) fileID = Ok m ->
  exists m', manifest.Get (nstore (handleBlocks io now remote st input).1) fileID = Ok m'.
Proof.
  intros Hm. unfold handleBlocks. destruct (readFrame input) as [req|e|]; [|by exists m..].
  destruct (serveBlock io st req) as [st1 resp] eqn:HS. cbn [fst].
  rewrite account_store.
  unfold serveBlock in HS. destruct (nblocks st) as [bs|]; [|injection HS as <- _; by exists m].
  repeat (match type of HS with (if ?b then _ else _) = _ => destruct b end).
  - destruct (blockstore.Put io (nfs st) bs _ _) as [f' []]; injection HS as <- _; by exists m.
  - destruct (blockstore.Get _ _ _); injection HS as <- _; by exists m.
  - unfold manifest.Unmarshal' in HS. destruct (Unmarshal _) as [m1|e|] eqn:HU; [|injection HS as <- _; by exists m..].
    destruct (negb _); [injection HS as <- _; by exists m|]. destruct (manifest.Put (nstore st) m1) as [s' r] eqn:HP.
    assert (Hs : nstore st1 = s') by (destruct r; by injection HS as <- _). rewrite Hs.
    destruct (decide (fileID = manifest.FileID m1)) as [->|Hne].
    + destruct r as [[]|e|].
      * exists (manifest.manifest_norm m1). eapply manifest.Put_Get_same; [|exact HP]. by eapply Unmarshal_ok.
      * exists m. by rewrite (manifest.Put_Err_same _ _ _ _ _ HP).
      * by apply manifest.Put_never_panics in HP.
    + exists m. by rewrite (manifest.Put_Get_other _ _ _ _ _ HP Hne).
  - destruct (manifest.Get (nstore st) (ReqID req)) as [m1| |]; [destruct (manifest.Marshal' m1)|..]; injection HS as <- _; by exists m.
  - injection HS as <- _. by exists m.
Qed.

Lemma blockRequest_manifest W self p req W' r q fileID :
  blockRequest W self p req = (W', r) -> has_manifest W q fileID -> has_manifest W' q fileID.
Proof.
  intros HB (st & m & Hst & Hm). apply blockRequest_handled in HB as [Hn|(st0 & input & _ & Hst0 & Hn)]; unfold has_manifest; rewrite Hn; [eauto|].
  destruct (decide (q = peer_String p)) as [->|Hne].
  - rewrite Hst in Hst0. injection Hst0 as <-.
    destruct (handleBlocks_manifest (disk (tick W)) (clock (tick W)) self st input fileID m Hm) as [m' ?].
    eexists _, m'. by rewrite lookup_insert_eq.
  - exists st, m. by rewrite lookup_insert_ne.
Qed.

Lemma record_manifest W self f q fileID : has_manifest (record W self f) q fileID <-> has_manifest W q fileID.
Proof.
  unfold has_manifest, record. destruct (nodes W !! self) as [st|] eqn:Hs; [|done]. destruct (nledger st); [|done]. simpl.
  destruct (decide (q = self)) as [->|Hne]; [|by rewrite lookup_insert_ne].
  rewrite lookup_insert_eq, Hs. split; intros (st' & m & [= <-] & Hm); eauto.
Qed.

Lemma PutManifestRawOnPeer_Ok W self p fileID raw W' :
  text_ok fileID = true -> PutManifestRawOnPeer W self p fileID raw = (W', Ok tt) ->
  peer_String p <> self /\ has_manifest W' (peer_String p) fileID.
Proof.
  intros Hid. unfold PutManifestRawOnPeer. destruct (blockRequest _ _ _ _) as [W1 r1] eqn:HB.
  destruct r1 as [resp| |]; [|done..]. destruct (OK resp) eqn:HOK; [|done]. simpl. intros [= <-].
  apply blockRequest_inv in HB as [[_ [e E]]|(st & Hself & Hst & HS)]; [done| |unfold request_ok; simpl; by rewrite Hid].
  split; [done|]. destruct (serveBlock _ st _) as [st1 resp'] eqn:HSB.
  destruct HS as [Hn [[e E]|[_ E]]]; [done|]. injection E as <-. unfold serveBlock in HSB.
  destruct (nblocks st) as [bs|]; [|by injection HSB as <- <-]. cbn [Op ReqBody ReqID] in HSB.
  change (OpPutManifest =? OpPutShard) with false in HSB. change (OpPutManifest =? OpGetShard) with false in HSB.
  change (OpPutManifest =? OpPutManifest) with true in HSB. cbv iota in HSB. unfold manifest.Unmarshal' in HSB.
  destruct (Unmarshal raw) as [m|e|] eqn:HU; [|by injection HSB as <- <-..].
  case_bool_decide as Hf; cbn [negb] in HSB; [|by injection HSB as <- <-].
  destruct (manifest.Put (nstore st) m) as [s' [[]|e|]] eqn:HP; [|by injection HSB as <- <-..].
  injection HSB as <- <-. unfold has_manifest. rewrite Hn, lookup_insert_eq. eexists _, (manifest.manifest_norm m).
  split; [done|]. rewrite <- Hf.
  rewrite account_store. eapply manifest.Put_Get_same; [|exact HP]. by eapply Unmarshal_ok.
Qed.

Lemma GetShardFromPeer_disks W self p id W' r :
  blockstore.shard_id id -> GetShardFromPeer W self p id = (W', r) -> disks W' = disks W.
Proof.
  intros Hid. unfold GetShardFromPeer. destruct (blockRequest _ _ _ _) as [W1 r1] eqn:HB.
  apply blockRequest_read in HB; [|apply request_ok_shard; auto|done]. intros E.
  destruct r1 as [resp| |]; [destruct (negb (OK resp))|..]; injection E as <- <-; by rewrite ?disks_record.
Qed.

Lemma GetShardFromPeer_Ok W self p id W' d :
  blockstore.shard_id id -> GetShardFromPeer W self p id = (W', Ok d) ->
  shard_in (disks W) (peer_String p) id = Some d.
Proof.
  intros Hid. unfold GetShardFromPeer. destruct (blockRequest _ _ _ _) as [W1 r1] eqn:HB.
  destruct r1 as [resp| |]; [|done..]. destruct (OK resp) eqn:HOK; [|done]. simpl. intros [= _ <-].
  apply blockRequest_inv in HB as [[_ [e E]]|(st & _ & Hst & HS)]; [done| |apply request_ok_shard; auto].
  unfold shard_in, disks. rewrite lookup_fmap, Hst. unfold disk_of, serveBlock in *. simpl.
  destruct (nblocks st) as [bs|] eqn:Eb; [|by destruct HS as [_ [[e E]|[_ E]]]; simplify_eq].
  simpl in HS. destruct (blockstore.Get (nfs st) bs id) as [raw|e|];
    by destruct HS as [_ [[e' E]|[_ E]]]; simplify_eq.
Qed.

Lemma GetShardFromPeer_no_panic W self p id W' :
  blockstore.shard_id id -> GetShardFromPeer W self p id <> (W', Panic).
Proof.
  intros Hid. unfold GetShardFromPeer. destruct (blockRequest _ _ _ _) as [W1 r1] eqn:HB.
  destruct r1 as [resp| |]; [by destruct (negb (OK resp))|done|]. intros _.
  apply blockRequest_inv in HB as [[_ [e E]]|(st & _ & _ & HS)]; [done| |apply request_ok_shard; auto].
  destruct (serveBlock _ _ _) as [st1 resp]. by destruct HS as [_ [[e E]|[_ E]]].
Qed.

(** A reachable holder of a shard that fits a frame serves it. *)
Lemma GetShardFromPeer_through W self p id d :
  blockstore.shard_id id -> peer_String p <> self -> fate (tick W) self (peer_String p) = Through ->
  shard_in (disks W) (peer_String p) id = Some d ->
  fits (NewRequest OpGetShard id []) -> fits (NewResponse true "" d) ->
  (GetShardFromPeer W self p id).2 = Ok d.
Proof.
  intros Hid Hself Hfate Hs Hf1 Hf2. unfold shard_in, disks in Hs. rewrite lookup_fmap in Hs.
  destruct (nodes W !! peer_String p) as [st|] eqn:Hst; [|done]. simpl in Hs. unfold disk_of in Hs.
  destruct (nblocks st) as [bs|] eqn:Eb; [|done].
  assert (Hserve : (serveBlock (disk (tick W)) st (NewRequest OpGetShard id [])).2 = NewResponse true "" d).
  { unfold serveBlock. rewrite Eb. simpl. by destruct (blockstore.Get (nfs st) bs id); simplify_eq. }
  unfold GetShardFromPeer.
  pose proof (blockRequest_through W self p (NewRequest OpGetShard id []) st) as HB. cbv zeta in HB.
  rewrite Hserve in HB. specialize (HB ltac:(apply request_ok_shard; auto) Hf1 Hself Hfate Hst eq_refl Hf2).
  destruct (blockRequest _ _ _ _) as [W1 r1]. simpl in HB. by subst.
Qed.

(** *** A node that takes every shard *)

Definition accepting st : Prop := exists bs, nblocks st = Some bs /\ blockstore.roomy (nfs st) bs.

Lemma accepting_disk st st' : disk_of st' = disk_of st -> accepting st -> accepting st'.
Proof. intros [= E1 E2] (bs & Hb & Hr). exists bs. by rewrite E1, E2. Qed.

(** The calls of the disk do not fail. *)
Definition fine (io : wio) : Prop := exists r, io = io_fine r.

Lemma handleBlocks_accepting io now remote st input :
  fine io -> accepting st -> accepting (handleBlocks io now remote st input).1.
Proof.
  intros [x ->] Ha. destruct (handleBlocks_disk (io_fine x) now remote st input) as [E|(bs & id & data & f' & r & Hb & HP & E)];
    [by eapply accepting_disk|]. destruct Ha as (bs' & Hb' & Hr). rewrite Hb in Hb'. injection Hb' as <-.
  injection E as E1 E2. exists bs. rewrite E1, E2. split; [done|]. by eapply blockstore.Put_roomy.
Qed.

Lemma PutShardOnPeer_through W self p st data :
  peer_String p <> self -> fate (tick W) self (peer_String p) = Through -> nodes W !! peer_String p = Some st ->
  accepting st -> fine (disk (tick W)) -> fits (NewRequest OpPutShard (blockstore.HashOf data) data) ->
  fits (NewResponse true "" []) -> exists W', PutShardOnPeer W self p (blockstore.HashOf data) data = (W', Ok tt).
Proof.
  intros Hself Hfate Hst (bs & Hb & Hr) [x Hx] Hf1 Hf2. destruct (blockstore.Put_takes x _ _ data Hr) as (f' & HP & _).
  assert (Hserve : (serveBlock (disk (tick W)) st (NewRequest OpPutShard (blockstore.HashOf data) data)).2 = NewResponse true "" []).
  { unfold serveBlock. rewrite Hb, Hx. simpl. by rewrite HP. }
  unfold PutShardOnPeer.
  pose proof (blockRequest_through W self p (NewRequest OpPutShard (blockstore.HashOf data) data) st) as HB. cbv zeta in HB.
  rewrite Hserve in HB.
  specialize (HB ltac:(apply request_ok_shard; auto using blockstore.HashOf_shard_id) Hf1 Hself Hfate Hst eq_refl Hf2).
  destruct (blockRequest _ _ _ _) as [W1 r1]. simpl in HB. subst. simpl. eauto.
Qed.

(** *** A manifest on its way to a node *)

(** The node at [q] is up, with this store and a block store. *)
Definition stands W q (s : db) : Prop := exists st, nodes W !! q = Some st /\ nstore st = s /\ is_Some (nblocks st).

(** The node at [q] has exactly this manifest under its identifier. *)
Definition filed_at W q (m : manifest.Manifest) : Prop :=
  exists st, nodes W !! q = Some st /\ manifest.Get (nstore st) (manifest.FileID m) = Ok m.

Lemma serveBlock_blocks io st req : nblocks (serveBlock io st req).1 = nblocks st.
Proof.
  pose proof (serveBlock_disk io st req) as Hd. cbv zeta in Hd.
  destruct Hd as [E|(_ & bs & f' & r & E & _ & E')]; [by injection E|by injection E' as _ ->].
Qed.

Lemma serveBlock_shard_store io st req :
  Op req = OpPutShard \/ Op req = OpGetShard -> nstore (serveBlock io st req).1 = nstore st.
Proof.
  unfold serveBlock. intros Hop. destruct (nblocks st) as [bs|]; [|done]. destruct Hop as [->| ->]; simpl.
  - by destruct (blockstore.Put io (nfs st) bs _ _) as [f' []].
  - by destruct (blockstore.Get (nfs st) bs _).
Qed.

Lemma record_other W self f q : q <> self -> nodes (record W self f) !! q = nodes W !! q.
Proof.
  intros Hq. unfold record. destruct (nodes W !! self) as [st|]; [|done]. destruct (nledger st); [|done].
  simpl. by rewrite lookup_insert_ne.
Qed.

(** Sending shards around leaves every node's store as it is. *)
Lemma blockRequest_stands W self p req W' r q s :
  request_ok req = true -> Op req = OpPutShard \/ Op req = OpGetShard ->
  blockRequest W self p req = (W', r) -> stands W q s -> stands W' q s.
Proof.
  intros Hok Hop HB (st & Hst & Hs & Hb). unfold stands.
  apply blockRequest_inv in HB as [[-> _]|(st0 & _ & Hst0 & HS)]; [by exists st| |done].
  pose proof (serveBlock_shard_store (disk (tick W)) st0 req Hop) as S1.
  pose proof (serveBlock_blocks (disk (tick W)) st0 req) as S2.
  destruct (serveBlock _ st0 _) as [st1 resp]. destruct HS as [-> _]. simpl in S1, S2.
  destruct (decide (q = peer_String p)) as [->|Hne]; [|exists st; by rewrite lookup_insert_ne].
  rewrite Hst in Hst0. injection Hst0 as <-. eexists. rewrite lookup_insert_eq. split; [done|].
  pose proof (disk_account (clock (tick W)) self st1 req resp) as [= _ ->]. by rewrite account_store, S1, S2.
Qed.

Lemma record_stands W self f q s : q <> self -> stands W q s -> stands (record W self f) q s.
Proof. intros Hq. unfold stands. by rewrite record_other. Qed.

Lemma PutShardOnPeer_stands W self p id data W' r q s :
  blockstore.shard_id id -> q <> self -> PutShardOnPeer W self p id data = (W', r) -> stands W q s -> stands W' q s.
Proof.
  intros Hid Hq HP Hs. unfold PutShardOnPeer in HP. destruct (blockRequest _ _ _ _) as [W1 r1] eqn:HB.
  apply (blockRequest_stands _ _ _ _ _ _ q s) in HB; [|by apply request_ok_shard; auto|by left|done].
  destruct r1 as [resp| |]; [destruct (negb (OK resp))|..]; injection HP as <- _; auto using record_stands.
Qed.

Lemma GetShardFromPeer_stands W self p id W' r q s :
  blockstore.shard_id id -> q <> self -> GetShardFromPeer W self p id = (W', r) -> stands W q s -> stands W' q s.
Proof.
  intros Hid Hq HP Hs. unfold GetShardFromPeer in HP. destruct (blockRequest _ _ _ _) as [W1 r1] eqn:HB.
  apply (blockRequest_stands _ _ _ _ _ _ q s) in HB; [|by apply request_ok_shard; auto|by right|done].
  destruct r1 as [resp| |]; [destruct (negb (OK resp))|..]; injection HP as <- _; auto using record_stands.
Qed.

Section one_manifest.
Context (m : manifest.Manifest) (raw : bytes).
Hypothesis raw_decodes : manifest.Unmarshal' raw = Ok m.
Hypothesis whole_seconds : manifest.manifest_norm m = m.

Abbreviation request := (NewRequest OpPutManifest (manifest.FileID m) raw).

(** Served the manifest, a node that has it keeps it, and one whose store takes
    the write has it. *)
Lemma serveBlock_manifest io st :
  (manifest.Get (nstore st) (manifest.FileID m) = Ok m ->
   manifest.Get (nstore (serveBlock io st request).1) (manifest.FileID m) = Ok m) /\
  (is_Some (nblocks st) -> store.writable (nstore st) ->
   (serveBlock io st request).2 = NewResponse true "" [] /\
   manifest.Get (nstore (serveBlock io st request).1) (manifest.FileID m) = Ok m).
Proof.
  assert (Hok : manifest.manifest_ok m = true) by (by eapply Unmarshal_ok).
  assert (Hput : forall s s', manifest.Put s m = (s', Ok tt) -> manifest.Get s' (manifest.FileID m) = Ok m)
    by (intros s s' HP; rewrite <- whole_seconds at 2; by eapply manifest.Put_Get_same).
  unfold serveBlock. destruct (nblocks st) as [bs|]; [|by split; [|intros [? ?]]]. cbn [Op ReqBody ReqID].
  change (OpPutManifest =? OpPutShard) with false. change (OpPutManifest =? OpGetShard) with false.
  change (OpPutManifest =? OpPutManifest) with true. cbv iota. rewrite raw_decodes, bool_decide_eq_true_2 by done. cbn [negb].
  destruct (manifest.Put (nstore st) m) as [s' [[]|e|]] eqn:HP; simpl.
  - split; [intros _|intros _ _; split; [done|]]; by eapply Hput.
  - split; [intros Hm; by rewrite (manifest.Put_Err_same _ _ _ _ _ HP)|]. intros _ Hw. unfold manifest.Put in HP.
    destruct (Marshal_total m) as [b Hb]. rewrite Hb in HP. destruct (Hw (manifest.key (manifest.FileID m)) b) as [s2 E].
    by rewrite E in HP.
  - by apply manifest.Put_never_panics in HP.
Qed.

Lemma request_manifest_ok : request_ok request = true.
Proof.
  assert (Hok : manifest.manifest_ok m = true) by (by eapply Unmarshal_ok).
  unfold request_ok. simpl. unfold manifest.manifest_ok in Hok. rewrite !andb_true_iff in Hok. tauto.
Qed.

(** What a round of the replication, to whatever peer, does to the node at [q]
    that can be reached. *)
Lemma PutManifestRawOnPeer_round W self p W' r q s :
  q <> self -> fate (tick W) self q = Through -> fits request -> fits (NewResponse true "" []) -> store.writable s ->
  PutManifestRawOnPeer W self p (manifest.FileID m) raw = (W', r) -> stands W q s \/ filed_at W q m ->
  (peer_String p = q /\ filed_at W' q m) \/ (peer_String p <> q /\ nodes W' !! q = nodes W !! q).
Proof.
  intros Hq Hfate Hf1 Hf2 Hw HP Hpre. unfold PutManifestRawOnPeer in HP. destruct (blockRequest _ _ _ _) as [W1 r1] eqn:HB.
  assert (W' = W1) as -> by (destruct r1 as [resp| |]; [destruct (negb (OK resp))|..]; by injection HP). clear HP.
  destruct (decide (peer_String p = q)) as [<-|Hne].
  2: { right. split; [done|]. apply blockRequest_inv in HB as [[-> _]|(st & _ & _ & HS)]; [done| |apply request_manifest_ok].
       destruct (serveBlock _ st _) as [st1 resp]. destruct HS as [-> _]. by rewrite lookup_insert_ne. }
  left. split; [done|]. pose proof HB as HI. apply blockRequest_inv in HI as [[HW [e ->]]|(st & _ & Hst & HS)]; [| |apply request_manifest_ok].
  - unfold filed_at. rewrite HW. destruct Hpre as [(st & Hst & <- & Hb)|?]; [exfalso|done].
    destruct (serveBlock_manifest (disk (tick W)) st) as [_ [Hr _]]; [done..|].
    pose proof (blockRequest_through W self p request st request_manifest_ok Hf1 Hq Hfate Hst) as HT. cbv zeta in HT.
    rewrite Hr in HT. specialize (HT eq_refl Hf2). by rewrite HB in HT.
  - destruct (serveBlock_manifest (disk (tick W)) st) as [S1 S2]. destruct (serveBlock _ st _) as [st1 resp]. destruct HS as [HW _].
    unfold filed_at. rewrite HW, lookup_insert_eq. eexists. split; [done|]. rewrite account_store. simpl in S1, S2.
    destruct Hpre as [(st' & Hst' & <- & Hb)|(st' & Hst' & Hm)]; rewrite Hst in Hst'; injection Hst' as <-; [by apply S2|by apply S1].
Qed.

End one_manifest.

(** ** Correctness *)

(** [C16] A delivered shard stays readable.  When [PutShardOnPeer] returns
    without error, the peer holds exactly the bytes sent, and they hash to the
    shard identifier.  After any further activity of the nodes (shards stored
    by anyone, honest or not, other files written) the peer still has bytes
    that hash to the identifier, and [GetShardFromPeer] from any node returns
    them whenever the network lets the request through and they fit a frame. *)
Theorem shard_roundtrip W self p id data W1 self' W2 :
  blockstore.shard_id id -> PutShardOnPeer W self p id data = (W1, Ok tt) ->
  rtc dstep (disks W1) (disks W2) ->
  blockstore.HashOf data = id /\
  shard_in (disks W1) (peer_String p) id = Some data /\
  exists d, shard_in (disks W2) (peer_String p) id = Some d /\ blockstore.HashOf d = id /\
    (peer_String p <> self' -> fate (tick W2) self' (peer_String p) = Through ->
     fits (NewRequest OpGetShard id []) -> fits (NewResponse true "" d) ->
     (GetShardFromPeer W2 self' p id).2 = Ok d).
Proof.
  intros Hid HP Hst. destruct (PutShardOnPeer_Ok _ _ _ _ _ _ Hid HP) as (_ & Hh & Hs). split_and!; [done..|].
  destruct (dsteps_has _ _ _ _ Hst Hid (ex_intro _ data (conj Hs Hh))) as (d & Hd & Hdh).
  exists d. split_and!; [done..|]. intros. by apply GetShardFromPeer_through.
Qed.

(** The block server is safe against every client.  Whatever bytes arrive
    on the stream, from whomever, after [handleBlocks] the block store is still
    content-addressed (what it returns for a shard identifier hashes to it) and
    every stored manifest still sits under its own file identifier. *)
Theorem handleBlocks_safe io now remote st input st' out bs :
  nblocks st = Some bs -> blockstore.sound (nfs st) bs -> manifest.filed (nstore st) ->
  handleBlocks io now remote st input = (st', out) ->
  nblocks st' = Some bs /\ blockstore.sound (nfs st') bs /\ manifest.filed (nstore st').
Proof.
  intros Hb Hs Hf. unfold handleBlocks. destruct (readFrame input) as [req|e|]; [|by intros [= <- <-]..].
  destruct (serveBlock io st req) as [st1 resp] eqn:HS. intros [= <- _].
  pose proof (disk_account now remote st1 req resp) as Hd. injection Hd as Hd1 Hd2. rewrite account_store, Hd1, Hd2.
  unfold serveBlock in HS. rewrite Hb in HS.
  repeat (match type of HS with (if ?b then _ else _) = _ => destruct b end).
  - destruct (blockstore.Put io (nfs st) bs _ _) as [f' r] eqn:HP. pose proof (blockstore.Put_sound _ _ _ _ _ _ _ Hs HP).
    destruct r; injection HS as <- _; by split_and!.
  - destruct (blockstore.Get _ _ _); injection HS as <- _; by split_and!.
  - unfold manifest.Unmarshal' in HS. destruct (Unmarshal _) as [m|e|] eqn:HU; [|by injection HS as <- _..].
    destruct (negb _); [by injection HS as <- _|].
    destruct (manifest.Put (nstore st) m) as [s' r] eqn:HP.
    pose proof (manifest.Put_filed _ _ _ _ Hf HP).
    destruct r; injection HS as <- _; by split_and!.
  - unfold manifest.Marshal' in HS. destruct (manifest.Get _ _); [destruct (Marshal _)|..]; injection HS as <- _; by split_and!.
  - injection HS as <- _. by split_and!.
Qed.

End with_libraries.

(** ** Executable codecs, and the witnesses *)

Definition request_to (r : Request) : ctree := GenNode 7 [tz (Op r); ts (ReqID r); tb (ReqBody r)].

Definition request_of (t : ctree) : option Request :=
  match t with
  | GenNode _ [a; b; c] => a ← of_tz a; b ← of_ts b; c ← of_tb c; Some (NewRequest a b c)
  | _ => None
  end.

#[global] Instance request_cbor : RequestCbor.
Proof.
  refine (tree_cbor _ _ request_to request_of _ _); [|done]. intros []. unfold request_of, request_to.
  cbn [Op ReqID ReqBody]. by rewrite of_tb_tb.
Defined.

Definition response_to (r : Response) : ctree := GenNode 8 [tbool (OK r); ts (Error r); tb (RespBody r)].

Definition response_of (t : ctree) : option Response :=
  match t with
  | GenNode _ [a; b; c] => a ← of_tbool a; b ← of_ts b; c ← of_tb c; Some (NewResponse a b c)
  | _ => None
  end.

#[global] Instance response_cbor : ResponseCbor.
Proof.
  refine (tree_cbor _ _ response_to response_of _ _); [|done]. intros []. unfold response_of, response_to.
  cbn [OK Error RespBody]. by rewrite of_tb_tb, of_tbool_tbool.
Defined.

Definition sample_node : NodeState := NewNode store.empty ∅ (Some (blockstore.NewStore ["d"; "blocks"])) (Some ∅).

Definition sample_world : World := NewWorld (<["12DA" := sample_node]> (<["12DB" := sample_node]> ∅)) 0.

Definition all_through (t : nat) (src dst : string) : Fate := Through.
Definition sample_clock (t : nat) : Z := 1700000000000000000.
Definition sample_disk (t : nat) : wio := io_fine "1".

Definition peerB : pid (PeerIDs := toy_peers) := "B".

Definition sample_put := PutShardOnPeer all_through sample_clock sample_disk sample_world "12DA" peerB
  (blockstore.HashOf blockstore.demo_shard) blockstore.demo_shard.

Lemma frame_roundtrip_witness :
  let v := NewRequest OpGetShard "ab" [] in
  exists frame, writeFrame v = Ok frame /\ readFrame (frame ++ [Byte.x00]) = Ok v.
Proof.
  intros v. destruct (frame_roundtrip (T := Request) v
    (match Marshal v with Ok raw => raw | _ => [] end)) as [Hf _]; [reflexivity|vm_compute; reflexivity|].
  destruct Hf as (frame & H1 & _ & H2 & _); [vm_compute; discriminate|]. exists frame. auto.
Defined.

Lemma shard_roundtrip_witness :
  let id := blockstore.HashOf blockstore.demo_shard in
  shard_in (disks sample_put.1) "12DB" id = Some blockstore.demo_shard.
Proof.
  apply (shard_roundtrip all_through sample_clock sample_disk sample_world "12DA" peerB
    (blockstore.HashOf blockstore.demo_shard) blockstore.demo_shard sample_put.1 "12DA" sample_put.1).
  - apply blockstore.HashOf_shard_id.
  - etrans; [apply surjective_pairing|]. by f_equal.
  - reflexivity.
Defined.

Lemma handleBlocks_safe_witness :
  let st' := (handleBlocks (io_fine "1") 0 "12DA" sample_node [Byte.x00; Byte.x00; Byte.x00; Byte.x01; Byte.xff]).1 in
  blockstore.sound (nfs st') (blockstore.NewStore ["d"; "blocks"]).
Proof.
  intros st'.
  apply (handleBlocks_safe (io_fine "1") 0 "12DA" sample_node [Byte.x00; Byte.x00; Byte.x00; Byte.x01; Byte.xff] st'
    (handleBlocks (io_fine "1") 0 "12DA" sample_node [Byte.x00; Byte.x00; Byte.x00; Byte.x01; Byte.xff]).2).
  - reflexivity.
  - intros id data _ Hg. apply blockstore.Get_file_at in Hg. discriminate Hg.
  - apply manifest.filed_empty.
  - apply surjective_pairing.
Defined.

End node.
