(* ===== verification/Spool.v ===== *)
(** * internal/spool: shards and manifests waiting for unreachable peers

    [spool.go] keeps one file per queued item under
    [<data>/spool/<peer id>/<kind>_<key>]; [worker.go] delivers the items of
    peers that are online again and removes what was accepted. *)

From S2P Require Import Prelude Ext Concrete Fs.

Module spool.

(** [type Spool struct { root string; ... }] *)
Record Spool := NewSpool { root : path }.

Definition KindShard : string := "s".
Definition KindManifest : string := "m".

(** The path of an entry is the empty string in the zero value. *)
Record Entry := NewEntry { PeerID : string; Kind : string; Key : string; e_path : option path }.

#[global] Instance Entry_eq_dec : EqDecision Entry.
Proof. solve_decision. Defined.

Implicit Types (f : fs) (sp : Spool) (peerID kind key : string) (data : bytes) (io : wio) (e : Entry).

Definition Open f (dataDir : path) : fs * outcome Spool :=
  let root := filepath_Join dataDir ["spool"] in
  match MkdirAll f root with
  | (f', Err e) => (f', Err e)
  | (f', Panic) => (f', Panic)
  | (f', Ok _) => (f', Ok (NewSpool root))
  end.

Definition write io f sp peerID kind key data : fs * outcome unit :=
  if bool_decide (peerID = "") || bool_decide (key = "") then (f, Err (ErrMsg "spool: empty peer id or key"))
  else
    let dir := filepath_Join (root sp) [peerID] in
    let dst := filepath_Join dir [kind +:+ "_" +:+ key] in
    write_rename_to io f dir dst data.

Definition EnqueueShard io f sp peerID (shardID : string) data : fs * outcome unit :=
  write io f sp peerID KindShard shardID data.

Definition EnqueueManifest io f sp peerID (fileID : string) (manifestRaw : bytes) : fs * outcome unit :=
  write io f sp peerID KindManifest fileID manifestRaw.

Definition PendingPeers f sp : outcome (list string) :=
  let! dirs := ReadDir f (root sp) in
  Ok (filter (fun d => is_dir f (root sp ++ [d]) = true) dirs).

(** One file name of the peer's directory in [ListEntries]. *)
Definition parse_name peerID (dir : path) (name : string) : option Entry :=
  if has_prefix ".tmp-" name then None
  else
    match name with
    | String k (String "_"%char (String _ _ as key)) =>
        let kind := String k EmptyString in
        if bool_decide (kind = KindShard) || bool_decide (kind = KindManifest)
        then Some (NewEntry peerID kind key (Some (filepath_Join dir [name])))
        else None
    | _ => None
    end.

Definition ListEntries f sp peerID : outcome (list Entry) :=
  let dir := filepath_Join (root sp) [peerID] in
  match ReadDir f dir with
  | Err e => if errors_Is e ErrNotExist then Ok [] else Err e
  | Panic => Panic
  | Ok files => Ok (omap (parse_name peerID dir) files)
  end.

Definition Read f e : outcome bytes :=
  match e_path e with
  | None => Err (ErrMsg "spool: empty entry path")
  | Some p => ReadFile f p
  end.

(** [Remove]; the pruning of the peer's directory is best effort. *)
Definition Remove f e : fs * outcome unit :=
  match e_path e with
  | None => (f, Ok tt)
  | Some p =>
      match Fs.Remove f p with
      | (f1, Err err) => if errors_Is err ErrNotExist then ((Fs.Remove f1 (filepath_Dir p)).1, Ok tt) else (f1, Err err)
      | (f1, Panic) => (f1, Panic)
      | (f1, Ok _) => ((Fs.Remove f1 (filepath_Dir p)).1, Ok tt)
      end
  end.

Definition PendingForPeer f sp peerID : Z :=
  match ListEntries f sp peerID with Ok entries => zlen entries | _ => 0 end.

(** The sum in [Stats] over one peer's entries. *)
Definition entry_size f e : Z :=
  match e_path e with
  | Some p => match f !! p with Some (File b) => zlen b | _ => 0 end
  | None => 0
  end.

Definition Stats f sp : Z * Z :=
  match ReadDir f (root sp) with
  | Ok dirs =>
      fold_left (fun acc d =>
        if is_dir f (root sp ++ [d]) then
          (acc.1 + 1,
           wrap64 (acc.2 + foldr (fun e n => entry_size f e + n) 0
                             (match ListEntries f sp d with Ok es => es | _ => [] end)))
        else acc) dirs (0, 0)
  | _ => (0, 0)
  end.

Definition shortKey (k : string) : outcome string :=
  if Z.of_nat (String.length k) <=? 12 then Ok k else str_slice k 0 12.

(** Where an item goes. *)
Definition item_path sp peerID kind key : path := root sp ++ [peerID; kind +:+ "_" +:+ key].

(** ** Worker

    [Sender] is the interface the worker delivers through, on a host whose
    state [W] includes the file system of the spool and the ledger. *)
Class Sender `{PeerIDs} (W : Type) := {
  hfs : W -> fs;
  set_hfs : W -> fs -> W;
  IsOnline : W -> string -> bool;
  PutShardOnPeer : W -> pid -> string -> bytes -> W * outcome unit;
  PutManifestRawOnPeer : W -> pid -> string -> bytes -> W * outcome unit;
  (** What the peer has once it accepted an item. *)
  accepted : W -> pid -> string -> string -> Prop;

  hfs_set W0 f : hfs (set_hfs W0 f) = f;
  hfs_PutShard W0 p id data : hfs (PutShardOnPeer W0 p id data).1 = hfs W0;
  hfs_PutManifest W0 p id data : hfs (PutManifestRawOnPeer W0 p id data).1 = hfs W0;
  accepted_shard W0 p id data W1 :
    PutShardOnPeer W0 p id data = (W1, Ok tt) -> accepted W1 p KindShard id;
  accepted_manifest W0 p id data W1 :
    PutManifestRawOnPeer W0 p id data = (W1, Ok tt) -> accepted W1 p KindManifest id;
  accepted_set W0 f p k id : accepted W0 p k id -> accepted (set_hfs W0 f) p k id;
  accepted_PutShard W0 q id' data p k id :
    accepted W0 p k id -> accepted (PutShardOnPeer W0 q id' data).1 p k id;
  accepted_PutManifest W0 q id' data p k id :
    accepted W0 p k id -> accepted (PutManifestRawOnPeer W0 q id' data).1 p k id
}.

Section worker.
Context `{PeerIDs} {W : Type} `{!Sender W}.
Implicit Types w : W.

(** The body of the inner loop of [flushPeer] for one entry: the state, whether
    the entry was sent, whether it failed, and whether the function returns. *)
Definition send w (p : pid) e data : W * outcome unit :=
  if bool_decide (Kind e = KindShard) then PutShardOnPeer w p (Key e) data
  else PutManifestRawOnPeer w p (Key e) data.

Fixpoint flush_entries w (p : pid) (kind : string) (entries sent : list Entry) : W * list Entry * bool :=
  match entries with
  | [] => (w, sent, false)
  | e :: entries' =>
      if negb (bool_decide (Kind e = kind)) then flush_entries w p kind entries' sent
      else
        match Read (hfs w) e with
        | Ok data =>
            match send w p e data with
            | (w1, Ok _) => flush_entries (set_hfs w1 (Remove (hfs w1) e).1) p kind entries' (sent ++ [e])
            | (w1, _) => (w1, sent, true)
            end
        | _ => flush_entries w p kind entries' sent
        end
  end.

(** [flushPeer]: shards first, then manifests; the entries sent are returned
    for the log line. *)
Definition flushPeer w sp peerID : W * list Entry :=
  match peer_Decode peerID with
  | None => (w, [])
  | Some p =>
      match ListEntries (hfs w) sp peerID with
      | Ok entries =>
          let '(w1, sent1, stop) := flush_entries w p KindShard entries [] in
          if stop then (w1, sent1)
          else let '(w2, sent2, _) := flush_entries w1 p KindManifest entries sent1 in (w2, sent2)
      | _ => (w, [])
      end
  end.

Definition flushAll w sp : W * list Entry :=
  match PendingPeers (hfs w) sp with
  | Ok peers =>
      fold_left (fun acc p => if IsOnline acc.1 p then
                                let '(w', sent) := flushPeer acc.1 sp p in (w', acc.2 ++ sent)
                              else acc) peers (w, [])
  | _ => (w, [])
  end.

(** ** Files under removal *)

(** Names the operating system allows: no separator, no dot names. *)
Definition os_names f : Prop := forall q c, is_Some (f !! (q ++ [c])) -> plain_name c = true.

Lemma elem_of_ReadDir f dir names c :
  ReadDir f dir = Ok names -> c ∈ names <-> is_Some (f !! (dir ++ [c])).
Proof.
  unfold ReadDir. destruct (f !! dir) as [[]|]; [|done..]. intros [= <-].
  rewrite merge_sort_Permutation, list_elem_of_omap. split.
  - intros (q & Hq & Hc). unfold child_name in Hc. case_bool_decide as E; [|done]. destruct E as [Hne <-].
    apply list_elem_of_fmap in Hq as ([q' n] & -> & Hq). apply elem_of_map_to_list in Hq. simpl in *.
    destruct q' as [|x q' _] using rev_ind; [done|]. rewrite removelast_last. rewrite last_snoc in Hc.
    injection Hc as ->. eauto.
  - intros [n Hn]. exists (dir ++ [c]). split.
    + apply list_elem_of_fmap. exists (dir ++ [c], n). split; [done|]. by apply elem_of_map_to_list.
    + unfold child_name. rewrite removelast_last, last_snoc, bool_decide_eq_true_2; [done|].
      split; [|done]. by destruct dir.
Qed.

Lemma Remove_files f e p q :
  e_path e = Some p -> file_at f (filepath_Dir p) = None ->
  file_at (Remove f e).1 q = if decide (p = q) then None else file_at f q.
Proof.
  intros He Hd. unfold Remove. rewrite He.
  assert (Hprune : forall f1, file_at f1 (filepath_Dir p) = None ->
    file_at (Fs.Remove f1 (filepath_Dir p)).1 q = file_at f1 q).
  { intros f1 H1. unfold Fs.Remove. destruct (f1 !! filepath_Dir p) as [[|b]|] eqn:E; simpl; [| |done].
    - destruct (has_children _ _); simpl; [done|]. rewrite file_at_delete. case_decide; [by subst|done].
    - unfold file_at in H1. by rewrite E in H1. }
  destruct (Fs.Remove f p) as [f1 r] eqn:ER. unfold Fs.Remove in ER.
  assert (H1 : forall q', file_at (delete p f) q' = if decide (p = q') then None else file_at f q')
    by (intros; apply file_at_delete).
  assert (H2 : file_at (delete p f) (filepath_Dir p) = None) by (rewrite H1; by case_decide).
  destruct (f !! p) as [[|b]|] eqn:Ep; [destruct (has_children f p)|..]; injection ER as <- <-.
  - simpl. case_decide; [subst; unfold file_at; by rewrite Ep|done].
  - cbn [fst]. by rewrite Hprune, H1.
  - cbn [fst]. by rewrite Hprune, H1.
  - change (errors_Is ErrNotExist ErrNotExist) with true. cbn [fst]. rewrite Hprune by done.
    case_decide; [subst; unfold file_at; by rewrite Ep|done].
Qed.

Lemma Fs_Remove_lookup f p q : q <> p -> (Fs.Remove f p).1 !! q = f !! q.
Proof.
  intros Hne. unfold Fs.Remove. destruct (f !! p) as [[]|]; [destruct (has_children f p)|..]; simpl; try done;
    by rewrite lookup_delete_ne.
Qed.

Lemma Remove_lookup f e p q :
  e_path e = Some p -> q <> p -> q <> filepath_Dir p -> (Remove f e).1 !! q = f !! q.
Proof.
  intros He Hp Hd. unfold Remove. rewrite He. pose proof (Fs_Remove_lookup f p q Hp) as E1.
  destruct (Fs.Remove f p) as [f1 r]. simpl in E1. rewrite <- E1.
  destruct r as [u|er|]; [|destruct (errors_Is er ErrNotExist)|]; simpl; try done; by apply Fs_Remove_lookup.
Qed.

(** ** Nothing is lost *)

(** Between [w0] and [w], where [sent] was sent: a file that is gone belonged to
    an entry that was sent, and what was sent was accepted. *)
Record kept (w0 w : W) (sent : list Entry) : Prop := {
  kept_files q : file_at (hfs w) q = file_at (hfs w0) q \/
                 (file_at (hfs w) q = None /\ exists e, e ∈ sent /\ e_path e = Some q);
  kept_sent e : e ∈ sent -> exists p, peer_Decode (PeerID e) = Some p /\ accepted w p (Kind e) (Key e)
}.

(** Entries as [ListEntries] returns them: directly under a directory. *)
Definition listed w peerID e : Prop :=
  PeerID e = peerID /\ (Kind e = KindShard \/ Kind e = KindManifest) /\
  exists p, e_path e = Some p /\ file_at (hfs w) (filepath_Dir p) = None.

Lemma kept_refl w : kept w w [].
Proof. split; [auto|]. intros e He. by apply elem_of_nil in He. Qed.

Lemma send_hfs w p e data : hfs (send w p e data).1 = hfs w.
Proof. unfold send. case_bool_decide; [apply hfs_PutShard|apply hfs_PutManifest]. Qed.

Lemma accepted_send w q e data p k id : accepted w p k id -> accepted (send w q e data).1 p k id.
Proof. unfold send. case_bool_decide; [apply accepted_PutShard|apply accepted_PutManifest]. Qed.

Lemma send_accepted w p e data w' :
  Kind e = KindShard \/ Kind e = KindManifest -> send w p e data = (w', Ok tt) -> accepted w' p (Kind e) (Key e).
Proof.
  unfold send. intros Hk. case_bool_decide as E; [rewrite E; apply accepted_shard|].
  destruct Hk as [?|Hk]; [done|]. rewrite Hk. apply accepted_manifest.
Qed.

Lemma flush_entries_kept w0 peerID p kind entries : forall w sent w' sent' stop,
  peer_Decode peerID = Some p -> Forall (listed w0 peerID) entries -> kept w0 w sent ->
  flush_entries w p kind entries sent = (w', sent', stop) -> kept w0 w' sent'.
Proof.
  induction entries as [|e entries IH]; intros w sent w' sent' stop Hp Hl Hk HF; cbn [flush_entries] in HF.
  { by injection HF as <- <- <-. }
  apply Forall_cons in Hl as [(He & Hkind & q0 & Hq0 & Hd0) Hl].
  destruct (negb _); [by eapply IH|]. destruct (Read (hfs w) e) as [data| |]; [|by eapply IH..].
  destruct (send w p e data) as [w1 r] eqn:HS.
  pose proof (send_hfs w p e data) as Hh. rewrite HS in Hh. simpl in Hh.
  pose proof (accepted_send w p e data) as Ha. rewrite HS in Ha. simpl in Ha.
  destruct r as [[]|er|].
  2-3: injection HF as <- <- <-; destruct Hk as [K1 K2]; split; [by rewrite Hh|];
    intros e' He'; destruct (K2 e' He') as (p' & ? & ?); eauto.
  eapply IH; [done|done| |exact HF]. destruct Hk as [K1 K2]. split.
  - intros q. rewrite hfs_set, Hh.
    assert (Hd : file_at (hfs w) (filepath_Dir q0) = None).
    { destruct (K1 (filepath_Dir q0)) as [->|[? _]]; done. }
    rewrite (Remove_files _ _ _ q Hq0 Hd). case_decide as E.
    + subst q. right. split; [done|]. exists e. split; [|done]. apply elem_of_app. right. constructor.
    + destruct (K1 q) as [->|(? & e' & ? & ?)]; [by left|]. right. split; [done|]. exists e'.
      split; [apply elem_of_app; by left|done].
  - intros e' [He'|He']%elem_of_app.
    + destruct (K2 e' He') as (p' & ? & ?). exists p'. split; [done|]. apply accepted_set. auto.
    + apply list_elem_of_singleton in He' as ->. exists p. rewrite He. split; [done|]. apply accepted_set.
      eapply send_accepted; eauto.
Qed.

Lemma Fs_Remove_sub f p : (Fs.Remove f p).1 ⊆ f.
Proof.
  unfold Fs.Remove. destruct (f !! p) as [[]|]; simpl; [destruct (has_children f p); simpl|..]; try done;
    apply delete_subseteq.
Qed.

Lemma Remove_sub f e : (Remove f e).1 ⊆ f.
Proof.
  unfold Remove. destruct (e_path e) as [p|]; [|done]. pose proof (Fs_Remove_sub f p) as H1.
  destruct (Fs.Remove f p) as [f1 r]. simpl in H1. pose proof (Fs_Remove_sub f1 (filepath_Dir p)) as H2.
  destruct r as [u|er|]; [|destruct (errors_Is er ErrNotExist)|]; simpl; try done; by etrans.
Qed.

Lemma flush_entries_sub p kind entries : forall w sent w' sent' stop,
  flush_entries w p kind entries sent = (w', sent', stop) -> hfs w' ⊆ hfs w.
Proof.
  induction entries as [|e entries IH]; intros w sent w' sent' stop HF; cbn [flush_entries] in HF.
  { by injection HF as <- <- <-. }
  destruct (negb _); [by eapply IH|]. destruct (Read (hfs w) e) as [data| |]; [|by eapply IH..].
  pose proof (send_hfs w p e data) as Hh. destruct (send w p e data) as [w1 r]. simpl in Hh.
  destruct r as [[]|er|]; [|injection HF as <- <- <-; by rewrite Hh..].
  etrans; [by eapply IH|]. rewrite hfs_set, Hh. apply Remove_sub.
Qed.

Lemma os_names_sub f f' : os_names f -> f' ⊆ f -> os_names f'.
Proof. intros Hf Hs q c [n Hn]. apply (Hf q c). exists n. by eapply lookup_weaken. Qed.

Lemma parse_name_inv peerID dir name e :
  parse_name peerID dir name = Some e ->
  PeerID e = peerID /\ (Kind e = KindShard \/ Kind e = KindManifest) /\ e_path e = Some (filepath_Join dir [name]) /\
  name = Kind e +:+ "_" +:+ Key e.
Proof.
  unfold parse_name. destruct (has_prefix _ _); [done|]. destruct name as [|k [|u [|c key]]]; try done.
  { destruct (ascii_dec u "_") as [->|Hu]; [done|]. by repeat (destruct u as [[] [] [] [] [] [] [] []]; try done). }
  destruct (ascii_dec u "_") as [->|Hu].
  2: { intros E. exfalso. apply Hu. revert E. clear. by destruct u as [[] [] [] [] [] [] [] []]. }
  destruct (bool_decide (String k "" = KindShard)) eqn:E1; [|destruct (bool_decide (String k "" = KindManifest)) eqn:E2; [|done]];
    simpl; intros [= <-]; simpl; go_bool; auto.
Qed.

Lemma ListEntries_listed w sp peerID entries :
  os_names (hfs w) -> ListEntries (hfs w) sp peerID = Ok entries -> Forall (listed w peerID) entries.
Proof.
  intros Hos. unfold ListEntries. set (dir := filepath_Join (root sp) [peerID]).
  destruct (ReadDir (hfs w) dir) as [files|er|] eqn:ER.
  2: { destruct (errors_Is er ErrNotExist); [|done]. intros [= <-]. constructor. }
  2: done.
  intros [= <-]. apply Forall_forall. intros e (name & Hn & He)%list_elem_of_omap.
  apply parse_name_inv in He as (H1 & H2 & H3 & _).
  pose proof (elem_of_ReadDir _ _ _ name ER) as Hel. apply Hel in Hn. apply Hos in Hn.
  split_and!; [done..|]. exists (filepath_Join dir [name]). split; [done|].
  replace (filepath_Join dir [name]) with (dir ++ [name]) by (symmetry; apply (Join_plain dir [name]); by constructor).
  unfold filepath_Dir. rewrite removelast_last. unfold ReadDir in ER. unfold file_at.
  by destruct (hfs w !! dir) as [[]|].
Qed.

Lemma flushPeer_kept w sp peerID w' sent :
  os_names (hfs w) -> flushPeer w sp peerID = (w', sent) -> kept w w' sent /\ hfs w' ⊆ hfs w.
Proof.
  intros Hos. unfold flushPeer. destruct (peer_Decode peerID) as [p|] eqn:Hp; [|intros [= <- <-]; auto using kept_refl].
  destruct (ListEntries _ _ _) as [entries| |] eqn:HL; [|intros [= <- <-]; auto using kept_refl..].
  pose proof (ListEntries_listed _ _ _ _ Hos HL) as Hl.
  destruct (flush_entries w p KindShard entries []) as [[w1 s1] stop] eqn:H1.
  pose proof (flush_entries_kept w peerID _ _ _ _ _ _ _ _ Hp Hl (kept_refl w) H1) as K1.
  pose proof (flush_entries_sub _ _ _ _ _ _ _ _ H1) as S1.
  destruct stop; [by intros [= <- <-]|].
  destruct (flush_entries w1 p KindManifest entries s1) as [[w2 s2] stop2] eqn:H2. intros [= <- <-].
  pose proof (flush_entries_sub _ _ _ _ _ _ _ _ H2) as S2.
  split; [|by etrans]. by eapply flush_entries_kept.
Qed.

Lemma kept_trans w0 w1 w2 s1 s2 :
  kept w0 w1 s1 -> kept w1 w2 s2 -> (forall p k id, accepted w1 p k id -> accepted w2 p k id) -> kept w0 w2 (s1 ++ s2).
Proof.
  intros [F1 A1] [F2 A2] Hm. split.
  - intros q. destruct (F2 q) as [->|(? & e & ? & ?)].
    + destruct (F1 q) as [->|(? & e & ? & ?)]; [by left|]. right. split; [done|]. exists e.
      split; [apply elem_of_app; by left|done].
    + right. split; [done|]. exists e. split; [apply elem_of_app; by right|done].
  - intros e [He|He]%elem_of_app; [|by apply A2]. destruct (A1 e He) as (p & ? & ?). eauto.
Qed.

Lemma flush_entries_accepted p kind entries : forall w sent w' sent' stop q k id,
  flush_entries w p kind entries sent = (w', sent', stop) -> accepted w q k id -> accepted w' q k id.
Proof.
  induction entries as [|e entries IH]; intros w sent w' sent' stop q k id HF Ha; cbn [flush_entries] in HF.
  { by injection HF as <- <- <-. }
  destruct (negb _); [by eapply IH|]. destruct (Read (hfs w) e) as [data| |]; [|by eapply IH..].
  pose proof (accepted_send w p e data q k id Ha) as Ha'. destruct (send w p e data) as [w1 r]. simpl in Ha'.
  destruct r as [[]|er|]; [|by injection HF as <- <- <-..]. eapply IH; [exact HF|]. by apply accepted_set.
Qed.

Lemma flushPeer_accepted w sp peerID w' sent q k id :
  flushPeer w sp peerID = (w', sent) -> accepted w q k id -> accepted w' q k id.
Proof.
  unfold flushPeer. destruct (peer_Decode peerID) as [p|]; [|by intros [= <- <-]].
  destruct (ListEntries _ _ _) as [entries| |]; [|by intros [= <- <-]..].
  destruct (flush_entries w p KindShard entries []) as [[w1 s1] stop] eqn:H1.
  destruct stop; [intros [= <- <-]; by eapply flush_entries_accepted|].
  destruct (flush_entries w1 p KindManifest entries s1) as [[w2 s2] stop2] eqn:H2. intros [= <- <-] Ha.
  eapply flush_entries_accepted; [exact H2|]. by eapply flush_entries_accepted.
Qed.

(** The worker never loses a queued item.  Whatever peers are online and
    however many sends fail, after a pass of [flushAll] every file of the spool
    (and every other file) is as it was, except the files of entries the pass
    reports as sent; and for each of those the addressed peer has accepted the
    item before its file was removed. *)
Theorem flushAll_no_loss w sp w' sent :
  os_names (hfs w) -> flushAll w sp = (w', sent) ->
  (forall q, file_at (hfs w') q = file_at (hfs w) q \/
             (file_at (hfs w') q = None /\ exists e, e ∈ sent /\ e_path e = Some q)) /\
  (forall e, e ∈ sent -> exists p, peer_Decode (PeerID e) = Some p /\ accepted w' p (Kind e) (Key e)).
Proof.
  intros Hos. unfold flushAll. destruct (PendingPeers (hfs w) sp) as [peers| |].
  2-3: intros [= <- <-]; destruct (kept_refl w); auto.
  assert (G : forall peers w1 s1, kept w w1 s1 -> hfs w1 ⊆ hfs w ->
    let '(w2, s2) := fold_left (fun acc p => if IsOnline acc.1 p then
      let '(w', sent) := flushPeer acc.1 sp p in (w', acc.2 ++ sent) else acc) peers (w1, s1) in kept w w2 s2).
  { clear peers w' sent. induction peers as [|p peers IH]; intros w1 s1 Hk Hsub; [done|]. cbn [fold_left fst snd].
    destruct (IsOnline w1 p); [|by apply IH]. destruct (flushPeer w1 sp p) as [w2 s2] eqn:HF.
    destruct (flushPeer_kept _ _ _ _ _ (os_names_sub _ _ Hos Hsub) HF) as [Hk2 Hsub2].
    apply IH; [|by etrans]. eapply kept_trans; [exact Hk|exact Hk2|]. intros q k id. by eapply flushPeer_accepted. }
  specialize (G peers w [] (kept_refl w) (reflexivity _)). intros E. rewrite E in G. destruct G. auto.
Qed.

(** ** Invariants of a pass *)

(** An entry of the directory of [peerID]. *)
Definition item sp peerID e : Prop :=
  PeerID e = peerID /\ (Kind e = KindShard \/ Kind e = KindManifest) /\ e_path e = Some (item_path sp peerID (Kind e) (Key e)).

(** [J] is kept by a send, and by a send that succeeds followed by the removal
    of the item. *)
Record pass_inv sp (J : W -> Prop) : Prop := {
  pi_send w p e b : J w -> J (send w p e b).1;
  pi_done w peerID p e b w1 : J w -> plain_name peerID = true -> item sp peerID e -> peer_Decode peerID = Some p ->
    file_at (hfs w) (root sp ++ [peerID]) = None -> Read (hfs w) e = Ok b ->
    send w p e b = (w1, Ok tt) -> J (set_hfs w1 (Remove (hfs w1) e).1)
}.

Lemma ListEntries_items f sp peerID entries :
  os_names f -> plain_name peerID = true -> ListEntries f sp peerID = Ok entries ->
  Forall (item sp peerID) entries /\ file_at f (root sp ++ [peerID]) = None \/ entries = [].
Proof.
  intros Hos Hp. unfold ListEntries. rewrite (Join_plain (root sp) [peerID]) by (by constructor).
  destruct (ReadDir f (root sp ++ [peerID])) as [files|er|] eqn:ER.
  2: { destruct (errors_Is er ErrNotExist); [|done]. intros [= <-]. by right. }
  2: done.
  intros [= <-]. left. split.
  - apply Forall_forall. intros e (name & Hn & He)%list_elem_of_omap. apply parse_name_inv in He as (H1 & H2 & H3 & ->).
    apply (elem_of_ReadDir _ _ _ _ ER) in Hn. apply Hos in Hn. rewrite (Join_plain _ [_]) in H3 by (by constructor).
    split; [done|]. split; [done|]. rewrite H3. unfold item_path. by rewrite <- app_assoc.
  - unfold ReadDir in ER. unfold file_at. by destruct (f !! (root sp ++ [peerID])) as [[]|].
Qed.

Lemma no_file_sub f f' q : f' ⊆ f -> file_at f q = None -> file_at f' q = None.
Proof.
  unfold file_at. intros Hs. destruct (f' !! q) as [n|] eqn:E; [|done]. by rewrite (lookup_weaken _ _ _ _ E Hs).
Qed.

Lemma flush_entries_inv sp J peerID p kind entries : forall w sent w' sent' stop,
  pass_inv sp J -> plain_name peerID = true -> peer_Decode peerID = Some p -> Forall (item sp peerID) entries ->
  file_at (hfs w) (root sp ++ [peerID]) = None -> J w ->
  flush_entries w p kind entries sent = (w', sent', stop) -> J w'.
Proof.
  induction entries as [|e entries IH]; intros w sent w' sent' stop HJ Hpl Hp Hit Hd Hw HF; cbn [flush_entries] in HF.
  { by injection HF as <- <- <-. }
  apply Forall_cons in Hit as [He Hit].
  destruct (negb _); [by eapply IH|]. destruct (Read (hfs w) e) as [data| |] eqn:HR; [|by eapply IH..].
  pose proof (send_hfs w p e data) as Hh. pose proof (pi_send _ _ HJ w p e data Hw) as Hw'.
  destruct (send w p e data) as [w1 r] eqn:HS. simpl in Hh, Hw'. destruct r as [[]|er|]; [|by injection HF as <- <- <-..].
  eapply IH; [done..| | |exact HF].
  - rewrite hfs_set, Hh. eapply no_file_sub; [apply Remove_sub|done].
  - eapply pi_done; [exact HJ|exact Hw|exact Hpl|exact He|exact Hp|exact Hd|exact HR|exact HS].
Qed.

Lemma flushPeer_inv sp J w peerID w' sent :
  pass_inv sp J -> os_names (hfs w) -> plain_name peerID = true -> J w -> flushPeer w sp peerID = (w', sent) -> J w'.
Proof.
  intros HJ Hos Hpl Hw. unfold flushPeer. destruct (peer_Decode peerID) as [p|] eqn:Hp; [|by intros [= <- <-]].
  destruct (ListEntries _ _ _) as [entries| |] eqn:HL; [|by intros [= <- <-]..].
  destruct (ListEntries_items _ _ _ _ Hos Hpl HL) as [[Hit Hd]| ->]; [|simpl; by intros [= <- <-]].
  destruct (flush_entries w p KindShard entries []) as [[w1 s1] stop] eqn:H1.
  pose proof (flush_entries_sub _ _ _ _ _ _ _ _ H1) as S1.
  assert (Hw1 : J w1) by (by eapply flush_entries_inv). destruct stop; [by intros [= <- <-]|].
  destruct (flush_entries w1 p KindManifest entries s1) as [[w2 s2] stop2] eqn:H2. intros [= <- <-].
  eapply flush_entries_inv; [done..| |exact Hw1|exact H2]. by eapply no_file_sub.
Qed.

Lemma PendingPeers_plain f sp peers : os_names f -> PendingPeers f sp = Ok peers -> Forall (fun d => plain_name d = true) peers.
Proof.
  unfold PendingPeers. intros Hos. destruct (ReadDir f (root sp)) as [dirs| |] eqn:ER; [|done..]. intros [= <-].
  apply Forall_forall. intros d [_ Hd]%list_elem_of_filter. apply (elem_of_ReadDir _ _ _ _ ER) in Hd. by eapply Hos.
Qed.

Lemma flushAll_inv sp J w w' sent :
  pass_inv sp J -> os_names (hfs w) -> J w -> flushAll w sp = (w', sent) -> J w' /\ hfs w' ⊆ hfs w.
Proof.
  intros HJ Hos Hw. unfold flushAll. destruct (PendingPeers (hfs w) sp) as [peers| |] eqn:HP; [|intros [= <- <-]; split; [done|reflexivity]..].
  assert (Hpl : Forall (fun d => plain_name d = true) peers) by (by eapply PendingPeers_plain).
  clear HP. assert (Hsub : hfs w ⊆ hfs w) by reflexivity. revert Hw Hsub. generalize (@nil Entry). generalize w at 1 2 4.
  induction Hpl as [|d peers Hd _ IH]; intros w1 s1 Hw1 Hsub; [by intros [= <- <-]|]. cbn [fold_left fst snd].
  destruct (IsOnline w1 d); [|by apply IH]. destruct (flushPeer w1 sp d) as [w2 s2] eqn:HF.
  pose proof (os_names_sub _ _ Hos Hsub) as Hos1. destruct (flushPeer_kept _ _ _ _ _ Hos1 HF) as [_ Hsub2].
  apply IH; [by eapply flushPeer_inv|by etrans].
Qed.

(** ** Delivery *)

Lemma same_path_kind (entries : list Entry) e e' q :
  NoDup (map e_path entries) -> e ∈ entries -> e' ∈ entries -> e_path e = Some q -> e_path e' = Some q -> e' = e.
Proof.
  induction entries as [|x l IH]; [by intros _ ?%elem_of_nil|]. simpl.
  intros [Hx Hn]%NoDup_cons He He' Hq Hq'. apply elem_of_cons in He as [->|He], He' as [->|He']; auto.
  - destruct Hx. rewrite Hq, <- Hq'. apply list_elem_of_fmap. eauto.
  - destruct Hx. rewrite Hq', <- Hq. apply list_elem_of_fmap. eauto.
Qed.

Definition readable f e : Prop := exists p b, e_path e = Some p /\ file_at f p = Some b.

(** From a state of [I] on, every entry of [entries] can be sent to [p] with the
    contents it has in [f], and sending keeps [I]. *)
Definition sendable (I : W -> Prop) (p : pid) (entries : list Entry) (f : fs) : Prop :=
  forall w e b, I w -> e ∈ entries -> Read f e = Ok b ->
    exists w', send w p e b = (w', Ok tt) /\ forall f', I (set_hfs w' f').

Lemma sendable_incl I p es es' f : es ⊆ es' -> sendable I p es' f -> sendable I p es f.
Proof. intros Hsub Hs w e b HI He. apply Hs; auto. Qed.

Lemma sendable_kind I p kind es f : sendable I p es f -> sendable I p (filter (fun e => Kind e = kind) es) f.
Proof. apply sendable_incl. intros e [_ ?]%list_elem_of_filter. done. Qed.

(** When the sends succeed, every readable entry of the kind is sent, and only
    the files of the kind go. *)
Lemma flush_entries_delivers (I : W -> Prop) f0 p kind entries : forall w sent,
  sendable I p (filter (fun e => Kind e = kind) entries) f0 -> I w ->
  (forall e b, e ∈ entries -> Read (hfs w) e = Ok b -> Read f0 e = Ok b) -> NoDup (map e_path entries) ->
  Forall (fun e => exists q, e_path e = Some q /\ file_at (hfs w) (filepath_Dir q) = None) entries ->
  exists w' new, flush_entries w p kind entries sent = (w', sent ++ new, false) /\ I w' /\
    Forall (fun e => Kind e = kind) new /\
    (forall e, e ∈ entries -> Kind e = kind -> readable (hfs w) e ->
       e ∈ new /\ ~ readable (hfs w') e) /\
    (forall q, (forall e, e ∈ entries -> Kind e = kind -> e_path e <> Some q) ->
       file_at (hfs w') q = file_at (hfs w) q) /\
    (forall q, file_at (hfs w) q = None -> file_at (hfs w') q = None).
Proof.
  induction entries as [|e entries IH]; intros w sent Hs HI Hc Hn Hd; cbn [flush_entries].
  { exists w, []. rewrite app_nil_r. split_and!; [done|done|constructor| |done|done].
    intros e He. by apply elem_of_nil in He. }
  apply NoDup_cons in Hn as [Hnin Hn]. apply Forall_cons in Hd as [(qe & Hqe & Hde) Hd].
  assert (Hs' : sendable I p (filter (fun e => Kind e = kind) entries) f0).
  { eapply sendable_incl; [|exact Hs]. intros e0 [? ?]%list_elem_of_filter. apply list_elem_of_filter. split; [done|by constructor]. }
  assert (Hc' : forall e b, e ∈ entries -> Read (hfs w) e = Ok b -> Read f0 e = Ok b) by (intros e0 b0 ?; apply Hc; by constructor).
  case_bool_decide as Hk; simpl.
  2: { destruct (IH w sent Hs' HI Hc' Hn Hd) as (w' & new & E & Hi & H1 & H2 & H3 & H4). exists w', new. split_and!; try done.
       - intros e' [->|He']%elem_of_cons; [done|auto].
       - intros q Hq. apply H3. intros e' He'. apply Hq. by constructor. }
  destruct (Read (hfs w) e) as [data|er|] eqn:HR.
  2-3: destruct (IH w sent Hs' HI Hc' Hn Hd) as (w' & new & E & Hi & H1 & H2 & H3 & H4); exists w', new; split_and!; try done;
       [|intros q Hq; apply H3; intros e' He'; apply Hq; by constructor];
       intros e' [->|He']%elem_of_cons; [|auto]; intros _ (q & b & Hq & Hb); unfold Read in HR; rewrite Hq in HR;
       apply ReadFile_file_at in Hb; congruence.
  pose proof (send_hfs w p e data) as Hh.
  assert (Hin : e ∈ filter (fun e => Kind e = kind) (e :: entries)) by (apply list_elem_of_filter; split; [done|constructor]).
  destruct (Hs w e data HI Hin (Hc e data ltac:(constructor) HR)) as (w1 & Hs1 & HI1).
  rewrite Hs1 in Hh |- *. simpl in Hh. set (w2 := set_hfs w1 (Remove (hfs w1) e).1).
  assert (HF : forall q, file_at (hfs w2) q = if decide (qe = q) then None else file_at (hfs w) q).
  { intros q. unfold w2. rewrite hfs_set, Hh. by apply Remove_files. }
  destruct (IH w2 (sent ++ [e]) Hs' (HI1 _)) as (w' & new & E & Hi & H1 & H2 & H3 & H4); [|done|..].
  { intros e0 b0 He0 Hr0. apply Hc'; [done|]. unfold Read in Hr0 |- *. destruct (e_path e0) as [q0|]; [|done].
    apply ReadFile_file_at in Hr0. apply ReadFile_file_at. rewrite HF in Hr0. by case_decide. }
  { eapply Forall_impl; [exact Hd|]. intros e' (q & ? & Hq). exists q. split; [done|]. rewrite HF. by case_decide. }
  exists w', (e :: new). rewrite E, <- app_assoc. split_and!; [done|done|by constructor|..].
  - intros e' He' Hk' Hrd. destruct (decide (e' = e)) as [->|Hne].
    + split; [constructor|]. intros (q & b & Hq & Hb). rewrite Hqe in Hq. injection Hq as <-.
      rewrite H4 in Hb; [done|]. rewrite HF. by rewrite decide_True.
    + apply elem_of_cons in He' as [->|He']; [done|]. destruct Hrd as (q & b & Hq & Hb).
      destruct (H2 e' He' Hk') as [? ?]; [|split; [by constructor|done]].
      exists q, b. split; [done|]. rewrite HF, decide_False; [done|]. intros ->. apply Hnin.
      apply list_elem_of_fmap. exists e'. by rewrite Hq.
  - intros q Hq. rewrite H3 by (intros e' He'; apply Hq; by constructor). rewrite HF, decide_False; [done|].
    intros ->. apply (Hq e); [constructor|done|done].
  - intros q Hq. apply H4. rewrite HF. by case_decide.
Qed.

Lemma ReadDir_NoDup f dir names : ReadDir f dir = Ok names -> NoDup names.
Proof.
  unfold ReadDir. destruct (f !! dir) as [[]|]; [|done..]. intros [= <-]. rewrite merge_sort_Permutation.
  pose proof (NoDup_fst_map_to_list f) as Hn. induction (map_to_list f).*1 as [|q l IH]; [constructor|].
  apply NoDup_cons in Hn as [Hq Hn]. cbn [omap list_omap]. destruct (child_name dir q) as [c|] eqn:Ec; [|by apply IH].
  constructor; [|by apply IH]. intros (q' & Hq' & Ec')%list_elem_of_omap. apply Hq.
  assert (Hin : forall x, child_name dir x = Some c -> x = dir ++ [c]).
  { intros x. unfold child_name. case_bool_decide as E; [|done]. destruct E as [Hx <-].
    destruct x as [|y x _] using rev_ind; [done|]. rewrite last_snoc, removelast_last. by intros [= ->]. }
  by rewrite (Hin q), <- (Hin q').
Qed.

Lemma ListEntries_paths f sp peerID entries :
  os_names f -> ListEntries f sp peerID = Ok entries -> NoDup (map e_path entries).
Proof.
  intros Hos. unfold ListEntries. set (dir := filepath_Join (root sp) [peerID]).
  destruct (ReadDir f dir) as [files|er|] eqn:ER; [|destruct (errors_Is er ErrNotExist); [|done]; intros [= <-]; constructor|done].
  intros [= <-]. pose proof (ReadDir_NoDup _ _ _ ER) as Hn.
  assert (Hpl : Forall (fun n => plain_name n = true) files).
  { apply Forall_forall. intros n Hin. apply (elem_of_ReadDir _ _ _ n ER) in Hin. by apply Hos in Hin. }
  clear ER. induction files as [|n files IH]; [constructor|].
  apply NoDup_cons in Hn as [Hx Hn]. apply Forall_cons in Hpl as [Hp Hpl]. cbn [omap list_omap].
  destruct (parse_name peerID dir n) as [e|] eqn:Ee; [|by apply IH]. simpl. constructor; [|by apply IH].
  intros (e' & E & He')%list_elem_of_fmap. apply list_elem_of_omap in He' as (n' & Hn' & Ee').
  apply parse_name_inv in Ee as (_ & _ & E1 & _), Ee' as (_ & _ & E2 & _). rewrite E1, E2 in E.
  rewrite Forall_forall in Hpl. specialize (Hpl n' Hn').
  rewrite !(Join_plain dir [_]) in E by (by constructor). injection E as E. apply app_inv_head in E.
  injection E as ->. done.
Qed.

(** The worker drains the spool of a reachable peer.  In a state from which
    the queued items can be sent to the peer one after the other, one [flushPeer] sends all the entries it can read, every
    shard before every manifest (a manifest names shard identifiers), and none
    of them is left in the spool. *)
Theorem flushPeer_delivers (I : W -> Prop) w sp peerID p entries w' sent :
  os_names (hfs w) -> peer_Decode peerID = Some p -> I w -> sendable I p entries (hfs w) ->
  ListEntries (hfs w) sp peerID = Ok entries -> flushPeer w sp peerID = (w', sent) ->
  (exists shards manifests, sent = shards ++ manifests /\
     Forall (fun e => Kind e = KindShard) shards /\ Forall (fun e => Kind e = KindManifest) manifests) /\
  forall e, e ∈ entries -> readable (hfs w) e -> e ∈ sent /\ ~ readable (hfs w') e.
Proof.
  intros Hos Hp HI Hs HL HF. pose proof (ListEntries_paths _ _ _ _ Hos HL) as Hn.
  pose proof (ListEntries_listed _ _ _ _ Hos HL) as Hl. unfold flushPeer in HF. rewrite Hp, HL in HF.
  assert (Hdir : Forall (fun e => exists q, e_path e = Some q /\ file_at (hfs w) (filepath_Dir q) = None) entries)
    by (eapply Forall_impl; [exact Hl|]; by intros e (_ & _ & ?)).
  destruct (flush_entries_delivers I (hfs w) p KindShard entries w [] (sendable_kind _ _ _ _ _ Hs) HI) as (w1 & ss & E1 & HI1 & S1 & S2 & S3 & S4); [done..|].
  pose proof (flush_entries_sub _ _ _ _ _ _ _ _ E1) as Hsub.
  destruct (flush_entries_delivers I (hfs w) p KindManifest entries w1 ([] ++ ss) (sendable_kind _ _ _ _ _ Hs) HI1) as (w2 & ms & E2 & _ & M1 & M2 & M3 & M4); [|done|..].
  { intros e b _. unfold Read. destruct (e_path e) as [q|]; [|done]. rewrite !ReadFile_file_at. unfold file_at.
    destruct (hfs w1 !! q) as [n|] eqn:Eq; [|done]. by rewrite (lookup_weaken _ _ _ _ Eq Hsub). }
  { eapply Forall_impl; [exact Hdir|]. intros e (q & ? & Hq). eauto. }
  rewrite E1, E2 in HF. simpl in HF. injection HF as <- <-. split; [eauto 10|].
  intros e He Hr. rewrite Forall_forall in Hl. destruct (Hl e He) as (_ & [Hk|Hk] & _).
  - destruct (S2 e He Hk Hr) as [Hin Hno]. split; [apply elem_of_app; by left|].
    intros (q & b & Hq & Hb). apply Hno. exists q, b. split; [done|].
    destruct (file_at (hfs w1) q) eqn:E; [|by rewrite M4 in Hb].
    rewrite M3 in Hb; [congruence|]. intros e' He' Hk' Hq'. apply (same_path_kind entries e e' q Hn He He' Hq) in Hq'.
    subst e'. by rewrite Hk in Hk'.
  - assert (Hr1 : readable (hfs w1) e).
    { destruct Hr as (q & b & Hq & Hb). exists q, b. split; [done|]. rewrite S3; [done|].
      intros e' He' Hk' Hq'. apply (same_path_kind entries e e' q Hn He He' Hq) in Hq'. subst e'. by rewrite Hk in Hk'. }
    destruct (M2 e He Hk Hr1) as [Hin Hno]. split; [apply elem_of_app; by right|done].
Qed.

End worker.
(** ** Queueing *)

Lemma write_rename_dir io f dir name data f' :
  dir <> [] -> write_rename io f dir name data = (f', Ok tt) -> f' !! dir = Some Dir.
Proof.
  intros Hdir. unfold write_rename, write_rename_to, rename. destruct (io_mkdir io); [done|].
  destruct (MkdirAll f dir) as [f1 [[]| |]]; [|done..]. destruct (io_create io); [done|].
  destruct (f1 !! _); [done|]. destruct (io_write io); [done|]. destruct (io_close io); [done|].
  destruct (io_rename io); [done|]. set (f3 := <[_ := _]> (<[_ := _]> f1)).
  assert (Hd : is_dir f3 (filepath_Dir (dir ++ [name])) = true ->
    (<[dir ++ [name] := File data]> (delete (dir ++ [tmp_name io]) f3) : fs) !! dir = Some Dir).
  { unfold filepath_Dir. rewrite removelast_last. unfold is_dir. destruct dir as [|c dir]; [done|]. intros E.
    assert (Hl : forall x, (c :: dir) ++ [x] <> c :: dir).
    { intros x Ex. apply (f_equal length) in Ex. rewrite length_app in Ex. simpl in Ex. lia. }
    rewrite lookup_insert_ne, lookup_delete_ne by apply Hl. by destruct (f3 !! (c :: dir)) as [[]|]. }
  destruct (f3 !! _) as [[]|]; [done|..]; destruct (is_dir f3 _) eqn:E; try done; intros [= <-]; by apply Hd.
Qed.

Lemma item_plain kind key :
  kind = KindShard \/ kind = KindManifest -> hex_string key = true -> plain_name (kind +:+ "_" +:+ key) = true.
Proof.
  intros Hk Hh. pose proof (hex_split key Hh) as Hs. unfold plain_name.
  assert (E : split_slash (kind +:+ "_" +:+ key) = [kind +:+ "_" +:+ key]).
  { destruct Hk as [->| ->]; [change (KindShard +:+ "_" +:+ key) with (String "s" (String "_" key))
      |change (KindManifest +:+ "_" +:+ key) with (String "m" (String "_" key))];
      cbn [split_slash]; by rewrite Hs. }
  rewrite E, bool_decide_eq_true_2 by done.
  rewrite !bool_decide_eq_false_2; [done|by destruct Hk as [->| ->]..].
Qed.

Lemma write_shape io f sp peerID kind key data :
  kind = KindShard \/ kind = KindManifest -> plain_name peerID = true -> hex_string key = true -> key <> "" ->
  write io f sp peerID kind key data = write_rename io f (root sp ++ [peerID]) (kind +:+ "_" +:+ key) data.
Proof.
  intros Hk Hp Hh Hne. unfold write, write_rename.
  rewrite !(Join_plain _ [_]) by (constructor; [|done]; by try apply item_plain).
  rewrite !bool_decide_eq_false_2; [done|done|]. intros ->. done.
Qed.

Lemma item_not_tmp kind key : kind = KindShard \/ kind = KindManifest -> has_prefix ".tmp-" (kind +:+ "_" +:+ key) = false.
Proof. by intros [->| ->]. Qed.

(** What queueing does to the files: the item, or at most a temporary file. *)
Lemma write_files io f sp peerID kind key data f' r :
  kind = KindShard \/ kind = KindManifest -> plain_name peerID = true -> hex_string key = true -> key <> "" ->
  write io f sp peerID kind key data = (f', r) ->
  match r with
  | Ok _ => forall q, file_at f' q = if decide (item_path sp peerID kind key = q) then Some data else file_at f q
  | Err _ => forall q, (forall rand, q <> root sp ++ [peerID; tmp_prefix +:+ rand]) -> file_at f' q = file_at f q
  | Panic => False
  end.
Proof.
  intros Hk Hp Hh Hne. rewrite write_shape by done. intros HW.
  pose proof (write_rename_spec _ _ _ _ _ _ _ (item_not_tmp kind key Hk) HW) as Hf. unfold item_path.
  destruct r; [|intros q Hq; apply Hf; rewrite <- app_assoc; apply Hq|done]. intros q. by rewrite Hf, <- app_assoc.
Qed.

(** ** Draining *)

(** What is in a directory has the directory above it. *)
Definition tree f : Prop := forall q c, q <> [] -> is_Some (f !! (q ++ [c])) -> f !! q = Some Dir.

Lemma has_children_false f p c : has_children f p = false -> f !! (p ++ [c]) = None.
Proof.
  intros HC. destruct (f !! (p ++ [c])) as [n|] eqn:E; [|done]. exfalso. unfold has_children in HC.
  apply Bool.not_true_iff_false in HC. apply HC, existsb_exists. exists (p ++ [c]). split.
  - apply list_elem_of_In, list_elem_of_fmap. exists (p ++ [c], n). split; [done|]. by apply elem_of_map_to_list.
  - apply bool_decide_eq_true. rewrite removelast_last. split; [|done]. by destruct p.
Qed.

Lemma Fs_Remove_tree f p : tree f -> tree (Fs.Remove f p).1.
Proof.
  intros Ht. assert (HD : (forall c, p <> [] -> f !! (p ++ [c]) = None) -> tree (delete p f)).
  { intros Hno q c Hq [Hne Hc]%lookup_delete_is_Some. specialize (Ht q c Hq Hc). destruct (decide (p = q)) as [->|Hpq].
    - destruct Hc as [n Hc]. by rewrite Hno in Hc.
    - by rewrite lookup_delete_ne. }
  unfold Fs.Remove. destruct (f !! p) as [[|b]|] eqn:E; [destruct (has_children f p) eqn:HC|..]; simpl; try done; apply HD.
  - intros c _. by apply has_children_false.
  - intros c Hp. destruct (f !! (p ++ [c])) as [n|] eqn:Ec; [|done]. by rewrite (Ht p c Hp (mk_is_Some _ _ Ec)) in E.
Qed.

Lemma Remove_tree f e : tree f -> tree (Remove f e).1.
Proof.
  intros Ht. unfold Remove. destruct (e_path e) as [p|]; [|done]. pose proof (Fs_Remove_tree f p Ht) as T1.
  destruct (Fs.Remove f p) as [f1 r]. simpl in T1. destruct r as [u|er|]; [|destruct (errors_Is er ErrNotExist)|]; simpl;
    auto using Fs_Remove_tree.
Qed.

(** An item in the queue is listed. *)
Lemma item_listed f sp peerID kind key data :
  kind = KindShard \/ kind = KindManifest -> plain_name peerID = true -> key <> "" -> root sp <> [] -> tree f -> os_names f ->
  file_at f (item_path sp peerID kind key) = Some data ->
  (exists peers, PendingPeers f sp = Ok peers /\ peerID ∈ peers) /\
  exists entries e, ListEntries f sp peerID = Ok entries /\ e ∈ entries /\ Kind e = kind /\
    e_path e = Some (item_path sp peerID kind key).
Proof.
  intros Hk Hp Hne Hr Ht Hos Hf. set (name := kind +:+ "_" +:+ key).
  assert (E : item_path sp peerID kind key = (root sp ++ [peerID]) ++ [name]) by (unfold item_path; by rewrite <- app_assoc).
  rewrite E in Hf. unfold file_at in Hf.
  assert (Hs : is_Some (f !! ((root sp ++ [peerID]) ++ [name]))) by (by destruct (f !! ((root sp ++ [peerID]) ++ [name]))).
  assert (Hd : f !! (root sp ++ [peerID]) = Some Dir) by (eapply Ht; [by destruct (root sp)|exact Hs]).
  assert (Hd' : f !! root sp = Some Dir) by (by eapply Ht; [|rewrite Hd]).
  assert (Hn : plain_name name = true) by (by eapply Hos). split.
  - unfold PendingPeers. destruct (ReadDir f (root sp)) as [dirs|er|] eqn:ER; [|unfold ReadDir in ER; by rewrite Hd' in ER..].
    eexists. split; [done|]. apply list_elem_of_filter. split; [clear - Hd; unfold is_dir; by destruct (root sp ++ [peerID]); [|rewrite Hd]|].
    apply (elem_of_ReadDir _ _ _ peerID ER). by rewrite Hd.
  - unfold ListEntries. rewrite (Join_plain (root sp) [peerID]) by (by constructor).
    destruct (ReadDir f (root sp ++ [peerID])) as [files|er|] eqn:ER; [|unfold ReadDir in ER; by rewrite Hd in ER..].
    assert (He : parse_name peerID (root sp ++ [peerID]) name = Some (NewEntry peerID kind key (Some (item_path sp peerID kind key)))).
    { unfold parse_name. rewrite (item_not_tmp kind key Hk : has_prefix ".tmp-" name = false). rewrite (Join_plain _ [name]) by (by constructor).
      rewrite <- E. unfold name. destruct key as [|c key]; [done|]. by destruct Hk as [->| ->]. }
    do 2 eexists. split; [done|]. split; [apply list_elem_of_omap; exists name; split; [by apply (elem_of_ReadDir _ _ _ name ER)|exact He]|done].
Qed.

Section drain.
Context `{PeerIDs} {W : Type} `{!Sender W}.
Implicit Types w : W.

(** A condition [I] on the host that the sends of the worker leave in place, and
    under which [p] takes the shards queued for it. *)
Record takes sp peerID (p : pid) f0 (I : W -> Prop) : Prop := {
  tk_send w q e b : I w -> I (send w q e b).1;
  tk_local w f : I w -> I (set_hfs w f);
  tk_online w : I w -> IsOnline w peerID = true;
  tk_takes w e b : I w -> item sp peerID e -> Kind e = KindShard -> Read f0 e = Ok b -> exists w1, send w p e b = (w1, Ok tt)
}.

Lemma takes_inv sp peerID p f0 I : takes sp peerID p f0 I -> pass_inv sp (fun w => I w /\ tree (hfs w)).
Proof.
  intros HT. split.
  - intros w q e b [HI Ht]. rewrite send_hfs. split; [by apply (tk_send _ _ _ _ _ HT)|done].
  - intros w d q e b w1 [HI Ht] _ _ _ _ _ HS. rewrite hfs_set. pose proof (send_hfs w q e b) as Hh.
    pose proof (tk_send _ _ _ _ _ HT w q e b HI) as HI1. rewrite HS in Hh, HI1. simpl in Hh, HI1.
    split; [by apply (tk_local _ _ _ _ _ HT)|]. rewrite Hh. by apply Remove_tree.
Qed.

Lemma Read_sub f f' e b : f' ⊆ f -> Read f' e = Ok b -> Read f e = Ok b.
Proof.
  intros Hsub. unfold Read. destruct (e_path e) as [q|]; [|done]. rewrite !ReadFile_file_at. unfold file_at.
  destruct (f' !! q) as [n|] eqn:Eq; [|done]. by rewrite (lookup_weaken _ _ _ _ Eq Hsub).
Qed.

(** One [flushPeer] empties the peer's queue of shards, whatever becomes of the
    manifests after them. *)
Lemma flushPeer_drains sp peerID p f0 I w w' sent key :
  takes sp peerID p f0 I -> peer_Decode peerID = Some p -> plain_name peerID = true -> root sp <> [] -> key <> "" ->
  os_names (hfs w) -> tree (hfs w) -> hfs w ⊆ f0 -> I w -> flushPeer w sp peerID = (w', sent) ->
  file_at (hfs w') (item_path sp peerID KindShard key) = None.
Proof.
  intros HT Hp Hpl Hr Hne Hos Ht Hsub HI HF. pose proof (proj2 (flushPeer_kept _ _ _ _ _ Hos HF)) as Hsub'.
  destruct (file_at (hfs w) (item_path sp peerID KindShard key)) as [data|] eqn:Hf; [|by eapply no_file_sub].
  destruct (item_listed _ _ _ _ _ _ (or_introl eq_refl) Hpl Hne Hr Ht Hos Hf) as (_ & entries & e & HL & He & Hk & Hpath).
  destruct (ListEntries_items _ _ _ _ Hos Hpl HL) as [[Hit Hd]| ->]; [|by apply elem_of_nil in He].
  pose proof (ListEntries_listed _ _ _ _ Hos HL) as Hl. unfold flushPeer in HF. rewrite Hp, HL in HF.
  destruct (flush_entries_delivers I (hfs w) p KindShard entries w []) as (w1 & ss & E1 & _ & _ & S2 & _ & _);
    [|done|done|by eapply ListEntries_paths|eapply Forall_impl; [exact Hl|]; by intros ? (_ & _ & ?)|].
  { intros w0 e0 b HI0 [Hk0 He0]%list_elem_of_filter HR. rewrite Forall_forall in Hit.
    destruct (tk_takes _ _ _ _ _ HT w0 e0 b HI0 (Hit e0 He0) Hk0 (Read_sub _ _ _ _ Hsub HR)) as [w1 Hs].
    exists w1. split; [done|]. intros f'. apply (tk_local _ _ _ _ _ HT).
    pose proof (tk_send _ _ _ _ _ HT w0 p e0 b HI0) as HI1. by rewrite Hs in HI1. }
  rewrite E1 in HF. destruct (flush_entries w1 p KindManifest entries ([] ++ ss)) as [[w2 s2] stop] eqn:E2. injection HF as <- _.
  apply flush_entries_sub in E2. eapply no_file_sub; [exact E2|].
  destruct (S2 e He Hk) as [_ Hno]; [by exists (item_path sp peerID KindShard key), data|].
  destruct (file_at (hfs w1) (item_path sp peerID KindShard key)) as [b|] eqn:Eb; [|done]. exfalso. apply Hno. by eexists _, b.
Qed.

(** One pass of the worker does, for every peer that takes its shards. *)
Lemma flushAll_drains sp peerID p I w w' sent key :
  takes sp peerID p (hfs w) I -> peer_Decode peerID = Some p -> plain_name peerID = true -> root sp <> [] -> key <> "" ->
  os_names (hfs w) -> tree (hfs w) -> I w -> flushAll w sp = (w', sent) ->
  file_at (hfs w') (item_path sp peerID KindShard key) = None.
Proof.
  intros HT Hp Hpl Hr Hne Hos Ht HI HF.
  pose proof (proj2 (flushAll_inv _ _ _ _ _ (takes_inv _ _ _ _ _ HT) Hos (conj HI Ht) HF)) as Hsub.
  destruct (file_at (hfs w) (item_path sp peerID KindShard key)) as [data|] eqn:Hf; [|by eapply no_file_sub].
  destruct (item_listed _ _ _ _ _ _ (or_introl eq_refl) Hpl Hne Hr Ht Hos Hf) as ((peers & HP & Hin) & _). clear Hf Hsub.
  assert (Hpls : Forall (fun d => plain_name d = true) peers) by (by eapply PendingPeers_plain).
  unfold flushAll in HF. rewrite HP in HF. clear HP.
  assert (G : forall w1 s1, I w1 -> tree (hfs w1) -> hfs w1 ⊆ hfs w ->
    peerID ∈ peers \/ file_at (hfs w1) (item_path sp peerID KindShard key) = None ->
    fold_left (fun acc p => if IsOnline acc.1 p then
      let '(w', sent) := flushPeer acc.1 sp p in (w', acc.2 ++ sent) else acc) peers (w1, s1) = (w', sent) ->
    file_at (hfs w') (item_path sp peerID KindShard key) = None); [|eapply G; [exact HI|exact Ht|reflexivity|by left|exact HF]].
  clear Hin HF HI Ht. induction Hpls as [|d peers Hd _ IH]; intros w1 s1 HI Ht Hsub Hin; cbn [fold_left fst snd].
  { intros [= <- _]. destruct Hin as [Hin|?]; [by apply elem_of_nil in Hin|done]. }
  pose proof (os_names_sub _ _ Hos Hsub) as Hos1.
  destruct (IsOnline w1 d) eqn:Hon.
  - destruct (flushPeer w1 sp d) as [w2 s2] eqn:HF. pose proof (proj2 (flushPeer_kept _ _ _ _ _ Hos1 HF)) as Hsub2.
    destruct (flushPeer_inv _ _ _ _ _ _ (takes_inv _ _ _ _ _ HT) Hos1 Hd (conj HI Ht) HF) as [HI2 Ht2].
    apply IH; [done|done|by etrans|]. destruct Hin as [[->|Hin]%elem_of_cons|Hno]; [right|by left|right].
    + by eapply flushPeer_drains.
    + by eapply no_file_sub.
  - apply IH; [done..|]. destruct Hin as [[->|Hin]%elem_of_cons|Hno]; [|by left|by right].
    by rewrite (tk_online _ _ _ _ _ HT w1 HI) in Hon.
Qed.

End drain.

(** A queued item is found again.  After a successful [EnqueueShard] or
    [EnqueueManifest] for a peer, [ListEntries] of that peer contains an entry
    of that kind and key whose [Read] returns the bytes queued, and every other
    file (in particular every other queued item and every stored shard) is
    unchanged.  Peer identifiers and keys are those the program generates: a
    path-free name and a hexadecimal identifier. *)
Theorem enqueue_then_list io f sp peerID kind key data f' :
  kind = KindShard \/ kind = KindManifest -> plain_name peerID = true -> hex_string key = true -> key <> "" ->
  write io f sp peerID kind key data = (f', Ok tt) ->
  exists entries e, ListEntries f' sp peerID = Ok entries /\ e ∈ entries /\ Kind e = kind /\ Key e = key /\
    Read f' e = Ok data /\
    forall q, q <> item_path sp peerID kind key -> file_at f' q = file_at f q.
Proof.
  intros Hk Hp Hh Hne HW. pose proof (write_files _ _ _ _ _ _ _ _ _ Hk Hp Hh Hne HW) as Hf. simpl in Hf.
  rewrite write_shape in HW by done. set (name := kind +:+ "_" +:+ key) in *.
  assert (HJ : filepath_Join (root sp) [peerID] = root sp ++ [peerID]) by (apply Join_plain; by constructor).
  assert (HJ' : filepath_Join (root sp ++ [peerID]) [name] = (root sp ++ [peerID]) ++ [name])
    by (apply Join_plain; constructor; [by apply item_plain|done]).
  assert (Hd : f' !! (root sp ++ [peerID]) = Some Dir).
  { eapply write_rename_dir; [|exact HW]. by destruct (root sp). }
  set (e := NewEntry peerID kind key (Some ((root sp ++ [peerID]) ++ [name]))).
  assert (He : parse_name peerID (root sp ++ [peerID]) name = Some e).
  { unfold parse_name. assert (has_prefix ".tmp-" name = false) as -> by (by apply item_not_tmp). rewrite HJ'. unfold e, name. destruct key as [|c key]; [done|]. by destruct Hk as [->| ->]. }
  assert (Hfile : file_at f' ((root sp ++ [peerID]) ++ [name]) = Some data).
  { rewrite Hf, decide_True; [done|]. unfold item_path. by rewrite <- app_assoc. }
  unfold ListEntries. rewrite HJ. destruct (ReadDir f' (root sp ++ [peerID])) as [files|er|] eqn:ER.
  2-3: exfalso; unfold ReadDir in ER; by rewrite Hd in ER.
  exists (omap (parse_name peerID (root sp ++ [peerID])) files), e. split_and!; [done| |done..| |].
  - apply list_elem_of_omap. exists name. split; [|done]. apply (elem_of_ReadDir _ _ _ name ER).
    unfold file_at in Hfile. by destruct (f' !! ((root sp ++ [peerID]) ++ [name])).
  - unfold Read, e. cbn [e_path]. by apply ReadFile_file_at.
  - intros q Hq. rewrite Hf, decide_False; [done|]. by intros <-.
Qed.

(** ** Witnesses: a sender that accepts everything and remembers it *)

Abbreviation toy_host := (fs * list (string * string * string))%type.

#[local] Instance toy_sender : Sender (H := toy_peers) toy_host.
Proof.
  refine {| hfs := fst; set_hfs w f := (f, snd w); IsOnline _ _ := true;
    PutShardOnPeer w p id _ := ((w.1, (p, KindShard, id) :: w.2), Ok tt);
    PutManifestRawOnPeer w p id _ := ((w.1, (p, KindManifest, id) :: w.2), Ok tt);
    accepted w p k id := (p : string, k, id) ∈ w.2 |}; try done.
  - intros w p id data w1 [= <-]. constructor.
  - intros w p id data w1 [= <-]. constructor.
  - intros. by constructor.
  - intros. by constructor.
Defined.

Definition sample_spool : Spool := NewSpool ["d"; "spool"].

Definition sample_fs : fs :=
  let f1 := (write (io_fine "1") ∅ sample_spool "12DB" KindManifest "0a" [Byte.x01]).1 in
  (write (io_fine "2") f1 sample_spool "12DB" KindShard "0b" [Byte.x02; Byte.x03]).1.

Lemma enqueue_then_list_witness :
  let f' := (write (io_fine "1") ∅ sample_spool "12DB" KindManifest "0a" [Byte.x01]).1 in
  exists entries e, ListEntries f' sample_spool "12DB" = Ok entries /\ e ∈ entries /\ Read f' e = Ok [Byte.x01].
Proof.
  intros f'. destruct (enqueue_then_list (io_fine "1") ∅ sample_spool "12DB" KindManifest "0a" [Byte.x01] f')
    as (entries & e & H1 & H2 & _ & _ & H3 & _); eauto 10.
Defined.

Lemma os_names_check f :
  forallb (fun kv => plain_name (default "" (last kv.1))) (map_to_list f) = true -> os_names f.
Proof.
  rewrite forallb_forall. intros Hall q c [n Hn]. specialize (Hall (q ++ [c], n)). cbn [fst] in Hall.
  rewrite last_snoc in Hall. apply Hall, list_elem_of_In, elem_of_map_to_list, Hn.
Qed.

Definition parent_check (f : fs) (q : path) : bool :=
  match q with [] | [_] => true | _ => match f !! removelast q with Some Dir => true | _ => false end end.

Lemma tree_check f : forallb (fun kv => parent_check f kv.1) (map_to_list f) = true -> tree f.
Proof.
  rewrite forallb_forall. intros HC q c Hq [n Hn]. apply elem_of_map_to_list, list_elem_of_In, HC in Hn. simpl in Hn.
  unfold parent_check in Hn. rewrite removelast_last in Hn. destruct q as [|x q]; [done|].
  destruct (f !! (x :: q)) as [[]|]; by destruct q.
Qed.

Definition sample_host : toy_host := (sample_fs, []).

Lemma sample_os_names : os_names (hfs sample_host).
Proof. apply os_names_check. vm_compute. reflexivity. Qed.

Lemma flushAll_no_loss_witness :
  exists w' sent, flushAll (W := toy_host) sample_host sample_spool = (w', sent) /\ sent <> [] /\
    (forall e, e ∈ sent -> exists p, peer_Decode (PeerID e) = Some p /\ accepted w' p (Kind e) (Key e)).
Proof.
  destruct (flushAll (W := toy_host) sample_host sample_spool) as [w' sent] eqn:E.
  exists w', sent. split_and!; [done | |exact (proj2 (flushAll_no_loss (W := toy_host) sample_host sample_spool w' sent sample_os_names E))].
  intros ->. assert (length (snd (flushAll (W := toy_host) sample_host sample_spool)) = 0%nat) as Hn by by rewrite E.
  vm_compute in Hn. discriminate Hn.
Defined.

Lemma flushPeer_delivers_witness :
  let '(w', sent) := flushPeer (W := toy_host) sample_host sample_spool "12DB" in
  exists shards manifests, sent = shards ++ manifests /\ Forall (fun e => Kind e = KindShard) shards.
Proof.
  destruct (flushPeer (W := toy_host) sample_host sample_spool "12DB") as [w' sent] eqn:E.
  destruct (ListEntries (hfs sample_host) sample_spool "12DB") as [entries| |] eqn:HL; [|vm_compute in HL; discriminate HL..].
  destruct (flushPeer_delivers (W := toy_host) (fun _ => True) sample_host sample_spool "12DB" ("B" : pid (PeerIDs := toy_peers)) entries w' sent
    sample_os_names eq_refl Logic.I) as [(ss & ms & H1 & H2 & _) _]; eauto.
  intros w0 e data _ _ _. unfold send. case_bool_decide; eexists; split; reflexivity || trivial.
Defined.

End spool.
