(* ===== verification/Base64.v ===== *)
(** * encoding/base64: RawStdEncoding and RawURLEncoding

    The encoding of a private file's name in its manifest (standard alphabet)
    and of session tokens and invite links (URL alphabet); no padding. *)

From S2P Require Import Prelude.

Definition b64_alphabet : string := "ABCDEFGHIJKLMNOPQRSTUVWXYZabcdefghijklmnopqrstuvwxyz0123456789+/".

Definition b64_char (n : Z) : ascii := default "A"%char (String.get (Z.to_nat n) b64_alphabet).

Fixpoint index_of (c : ascii) (s : string) (i : Z) : option Z :=
  match s with
  | EmptyString => None
  | String a s' => if bool_decide (a = c) then Some i else index_of c s' (i + 1)
  end.

Definition b64_value (c : ascii) : option Z := index_of c b64_alphabet 0.

(** Three bytes give four digits; one or two left over give two or three. *)
Fixpoint b64_digits (b : bytes) : list Z :=
  match b with
  | [] => []
  | [x] => [byteZ x / 4; byteZ x mod 4 * 16]
  | [x; y] => [byteZ x / 4; byteZ x mod 4 * 16 + byteZ y / 16; byteZ y mod 16 * 4]
  | x :: y :: z :: b' =>
      byteZ x / 4 :: byteZ x mod 4 * 16 + byteZ y / 16 :: byteZ y mod 16 * 4 + byteZ z / 64 ::
      byteZ z mod 64 :: b64_digits b'
  end.

Fixpoint b64_bytes (ds : list Z) : option bytes :=
  match ds with
  | [] => Some []
  | [_] => None
  | [a; b] => Some [Zbyte (a * 4 + b / 16)]
  | [a; b; c] => Some [Zbyte (a * 4 + b / 16); Zbyte (b mod 16 * 16 + c / 4)]
  | a :: b :: c :: d :: ds' =>
      r ← b64_bytes ds';
      Some (Zbyte (a * 4 + b / 16) :: Zbyte (b mod 16 * 16 + c / 4) :: Zbyte (c mod 4 * 64 + d) :: r)
  end.

Definition encode_with (char : Z -> ascii) (b : bytes) : string :=
  String.string_of_list_ascii (map char (b64_digits b)).

(** Carriage returns and line feeds are skipped. *)
Definition decode_with (value : ascii -> option Z) (s : string) : option bytes :=
  ds ← mapM value
    (filter (fun c => c <> Ascii.ascii_of_nat 10 /\ c <> Ascii.ascii_of_nat 13) (String.list_ascii_of_string s));
  b64_bytes ds.

(** [base64.RawStdEncoding.EncodeToString] and [DecodeString] *)
Definition b64_encode : bytes -> string := encode_with b64_char.

Definition b64_decode : string -> option bytes := decode_with b64_value.

(** [base64.RawURLEncoding]: two letters of the alphabet differ. *)
Definition b64url_char (n : Z) : ascii :=
  if n =? 62 then "-"%char else if n =? 63 then "_"%char else b64_char n.

Definition b64url_value (c : ascii) : option Z :=
  if bool_decide (c = "-"%char) then Some 62
  else if bool_decide (c = "_"%char) then Some 63
  else if bool_decide (c = "+"%char) || bool_decide (c = "/"%char) then None
  else b64_value c.

Definition b64url_encode : bytes -> string := encode_with b64url_char.

Definition b64url_decode : string -> option bytes := decode_with b64url_value.

(** ** Round trip *)

Definition digit_ok (char : Z -> ascii) (value : ascii -> option Z) (n : Z) : bool :=
  bool_decide (value (char n) = Some n) &&
  bool_decide (char n <> Ascii.ascii_of_nat 10 /\ char n <> Ascii.ascii_of_nat 13).

Lemma digits_check (P : Z -> bool) n :
  forallb P (map Z.of_nat (seq 0 64)) = true -> 0 <= n < 64 -> P n = true.
Proof.
  rewrite forallb_forall. intros Hall Hn. apply Hall, list_elem_of_In, list_elem_of_fmap. exists (Z.to_nat n).
  split; [lia|]. apply elem_of_seq. lia.
Qed.

Lemma Zbyte_eq z x : z = byteZ x -> Zbyte z = x.
Proof. intros ->. apply Zbyte_byteZ. Qed.

(** Induction three bytes at a time. *)
Lemma bytes_ind3 (P : bytes -> Prop) :
  P [] -> (forall x, P [x]) -> (forall x y, P [x; y]) -> (forall x y z b, P b -> P (x :: y :: z :: b)) ->
  forall b, P b.
Proof.
  intros P0 P1 P2 P3. fix IH 1. intros [|x [|y [|z b]]]; [exact P0|apply P1|apply P2|apply P3, IH].
Qed.

Ltac bounds :=
  repeat match goal with
  | |- context [byteZ ?x] =>
      lazymatch goal with
      | _ : 0 <= byteZ x < 256 |- _ => fail
      | _ => pose proof (byteZ_bound x)
      end
  end.

Lemma b64_digits_bytes b : b64_bytes (b64_digits b) = Some b.
Proof.
  induction b as [|x|x y|x y z b IH] using bytes_ind3; [done|..]; cbn [b64_digits b64_bytes]; bounds.
  - do 2 f_equal. apply Zbyte_eq. Z.div_mod_to_equations; lia.
  - do 2 f_equal; [|f_equal]; apply Zbyte_eq; Z.div_mod_to_equations; lia.
  - rewrite IH. simpl. f_equal. f_equal; [|f_equal; [|f_equal]]; apply Zbyte_eq; Z.div_mod_to_equations; lia.
Qed.

Lemma b64_digits_range b : Forall (fun n => 0 <= n < 64) (b64_digits b).
Proof.
  induction b as [|x|x y|x y z b IH] using bytes_ind3; cbn [b64_digits]; bounds;
    repeat (apply Forall_cons; split; [Z.div_mod_to_equations; lia|]); done.
Qed.

Lemma decode_encode_with char value b :
  forallb (digit_ok char value) (map Z.of_nat (seq 0 64)) = true -> decode_with value (encode_with char b) = Some b.
Proof.
  intros Hall. unfold decode_with, encode_with. rewrite String.list_ascii_of_string_of_list_ascii.
  assert (Hr := b64_digits_range b).
  rewrite list_filter_all.
  2: { intros c (n & -> & Hn)%list_elem_of_fmap. rewrite Forall_forall in Hr.
       apply Hr, (digits_check _ _ Hall) in Hn. unfold digit_ok in Hn. by go_bool. }
  assert (Hm : mapM value (map char (b64_digits b)) = Some (b64_digits b)).
  { induction Hr as [|n l Hn _ IH]; [done|]. simpl. apply (digits_check _ _ Hall) in Hn. apply andb_prop in Hn as [Hn _].
    apply bool_decide_eq_true in Hn. rewrite Hn. simpl. by rewrite IH. }
  rewrite Hm. apply b64_digits_bytes.
Qed.

Lemma b64_decode_encode b : b64_decode (b64_encode b) = Some b.
Proof. apply decode_encode_with. vm_compute. reflexivity. Qed.

Lemma b64url_decode_encode b : b64url_decode (b64url_encode b) = Some b.
Proof. apply decode_encode_with. vm_compute. reflexivity. Qed.

(** What holds of every letter of the alphabet holds of every letter of a text. *)
Lemma b64url_letters (P : ascii -> bool) b :
  forallb (fun n => P (b64url_char n)) (map Z.of_nat (seq 0 64)) = true ->
  Forall (fun c => P c = true) (String.list_ascii_of_string (b64url_encode b)).
Proof.
  intros Hall. unfold b64url_encode, encode_with. rewrite String.list_ascii_of_string_of_list_ascii.
  apply Forall_fmap. eapply Forall_impl; [apply b64_digits_range|]. intros n Hn.
  by apply (digits_check (fun n => P (b64url_char n))).
Qed.

Lemma b64url_nil b : b64url_encode b = "" -> b = [].
Proof. intros E. pose proof (b64url_decode_encode b) as HD. rewrite E in HD. by injection HD. Qed.
