(* ===== verification/Url.v ===== *)
(** * net/url and strings: what reading an invite link uses

    [url.Parse] as far as its error, the scheme and the fragment go, and
    [strings.TrimSpace]. *)

From S2P Require Import Prelude.

(** ** strings *)

(** [strings.Cut(s, c)] for a one-byte separator: before, after, found. *)
Fixpoint str_cut (c : ascii) (s : string) : string * string * bool :=
  match s with
  | EmptyString => (EmptyString, EmptyString, false)
  | String a s' =>
      if bool_decide (a = c) then (EmptyString, s', true)
      else let '(l, r, found) := str_cut c s' in (String a l, r, found)
  end.

(** [strings.LastIndex(s, c)], as the text before and after it. *)
Fixpoint cut_last (c : ascii) (s : string) : option (string * string) :=
  match s with
  | EmptyString => None
  | String a s' =>
      match cut_last c s' with
      | Some (l, r) => Some (String a l, r)
      | None => if bool_decide (a = c) then Some (EmptyString, s') else None
      end
  end.

Fixpoint str_count (c : ascii) (s : string) : nat :=
  match s with
  | EmptyString => 0
  | String a s' => (if bool_decide (a = c) then 1 else 0) + str_count c s'
  end.

Definition code (a : ascii) : Z := Z.of_N (Ascii.N_of_ascii a).

Definition code_in (lo hi : Z) (a : ascii) : bool := (lo <=? code a) && (code a <=? hi).

Definition is_lower (a : ascii) : bool := code_in 97 122 a.
Definition is_upper (a : ascii) : bool := code_in 65 90 a.
Definition is_digit (a : ascii) : bool := code_in 48 57 a.
Definition is_hex (a : ascii) : bool := is_digit a || code_in 97 102 a || code_in 65 70 a.

Definition unhex (a : ascii) : Z :=
  if is_digit a then code a - 48 else if code_in 97 102 a then code a - 87 else code a - 55.

(** [strings.ToLower] on ASCII. *)
Definition to_lower_char (a : ascii) : ascii :=
  if is_upper a then Ascii.ascii_of_N (Z.to_N (code a + 32)) else a.

Fixpoint to_lower (s : string) : string :=
  match s with
  | EmptyString => EmptyString
  | String a s' => String (to_lower_char a) (to_lower s')
  end.

Fixpoint str_all (f : ascii -> bool) (s : string) : bool :=
  match s with
  | EmptyString => true
  | String a s' => f a && str_all f s'
  end.

(** The white space of Unicode by its UTF-8 encoding: one byte, two, three. *)
Definition space1 (a : ascii) : bool := code_in 9 13 a || (code a =? 32).

Definition space2 (a b : ascii) : bool := (code a =? 194) && ((code b =? 133) || (code b =? 160)).

Definition space3 (a b c : ascii) : bool :=
  (code a =? 225) && (code b =? 154) && (code c =? 128) ||
  (code a =? 226) && (code b =? 128) && (code_in 128 138 c || (code c =? 168) || (code c =? 169) || (code c =? 175)) ||
  (code a =? 226) && (code b =? 129) && (code c =? 159) ||
  (code a =? 227) && (code b =? 128) && (code c =? 128).

Section trim.
Context (s2 : ascii -> ascii -> bool) (s3 : ascii -> ascii -> ascii -> bool).

Fixpoint trim_front (l : list ascii) : list ascii :=
  match l with
  | [] => []
  | a :: l1 =>
      if space1 a then trim_front l1
      else match l1 with
           | [] => l
           | b :: l2 =>
               if s2 a b then trim_front l2
               else match l2 with
                    | [] => l
                    | c :: l3 => if s3 a b c then trim_front l3 else l
                    end
           end
  end.
End trim.

(** [strings.TrimSpace] *)
Definition TrimSpace (s : string) : string :=
  let front := trim_front space2 space3 (String.list_ascii_of_string s) in
  String.string_of_list_ascii
    (reverse (trim_front (fun a b => space2 b a) (fun a b c => space3 c b a) (reverse front))).

(** ** net/url *)

Inductive encoding := encodePath | encodeHost | encodeZone | encodeUserPassword | encodeFragment.

Definition one_of (cs : string) (a : ascii) : bool := negb (str_all (fun c => negb (bool_decide (a = c))) cs).

(** [shouldEscape(c, mode)] for the two host modes. *)
Definition host_escape (a : ascii) : bool :=
  negb (is_lower a || is_upper a || is_digit a || one_of "!$&'()*+,;=:[]<>-_.~" a || (code a =? 34)).

(** [unescape]: the text with the escapes decoded. *)
Fixpoint unescape (mode : encoding) (s : string) : option string :=
  match s with
  | EmptyString => Some EmptyString
  | String a s' =>
      if bool_decide (a = "%"%char) then
        match s' with
        | String h (String l s'') =>
            if negb (is_hex h && is_hex l) then None
            else
              let v := Ascii.ascii_of_N (Z.to_N (unhex h * 16 + unhex l)) in
              let percent := bool_decide (h = "2"%char) && bool_decide (l = "5"%char) in
              let refused :=
                match mode with
                | encodeHost => (unhex h <? 8) && negb percent
                | encodeZone => negb percent && negb (bool_decide (v = " "%char)) && host_escape v
                | _ => false
                end in
              if refused then None else r ← unescape mode s''; Some (String v r)
        | _ => None
        end
      else
        let refused :=
          match mode with encodeHost | encodeZone => (code a <? 128) && host_escape a | _ => false end in
        if refused then None else r ← unescape mode s'; Some (String a r)
  end.

(** [validOptionalPort] *)
Definition validOptionalPort (port : string) : bool :=
  match port with
  | EmptyString => true
  | String a p => bool_decide (a = ":"%char) && str_all is_digit p
  end.

Definition validUserinfo (s : string) : bool :=
  str_all (fun a => is_lower a || is_upper a || is_digit a || one_of "-._:~!$&'()*+,;=%@" a) s.

(** The text before the first [%25], and from there on. *)
Fixpoint cut_zone (s : string) : option (string * string) :=
  if has_prefix "%25" s then Some (EmptyString, s)
  else match s with
       | EmptyString => None
       | String a s' => match cut_zone s' with Some (l, r) => Some (String a l, r) | None => None end
       end.

Definition ok_str {A} (o : option A) : bool := match o with Some _ => true | None => false end.

(** [parseHost]: whether the host is accepted. *)
Definition parseHost (host : string) : bool :=
  if has_prefix "[" host then
    match cut_last "]" host with
    | None => false
    | Some (inner, colonPort) =>
        if negb (validOptionalPort colonPort) then false
        else match cut_zone inner with
             | Some (addr, zone) =>
                 ok_str (unescape encodeHost addr) && ok_str (unescape encodeZone zone) &&
                 ok_str (unescape encodeHost ("]" +:+ colonPort))
             | None => ok_str (unescape encodeHost host)
             end
    end
  else
    match cut_last ":" host with
    | Some (_, port) => validOptionalPort (":" +:+ port) && ok_str (unescape encodeHost host)
    | None => ok_str (unescape encodeHost host)
    end.

(** [parseAuthority]: whether the authority is accepted. *)
Definition parseAuthority (authority : string) : bool :=
  match cut_last "@" authority with
  | None => parseHost authority
  | Some (userinfo, host) =>
      parseHost host && validUserinfo userinfo &&
      (let '(user, pass, _) := str_cut ":" userinfo in
       ok_str (unescape encodeUserPassword user) && ok_str (unescape encodeUserPassword pass))
  end.

(** [getScheme]: the scheme and the rest. *)
Fixpoint scheme_from (first : bool) (s : string) : outcome (option (string * string)) :=
  match s with
  | EmptyString => Ok None
  | String c s' =>
      let cont :=
        let! r := scheme_from false s' in
        Ok (match r with Some (l, rest) => Some (String c l, rest) | None => None end) in
      if is_lower c || is_upper c then cont
      else if is_digit c || one_of "+-." c then (if first then Ok None else cont)
      else if bool_decide (c = ":"%char) then
        if first then Err (ErrMsg "missing protocol scheme") else Ok (Some (EmptyString, s'))
      else Ok None
  end.

Definition getScheme (s : string) : outcome (string * string) :=
  let! r := scheme_from true s in
  Ok (match r with Some (scheme, rest) => (scheme, rest) | None => (EmptyString, s) end).

Definition is_ctl (a : ascii) : bool := (code a <? 32) || (code a =? 127).

(** [parse(rawURL, false)]: the scheme. *)
Definition url_parse (rawURL : string) : outcome string :=
  if negb (str_all (fun a => negb (is_ctl a)) rawURL) then Err (ErrMsg "net/url: invalid control character in URL")
  else if bool_decide (rawURL = "*") then Ok ""
  else
    let! (scheme0, rest0) := getScheme rawURL in
    let scheme := to_lower scheme0 in
    let rest := (str_cut "?" rest0).1.1 in
    if negb (has_prefix "/" rest) && negb (bool_decide (scheme = "")) then Ok scheme
    else if negb (has_prefix "/" rest) && one_of (str_cut "/" rest).1.1 ":"
    then Err (ErrMsg "first path segment in URL cannot contain colon")
    else
      let path :=
        if (negb (bool_decide (scheme = "")) || negb (has_prefix "///" rest)) && has_prefix "//" rest then
          let after := String.substring 2 (String.length rest - 2) rest in
          let '(authority, tail, found) := str_cut "/" after in
          if parseAuthority authority then Some (if found : bool then "/" +:+ tail else "") else None
        else Some rest in
      match path with
      | None => Err (ErrMsg "invalid authority")
      | Some p => match unescape encodePath p with
                  | Some _ => Ok scheme
                  | None => Err (ErrMsg "invalid URL escape")
                  end
      end.

(** [url.Parse]: the scheme and the fragment. *)
Definition url_Parse (rawURL : string) : outcome (string * string) :=
  let '(u, frag, _) := str_cut "#" rawURL in
  let! scheme := url_parse u in
  match unescape encodeFragment frag with
  | Some f => Ok (scheme, f)
  | None => Err (ErrMsg "invalid URL escape")
  end.

(** ** Lemmas *)

Lemma str_cut_app c a b : str_count c a = 0%nat -> str_cut c (a +:+ String c b) = (a, b, true).
Proof.
  induction a as [|x a IH]; simpl.
  - intros _. by rewrite bool_decide_eq_true_2.
  - case_bool_decide; [lia|]. intros Ha. by rewrite IH.
Qed.

(** Text without escapes stands for itself in a fragment. *)
Lemma unescape_plain s : str_count "%" s = 0%nat -> unescape encodeFragment s = Some s.
Proof. induction s as [|a s IH]; simpl; [done|]. case_bool_decide; [lia|]. intros Hs. by rewrite IH. Qed.

(** Text between white space, with neither end white. *)
Definition solid_front (l : list ascii) : Prop :=
  match l with
  | [] => False
  | a :: _ => space1 a = false /\ code a < 128
  end.

Lemma trim_front_solid s2 s3 pre l :
  (forall a b, code a < 128 -> s2 a b = false) -> (forall a b c, code a < 128 -> s3 a b c = false) ->
  forallb space1 pre = true -> solid_front l -> trim_front s2 s3 (pre ++ l) = l.
Proof.
  intros H2 H3 Hpre Hl. induction pre as [|a pre IH]; simpl in *.
  - destruct l as [|a l]; [done|]. destruct Hl as [Ha Hc]. simpl. rewrite Ha.
    destruct l as [|b l]; [done|]. rewrite H2 by done. destruct l as [|c l]; [done|]. by rewrite H3.
  - apply andb_prop in Hpre as [-> Hp]. by apply IH.
Qed.

Lemma space2_ascii a b : code a < 128 -> space2 a b = false.
Proof. intros Ha. unfold space2. by rewrite (proj2 (Z.eqb_neq (code a) 194)) by lia. Qed.

Lemma space2_ascii_r a b : code b < 128 -> space2 a b = false.
Proof. intros Hb. unfold space2. rewrite !(proj2 (Z.eqb_neq (code b) _)) by lia. apply andb_false_r. Qed.

Lemma space3_ascii a b c : code a < 128 -> space3 a b c = false.
Proof.
  intros Ha. unfold space3. rewrite (proj2 (Z.eqb_neq (code a) 225)), (proj2 (Z.eqb_neq (code a) 226)),
    (proj2 (Z.eqb_neq (code a) 227)) by lia. done.
Qed.

Lemma space3_ascii_r a b c : code c < 128 -> space3 a b c = false.
Proof.
  intros Hc. unfold space3, code_in. rewrite !(proj2 (Z.eqb_neq (code c) _)), (proj2 (Z.leb_gt 128 (code c))) by lia.
  simpl. rewrite !andb_false_r. done.
Qed.

Lemma TrimSpace_solid pre s post :
  forallb space1 pre = true -> forallb space1 post = true ->
  solid_front (String.list_ascii_of_string s) -> solid_front (reverse (String.list_ascii_of_string s)) ->
  TrimSpace (String.string_of_list_ascii (pre ++ String.list_ascii_of_string s ++ post)) = s.
Proof.
  intros Hpre Hpost Hf Hb. unfold TrimSpace. rewrite String.list_ascii_of_string_of_list_ascii.
  rewrite trim_front_solid; [|exact space2_ascii|exact space3_ascii|done|].
  2: { destruct (String.list_ascii_of_string s); [done|exact Hf]. }
  rewrite reverse_app. rewrite trim_front_solid; [|by intros; apply space2_ascii_r|by intros; apply space3_ascii_r| |done].
  - by rewrite reverse_involutive, String.string_of_list_ascii_of_string.
  - apply forallb_forall. intros x Hx. rewrite forallb_forall in Hpost. apply Hpost.
    by rewrite <- list_elem_of_In, elem_of_reverse, list_elem_of_In in Hx.
Qed.
