(* ===== verification/Query.v ===== *)
(** * net/url: the query string of an upload

    [url.QueryEscape], [url.QueryUnescape] and [URL.Query().Get], which carry a
    file's name, mode and group from the command line to the daemon. *)

From S2P Require Import Prelude Url.

(** Upper-case hexadecimal. *)
Definition upper_hex (n : Z) : ascii := Ascii.ascii_of_N (Z.to_N (if n <? 10 then 48 + n else 55 + n)).

(** [!shouldEscape(c, encodeQueryComponent)] *)
Definition query_safe (a : ascii) : bool := is_lower a || is_upper a || is_digit a || one_of "-_.~" a.

Definition escape_char (a : ascii) : string :=
  if query_safe a then String a EmptyString
  else if bool_decide (a = " "%char) then "+"
  else String "%" (String (upper_hex (code a / 16)) (String (upper_hex (code a mod 16)) EmptyString)).

Fixpoint QueryEscape (s : string) : string :=
  match s with
  | EmptyString => EmptyString
  | String a s' => escape_char a +:+ QueryEscape s'
  end.

(** [unescape(s, encodeQueryComponent)] *)
Fixpoint QueryUnescape (s : string) : option string :=
  match s with
  | EmptyString => Some EmptyString
  | String a s' =>
      if bool_decide (a = "%"%char) then
        match s' with
        | String h (String l s'') =>
            if negb (is_hex h && is_hex l) then None
            else r ← QueryUnescape s''; Some (String (Ascii.ascii_of_N (Z.to_N (unhex h * 16 + unhex l))) r)
        | _ => None
        end
      else r ← QueryUnescape s'; Some (String (if bool_decide (a = "+"%char) then " "%char else a) r)
  end.

(** The pieces between the separators. *)
Fixpoint fields (c : ascii) (s : string) : list string :=
  match s with
  | EmptyString => [EmptyString]
  | String a s' =>
      if bool_decide (a = c) then EmptyString :: fields c s'
      else match fields c s' with
           | f :: fs => String a f :: fs
           | [] => [String a EmptyString]
           end
  end.

Definition contains (c : ascii) (s : string) : bool := negb (str_all (fun a => negb (bool_decide (a = c))) s).

(** One round of [parseQuery]: pieces it cannot read are left out. *)
Definition parse_field (f : string) : option (string * string) :=
  if contains ";" f then None
  else if bool_decide (f = "") then None
  else
    let '(key, value, _) := str_cut "=" f in
    key' ← QueryUnescape key;
    value' ← QueryUnescape value;
    Some (key', value').

Definition parseQuery (query : string) : list (string * string) := omap parse_field (fields "&" query).

(** [Values.Get]: the first value of the key. *)
Definition query_Get (vs : list (string * string)) (key : string) : string :=
  match List.find (fun kv => bool_decide (kv.1 = key)) vs with
  | Some (_, v) => v
  | None => EmptyString
  end.

(** ** Escaped text *)

Definition plain (a : ascii) : bool := negb (one_of "&=;" a).

(** What each of the 256 bytes is escaped to: it decodes to the byte, and has no
    separator. *)
Definition escape_check (a : ascii) : bool :=
  bool_decide (QueryUnescape (escape_char a) = Some (String a EmptyString)) && str_all plain (escape_char a).

Lemma escape_check_all a : escape_check a = true.
Proof. destruct a as [[] [] [] [] [] [] [] []]; vm_compute; reflexivity. Qed.

Lemma QueryUnescape_char a s r : QueryUnescape s = Some r -> QueryUnescape (escape_char a +:+ s) = Some (String a r).
Proof.
  intros Hs. pose proof (escape_check_all a) as E. unfold escape_check in E. apply andb_true_iff in E as [E _].
  apply bool_decide_eq_true in E. unfold escape_char in *. destruct (query_safe a) eqn:Hsafe; [|destruct (bool_decide (a = " "%char))].
  - change ((String a "") +:+ s) with (String a s). simpl in E |- *.
    destruct (bool_decide (a = "%"%char)); [done|]. rewrite Hs. simpl in E |- *. by injection E as ->.
  - change (QueryUnescape (String "+" s) = Some (String a r)). cbn [QueryUnescape].
    rewrite bool_decide_eq_false_2, Hs by done. vm_compute in E. by injection E as <-.
  - change (QueryUnescape (String "%" (String (upper_hex (code a / 16)) (String (upper_hex (code a mod 16)) s))) = Some (String a r)).
    simpl in E |- *. destruct (negb _); [done|]. rewrite Hs. simpl in E |- *. by injection E as ->.
Qed.

Lemma QueryUnescape_QueryEscape s : QueryUnescape (QueryEscape s) = Some s.
Proof. induction s as [|a s IH]; [done|]. by apply QueryUnescape_char. Qed.

Lemma str_all_app f s t : str_all f (s +:+ t) = str_all f s && str_all f t.
Proof. induction s as [|a s IH]; [done|]. simpl. by rewrite IH, andb_assoc. Qed.

Lemma QueryEscape_plain s : str_all plain (QueryEscape s) = true.
Proof.
  induction s as [|a s IH]; [done|]. simpl. rewrite str_all_app, IH, andb_true_r.
  pose proof (escape_check_all a) as E. unfold escape_check in E. by apply andb_true_iff in E as [_ E].
Qed.

Lemma plain_ne a c : plain a = true -> c = "&"%char \/ c = "="%char \/ c = ";"%char -> a <> c.
Proof. intros Ha [-> | [-> | ->]] ->; done. Qed.

(** ** Pieces *)

Definition clear_of (c : ascii) (s : string) : bool := str_all (fun a => negb (bool_decide (a = c))) s.

Lemma fields_clear c s : clear_of c s = true -> fields c s = [s].
Proof.
  induction s as [|a s IH]; [done|]. simpl. intros [Ha Hs]%andb_true_iff. rewrite negb_true_iff in Ha. by rewrite Ha, (IH Hs).
Qed.

Lemma fields_cons c s t : clear_of c s = true -> fields c (s +:+ String c t) = s :: fields c t.
Proof.
  induction s as [|a s IH]; simpl; [by rewrite bool_decide_eq_true_2|].
  intros [Ha Hs]%andb_true_iff. rewrite negb_true_iff in Ha. rewrite Ha. by rewrite (IH Hs).
Qed.

Lemma str_cut_clear c s t : clear_of c s = true -> str_cut c (s +:+ String c t) = (s, t, true).
Proof.
  induction s as [|a s IH]; simpl; [by rewrite bool_decide_eq_true_2|].
  intros [Ha Hs]%andb_true_iff. rewrite negb_true_iff in Ha. rewrite Ha. by rewrite (IH Hs).
Qed.

Lemma str_all_impl f g s : (forall a, f a = true -> g a = true) -> str_all f s = true -> str_all g s = true.
Proof. intros Hfg. induction s as [|a s IH]; [done|]. simpl. intros [Ha Hs]%andb_true_iff. by rewrite (Hfg a Ha), IH. Qed.

Lemma plain_clear c s : c = "&"%char \/ c = "="%char \/ c = ";"%char -> str_all plain s = true -> clear_of c s = true.
Proof.
  intros Hc. apply str_all_impl. intros a Ha. rewrite negb_true_iff. apply bool_decide_eq_false. by apply plain_ne.
Qed.

Lemma omap_Some {A B} (f : A -> option B) x y l : f x = Some y -> omap f (x :: l) = y :: omap f l.
Proof. intros E. simpl. by rewrite E. Qed.

Definition pair_text (k v : string) : string := k +:+ String "=" (QueryEscape v).

(** A key of letters, written with its value, reads back. *)
Lemma parse_pair k v :
  str_all plain k = true -> QueryUnescape k = Some k -> parse_field (pair_text k v) = Some (k, v).
Proof.
  intros Hk Hu. unfold parse_field, pair_text, contains.
  assert (Hc : str_all (fun a => negb (bool_decide (a = ";"%char))) (k +:+ String "=" (QueryEscape v)) = true).
  { rewrite str_all_app. simpl. fold (clear_of ";" k) (clear_of ";" (QueryEscape v)).
    by rewrite !plain_clear by (auto || apply QueryEscape_plain). }
  rewrite Hc. simpl. rewrite bool_decide_eq_false_2 by (by destruct k).
  rewrite str_cut_clear by (apply plain_clear; auto). rewrite Hu, QueryUnescape_QueryEscape. done.
Qed.

Lemma pair_text_clear k v : str_all plain k = true -> clear_of "&" (pair_text k v) = true.
Proof.
  intros Hk. unfold pair_text, clear_of. rewrite str_all_app. simpl. fold (clear_of "&" k) (clear_of "&" (QueryEscape v)).
  by rewrite !plain_clear by (auto || apply QueryEscape_plain).
Qed.
