(* ===== verification/Config.v ===== *)
(** * internal/config/config.go: the node's configuration file *)

From S2P Require Import Prelude Ext Concrete Fs.

Module config.

Record Config := NewConfig {
  Nickname : string;
  DataDir : string;
  ContributedBytes : Z;
  ListenAddrs : list string;
  AnnounceAddrs : list string;
  APIListen : string;
  HeartbeatSeconds : Z;
  MountPath : string;
  PublicHost : string;
  PublicPort : Z
}.

#[global] Instance Config_eq_dec : EqDecision Config.
Proof. solve_decision. Defined.

Implicit Types c : Config.

(** Values that YAML text can carry: UTF-8 strings, 64-bit integers. *)
Definition config_ok c : bool :=
  text_ok (Nickname c) && text_ok (DataDir c) && int64_ok (ContributedBytes c) && forallb text_ok (ListenAddrs c)
  && forallb text_ok (AnnounceAddrs c) && text_ok (APIListen c) && int64_ok (HeartbeatSeconds c)
  && text_ok (MountPath c) && text_ok (PublicHost c) && int64_ok (PublicPort c).

(** gopkg.in/yaml.v3 on this type: what is written is read back. *)
Class Yaml := {
  yaml_Marshal : Config -> outcome bytes;
  yaml_Unmarshal : bytes -> outcome Config;
  yaml_Unmarshal_Marshal c raw : config_ok c = true -> yaml_Marshal c = Ok raw -> yaml_Unmarshal raw = Ok c
}.

(** [hostnameOr]; [hostname] is what [os.Hostname] returns. *)
Definition hostnameOr (hostname : outcome string) (fallback : string) : string :=
  match hostname with
  | Ok h => if bool_decide (h = "") then fallback else h
  | _ => fallback
  end.

Definition Default (hostname : outcome string) (dataDir : string) : Config :=
  NewConfig (hostnameOr hostname "fnshare-node") dataDir (100 * 1024 * 1024 * 1024)
    ["/ip4/0.0.0.0/tcp/4001"; "/ip4/0.0.0.0/udp/4001/quic-v1"; "/ip6/::/tcp/4001"; "/ip6/::/udp/4001/quic-v1"]
    [] "0.0.0.0:4101" 30 "" "" 0.

Definition set_DataDir c (dir : string) : Config :=
  NewConfig (Nickname c) dir (ContributedBytes c) (ListenAddrs c) (AnnounceAddrs c) (APIListen c)
    (HeartbeatSeconds c) (MountPath c) (PublicHost c) (PublicPort c).

Section with_libraries.
Context `{Yaml} (cwd : path).
Implicit Types f : fs.

Definition Path (dataDir : string) : path := filepath_Join (path_from cwd dataDir) ["config.yaml"].

Definition Load f (dataDir : string) : outcome Config :=
  match ReadFile f (Path dataDir) with
  | Err e =>
      if errors_Is e ErrNotExist then Err (ErrMsg "config not found - run `fnshare init` first") else Err e
  | Panic => Panic
  | Ok raw =>
      let! c := yaml_Unmarshal raw in
      Ok (if bool_decide (DataDir c = "") then set_DataDir c dataDir else c)
  end.

Definition Save (x : wfault) f c : fs * outcome unit :=
  match MkdirAll f (path_from cwd (DataDir c)) with
  | (f1, Ok _) =>
      match yaml_Marshal c with
      | Ok raw => WriteFile x f1 (Path (DataDir c)) raw
      | Err e => (f1, Err e)
      | Panic => (f1, Panic)
      end
  | (f1, r) => (f1, r)
  end.

Lemma Load_Save x f c f' :
  config_ok c = true -> DataDir c <> "" -> Save x f c = (f', Ok tt) -> Load f' (DataDir c) = Ok c.
Proof.
  intros Hok Hd. unfold Save. destruct (MkdirAll _ _) as [f1 [[]| |]]; [|done..].
  destruct (yaml_Marshal c) as [raw| |] eqn:Hr; [|done..]. intros ->%WriteFile_Ok. unfold Load, ReadFile.
  rewrite lookup_insert_eq, (yaml_Unmarshal_Marshal c raw Hok Hr). simpl. by rewrite bool_decide_eq_false_2.
Qed.

(** Saving touches no other file. *)
Lemma Save_other x f c f' r q :
  Save x f c = (f', r) -> q <> Path (DataDir c) -> file_at f' q = file_at f q.
Proof.
  unfold Save. destruct (MkdirAll _ _) as [f1 r1] eqn:E1. destruct (mkdirs_files _ _ _ _ _ q E1) as [Hq _].
  intros HS Hne. rewrite <- Hq. destruct r1; [|by simplify_eq..].
  destruct (yaml_Marshal c); [|by simplify_eq..]. unfold file_at. by rewrite (WriteFile_other _ _ _ _ _ _ _ HS Hne).
Qed.

End with_libraries.

(** ** An executable codec *)

Definition config_to c : ctree :=
  GenNode 12 [ts (Nickname c); ts (DataDir c); tz (ContributedBytes c); tlist ts (ListenAddrs c);
    tlist ts (AnnounceAddrs c); ts (APIListen c); tz (HeartbeatSeconds c); ts (MountPath c); ts (PublicHost c);
    tz (PublicPort c)].

Definition config_of (t : ctree) : option Config :=
  match t with
  | GenNode _ [a; b; c; d; e; f; g; h; i; j] =>
      a ← of_ts a; b ← of_ts b; c ← of_tz c; d ← of_tlist of_ts d; e ← of_tlist of_ts e; f ← of_ts f; g ← of_tz g;
      h ← of_ts h; i ← of_ts i; j ← of_tz j; Some (NewConfig a b c d e f g h i j)
  | _ => None
  end.

Lemma config_of_to c : config_of (config_to c) = Some c.
Proof.
  destruct c. unfold config_of, config_to.
  cbn [Nickname DataDir ContributedBytes ListenAddrs AnnounceAddrs APIListen HeartbeatSeconds MountPath PublicHost PublicPort].
  rewrite !(of_tlist_tlist ts of_ts) by done. reflexivity.
Qed.

#[global] Instance tree_yaml : Yaml.
Proof.
  refine {| yaml_Marshal := tree_marshal config_to id; yaml_Unmarshal := tree_unmarshal config_ok config_of |}.
  intros c raw Hok Hr. exact (Unmarshal_Marshal (Cbor := tree_cbor config_ok id config_to config_of config_of_to (fun _ => eq_refl)) c raw Hok Hr).
Defined.

End config.
