(* ===== verification/Keys.v ===== *)
(** * internal/keys/keys.go: the node's identity on disk

    Two files: the libp2p (Ed25519) key, and beside it the X25519 pair that
    private files are sealed to. *)

From S2P Require Import Prelude Ext Concrete Fs Crypto.

(** github.com/libp2p/go-libp2p/core/crypto and core/peer: private keys, their
    serialised form, the identifier and the public key of a key. *)
Class Libp2pKeys `{PeerIDs} := {
  privkey : Type;
  GenerateEd25519Key : bytes -> outcome privkey;
  MarshalPrivateKey : privkey -> outcome bytes;
  UnmarshalPrivateKey : bytes -> outcome privkey;
  IDFromPrivateKey : privkey -> outcome pid;
  priv_Raw : privkey -> outcome bytes;
  pub_Raw : privkey -> outcome bytes
}.

Module keys.

Section with_libraries.
Context `{PeerIDs} `{!Libp2pKeys} `{NaclBox}.
Implicit Types (f : fs) (p : path) (rng : bytes) (x y : wfault).

(** [PubKey] is [PrivKey.GetPublic()]. *)
Record Identity := NewIdentity { PrivKey : privkey; PeerID : pid; EncPub : bytes; EncPriv : bytes }.

(** [path + ".enc"] *)
Definition enc_path p : path := removelast p ++ [default "" (last p) +:+ ".enc"].

Definition loadOrCreateEncKeys y f rng p : fs * bytes * outcome (bytes * bytes) :=
  if missing f p then
    match crypto.NewEncKeypair rng with
    | (rng', Ok (pub, priv)) =>
        match WriteFile y f p (pub ++ priv) with
        | (f', Ok _) => (f', rng', Ok (pub, priv))
        | (f', Err e) => (f', rng', Err e)
        | (f', Panic) => (f', rng', Panic)
        end
    | (rng', Err e) => (f, rng', Err e)
    | (rng', Panic) => (f, rng', Panic)
    end
  else
    match ReadFile f p with
    | Ok raw =>
        if negb (bool_decide (length raw = crypto.EncPubSize + crypto.EncPrivSize)%nat)
        then (f, rng, Err (ErrMsg "enc key file has wrong length"))
        else (f, rng, Ok (take crypto.EncPubSize raw, drop crypto.EncPubSize raw))
    | Err e => (f, rng, Err e)
    | Panic => (f, rng, Panic)
    end.

(** The first half of [LoadOrCreate]: write a fresh key if there is no file;
    [GenerateEd25519Key(nil)] draws 32 bytes. *)
Definition create_key x f rng p : fs * bytes * outcome unit :=
  if missing f p then
    match MkdirAll f (filepath_Dir p) with
    | (f1, Ok _) =>
        match rand_Read rng 32 with
        | (rng1, Ok seed) =>
            match GenerateEd25519Key seed with
            | Ok priv =>
                match MarshalPrivateKey priv with
                | Ok raw => let '(f2, r) := WriteFile x f1 p raw in (f2, rng1, r)
                | Err e => (f1, rng1, Err e)
                | Panic => (f1, rng1, Panic)
                end
            | Err e => (f1, rng1, Err e)
            | Panic => (f1, rng1, Panic)
            end
        | (rng1, Err e) => (f1, rng1, Err e)
        | (rng1, Panic) => (f1, rng1, Panic)
        end
    | (f1, Err e) => (f1, rng, Err e)
    | (f1, Panic) => (f1, rng, Panic)
    end
  else (f, rng, Ok tt).

Definition LoadOrCreate x y f rng p : fs * bytes * outcome Identity :=
  match create_key x f rng p with
  | (f1, rng1, Ok _) =>
      match (let! raw := ReadFile f1 p in
             let! priv := owrap "unmarshal identity key: " (UnmarshalPrivateKey raw) in
             let! peer := IDFromPrivateKey priv in
             Ok (priv, peer)) with
      | Ok (priv, peer) =>
          match loadOrCreateEncKeys y f1 rng1 (enc_path p) with
          | (f2, rng2, Ok (pub, prv)) => (f2, rng2, Ok (NewIdentity priv peer pub prv))
          | (f2, rng2, Err e) => (f2, rng2, Err e)
          | (f2, rng2, Panic) => (f2, rng2, Panic)
          end
      | Err e => (f1, rng1, Err e)
      | Panic => (f1, rng1, Panic)
      end
  | (f1, rng1, Err e) => (f1, rng1, Err e)
  | (f1, rng1, Panic) => (f1, rng1, Panic)
  end.

Definition RawEd25519 (id : Identity) : outcome bytes :=
  let! raw := priv_Raw (PrivKey id) in
  if negb (bool_decide (length raw = 64%nat)) then Err (ErrMsg "expected ed25519 priv key") else Ok raw.

(** [pubRaw, _ :=]: the slice panics when there are no eight bytes. *)
Definition Fingerprint (id : Identity) : outcome string :=
  let pubRaw := match pub_Raw (PrivKey id) with Ok b => b | _ => [] end in
  let! b := slice pubRaw 0 8 in Ok (hex_encode b).

(** ** Lemmas *)

Lemma length_app_str (a b : string) : String.length (a +:+ b) = (String.length a + String.length b)%nat.
Proof. induction a as [|c a IH]; simpl; [done|]. by rewrite <- IH. Qed.

Lemma enc_path_ne p : enc_path p <> p.
Proof.
  unfold enc_path. intros E. apply (f_equal last) in E. rewrite last_snoc in E. destruct (last p) as [c|] eqn:Hl; [|done].
  simpl in E. injection E as E. apply (f_equal String.length) in E. rewrite length_app_str in E. simpl in E. lia.
Qed.

Lemma missing_false f p : is_Some (f !! p) -> missing f p = false.
Proof. unfold missing. by intros [? ->]. Qed.

(** No file that is there is changed. *)
Definition keeps f f' : Prop := forall q b, file_at f q = Some b -> file_at f' q = Some b.

Lemma keeps_refl f : keeps f f.
Proof. by intros q b. Qed.

Lemma keeps_mkdir f p f' r : MkdirAll f p = (f', r) -> keeps f f'.
Proof. intros E q b. by destruct (mkdirs_files _ _ _ _ _ q E) as [-> _]. Qed.

Lemma keeps_write x f p data f' r : file_at f p = None -> WriteFile x f p data = (f', r) -> keeps f f'.
Proof.
  intros Hp HW q b Hb. assert (Hne : q <> p) by (intros ->; by rewrite Hp in Hb).
  unfold file_at in *. by rewrite (WriteFile_other _ _ _ _ _ _ _ HW Hne).
Qed.

Lemma missing_file_at f p : missing f p = true -> file_at f p = None.
Proof. unfold missing, file_at. by destruct (f !! p). Qed.

Lemma create_key_keeps x f rng p f' rng' r : create_key x f rng p = (f', rng', r) -> keeps f f'.
Proof.
  unfold create_key. destruct (missing f p) eqn:Hm; [|intros [= <- <- <-]; apply keeps_refl].
  apply missing_file_at in Hm. destruct (MkdirAll f (filepath_Dir p)) as [f1 r1] eqn:E1.
  destruct (mkdirs_files _ _ _ _ _ p E1) as [Hp _]. rewrite Hm in Hp. pose proof (keeps_mkdir _ _ _ _ E1) as K1.
  destruct r1 as [[]| |]; [|by intros [= <- <- <-]..].
  destruct (rand_Read rng 32) as [rng1 [seed| |]]; [|by intros [= <- <- <-]..].
  destruct (GenerateEd25519Key seed) as [priv| |]; [|by intros [= <- <- <-]..].
  destruct (MarshalPrivateKey priv) as [raw| |]; [|by intros [= <- <- <-]..].
  destruct (WriteFile x f1 p raw) as [f2 r2] eqn:HW. intros [= <- <- <-] q b Hb.
  by eapply keeps_write, K1.
Qed.

Lemma create_key_there x f rng p f' rng' : create_key x f rng p = (f', rng', Ok tt) -> missing f' p = false.
Proof.
  unfold create_key. destruct (missing f p) eqn:Hm; [|by intros [= <- <-]].
  intros HC. repeat case_match; simplify_eq.
  match goal with HW : WriteFile _ _ _ _ = _ |- _ => apply WriteFile_Ok in HW as -> end.
  unfold missing. by rewrite lookup_insert_eq.
Qed.

Lemma enc_keeps y f rng p f' rng' r : loadOrCreateEncKeys y f rng p = (f', rng', r) -> keeps f f'.
Proof.
  unfold loadOrCreateEncKeys. destruct (missing f p) eqn:Hm.
  2: { intros E. repeat case_match; simplify_eq; apply keeps_refl. }
  apply missing_file_at in Hm. intros E. repeat case_match; simplify_eq; try apply keeps_refl; by eapply keeps_write.
Qed.

(** The pair that was created or read is read again. *)
Lemma enc_again y f rng p f' rng' pair y2 rng2 :
  loadOrCreateEncKeys y f rng p = (f', rng', Ok pair) -> loadOrCreateEncKeys y2 f' rng2 p = (f', rng2, Ok pair).
Proof.
  unfold loadOrCreateEncKeys at 1. destruct (missing f p) eqn:Hm.
  - destruct (crypto.NewEncKeypair rng) as [r [[pub priv]| |]] eqn:Hk; [|done..].
    destruct (WriteFile y f p (pub ++ priv)) as [f2 [[]| |]] eqn:HW; [|done..]. intros [= <- <- <-].
    apply WriteFile_Ok in HW as ->. unfold crypto.NewEncKeypair in Hk.
    destruct (rand_Read rng 32) as [r1 [seed| |]]; simplify_eq.
    match goal with HB : box_GenerateKey _ = Ok _ |- _ => destruct (box_GenerateKey_pair _ _ _ HB) as (_ & Hpub & Hpriv) end.
    unfold loadOrCreateEncKeys, missing, ReadFile. rewrite lookup_insert_eq, length_app, Hpub, Hpriv. simpl.
    rewrite take_app_length', drop_app_length' by done. done.
  - intros E. unfold loadOrCreateEncKeys. destruct (ReadFile f p) as [raw| |] eqn:HR; [|done..].
    destruct (negb _) eqn:Hl; [done|]. injection E as <- <- <-. by rewrite Hm, HR, Hl.
Qed.

(** The identity of a node is stable.  [LoadOrCreate] changes no file
    that is already there, whatever fails; and once it has returned an identity,
    every later call - with any random supply - returns that identity and writes
    nothing. *)
Theorem identity_stable x y f rng p f' rng' r :
  LoadOrCreate x y f rng p = (f', rng', r) ->
  keeps f f' /\ forall id, r = Ok id -> forall x2 y2 rng2, LoadOrCreate x2 y2 f' rng2 p = (f', rng2, Ok id).
Proof.
  unfold LoadOrCreate at 1. destruct (create_key x f rng p) as [[f1 rng1] r1] eqn:HC.
  pose proof (create_key_keeps _ _ _ _ _ _ _ HC) as K1.
  destruct r1 as [[]|e|]; [|by intros [= <- <- <-]..].
  destruct (ReadFile f1 p) as [raw|e|] eqn:HR; simpl; [|by intros [= <- <- <-]..].
  destruct (UnmarshalPrivateKey raw) as [priv|e|] eqn:HU; simpl; [|by intros [= <- <- <-]..].
  destruct (IDFromPrivateKey priv) as [peer|e|] eqn:HI; simpl; [|by intros [= <- <- <-]..].
  destruct (loadOrCreateEncKeys y f1 rng1 (enc_path p)) as [[f2 rng2] r2] eqn:HE.
  pose proof (enc_keeps _ _ _ _ _ _ _ HE) as K2. apply ReadFile_file_at in HR.
  assert (K : keeps f f2) by (intros q b Hb; by apply K2, K1). pose proof (K2 _ _ HR) as HR2.
  destruct r2 as [[pub prv]|e|]; intros [= <- <- <-]; (split; [done|]); [|done..].
  intros id [= <-] x2 y2 rng3. unfold LoadOrCreate, create_key.
  assert (Hm : missing f2 p = false) by (unfold missing, file_at in *; by destruct (f2 !! p)).
  rewrite Hm. apply ReadFile_file_at in HR2. rewrite HR2. simpl. rewrite HU. simpl. rewrite HI. simpl.
  by rewrite (enc_again _ _ _ _ _ _ _ y2 rng3 HE).
Qed.

(** What an identity depends on: the two files. *)
Lemma LoadOrCreate_files x y f rng p f' rng' id :
  LoadOrCreate x y f rng p = (f', rng', Ok id) ->
  exists raw enc, file_at f' p = Some raw /\ file_at f' (enc_path p) = Some enc /\
    forall g x2 y2 rng2, file_at g p = Some raw -> file_at g (enc_path p) = Some enc ->
      LoadOrCreate x2 y2 g rng2 p = (g, rng2, Ok id).
Proof.
  intros HL. destruct (identity_stable _ _ _ _ _ _ _ _ HL) as [_ HS]. specialize (HS id eq_refl WFine WFine []).
  assert (Hm : forall q g b, file_at g q = Some b -> missing g q = false)
    by (intros q g b; unfold file_at, missing; by destruct (g !! q)).
  unfold LoadOrCreate, create_key in HS. destruct (missing f' p) eqn:Hmp.
  { destruct (MkdirAll f' _) as [f1 [[]| |]]; simpl in HS; done. }
  destruct (ReadFile f' p) as [raw| |] eqn:HR; simpl in HS; [|done..].
  destruct (UnmarshalPrivateKey raw) as [priv| |] eqn:HU; simpl in HS; [|done..].
  destruct (IDFromPrivateKey priv) as [peer| |] eqn:HI; simpl in HS; [|done..].
  unfold loadOrCreateEncKeys in HS. destruct (missing f' (enc_path p)) eqn:Hme; [done|].
  destruct (ReadFile f' (enc_path p)) as [enc| |] eqn:HE; [|done..].
  destruct (negb _) eqn:Hl; [done|]. injection HS as <-.
  exists raw, enc. apply ReadFile_file_at in HR, HE. split_and!; [done|done|].
  intros g x2 y2 rng2 Hg1 Hg2. unfold LoadOrCreate, create_key, loadOrCreateEncKeys.
  rewrite (Hm _ _ _ Hg1), (Hm _ _ _ Hg2). apply ReadFile_file_at in Hg1, Hg2. rewrite Hg1. cbn [obind owrap]. rewrite HU.
  cbn [obind owrap]. rewrite HI. cbn [obind]. by rewrite Hg2, Hl.
Qed.

End with_libraries.

(** ** Witness *)

#[global] Instance toy_libp2p : Libp2pKeys (H := toy_peers) := {|
  privkey := bytes;
  GenerateEd25519Key seed := Ok (seed ++ seed);
  MarshalPrivateKey k := Ok k;
  UnmarshalPrivateKey raw := if decide (length raw = 64%nat) then Ok raw else Err (ErrMsg "bad key");
  IDFromPrivateKey k := Ok (hex_encode (take 2 k));
  priv_Raw k := Ok k;
  pub_Raw k := Ok (take 32 k)
|}.

Definition first_run : fs * bytes * outcome (Identity (H := toy_peers)) :=
  LoadOrCreate WFine WFine ∅ (replicate 64 Byte.x07) ["d"; "node.key"].

Lemma identity_stable_witness :
  LoadOrCreate WFine WFine first_run.1.1 (replicate 64 Byte.x08) ["d"; "node.key"] =
  (first_run.1.1, replicate 64 Byte.x08,
   Ok (NewIdentity (replicate 64 Byte.x07 : privkey (Libp2pKeys := toy_libp2p)) "0707"
         (replicate 32 Byte.x07) (replicate 32 Byte.x07))).
Proof.
  destruct (identity_stable WFine WFine ∅ (replicate 64 Byte.x07) ["d"; "node.key"] first_run.1.1 first_run.1.2 first_run.2)
    as [_ HS]; [unfold first_run; by destruct (LoadOrCreate _ _ _ _ _) as [[? ?] ?]|].
  apply HS. vm_compute. reflexivity.
Defined.

End keys.
