(* ===== verification/File.v ===== *)
(** * internal/file/file.go, pname.go: uploading and opening files

    The service works on a state [FS]: the world of nodes (the local node's
    store, disk and ledger included), the random supply and the stripe cache.
    Calls are in a state-and-outcome monad; [attempt] is the [if err := ...;
    err != nil] that handles an error instead of returning it. *)

From S2P Require Import Prelude Ext Concrete Store Fs Blockstore Crypto Ec Holders Cache Manifest Ledger Group.
From S2P Require Import Blocks Spool Base64.

Module file.

Definition DefaultStripeDataSize : Z := 4 * 1024 * 1024.

(** What a [Service] is configured with. *)
Record Service `{PeerIDs} := NewService {
  self : pid;
  EncPub : bytes;
  EncPriv : bytes;
  blocks : blockstore.Store;
  spool : option spool.Spool;
  params : ec.Params;
  stripeSize : Z
}.

Record PutOptions := NewPutOptions { OptGroupID : string; OptMode : string }.

Abbreviation NameCbor := (Cbor string text_ok id).

(** A body is the bytes it yields and the error that ends it, [EOF] when it is
    complete. *)
Record Body := NewBody { content : bytes; final : goerr }.

(** [io.ReadFull(body, buf)]: the bytes, the rest of the body, the error. *)
Definition ReadFull_body (b : Body) (n : Z) : bytes * Body * option goerr :=
  if n <=? zlen (content b) then
    (take (Z.to_nat n) (content b), NewBody (drop (Z.to_nat n) (content b)) (final b), None)
  else
    (content b, NewBody [] (final b),
     Some (if bool_decide (final b = EOF) && (0 <? zlen (content b)) then ErrUnexpectedEOF else final b)).

Definition is_end (e : option goerr) : bool :=
  bool_decide (e = Some EOF) || bool_decide (e = Some ErrUnexpectedEOF).

Section with_libraries.
Context `{Badger, !Sha256, !manifest.ManifestCbor, !ledger.EntryCbor, !node.RequestCbor, !node.ResponseCbor,
  PeerIDs, AesGcm, NaclBox, ReedSolomon, !group.GroupCbor, !group.MemberCbor, !NameCbor}.
Context (fate : nat -> string -> string -> node.Fate) (clock : nat -> Z) (disk : nat -> wio).
Context (range : gmap string group.Member -> list (string * group.Member)).
Implicit Types (sv : Service) (m : manifest.Manifest) (g : group.Group).

(** ** State and monad *)

Record FS := NewFS { world : node.World; rng : bytes; cached : cache.StripeCache }.

Implicit Types st : FS.

Definition M (A : Type) : Type := FS -> FS * outcome A.

Definition ret {A} (a : A) : M A := fun st => (st, Ok a).
Definition fail {A} (e : goerr) : M A := fun st => (st, Err e).
Definition lift {A} (o : outcome A) : M A := fun st => (st, o).

Definition bind {A B} (c : M A) (k : A -> M B) : M B := fun st =>
  match c st with
  | (st', Ok a) => k a st'
  | (st', Err e) => (st', Err e)
  | (st', Panic) => (st', Panic)
  end.

(** Handle the error of a call, not its panics. *)
Definition attempt {A} (c : M A) : M (outcome A) := fun st =>
  match c st with
  | (st', Panic) => (st', Panic)
  | (st', r) => (st', Ok r)
  end.

Definition wrapped {A} (msg : string) (c : M A) : M A := fun st =>
  let '(st', r) := c st in (st', owrap msg r).

Notation "'do!' x ':=' c 'in' k" := (bind c (fun x => k))
  (at level 10, x pattern, c at level 200, k at level 200, only parsing).

(** Random bytes, the network, the local node. *)
Definition on_rng {A} (f : bytes -> bytes * outcome A) : M A := fun st =>
  let '(r, o) := f (rng st) in (NewFS (world st) r (cached st), o).

Definition on_world {A} (f : node.World -> node.World * outcome A) : M A := fun st =>
  let '(w, o) := f (world st) in (NewFS w (rng st) (cached st), o).

(** The service's own node is there as long as the service is. *)
Definition on_local {A} sv (f : wio -> node.NodeState -> node.NodeState * outcome A) : M A :=
  on_world (fun w =>
    match node.nodes w !! peer_String (self sv) with
    | None => (w, Panic)
    | Some n =>
        let '(n', o) := f (disk (node.tick w)) n in
        (node.NewWorld (<[peer_String (self sv) := n']> (node.nodes w)) (S (node.tick w)), o)
    end).

(** Reading the local store, and changing it. *)
Definition with_store {A} sv (f : db -> outcome A) : M A :=
  on_local sv (fun _ n => (n, f (node.nstore n))).

Definition on_store {A} sv (f : db -> db * outcome A) : M A :=
  on_local sv (fun _ n => let '(s', o) := f (node.nstore n) in (node.set_store n s', o)).

Definition on_fs {A} sv (f : wio -> fs -> fs * outcome A) : M A :=
  on_local sv (fun io n => let '(f', o) := f io (node.nfs n) in (node.set_fs n f', o)).

Definition time_Now : M Z := fun st => (st, Ok (clock (node.tick (world st)))).

(** ** pname.go *)

Definition pnameKey (fileID : string) : string := "pname/" +:+ fileID.

Definition savePrivateName (s : db) (fileID name : string) : db * outcome unit :=
  if bool_decide (name = "") then (s, Ok tt)
  else match Marshal name with
       | Ok raw => store.Put s (pnameKey fileID) raw
       | Err e => (s, Err e)
       | Panic => (s, Panic)
       end.

Definition loadPrivateName (s : db) (fileID : string) : option string :=
  match store.Get s (pnameKey fileID) with
  | Ok raw => match Unmarshal raw with Ok name => Some name | _ => None end
  | _ => None
  end.

(** ** Helpers of file.go *)

Definition groupMemberIDs (s : db) (gid : string) : outcome (list string) :=
  let! members := group.ListMembers s gid in
  Ok (merge_sort str_le (map group.PeerID members)).

Definition resolveGroup (s : db) (gid : string) : outcome group.Group :=
  if negb (bool_decide (gid = "")) then group.LoadByID s gid
  else
    let! groups := group.ListGroups s in
    match groups with
    | [] => Err (ErrMsg "not a member of any group - create or join one first")
    | [g] => Ok g
    | _ => Err (ErrMsg "you are in multiple groups - please specify --group / ?group=<id>")
    end.

Definition wrapForMode sv (mode : string) (fileKey : bytes) (filename : string) g : M (bytes * string * bool) :=
  if bool_decide (mode = manifest.ModeShared) then
    if negb (bool_decide (length (group.SharedKey g) = crypto.FileKeySize)) then fail (ErrMsg "group has no shared key")
    else
      do! wrapped := on_rng (fun r => crypto.SealAES r (group.SharedKey g) fileKey) in
      ret (wrapped, filename, false)
  else if bool_decide (mode = manifest.ModePrivate) then
    if negb (bool_decide (length (EncPub sv) = crypto.EncPubSize)) then fail (ErrMsg "local node has no enc keypair")
    else
      do! wrapped := on_rng (fun r => crypto.SealAnonymous r fileKey (EncPub sv)) in
      do! ct := on_rng (fun r => crypto.SealAES r fileKey (bytes_of_string filename)) in
      ret (wrapped, b64_encode ct, true)
  else fail (ErrMsg "unknown mode").

Definition unwrapForMode sv m g : outcome bytes :=
  if bool_decide (manifest.Mode m = "") then Err (ErrMsg "manifest predates M4 encryption - file unreadable")
  else if bool_decide (manifest.Mode m = manifest.ModeShared) then
    if negb (bool_decide (length (group.SharedKey g) = crypto.FileKeySize))
    then Err (ErrMsg "local group has no shared key - re-join with a fresh invite")
    else crypto.OpenAES (group.SharedKey g) (manifest.WrappedKey m)
  else if bool_decide (manifest.Mode m = manifest.ModePrivate) then
    if negb (bool_decide (manifest.OwnerPeerID m = peer_String (self sv)))
    then Err (ErrMsg "private file: only the owner can decrypt")
    else crypto.OpenAnonymous (manifest.WrappedKey m) (EncPub sv) (EncPriv sv)
  else Err (ErrMsg "unknown manifest mode").

Definition maybeDecryptFilename m (fileKey : bytes) : string :=
  if negb (manifest.FilenameEncrypted m) then manifest.Filename m
  else match b64_decode (manifest.Filename m) with
       | None => ""
       | Some ct => match crypto.OpenAES fileKey ct with Ok pt => string_of_bytes pt | _ => "" end
       end.

(** ** Upload *)

Definition local_put sv (shardID : string) (sh : bytes) : M unit :=
  on_fs sv (fun io f => blockstore.Put io f (blocks sv) shardID sh).

Definition put_shard sv (p : pid) (shardID : string) (sh : bytes) : M unit :=
  on_world (fun w => node.PutShardOnPeer fate clock disk w (peer_String (self sv)) p shardID sh).

(** The fate of one shard in [uploadStripe]: stored locally, sent, or spooled. *)
Definition ship1 sv (holder shardID : string) (sh : bytes) : M unit :=
  if bool_decide (holder = peer_String (self sv)) then
    wrapped "local put shard: " (local_put sv shardID sh)
  else
    match peer_Decode holder with
    | None => fail (ErrMsg "bad holder")
    | Some p =>
        do! r := attempt (put_shard sv p shardID sh) in
        match r with
        | Ok _ => ret tt
        | Panic => lift Panic
        | Err e =>
            match spool sv with
            | None => fail (ErrWrap "ship shard: " e)
            | Some sp =>
                do! q := attempt (on_fs sv (fun io f => spool.EnqueueShard io f sp holder shardID sh)) in
                match q with
                | Ok _ => ret tt
                | _ => fail (ErrWrap "ship shard: " e)
                end
            end
        end
    end.

(** The loop over the shards, from slot [i] on; the shard identifiers. *)
Fixpoint ship sv (holderList : list string) (i : Z) (shards : list bytes) : M (list string) :=
  match shards with
  | [] => ret []
  | sh :: shards' =>
      let shardID := blockstore.HashOf sh in
      do! holder := lift (index holderList i) in
      do! _ := ship1 sv holder shardID sh in
      do! ids := ship sv holderList (i + 1) shards' in
      ret (shardID :: ids)
  end.

Definition uploadStripe sv (fileKey : bytes) (holderList : list string) (idx : Z) (plaintext : bytes) :
    M manifest.Stripe :=
  do! ct := wrapped "encrypt: " (on_rng (fun r => crypto.SealAES r fileKey plaintext)) in
  do! shards := wrapped "ec encode: " (lift (ec.Encode (params sv) ct)) in
  do! ids := ship sv holderList 0 shards in
  ret (manifest.NewStripe idx ids (zlen plaintext) (zlen ct)).

(** The streaming loop of [Put], from stripe [idx] on: the stripes and the
    number of plaintext bytes.  A round consumes a stripe's worth of the body,
    so its length bounds the rounds ([put_loop_fuel]). *)
Fixpoint put_loop (fuel : nat) sv (fileKey : bytes) (holderList : list string) (idx : Z) (body : Body) :
    M (list manifest.Stripe * Z) :=
  match fuel with
  | O => lift Panic
  | S fuel' =>
      let '(buf, body', readErr) := ReadFull_body body (stripeSize sv) in
      if (zlen buf =? 0) && is_end readErr then ret ([], 0)
      else
        do! stripe := wrapped "stripe: " (uploadStripe sv fileKey holderList idx buf) in
        if is_end readErr then ret ([stripe], zlen buf)
        else match readErr with
             | Some e => fail (ErrWrap "read body: " e)
             | None =>
                 do! (stripes, n) := put_loop fuel' sv fileKey holderList (idx + 1) body' in
                 ret (stripe :: stripes, zlen buf + n)
             end
  end.

(** The replication of the manifest to the holders. *)
Fixpoint replicate_manifest sv (fileID : string) (raw : bytes) (holderList : list string) : M unit :=
  match holderList with
  | [] => ret tt
  | h :: holderList' =>
      if bool_decide (h = peer_String (self sv)) then replicate_manifest sv fileID raw holderList'
      else match peer_Decode h with
           | None => replicate_manifest sv fileID raw holderList'
           | Some p =>
               do! r := attempt (on_world (fun w =>
                 node.PutManifestRawOnPeer fate clock disk w (peer_String (self sv)) p fileID raw)) in
               do! _ := match r, spool sv with
                        | Err _, Some sp =>
                            attempt (on_fs sv (fun io f => spool.EnqueueManifest io f sp h fileID raw))
                        | _, _ => ret (Ok tt)
                        end in
               replicate_manifest sv fileID raw holderList'
           end
  end.

Definition Put sv (filename : string) (body : Body) (opts : PutOptions) : M manifest.Manifest :=
  do! g := with_store sv (fun s => resolveGroup s (OptGroupID opts)) in
  let mode := if bool_decide (OptMode opts = "") then manifest.ModeShared else OptMode opts in
  if negb (bool_decide (mode = manifest.ModeShared)) && negb (bool_decide (mode = manifest.ModePrivate))
  then fail (ErrMsg "unknown mode")
  else
    do! fidRaw := on_rng (fun r => rand_Read r 16) in
    let fileID := hex_encode fidRaw in
    do! fileKey := on_rng crypto.NewFileKey in
    let totalSlots := ec.DataShards (params sv) + ec.ParityShards (params sv) in
    do! memberIDs := with_store sv (fun s => groupMemberIDs s (group.ID g)) in
    if zlen memberIDs <? totalSlots then
      do! _ := lift (str_slice (group.ID g) 0 12) in fail (ErrMsg "group has too few members")
    else
      let holderList := holders.Pick memberIDs fileID totalSlots in
      do! (wrapped_key, displayName, fnEncrypted) := wrapForMode sv mode fileKey filename g in
      do! now := time_Now in
      do! (stripes, totalBytes) :=
        put_loop (S (length (content body))) sv fileKey holderList 0 body in
      if totalBytes =? 0 then fail (ErrMsg "file is empty")
      else
        let m := manifest.NewManifest fileID (group.ID g) displayName totalBytes
          (ec.DataShards (params sv)) (ec.ParityShards (params sv)) (stripeSize sv) holderList stripes now
          (peer_String (self sv)) mode wrapped_key fnEncrypted in
        do! _ := wrapped "save manifest: " (on_store sv (fun s => manifest.Put s m)) in
        do! _ := (if bool_decide (mode = manifest.ModePrivate)
                  then attempt (on_store sv (fun s => savePrivateName s fileID filename))
                  else ret (Ok tt)) in
        do! raw := wrapped "marshal manifest: " (lift (manifest.Marshal' m)) in
        do! _ := replicate_manifest sv fileID raw holderList in
        do! _ := lift (str_slice fileID 0 12) in
        do! _ := lift (str_slice (group.ID g) 0 12) in
        ret m.

(** ** Opening and listing *)

(** The loop of [fetchManifest] over the members. *)
Fixpoint fetch_from sv (fileID : string) (members : list group.Member) : M manifest.Manifest :=
  match members with
  | [] => fail (ErrMsg "no peer has manifest")
  | mem :: members' =>
      if bool_decide (group.PeerID mem = peer_String (self sv)) then fetch_from sv fileID members'
      else match peer_Decode (group.PeerID mem) with
           | None => fetch_from sv fileID members'
           | Some p =>
               do! r := attempt (on_world (fun w =>
                 node.GetManifestFromPeer fate clock disk w (peer_String (self sv)) p fileID)) in
               match r with
               | Ok m => ret m
               | _ => fetch_from sv fileID members'
               end
           end
  end.

Definition fetchManifest sv (fileID : string) : M manifest.Manifest :=
  do! members := with_store sv (group.AllMembersAcrossGroups range) in
  fetch_from sv fileID members.

Record Reader := NewReader {
  r_m : manifest.Manifest;
  r_key : bytes;
  r_pos : Z;
  decryptedFilename : string
}.

Definition OpenReader sv (fileID : string) : M Reader :=
  do! r := attempt (with_store sv (fun s => manifest.Get s fileID)) in
  do! m := match r with
           | Ok m => ret m
           | Err e =>
               if errors_Is e ErrManifestNotFound then
                 do! m := fetchManifest sv fileID in
                 do! _ := attempt (on_store sv (fun s => manifest.Put s m)) in
                 ret m
               else fail e
           | Panic => lift Panic
           end in
  do! rg := attempt (with_store sv (fun s => group.LoadByID s (manifest.GroupID m))) in
  match rg with
  | Ok g =>
      do! fileKey := lift (unwrapForMode sv m g) in
      ret (NewReader m fileKey 0 (maybeDecryptFilename m fileKey))
  | _ => fail (ErrMsg "we are not part of the group")
  end.

Definition set_Filename m (name : string) : manifest.Manifest :=
  manifest.NewManifest (manifest.FileID m) (manifest.GroupID m) name (manifest.Size m) (manifest.DataShards m)
    (manifest.ParityShards m) (manifest.StripeDataSize m) (manifest.Holders m) (manifest.Stripes m)
    (manifest.CreatedAt m) (manifest.OwnerPeerID m) (manifest.Mode m) (manifest.WrappedKey m)
    (manifest.FilenameEncrypted m).

Definition set_plain m (name : string) : manifest.Manifest :=
  manifest.NewManifest (manifest.FileID m) (manifest.GroupID m) name (manifest.Size m) (manifest.DataShards m)
    (manifest.ParityShards m) (manifest.StripeDataSize m) (manifest.Holders m) (manifest.Stripes m)
    (manifest.CreatedAt m) (manifest.OwnerPeerID m) (manifest.Mode m) (manifest.WrappedKey m) false.

Definition enrich sv (s : db) m : manifest.Manifest :=
  if bool_decide (manifest.Mode m = manifest.ModePrivate) &&
     bool_decide (manifest.OwnerPeerID m = peer_String (self sv)) && manifest.FilenameEncrypted m
  then match loadPrivateName s (manifest.FileID m) with
       | Some name => set_plain m name
       | None => m
       end
  else m.

Definition List sv (s : db) : outcome (list manifest.Manifest) :=
  let! all := manifest.List s in
  Ok (map (enrich sv s) all).

End with_libraries.
End file.
