(* ===== verification/Reader.v ===== *)
(** * internal/file/reader.go: random and sequential access to a file *)

From S2P Require Import Prelude Ext Concrete Store Fs Blockstore Crypto Ec Holders Cache Manifest Ledger Group.
From S2P Require Import Blocks Spool Base64 File.

Module reader.
Import file.

Section with_libraries.
Context `{Badger, !Sha256, !manifest.ManifestCbor, !ledger.EntryCbor, !node.RequestCbor, !node.ResponseCbor,
  PeerIDs, AesGcm, NaclBox, ReedSolomon, !group.GroupCbor, !group.MemberCbor, !NameCbor}.
Context (fate : nat -> string -> string -> node.Fate) (clock : nat -> Z) (disk : nat -> wio).
Context (range : gmap string group.Member -> list (string * group.Member)).
Implicit Types (sv : Service) (m : manifest.Manifest) (r : Reader) (st : FS).

Notation "'do!' x ':=' c 'in' k" := (bind c (fun x => k))
  (at level 10, x pattern, c at level 200, k at level 200, only parsing).

Definition Manifest r : manifest.Manifest :=
  if bool_decide (decryptedFilename r <> "") then set_Filename (r_m r) (decryptedFilename r) else r_m r.

Definition Size r : Z := manifest.Size (r_m r).

Definition openStripeCiphertext (key ct : bytes) : outcome bytes := crypto.OpenAES key ct.

Definition local_get sv (shardID : string) : M bytes :=
  on_fs disk sv (fun _ f => (f, blockstore.Get f (blocks sv) shardID)).

Definition get_shard sv (p : pid) (shardID : string) : M bytes :=
  on_world (fun w => node.GetShardFromPeer fate clock disk w (peer_String (self sv)) p shardID).

(** One slot of the gathering loop: the shard, if it can be had. *)
Definition fetch1 sv (shardID holder : string) : M (option bytes) :=
  do! l := attempt (local_get sv shardID) in
  match l with
  | Ok data => ret (Some data)
  | _ =>
      if bool_decide (holder = peer_String (self sv)) then ret None
      else match peer_Decode holder with
           | None => ret None
           | Some p =>
               do! x := attempt (get_shard sv p shardID) in
               ret (match x with Ok data => Some data | _ => None end)
           end
  end.

(** [for i := 0; i < total && gathered < DataShards; i++]: the entries of
    [shardBytes] from slot [i] on, and the final count. *)
Fixpoint gather sv (k gathered : Z) (slots : list (string * string)) : M (list bytes * Z) :=
  match slots with
  | [] => ret ([], gathered)
  | (shardID, holder) :: slots' =>
      if gathered <? k then
        do! x := fetch1 sv shardID holder in
        do! (rest, n) := gather sv k (match x with Some _ => gathered + 1 | None => gathered end) slots' in
        ret (default [] x :: rest, n)
      else ret (map (fun _ => []) slots, gathered)
  end.

Definition fetchAndDecryptStripe sv r (idx : Z) : M bytes :=
  let m := r_m r in
  if (idx <? 0) || (zlen (manifest.Stripes m) <=? idx) then fail (ErrMsg "stripe index out of range")
  else
    do! stripe := lift (index (manifest.Stripes m) idx) in
    let total := manifest.DataShards m + manifest.ParityShards m in
    if negb (zlen (manifest.ShardIDs stripe) =? total) || negb (zlen (manifest.Holders m) =? total)
    then fail (ErrMsg "manifest stripe malformed")
    else
      do! (shardBytes, gathered) := gather sv (manifest.DataShards m) 0 (zip (manifest.ShardIDs stripe) (manifest.Holders m)) in
      if gathered <? manifest.DataShards m then fail (ErrMsg "not enough shards available")
      else
        do! ct := wrapped "ec decode stripe: " (lift (ec.Decode
               (ec.NewParams (manifest.DataShards m) (manifest.ParityShards m)) shardBytes
               (manifest.CiphertextBytes stripe)).2) in
        wrapped "decrypt stripe: " (lift (openStripeCiphertext (r_key r) ct)).

Definition cache_get (fileID : string) (idx : Z) : M (option bytes) := fun st =>
  let '(c, x) := cache.Get (cached st) fileID idx in (NewFS (world st) (rng st) c, Ok x).

Definition cache_put (fileID : string) (idx : Z) (data : bytes) : M unit := fun st =>
  (NewFS (world st) (rng st) (cache.Put (cached st) fileID idx data), Ok tt).

Definition stripeBytes sv r (idx : Z) : M bytes :=
  do! hit := cache_get (manifest.FileID (r_m r)) idx in
  match hit with
  | Some data => ret data
  | None =>
      do! data := fetchAndDecryptStripe sv r idx in
      do! _ := cache_put (manifest.FileID (r_m r)) idx data in
      ret data
  end.

(** The loop of [ReadAt]: the bytes copied into [dst], and the error, if any,
    that cut it short.  Every round but the last copies at least one byte, so
    the bytes asked for bound the rounds. *)
Fixpoint read_loop (fuel : nat) sv r (cur stop : Z) (acc : bytes) : M (bytes * option goerr) :=
  match fuel with
  | O => ret (acc, None)
  | S fuel' =>
      if cur <? stop then
        let stripeSize := manifest.StripeDataSize (r_m r) in
        if stripeSize =? 0 then lift Panic
        else
          let stripeIdx := Z.quot cur stripeSize in
          if zlen (manifest.Stripes (r_m r)) <=? stripeIdx then ret (acc, None)
          else
            let stripeStart := wrap64 (stripeIdx * stripeSize) in
            do! x := attempt (stripeBytes sv r stripeIdx) in
            match x with
            | Ok stripeData =>
                let inStart := cur - stripeStart in
                let want := Z.min (stop - cur) (zlen stripeData - inStart) in
                do! chunk := lift (slice stripeData inStart (inStart + want)) in
                if want =? 0 then ret (acc ++ chunk, None)
                else read_loop fuel' sv r (cur + want) stop (acc ++ chunk)
            | Err e => ret (acc, Some e)
            | Panic => lift Panic
            end
      else ret (acc, None)
  end.

(** [ReadAt(dst, offset)] with [n = len(dst)]: the bytes written to the front of
    [dst] and the error returned with their number. *)
Definition ReadAt sv r (n offset : Z) : M (bytes * option goerr) :=
  let size := manifest.Size (r_m r) in
  if size <=? offset then ret ([], Some EOF)
  else
    let stop := Z.min (wrap64 (offset + n)) size in
    do! (data, err) := read_loop (S (Z.to_nat (stop - offset))) sv r offset stop [] in
    match err with
    | Some e => ret (data, Some e)
    | None =>
        ret (data, if (zlen data <? n) && (size <=? offset + zlen data) then Some EOF else None)
    end.

Definition set_pos r (pos : Z) : Reader := NewReader (r_m r) (r_key r) pos (decryptedFilename r).

Definition Read sv r (n : Z) : M (Reader * bytes * option goerr) :=
  if manifest.Size (r_m r) <=? r_pos r then ret (r, [], Some EOF)
  else
    do! (data, err) := ReadAt sv r n (r_pos r) in
    ret (set_pos r (r_pos r + zlen data), data, err).

Inductive Whence := SeekStart | SeekCurrent | SeekEnd | SeekBad.

Definition Seek r (offset : Z) (whence : Whence) : Reader * outcome Z :=
  let clamp pos := if pos <? 0 then (set_pos r 0, Ok 0) else (set_pos r pos, Ok pos) in
  match whence with
  | SeekStart => clamp offset
  | SeekCurrent => clamp (wrap64 (r_pos r + offset))
  | SeekEnd => clamp (wrap64 (manifest.Size (r_m r) + offset))
  | SeekBad => (r, Err (ErrMsg "file: bad whence"))
  end.

(** [Service.Get]: [io.Copy] reads 32 KiB at a time until an error; [None] is a
    copy that has not ended after [fuel] reads. *)
Definition copy_buffer : Z := 32 * 1024.

Fixpoint io_Copy (fuel : nat) sv r (acc : bytes) : M (option bytes) :=
  match fuel with
  | O => ret None
  | S fuel' =>
      do! (r', data, err) := Read sv r copy_buffer in
      match err with
      | Some EOF => ret (Some (acc ++ data))
      | Some e => fail e
      | None => io_Copy fuel' sv r' (acc ++ data)
      end
  end.

Definition Get (fuel : nat) sv (fileID : string) : M (option (bytes * manifest.Manifest)) :=
  do! r := OpenReader fate clock disk range sv fileID in
  do! out := io_Copy fuel sv r [] in
  ret (match out with Some data => Some (data, Manifest r) | None => None end).

(** ** Fetching a stripe *)

(** [stripe] is the record of [pt]: [pt] sealed under [key] as [ct], [ct] cut
    into the code word [cw], each shard named by its hash. *)
Definition describes (key : bytes) (p : ec.Params) (stripe : manifest.Stripe) (pt ct : bytes) (cw : list bytes) : Prop :=
  ec.supported p /\ ct <> [] /\ ec.encoding p ct cw /\ zlen ct = manifest.CiphertextBytes stripe /\
  zlen ct <= ec.maxAlloc /\ crypto.OpenAES key ct = Ok pt /\
  manifest.ShardIDs stripe = map blockstore.HashOf cw.

Abbreviation disksT := (gmap string (fs * option blockstore.Store)).

(** Bytes found anywhere under the hash of a shard of the code word are that
    shard: no collision among the stored bytes. *)
Definition truthful (D : disksT) (cw : list bytes) : Prop :=
  forall p sh d, sh ∈ cw -> node.shard_in D p (blockstore.HashOf sh) = Some d -> d = sh.

(** The service's node is up, and serves the block store the service uses. *)
Definition attached sv (w : node.World) : Prop :=
  exists n, node.nodes w !! peer_String (self sv) = Some n /\ node.nblocks n = Some (blocks sv).

(** A slot whose shard can be had: from the local disk, or from a holder the
    network reaches. *)
Definition available sv (D : disksT) (slot : string * string) : Prop :=
  is_Some (node.shard_in D (peer_String (self sv)) slot.1) \/
  (slot.2 <> peer_String (self sv) /\
   exists p d, peer_Decode slot.2 = Some p /\ peer_String p <> peer_String (self sv) /\
    (forall t, fate t (peer_String (self sv)) (peer_String p) = node.Through) /\
    node.shard_in D (peer_String p) slot.1 = Some d /\
    node.fits (node.NewRequest node.OpGetShard slot.1 []) /\ node.fits (node.NewResponse true "" d)).

Definition at_least {A} (P : A -> Prop) (n : Z) (l : list A) : Prop :=
  exists sub, sub `sublist_of` l /\ n <= zlen sub /\ Forall P sub.

(** What fetching leaves alone. *)
Definition same_shards st st' : Prop :=
  node.disks (world st') = node.disks (world st) /\ cached st' = cached st /\ rng st' = rng st.

Lemma disks_attached sv w w' : node.disks w' = node.disks w -> attached sv w -> attached sv w'.
Proof.
  intros E (n & Hn & Hb). unfold attached.
  assert (Hl : node.disks w' !! peer_String (self sv) = Some (node.disk_of n))
    by (rewrite E; unfold node.disks; by rewrite lookup_fmap, Hn).
  unfold node.disks in Hl. rewrite lookup_fmap in Hl.
  destruct (node.nodes w' !! peer_String (self sv)) as [n'|]; [|done]. exists n'. split; [done|].
  simpl in Hl. injection Hl as _ Hl. by rewrite Hl.
Qed.

Lemma local_get_spec sv id st :
  attached sv (world st) ->
  exists st' o, attempt (local_get sv id) st = (st', Ok o) /\ same_shards st st' /\
    match node.shard_in (node.disks (world st)) (peer_String (self sv)) id with
    | Some d => o = Ok d
    | None => exists e, o = Err e
    end.
Proof.
  intros (n & Hn & Hb). unfold attempt, local_get, on_fs, on_local, on_world. rewrite Hn.
  unfold node.shard_in, node.disks. rewrite lookup_fmap, Hn. simpl. unfold node.disk_of. rewrite Hb.
  assert (Hsame : same_shards st (NewFS (node.NewWorld (<[peer_String (self sv) := node.set_fs n (node.nfs n)]>
    (node.nodes (world st))) (S (node.tick (world st)))) (rng st) (cached st))).
  { split_and!; try done. unfold node.disks. simpl. rewrite fmap_insert. apply insert_id.
    rewrite lookup_fmap, Hn. done. }
  destruct (blockstore.Get (node.nfs n) (blocks sv) id) as [d|e|] eqn:Hg; simpl; eauto 10.
  exfalso. unfold blockstore.Get, ReadFile in Hg. by repeat case_match.
Qed.

Lemma get_shard_spec sv p id st :
  blockstore.shard_id id ->
  exists st' o, attempt (get_shard sv p id) st = (st', Ok o) /\ same_shards st st' /\
    (forall d, o = Ok d -> node.shard_in (node.disks (world st)) (peer_String p) id = Some d).
Proof.
  intros Hid. unfold attempt, get_shard, on_world.
  destruct (node.GetShardFromPeer _ _ _ _ _ _ _) as [w' o] eqn:HG.
  pose proof (node.GetShardFromPeer_disks _ _ _ _ _ _ _ _ _ Hid HG) as HD.
  assert (Hs : same_shards st (NewFS w' (rng st) (cached st))) by (by split_and!).
  destruct o as [d|e|].
  - eexists _, _. split_and!; [done|done|]. intros d' [= <-]. by eapply node.GetShardFromPeer_Ok.
  - eexists _, _. by split_and!.
  - exfalso. by eapply node.GetShardFromPeer_no_panic.
Qed.

Lemma get_shard_through sv p id d st :
  blockstore.shard_id id -> peer_String p <> peer_String (self sv) ->
  (forall t, fate t (peer_String (self sv)) (peer_String p) = node.Through) ->
  node.shard_in (node.disks (world st)) (peer_String p) id = Some d ->
  node.fits (node.NewRequest node.OpGetShard id []) -> node.fits (node.NewResponse true "" d) ->
  (attempt (get_shard sv p id) st).2 = Ok (Ok d).
Proof.
  intros Hid Hne Hf Hs H1' H2'. unfold attempt, get_shard, on_world.
  pose proof (node.GetShardFromPeer_through fate clock disk (world st) (peer_String (self sv)) p id d Hid Hne (Hf _) Hs H1' H2') as HG.
  destruct (node.GetShardFromPeer _ _ _ _ _ _ _) as [w' o]. simpl in HG. by subst.
Qed.

Lemma same_shards_trans st1 st2 st3 : same_shards st1 st2 -> same_shards st2 st3 -> same_shards st1 st3.
Proof. intros (? & ? & ?) (? & ? & ?). split_and!; congruence. Qed.

(** One slot: nothing wrong is fetched, and an available shard is. *)
Lemma fetch1_spec sv id holder st :
  attached sv (world st) -> blockstore.shard_id id ->
  exists st' x, fetch1 sv id holder st = (st', Ok x) /\ same_shards st st' /\
    (forall d, x = Some d -> exists p, node.shard_in (node.disks (world st)) p id = Some d) /\
    (available sv (node.disks (world st)) (id, holder) -> is_Some x).
Proof.
  intros Ha Hid. unfold fetch1, bind.
  destruct (local_get_spec sv id st Ha) as (st1 & o & -> & Hs1 & Ho).
  destruct (node.shard_in (node.disks (world st)) (peer_String (self sv)) id) as [d|] eqn:Hl.
  { subst o. exists st1, (Some d). split_and!; [done|done| |eauto]. intros d' [= <-]. eauto. }
  destruct Ho as [e ->]. case_bool_decide as Hh.
  { exists st1, None. split_and!; [done|done|done|]. intros [[? ?]|[? _]]; [simpl in *; congruence|done]. }
  destruct (peer_Decode holder) as [p|] eqn:Hp.
  2: { exists st1, None. split_and!; [done|done|done|].
       intros [[? ?]|(_ & p & d & Hp' & _)]; simpl in *; congruence. }
  destruct (get_shard_spec sv p id st1 Hid) as (st2 & o & E & Hs2 & Ho). rewrite E.
  destruct Hs1 as (HD & Hc & Hr). rewrite HD in Ho.
  exists st2, (match o with Ok data => Some data | _ => None end). split_and!; [done| | |].
  - eapply same_shards_trans; [by split_and!|done].
  - intros d Hd. destruct o; [|done..]. injection Hd as ->. eauto.
  - intros [[? ?]|(_ & p' & d & Hp' & Hne & Hf & Hsh & F1 & F2)]; simpl in *; [congruence|].
    rewrite Hp in Hp'. injection Hp' as <-.
    pose proof (get_shard_through sv p id d st1 Hid Hne Hf) as HT. rewrite HD in HT.
    specialize (HT Hsh F1 F2). rewrite E in HT. simpl in HT. injection HT as ->. eauto.
Qed.

Lemma at_least_cons {A} (P : A -> Prop) n x l :
  at_least P n (x :: l) -> at_least P n l \/ (P x /\ at_least P (n - 1) l).
Proof.
  intros (sub & Hs & Hn & HP). apply sublist_cons_r in Hs as [Hs|(sub' & -> & Hs)]; [left; by exists sub|].
  apply Forall_cons in HP as [Hx HP]. right. split; [done|]. exists sub'. split_and!; [done| |done].
  unfold zlen in *. simpl in Hn. lia.
Qed.

Lemma none_present {A} (l : list A) (cw : list bytes) :
  length l = length cw -> erasure_of cw (map (fun _ => []) l) /\ present (map (fun _ => []) l) = 0%nat.
Proof.
  revert cw. induction l as [|x l IH]; intros [|c cw] Hl; try done; [split; [constructor|done]|].
  destruct (IH cw) as [IH1 IH2]; [by injection Hl|]. simpl. split; [constructor; auto|].
  rewrite present_cons, IH2. by rewrite decide_True.
Qed.

Lemma gather_spec sv k slots : forall cw st g,
  attached sv (world st) -> Forall2 (fun slot sh => slot.1 = blockstore.HashOf sh) slots cw ->
  truthful (node.disks (world st)) cw -> Forall (fun sh => sh <> []) cw ->
  exists st' bs n, gather sv k g slots st = (st', Ok (bs, n)) /\ same_shards st st' /\
    erasure_of cw bs /\ n = g + Z.of_nat (present bs) /\
    (at_least (available sv (node.disks (world st))) (k - g) slots -> k <= n).
Proof.
  induction slots as [|[id holder] slots IH]; intros cw st g Ha Hcw Ht Hne.
  { apply Forall2_nil_inv_l in Hcw as ->. exists st, [], g. cbn [gather].
    split_and!; [done|done|by apply Forall2_nil_2|unfold present; simpl; lia|]. intros (sub & ->%sublist_nil_r & Hn & _). unfold zlen in Hn. simpl in Hn. lia. }
  apply Forall2_cons_inv_l in Hcw as (sh & cw' & Hid & Hcw & ->). simpl in Hid.
  apply Forall_cons in Hne as [Hsh Hne]. cbn [gather]. destruct (Z.ltb_spec g k) as [Hg|Hg].
  2: { destruct (none_present ((id, holder) :: slots) (sh :: cw')) as [N1 N2].
       { simpl. f_equal. by eapply Forall2_length. }
       exists st, (map (fun _ => []) ((id, holder) :: slots)), g. split_and!; [done|done|done| |lia].
       rewrite N2. simpl. lia. }
  destruct (fetch1_spec sv id holder st Ha) as (st1 & x & E1 & Hs1 & Hx & Hav).
  { rewrite Hid. apply blockstore.HashOf_shard_id. }
  assert (Hx' : forall d, x = Some d -> d = sh).
  { intros d Hd. destruct (Hx d Hd) as [p Hp]. rewrite Hid in Hp. eapply Ht; [constructor|exact Hp]. }
  pose proof Hs1 as (HD & _ & _).
  destruct (IH cw' st1 (match x with Some _ => g + 1 | None => g end)) as (st2 & bs & n & E2 & Hs2 & He & Hn & Hl).
  { by eapply disks_attached. } { done. } { rewrite HD. intros p s d Hin. apply Ht. by constructor. } { done. }
  exists st2, (default [] x :: bs), n. unfold bind. rewrite E1, E2. rewrite HD in Hl. split_and!.
  - done.
  - by eapply same_shards_trans.
  - constructor; [|done]. destruct x as [d|]; [left; by apply Hx'|by right].
  - rewrite present_cons. destruct x as [d|]; [|simpl; lia].
    simpl. rewrite (Hx' d eq_refl), decide_False by done. lia.
  - intros [Hal|[Hav1 Hal]]%at_least_cons; apply Hl.
    + destruct x; [|done]. destruct Hal as (sub & ? & ? & ?). exists sub. split_and!; [done|lia|done].
    + destruct (Hav Hav1) as [d ->]. replace (k - (g + 1)) with (k - g - 1) by lia. done.
Qed.

(** Some [k] of the slots of a stripe can be had. *)
Definition enough sv m (D : disksT) (stripe : manifest.Stripe) : Prop :=
  at_least (available sv D) (manifest.DataShards m) (zip (manifest.ShardIDs stripe) (manifest.Holders m)).

Definition params_of m : ec.Params := ec.NewParams (manifest.DataShards m) (manifest.ParityShards m).

(** A stripe is decrypted to what it stands for, or an error is returned; with
    [k] slots available it is decrypted. *)
Lemma fetch_spec sv r idx stripe pt ct cw st :
  attached sv (world st) -> 0 <= idx -> manifest.Stripes (r_m r) !! Z.to_nat idx = Some stripe ->
  describes (r_key r) (params_of (r_m r)) stripe pt ct cw ->
  zlen (manifest.Holders (r_m r)) = manifest.DataShards (r_m r) + manifest.ParityShards (r_m r) ->
  truthful (node.disks (world st)) cw ->
  exists st' o, fetchAndDecryptStripe sv r idx st = (st', o) /\ same_shards st st' /\
    (o = Ok pt \/ exists e, o = Err e) /\
    (enough sv (r_m r) (node.disks (world st)) stripe -> o = Ok pt).
Proof.
  intros Ha Hidx Hst (Hsup & Hct & Henc & Hcb & Hmax & Hopen & Hids) Hh Ht.
  unfold fetchAndDecryptStripe. pose proof (lookup_lt_Some _ _ _ Hst) as Hlt.
  rewrite (proj2 (Z.ltb_ge _ _)), (proj2 (Z.leb_gt _ _)) by (unfold zlen; lia). cbn [orb].
  unfold bind at 1, lift at 1. rewrite (proj2 (index_Ok _ _ _) (conj Hidx Hst)).
  pose proof (ec.encoding_nonempty _ _ _ Hsup Hct Henc) as Hne.
  destruct Henc as (Hlen & Hsize & Hver & Hpad). pose proof (ec.supported_data _ Hsup) as Hk. simpl in Hk, Hlen.
  assert (Hz : zlen (manifest.ShardIDs stripe) = manifest.DataShards (r_m r) + manifest.ParityShards (r_m r)).
  { rewrite Hids. unfold zlen in *. rewrite length_map. done. }
  rewrite Hz, Hh, Z.eqb_refl. cbn [orb negb].
  assert (Hzip : Forall2 (fun slot sh => slot.1 = blockstore.HashOf sh) (zip (manifest.ShardIDs stripe) (manifest.Holders (r_m r))) cw).
  { rewrite Hids. assert (Hl : length (manifest.Holders (r_m r)) = length cw) by (unfold zlen in *; lia).
    revert Hl. generalize (manifest.Holders (r_m r)). clear. induction cw as [|sh cw IH]; intros [|h hs] Hl; try done.
    simpl. constructor; [done|]. apply IH. by injection Hl. }
  destruct (gather_spec sv (manifest.DataShards (r_m r)) _ cw st 0 Ha Hzip Ht Hne) as (st1 & bs & n & E & Hs & He & Hn & Hl).
  unfold bind at 1. rewrite E. destruct (Z.ltb_spec n (manifest.DataShards (r_m r))) as [Hlt'|Hge].
  - exists st1, (Err (ErrMsg "not enough shards available")). split_and!; [done|done|eauto|].
    intros Hen. unfold enough in Hen. specialize (Hl ltac:(by rewrite Z.sub_0_r)). lia.
  - exists st1, (Ok pt). split_and!; [|done|auto|done].
    unfold bind, wrapped, lift. rewrite <- Hcb.
    rewrite (ec.Decode_encoding (params_of (r_m r)) ct cw bs) by (try done; simpl; lia). simpl.
    unfold openStripeCiphertext. by rewrite Hopen.
Qed.

(** ** Files *)

(** The [i]-th piece of [content] in pieces of [ss] bytes. *)
Definition chunk (ss : Z) (content : bytes) (i : Z) : bytes :=
  take (Z.to_nat ss) (drop (Z.to_nat (i * ss)) content).

(** On the disks [D], the manifest [m] and the key [key] stand for [content]:
    the stripes are its pieces, each described by its record. *)
Record holds_file (D : disksT) m (key content : bytes) : Prop := {
  hf_size : manifest.Size m = zlen content;
  hf_bound : zlen content < 2 ^ 63;
  hf_ss : 0 < manifest.StripeDataSize m;
  hf_holders : zlen (manifest.Holders m) = manifest.DataShards m + manifest.ParityShards m;
  hf_count : forall i, 0 <= i -> i * manifest.StripeDataSize m < zlen content <-> i < zlen (manifest.Stripes m);
  hf_stripes : forall i stripe, manifest.Stripes m !! i = Some stripe ->
    exists ct cw, describes key (params_of m) stripe (chunk (manifest.StripeDataSize m) content (Z.of_nat i)) ct cw /\
      truthful D cw
}.

(** Every stripe has [k] available slots. *)
Definition reachable sv m (D : disksT) : Prop :=
  forall stripe, stripe ∈ manifest.Stripes m -> enough sv m D stripe.

(** The state a reader of [content] works in, and keeps. *)
Record ready sv r (content : bytes) (D : disksT) st : Prop := {
  rd_disks : node.disks (world st) = D;
  rd_attached : attached sv (world st);
  rd_file : holds_file D (r_m r) (r_key r) content;
  rd_cache : cache.agrees (cached st) (manifest.FileID (r_m r)) (chunk (manifest.StripeDataSize (r_m r)) content)
}.

Lemma ready_step sv r content D st st' :
  ready sv r content D st -> same_shards st st' -> ready sv r content D st'.
Proof.
  intros [H1' H2' H3' H4'] (Hd & Hc & _). constructor; [congruence|by eapply disks_attached|done|by rewrite Hc].
Qed.

Lemma ready_cache sv r content D st c :
  ready sv r content D st -> cache.agrees c (manifest.FileID (r_m r)) (chunk (manifest.StripeDataSize (r_m r)) content) ->
  ready sv r content D (NewFS (world st) (rng st) c).
Proof. intros [H1' H2' H3' H4'] Hc. by constructor. Qed.

Lemma stripeBytes_spec sv r content D idx st :
  ready sv r content D st -> 0 <= idx < zlen (manifest.Stripes (r_m r)) -> idx < 2 ^ 63 ->
  exists st' o, stripeBytes sv r idx st = (st', o) /\ ready sv r content D st' /\
    (o = Ok (chunk (manifest.StripeDataSize (r_m r)) content idx) \/ exists e, o = Err e) /\
    (reachable sv (r_m r) D -> o = Ok (chunk (manifest.StripeDataSize (r_m r)) content idx)).
Proof.
  intros Hr Hidx Hb. unfold stripeBytes, bind at 1, cache_get.
  destruct (cache.Get_agrees _ _ _ idx ltac:(lia) (rd_cache _ _ _ _ _ Hr)) as [Hc Hhit].
  destruct (cache.Get (cached st) (manifest.FileID (r_m r)) idx) as [c hit]. simpl in Hc, Hhit.
  set (st1 := NewFS (world st) (rng st) c).
  assert (Hr1 : ready sv r content D st1) by (by apply (ready_cache _ _ _ _ st)).
  destruct hit as [data|].
  { rewrite (Hhit data eq_refl). exists st1, (Ok (chunk (manifest.StripeDataSize (r_m r)) content idx)). split_and!; auto. }
  destruct (lookup_lt_is_Some_2 (manifest.Stripes (r_m r)) (Z.to_nat idx)) as [stripe Hst]; [unfold zlen in *; lia|].
  destruct (hf_stripes _ _ _ _ (rd_file _ _ _ _ _ Hr) _ _ Hst) as (ct & cw & Hde & Ht).
  rewrite Z2Nat.id in Hde by lia.
  destruct (fetch_spec sv r idx stripe _ ct cw st1 (rd_attached _ _ _ _ _ Hr1) ltac:(lia) Hst Hde
    (hf_holders _ _ _ _ (rd_file _ _ _ _ _ Hr))) as (st2 & o & E & Hs & Ho & Hen).
  { by rewrite (rd_disks _ _ _ _ _ Hr1). }
  rewrite (rd_disks _ _ _ _ _ Hr1) in Hen. unfold bind at 1. rewrite E.
  assert (Hr2 : ready sv r content D st2) by (by eapply ready_step).
  assert (Hin : stripe ∈ manifest.Stripes (r_m r)) by (by eapply list_elem_of_lookup_2).
  destruct Ho as [->|[e ->]].
  - eexists _, _. split_and!; [done| |by left|done]. unfold cache_put. apply ready_cache; [done|].
    apply cache.Put_agrees; [lia|]. apply (rd_cache _ _ _ _ _ Hr2).
  - exists st2, (Err e). split_and!; [done|done|eauto|]. intros Hre. specialize (Hen (Hre stripe Hin)). done.
Qed.

(** Copying out of one piece is copying out of the content. *)
Lemma chunk_slice ss content i cur want :
  0 < ss -> 0 <= i -> i * ss <= cur -> 0 <= want -> cur - i * ss + want <= ss ->
  take (Z.to_nat want) (drop (Z.to_nat (cur - i * ss)) (chunk ss content i)) = take (Z.to_nat want) (drop (Z.to_nat cur) content).
Proof.
  intros Hss Hi Hc Hw Hb. unfold chunk. rewrite skipn_firstn_comm, take_take, drop_drop.
  f_equal; [lia|]. f_equal. nia.
Qed.

Lemma zlen_chunk ss content i :
  0 < ss -> 0 <= i -> zlen (chunk ss content i) = Z.max 0 (Z.min ss (zlen content - i * ss)).
Proof. intros Hss Hi. unfold zlen, chunk. rewrite length_take, length_drop. nia. Qed.

(** The loop copies [content] from [cur] on; it stops early only on an error. *)
Lemma read_loop_spec sv r content D stop fuel : forall cur acc st,
  ready sv r content D st -> 0 <= cur -> stop <= zlen content -> stop - cur < Z.of_nat fuel ->
  exists st' n err, read_loop fuel sv r cur stop acc st = (st', Ok (acc ++ take n (drop (Z.to_nat cur) content), err)) /\
    ready sv r content D st' /\ (n <= Z.to_nat (stop - cur))%nat /\
    (err = None -> n = Z.to_nat (stop - cur)) /\ (reachable sv (r_m r) D -> err = None).
Proof.
  induction fuel as [|fuel IH]; intros cur acc st Hr Hcur Hstop Hfuel.
  { exists st, 0%nat, None. rewrite take_0, app_nil_r. split_and!; [done|done|lia|lia|done]. }
  pose proof (rd_file _ _ _ _ _ Hr) as [F1 F2 F3 F4 F5 F6].
  set (ss := manifest.StripeDataSize (r_m r)) in *. cbn [read_loop]. fold ss.
  destruct (Z.ltb_spec cur stop) as [Hlt|Hge].
  2: { exists st, 0%nat, None. rewrite take_0, app_nil_r. split_and!; [done|done|lia|lia|done]. }
  rewrite (proj2 (Z.eqb_neq ss 0)) by lia. rewrite Z.quot_div_nonneg by lia.
  set (i := cur / ss). assert (Hi0 : 0 <= i) by (apply Z.div_pos; lia).
  pose proof (Z.div_mod cur ss ltac:(lia)) as Hdm. pose proof (Z.mod_pos_bound cur ss ltac:(lia)) as Hmod. fold i in Hdm.
  assert (Hi : i < zlen (manifest.Stripes (r_m r))) by (apply F5; nia).
  rewrite (proj2 (Z.leb_gt _ _)) by done.
  assert (Hiss : 0 <= i * ss <= cur) by nia.
  rewrite wrap64_id by (unfold in_int64; lia).
  destruct (stripeBytes_spec sv r content D i st Hr ltac:(lia) ltac:(nia)) as (st1 & o & E & Hr1 & Ho & Hre). fold ss in Ho, Hre.
  unfold bind at 1, attempt. rewrite E. destruct Ho as [->|[e ->]].
  2: { exists st1, 0%nat, (Some e). rewrite take_0, app_nil_r. split_and!; [done|done|lia|done|].
       intros Hx. by specialize (Hre Hx). }
  cbv zeta. pose proof (zlen_chunk ss content i F3 Hi0) as Hzc. set (want := Z.min (stop - cur) (zlen (chunk ss content i) - (cur - i * ss))).
  assert (Hw : 0 < want) by (unfold want; lia). assert (Hw2 : cur - i * ss + want <= zlen (chunk ss content i)) by (unfold want; lia).
  unfold bind at 1, lift. rewrite slice_full by lia.
  replace (cur - i * ss + want - (cur - i * ss)) with want by lia.
  rewrite chunk_slice by lia. rewrite (proj2 (Z.eqb_neq want 0)) by lia.
  destruct (IH (cur + want) (acc ++ take (Z.to_nat want) (drop (Z.to_nat cur) content)) st1 Hr1 ltac:(lia) Hstop ltac:(lia))
    as (st2 & n & err & E2 & Hr2 & Hn & Hnone & Hre2).
  exists st2, (Z.to_nat want + n)%nat, err. rewrite E2. split_and!; [|done|unfold want in *; lia| |done].
  - f_equal. f_equal. f_equal. rewrite <- app_assoc. f_equal.
    rewrite <- take_take_drop. f_equal. rewrite drop_drop. f_equal. f_equal. lia.
  - intros Hx. specialize (Hnone Hx). unfold want in *. lia.
Qed.

Lemma ReadAt_spec sv r content D n offset st :
  ready sv r content D st -> 0 <= offset -> 0 <= n -> offset + n < 2 ^ 63 ->
  exists st' k err, ReadAt sv r n offset st = (st', Ok (take k (drop (Z.to_nat offset) content), err)) /\
    ready sv r content D st' /\
    (reachable sv (r_m r) D ->
       take k (drop (Z.to_nat offset) content) = take (Z.to_nat n) (drop (Z.to_nat offset) content) /\
       err = if (zlen content <=? offset) || (zlen content - offset <? n) then Some EOF else None).
Proof.
  intros Hr Ho Hn Hb. pose proof (rd_file _ _ _ _ _ Hr) as [F1 F2 F3 F4 F5 F6]. unfold ReadAt. rewrite F1.
  destruct (Z.leb_spec (zlen content) offset) as [Hge|Hlt].
  { exists st, 0%nat, (Some EOF). rewrite take_0. split_and!; [done|done|]. intros _. split; [|done].
    rewrite drop_ge by (unfold zlen in *; lia). by rewrite take_nil. }
  rewrite wrap64_id by (unfold in_int64; lia). set (stop := Z.min (offset + n) (zlen content)).
  destruct (read_loop_spec sv r content D stop (S (Z.to_nat (stop - offset))) offset [] st Hr Ho ltac:(lia) ltac:(lia))
    as (st' & k & err & E & Hr' & Hk & Hnone & Hre).
  unfold bind. rewrite E. cbn [app]. destruct err as [e|].
  { exists st', k, (Some e). split_and!; [done|done|]. intros Hx. by specialize (Hre Hx). }
  specialize (Hnone eq_refl). eexists st', k, _. split_and!; [done|done|]. intros _.
  assert (Hz : zlen (take k (drop (Z.to_nat offset) content)) = stop - offset).
  { unfold zlen. rewrite length_take, length_drop. unfold zlen in *. lia. }
  split.
  - rewrite Hnone. destruct (decide (n <= zlen content - offset)).
    + f_equal. lia.
    + rewrite !take_ge; [done|rewrite length_drop; unfold zlen in *; lia..].
  - rewrite Hz. cbn [orb]. destruct (Z.ltb_spec (stop - offset) n), (Z.leb_spec (zlen content) (offset + (stop - offset))),
      (Z.ltb_spec (zlen content - offset) n); simpl; try done; lia.
Qed.

(** [C4] Random access reads the file.  With a manifest that stands for
    [content], a cache that holds only right pieces and, for every stripe, at
    least [k] of the [k+m] shards within reach (on the local disk or at a
    holder the network reaches), [ReadAt] returns exactly the [n] bytes from
    [offset] on - fewer at the end of the file, with [io.EOF] - for every
    offset and length, and leaves the state ready for the next read. *)
Theorem ReadAt_exact sv r content D n offset st :
  ready sv r content D st -> reachable sv (r_m r) D -> 0 <= offset -> 0 <= n -> offset + n < 2 ^ 63 ->
  exists st', ReadAt sv r n offset st =
      (st', Ok (take (Z.to_nat n) (drop (Z.to_nat offset) content),
                if (zlen content <=? offset) || (zlen content - offset <? n) then Some EOF else None)) /\
    ready sv r content D st'.
Proof.
  intros Hr Hx Ho Hn Hb. destruct (ReadAt_spec sv r content D n offset st Hr Ho Hn Hb) as (st' & k & err & E & Hr' & Hre).
  destruct (Hre Hx) as [E1 E2]. rewrite E1, E2 in E. eauto.
Qed.

(** A read never returns wrong bytes.  Whichever holders are unreachable
    and whatever the network does, [ReadAt] does not panic, and the bytes it
    returns are a prefix of the bytes of the file at that offset. *)
Theorem ReadAt_never_wrong sv r content D n offset st :
  ready sv r content D st -> 0 <= offset -> 0 <= n -> offset + n < 2 ^ 63 ->
  exists st' data err, ReadAt sv r n offset st = (st', Ok (data, err)) /\
    data `prefix_of` drop (Z.to_nat offset) content /\ ready sv r content D st'.
Proof.
  intros Hr Ho Hn Hb. destruct (ReadAt_spec sv r content D n offset st Hr Ho Hn Hb) as (st' & k & err & E & Hr' & _).
  eexists _, _, _. split_and!; [exact E| |done]. apply prefix_take.
Qed.

Lemma ready_pos sv r content D st pos : ready sv r content D st -> ready sv (set_pos r pos) content D st.
Proof. intros [? ? ? ?]. by constructor. Qed.

(** Copying from a position of the file to its end. *)
Lemma io_Copy_spec sv content D fuel : forall r acc st,
  ready sv r content D st -> reachable sv (r_m r) D -> 0 <= r_pos r <= zlen content ->
  zlen content + copy_buffer < 2 ^ 63 ->
  zlen content - r_pos r < Z.of_nat fuel * copy_buffer ->
  exists st', io_Copy fuel sv r acc st = (st', Ok (Some (acc ++ drop (Z.to_nat (r_pos r)) content))).
Proof.
  induction fuel as [|fuel IH]; intros r acc st Hr Hx Hpos Hb Hf; [lia|].
  pose proof (rd_file _ _ _ _ _ Hr) as [F1 _ _ _ _ _]. cbn [io_Copy]. unfold Read, bind at 1. rewrite F1.
  destruct (Z.leb_spec (zlen content) (r_pos r)) as [Hge|Hlt].
  { exists st. unfold ret. rewrite app_nil_r, drop_ge by (unfold zlen in *; lia). by rewrite app_nil_r. }
  destruct (ReadAt_spec sv r content D copy_buffer (r_pos r) st Hr) as (st1 & k & err & E & Hr1 & Hre);
    [lia|unfold copy_buffer; lia|lia|]. destruct (Hre Hx) as [E1 E2]. rewrite E1 in E. unfold bind at 1. rewrite E.
  cbn [ret]. rewrite E2, (proj2 (Z.leb_gt _ _)) by done. cbn [orb].
  assert (Hcb : 0 < copy_buffer) by (unfold copy_buffer; lia).
  destruct (Z.ltb_spec (zlen content - r_pos r) copy_buffer) as [Hs|Hs].
  - exists st1. rewrite take_ge; [done|]. rewrite length_drop. unfold zlen in *. lia.
  - set (data := take (Z.to_nat copy_buffer) (drop (Z.to_nat (r_pos r)) content)).
    assert (Hz : zlen data = copy_buffer).
    { unfold data, zlen. rewrite length_take, length_drop. unfold zlen in *. lia. }
    destruct (IH (set_pos r (r_pos r + zlen data)) (acc ++ data) st1) as [st2 E3].
    { by apply ready_pos. } { done. } { simpl. lia. } { done. } { simpl. lia. }
    exists st2. unfold bind, ret. rewrite E3. cbn [set_pos r_pos]. rewrite Hz, <- app_assoc. do 4 f_equal. unfold data.
    rewrite Z2Nat.inj_add by lia. rewrite <- drop_drop. apply take_drop.
Qed.

(** Downloading returns the file: with [k] shards of every stripe within
    reach, the sequential copy of [Service.Get] (32 KiB at a time) ends, within
    one read per buffer and one more, with exactly the file's bytes. *)
Theorem copy_returns_file sv r content D st fuel :
  ready sv r content D st -> reachable sv (r_m r) D -> r_pos r = 0 -> zlen content + copy_buffer < 2 ^ 63 ->
  zlen content < Z.of_nat fuel * copy_buffer ->
  exists st', io_Copy fuel sv r [] st = (st', Ok (Some content)).
Proof.
  intros Hr Hx Hp Hb Hf. destruct (io_Copy_spec sv content D fuel r [] st Hr Hx) as [st' E]; rewrite ?Hp; try done; [|lia|].
  { pose proof (zlen_nonneg content). lia. }
  exists st'. by rewrite E, Hp.
Qed.

(** [C26] A manifest with fewer stripes than its size calls for makes a download
    spin: past the last stripe [ReadAt] returns no bytes and no error, which
    [io.Copy] answers with another read, forever. *)
Theorem short_manifest_spins sv r st acc fuel :
  0 < manifest.StripeDataSize (r_m r) -> 0 <= r_pos r -> r_pos r < manifest.Size (r_m r) < 2 ^ 62 ->
  zlen (manifest.Stripes (r_m r)) * manifest.StripeDataSize (r_m r) <= r_pos r ->
  io_Copy fuel sv r acc st = (st, Ok None).
Proof.
  intros Hss Hp Hsz Hst. revert acc. induction fuel as [|fuel IH]; intros acc; [done|]. cbn [io_Copy].
  assert (HR : ReadAt sv r copy_buffer (r_pos r) st = (st, Ok ([], None))).
  { unfold ReadAt. rewrite (proj2 (Z.leb_gt _ _)) by lia.
    rewrite wrap64_id by (unfold in_int64, copy_buffer; lia). unfold bind. cbn [read_loop].
    assert (Hlt : r_pos r < Z.min (r_pos r + copy_buffer) (manifest.Size (r_m r))) by (unfold copy_buffer; lia).
    rewrite (proj2 (Z.ltb_lt _ _)) by done. rewrite (proj2 (Z.eqb_neq _ _)) by lia.
    rewrite Z.quot_div_nonneg by lia.
    rewrite (proj2 (Z.leb_le _ _)) by (apply Z.div_le_lower_bound; lia).
    unfold ret. do 3 f_equal. rewrite (proj2 (Z.leb_gt _ _)); [by rewrite andb_false_r|].
    unfold zlen. simpl. lia. }
  unfold Read, bind at 1. rewrite (proj2 (Z.leb_gt _ _)) by lia. unfold bind at 1. rewrite HR. cbn [ret].
  replace (set_pos r (r_pos r + zlen [])) with r; [by rewrite app_nil_r|].
  destruct r as [m k pos name]. unfold set_pos, zlen. simpl. by rewrite Z.add_0_r.
Qed.

End with_libraries.
End reader.
