(* ===== verification/Upload.v ===== *)
(** * What an upload leaves behind

    Theorems about [Service.Put] of internal/file/file.go: the manifest it
    returns stands for the bytes it read, the shards are at their holders or queued for
    them, and a reader gets the bytes back. *)

From S2P Require Import Prelude Ext Concrete Store Fs Blockstore Crypto Ec Holders Cache Manifest Ledger Group.
From S2P Require Import Blocks Spool Base64 File Reader.

Module upload.
Import file reader.

Section with_libraries.
Context `{Badger, !Sha256, !manifest.ManifestCbor, !ledger.EntryCbor, !node.RequestCbor, !node.ResponseCbor,
  PeerIDs, AesGcm, NaclBox, ReedSolomon, !group.GroupCbor, !group.MemberCbor, !NameCbor}.
Context (fate : nat -> string -> string -> node.Fate) (clock : nat -> Z) (disk : nat -> wio).
Context (range : gmap string group.Member -> list (string * group.Member)).
Implicit Types (sv : Service) (m : manifest.Manifest) (st : FS).

(** ** The monad *)

Lemma bind_Ok {A B} (c : M A) (k : A -> M B) st st' b :
  bind c k st = (st', Ok b) -> exists st1 a, c st = (st1, Ok a) /\ k a st1 = (st', Ok b).
Proof. unfold bind. destruct (c st) as [st1 [a|e|]]; [eauto|done..]. Qed.

Lemma wrapped_Ok {A} msg (c : M A) st st' a : wrapped msg c st = (st', Ok a) -> c st = (st', Ok a).
Proof. unfold wrapped. destruct (c st) as [st1 [b|e|]]; simpl; [by intros [= <- <-]|done..]. Qed.

Lemma on_rng_Ok {A} (f : bytes -> bytes * outcome A) st st' a :
  on_rng f st = (st', Ok a) -> exists r, f (rng st) = (r, Ok a) /\ st' = NewFS (world st) r (cached st).
Proof. unfold on_rng. destruct (f (rng st)) as [r o]. intros [= <- ->]. eauto. Qed.

Lemma lift_Ok {A} (o : outcome A) st st' a : lift o st = (st', Ok a) -> o = Ok a /\ st' = st.
Proof. by intros [= <- ->]. Qed.

Lemma bind_ext {A B} (c : M A) (k k' : A -> M B) st :
  (forall a st', k a st' = k' a st') -> bind c k st = bind c k' st.
Proof. intros Hk. unfold bind. by destruct (c st) as [st' [a|e|]]; [apply Hk|..]. Qed.

(** ** Stripes *)

Lemma ship_ids sv hl shards : forall i st st' ids,
  ship fate clock disk sv hl i shards st = (st', Ok ids) -> ids = map blockstore.HashOf shards.
Proof.
  induction shards as [|sh shards IH]; intros i st st' ids HS; cbn [ship] in HS; [by injection HS as _ <-|].
  apply bind_Ok in HS as (st1 & holder & _ & HS). apply bind_Ok in HS as (st2 & [] & _ & HS).
  apply bind_Ok in HS as (st3 & ids' & E & HS). injection HS as _ <-. simpl. f_equal. by eapply IH.
Qed.

(** The stripe record that [uploadStripe] returns describes the bytes it got. *)
Lemma uploadStripe_describes sv key hl idx pt st st' stripe :
  zlen pt + 28 <= ec.maxAlloc -> uploadStripe fate clock disk sv key hl idx pt st = (st', Ok stripe) ->
  manifest.PlaintextBytes stripe = zlen pt /\ exists ct cw, describes key (params sv) stripe pt ct cw.
Proof.
  intros Hmax HU. unfold uploadStripe in HU.
  apply bind_Ok in HU as (st1 & ct & E1 & HU). apply wrapped_Ok, on_rng_Ok in E1 as (r & Hseal & _).
  apply bind_Ok in HU as (st2 & shards & E2 & HU). apply wrapped_Ok, lift_Ok in E2 as [Henc _].
  apply bind_Ok in HU as (st3 & ids & E3 & HU). apply ship_ids in E3. injection HU as _ <-. split; [done|].
  exists ct, shards. apply ec.Encode_inv in Henc as (Hsup & Hne & Henc). split_and!; try done.
  - apply crypto.SealAES_length in Hseal. unfold zlen in *. lia.
  - by eapply crypto.OpenAES_SealAES.
Qed.

Lemma ReadFull_body_spec (b : Body) n buf b' e :
  0 < n -> ReadFull_body b n = (buf, b', e) ->
  match e with
  | None => buf = take (Z.to_nat n) (content b) /\ content b' = drop (Z.to_nat n) (content b) /\
            final b' = final b /\ n <= zlen (content b)
  | Some e => buf = content b /\ zlen (content b) < n /\
      e = (if bool_decide (final b = EOF) && (0 <? zlen (content b)) then ErrUnexpectedEOF else final b)
  end.
Proof.
  intros Hn. unfold ReadFull_body. destruct (Z.leb_spec n (zlen (content b))); intros [= <- <- <-]; auto.
Qed.

(** Pieces of the tail are pieces of the whole. *)
Lemma chunk_drop ss content i :
  0 < ss -> 0 <= i -> chunk ss (drop (Z.to_nat ss) content) i = chunk ss content (i + 1).
Proof. intros Hss Hi. unfold chunk. rewrite drop_drop. f_equal. f_equal. nia. Qed.

Lemma chunk_0 ss content : chunk ss content 0 = take (Z.to_nat ss) content.
Proof. unfold chunk. by rewrite drop_0. Qed.

(** The records of the stripes of a body, from the first on. *)
Definition records key (p : ec.Params) (ss : Z) (content : bytes) (stripes : list manifest.Stripe) : Prop :=
  (forall i, 0 <= i -> i * ss < zlen content <-> i < zlen stripes) /\
  forall i stripe, stripes !! i = Some stripe ->
    exists ct cw, describes key p stripe (chunk ss content (Z.of_nat i)) ct cw.

Lemma records_cons key p ss content stripe stripes ct cw :
  0 < ss -> ss <= zlen content -> describes key p stripe (take (Z.to_nat ss) content) ct cw ->
  records key p ss (drop (Z.to_nat ss) content) stripes -> records key p ss content (stripe :: stripes).
Proof.
  intros Hss Hc Hd [Hn Hr]. split.
  - intros i Hi. assert (Hz : zlen (drop (Z.to_nat ss) content) = zlen content - ss) by (unfold zlen in *; rewrite length_drop; lia).
    assert (Hl : zlen (stripe :: stripes) = zlen stripes + 1) by (unfold zlen; simpl; lia). rewrite Hl.
    destruct (decide (i = 0)) as [->|]; [pose proof (zlen_nonneg stripes); nia|].
    specialize (Hn (i - 1) ltac:(lia)). rewrite Hz in Hn. nia.
  - intros [|i] s Hs; simpl in Hs.
    + injection Hs as <-. exists ct, cw. by rewrite chunk_0.
    + destruct (Hr i s Hs) as (ct' & cw' & Hd'). exists ct', cw'. rewrite chunk_drop in Hd' by lia.
      by replace (Z.of_nat (S i)) with (Z.of_nat i + 1) by lia.
Qed.

Lemma put_loop_records sv key hl fuel : forall idx body st st' stripes n,
  0 < stripeSize sv -> stripeSize sv + 28 <= ec.maxAlloc ->
  put_loop fate clock disk fuel sv key hl idx body st = (st', Ok (stripes, n)) ->
  n = zlen (content body) /\ records key (params sv) (stripeSize sv) (content body) stripes.
Proof.
  induction fuel as [|fuel IH]; intros idx body st st' stripes n Hss Hmax HP; cbn [put_loop] in HP; [done|].
  destruct (ReadFull_body body (stripeSize sv)) as [[buf body'] e] eqn:ER. apply ReadFull_body_spec in ER; [|done].
  destruct ((zlen buf =? 0) && is_end e) eqn:Eend.
  { injection HP as _ <- <-. go_bool. destruct e as [e|]; [|done]. destruct ER as (-> & Hl & _).
    assert (Hz : content body = []) by (unfold zlen in *; destruct (content body); [done|simpl in *; lia]). rewrite Hz.
    split; [done|]. split; [|done]. unfold zlen. simpl. nia. }
  apply bind_Ok in HP as (st1 & stripe & E1 & HP). apply wrapped_Ok in E1.
  assert (Hbuf : zlen buf + 28 <= ec.maxAlloc).
  { destruct e as [e|]; destruct ER as (-> & ER); [lia|]. unfold zlen. rewrite length_take. lia. }
  apply uploadStripe_describes in E1 as (_ & ct & cw & Hde); [|done]. destruct e as [e|].
  - destruct ER as (-> & Hl & _). destruct (is_end (Some e)); [|done]. injection HP as _ <- <-. split; [done|].
    rewrite andb_true_r in Eend. go_bool. pose proof (zlen_nonneg (content body)).
    split; [unfold zlen at 2; simpl; intros; nia|]. intros [|i] s Hs; [|by destruct i]. injection Hs as <-.
    exists ct, cw. rewrite chunk_0, take_ge; [done|]. unfold zlen in *. lia.
  - destruct ER as (-> & Hc & _ & Hle). change (is_end None) with false in HP. cbv iota in HP.
    apply bind_Ok in HP as (st2 & [ss' n'] & E2 & HP). injection HP as _ <- <-.
    apply IH in E2 as [-> Hrec]; [|done..]. rewrite Hc in *. split.
    + unfold zlen in *. rewrite length_take, length_drop. lia.
    + by eapply records_cons.
Qed.

(** ** Shards at their holders *)

Abbreviation disksT := (gmap string (fs * option blockstore.Store)).

Definition attachedD sv (D : disksT) : Prop := exists f, D !! peer_String (self sv) = Some (f, Some (blocks sv)).

Lemma attached_disks sv w : attached sv w <-> attachedD sv (node.disks w).
Proof.
  unfold attached, attachedD, node.disks. setoid_rewrite lookup_fmap. split.
  - intros (n & Hn & Hb). exists (node.nfs n). rewrite Hn. simpl. unfold node.disk_of. by rewrite Hb.
  - intros (f & Hf). destruct (node.nodes w !! peer_String (self sv)) as [n|]; [|done]. exists n.
    unfold node.disk_of in Hf. simpl in Hf. by injection Hf.
Qed.

Lemma dsteps_attached sv D D' : rtc node.dstep D D' -> attachedD sv D -> attachedD sv D'.
Proof.
  induction 1 as [|D D1 D' Hst _ IH]; [done|]. intros [f Hf]. apply IH.
  destruct Hst as [io p f0 bs id data f' r Hp HP|p f0 ob f' Hp _];
    destruct (decide (p = peer_String (self sv))) as [->|Hne];
    try (rewrite Hf in Hp; injection Hp as <- <-; eexists; by rewrite lookup_insert_eq);
    exists f; by rewrite lookup_insert_ne.
Qed.

(** The shard named [id] is where the manifest says: with its holder. *)
Definition placed (D : disksT) (holder id : string) : Prop :=
  exists p, peer_Decode holder = Some p /\ node.has D (peer_String p) id.

Lemma dsteps_placed D D' holder id :
  rtc node.dstep D D' -> blockstore.shard_id id -> placed D holder id -> placed D' holder id.
Proof. intros Hst Hid (p & Hp & Hh). exists p. eauto using node.dsteps_has. Qed.

Lemma on_fs_disks {A} sv (f : wio -> fs -> fs * outcome A) st st' o :
  attached sv (world st) -> on_fs disk sv f st = (st', o) ->
  exists f0 f' , node.disks (world st) !! peer_String (self sv) = Some (f0, Some (blocks sv)) /\
    f (disk (node.tick (world st))) f0 = (f', o) /\
    node.disks (world st') = <[peer_String (self sv) := (f', Some (blocks sv))]> (node.disks (world st)) /\
    cached st' = cached st /\ rng st' = rng st.
Proof.
  intros (n & Hn & Hb). unfold on_fs, on_local, on_world. rewrite Hn.
  destruct (f (disk (node.tick (world st))) (node.nfs n)) as [f' o'] eqn:Ef. intros [= <- <-].
  exists (node.nfs n), f'. unfold node.disks. simpl. rewrite lookup_fmap, Hn, fmap_insert. unfold node.disk_of. simpl.
  by rewrite Hb.
Qed.

(** Storing a shard under its hash, here or on a peer, places it. *)
Lemma local_put_placed sv sh st st' :
  attached sv (world st) -> local_put disk sv (blockstore.HashOf sh) sh st = (st', Ok tt) ->
  rtc node.dstep (node.disks (world st)) (node.disks (world st')) /\
  placed (node.disks (world st')) (peer_String (self sv)) (blockstore.HashOf sh).
Proof.
  intros Ha E. unfold local_put in E. destruct (on_fs_disks _ _ _ _ _ Ha E) as (f0 & f' & HD & HP & HD' & _).
  rewrite HD'. split; [apply rtc_once; by eapply node.ds_put|]. exists (self sv). rewrite peer_Decode_String.
  split; [done|]. exists sh. split; [|done].
  unfold node.shard_in. rewrite lookup_insert_eq. apply blockstore.Put_spec in HP as [_ Hf].
  specialize (Hf (blockstore.path_of (blocks sv) (blockstore.HashOf sh))). rewrite decide_True in Hf by done.
  apply blockstore.Get_file_at in Hf. by rewrite Hf.
Qed.

Lemma put_shard_placed sv holder p sh st st' :
  peer_Decode holder = Some p -> put_shard fate clock disk sv p (blockstore.HashOf sh) sh st = (st', Ok tt) ->
  rtc node.dstep (node.disks (world st)) (node.disks (world st')) /\
  placed (node.disks (world st')) holder (blockstore.HashOf sh).
Proof.
  intros Hp E. pose proof (blockstore.HashOf_shard_id sh) as Hid. unfold put_shard, on_world in E.
  destruct (node.PutShardOnPeer _ _ _ _ _ _ _ _) as [w' o] eqn:HP. injection E as <- ->. simpl.
  split; [by eapply node.PutShardOnPeer_steps|]. apply node.PutShardOnPeer_Ok in HP as (_ & _ & Hs); [|done].
  exists p. split; [done|]. by exists sh.
Qed.

(** *** The queue for holders that are away *)

(** The directories of [sv]'s shards and of its spool, as [Open] names them, and
    holders whose names are file names. *)
Definition spool_apart sv (hl : list string) : Prop :=
  forall sp, spool sv = Some sp ->
    (exists base, spool.root sp = base ++ ["spool"] /\ blockstore.root (blocks sv) = base ++ ["blocks"]) /\
    Forall (fun h => plain_name h = true) hl.

(** The shard named [id] waits in the spool of [sv] for its holder. *)
Definition queued sv (D : disksT) (holder id : string) : Prop :=
  exists sp f ob data, spool sv = Some sp /\ D !! peer_String (self sv) = Some (f, ob) /\
    file_at f (spool.item_path sp holder spool.KindShard id) = Some data /\ blockstore.HashOf data = id.

Definition lodged sv (D : disksT) (holder id : string) : Prop := placed D holder id \/ queued sv D holder id.

(** What goes on in an upload: shards are stored, and nothing leaves the queue. *)
Definition grows sv (D D' : disksT) : Prop :=
  rtc node.dstep D D' /\ forall h id, queued sv D h id -> queued sv D' h id.

Lemma grows_refl sv D : grows sv D D.
Proof. by split. Qed.

Lemma grows_trans sv D1 D2 D3 : grows sv D1 D2 -> grows sv D2 D3 -> grows sv D1 D3.
Proof. intros [R1 Q1] [R2 Q2]. split; [by etrans|auto]. Qed.

Lemma grows_same sv D D' : rtc node.dstep D D' -> D' !! peer_String (self sv) = D !! peer_String (self sv) -> grows sv D D'.
Proof. intros R E. split; [done|]. intros h id (sp & f & ob & data & Hsp & Hf & Hd). exists sp, f, ob, data. by rewrite E. Qed.

Lemma grows_lodged sv D D' h id : grows sv D D' -> blockstore.shard_id id -> lodged sv D h id -> lodged sv D' h id.
Proof. intros [R Q] Hid [Hp|Hq]; [left; by eapply dsteps_placed|right; auto]. Qed.

Lemma grows_attached sv D D' : grows sv D D' -> attachedD sv D -> attachedD sv D'.
Proof. intros [R _]. by apply dsteps_attached. Qed.

(** Queue paths are not shard paths. *)
Lemma apart_paths base a b (l l' : path) : a <> b -> (base ++ [a]) ++ l <> (base ++ [b]) ++ l'.
Proof. intros Hne E. rewrite <- !app_assoc in E. apply app_inv_head in E. by injection E. Qed.

Lemma local_put_grows sv sh st st' :
  (forall sp, spool sv = Some sp -> exists base, spool.root sp = base ++ ["spool"] /\ blockstore.root (blocks sv) = base ++ ["blocks"]) ->
  attached sv (world st) -> local_put disk sv (blockstore.HashOf sh) sh st = (st', Ok tt) ->
  grows sv (node.disks (world st)) (node.disks (world st')) /\
  placed (node.disks (world st')) (peer_String (self sv)) (blockstore.HashOf sh).
Proof.
  intros Hap Ha E. destruct (local_put_placed _ _ _ _ Ha E) as [R P]. split; [|done]. split; [done|].
  unfold local_put in E. destruct (on_fs_disks _ _ _ _ _ Ha E) as (f0 & f' & HD & HP & HD' & _).
  intros h id (sp & f & ob & data & Hsp & Hf & Hd & Hh). rewrite HD in Hf. injection Hf as <- <-.
  destruct (Hap sp Hsp) as (base & B1 & B2). exists sp, f', (Some (blocks sv)), data. rewrite HD', lookup_insert_eq.
  split_and!; try done. apply blockstore.Put_spec in HP as [_ HP]. rewrite HP, decide_False; [done|].
  rewrite blockstore.shard_path by apply blockstore.HashOf_shard_id. unfold spool.item_path. rewrite B1, B2.
  by apply apart_paths.
Qed.

(** Queueing an item touches no shard. *)
Lemma enqueue_step (D : disksT) (node : string) (base : path) (sp : spool.Spool) (io : wio) (f f' : fs) (ob : option blockstore.Store)
    (peerID kind key : string) (data : bytes) (r : outcome unit) :
  spool.root sp = base ++ ["spool"] -> (forall bs, ob = Some bs -> blockstore.root bs = base ++ ["blocks"]) ->
  plain_name peerID = true -> kind = spool.KindShard \/ kind = spool.KindManifest ->
  hex_string key = true -> key <> "" -> D !! node = Some (f, ob) ->
  spool.write io f sp peerID kind key data = (f', r) -> node.dstep D (<[node := (f', ob)]> D).
Proof.
  intros B1 B2 Hp Hk Hh Hne HD HW. apply node.ds_other with f; [done|]. intros bs id -> Hid. specialize (B2 bs eq_refl).
  unfold blockstore.Get, ReadFile. rewrite spool.write_shape in HW by done.
  rewrite (write_rename_lookup _ _ _ _ _ _ _ _ HW); [done|..]; rewrite blockstore.shard_path, B1, B2 by done.
  - intros [k E]. rewrite <- !app_assoc in E. apply app_inv_head in E. by injection E.
  - intros c. rewrite <- !app_assoc. intros E. apply app_inv_head in E. by injection E.
Qed.

(** Queueing an item, whether it succeeds or not, touches no shard and no other
    item. *)
Lemma enqueue_grows sv (sp : spool.Spool) (io : wio) (f f' : fs) (ob : option blockstore.Store) (peerID kind key : string) (data : bytes) (r : outcome unit) (D : disksT) :
  spool sv = Some sp -> (exists base, spool.root sp = base ++ ["spool"] /\ blockstore.root (blocks sv) = base ++ ["blocks"]) ->
  plain_name peerID = true -> kind = spool.KindShard /\ key = blockstore.HashOf data \/ kind = spool.KindManifest ->
  hex_string key = true -> key <> "" -> D !! peer_String (self sv) = Some (f, ob) -> ob = Some (blocks sv) ->
  spool.write io f sp peerID kind key data = (f', r) ->
  grows sv D (<[peer_String (self sv) := (f', ob)]> D) /\
  (kind = spool.KindShard -> r = Ok tt -> queued sv (<[peer_String (self sv) := (f', ob)]> D) peerID key).
Proof.
  intros Hsp (base & B1 & B2) Hp Hk Hh Hne HD -> HW.
  assert (Hk' : kind = spool.KindShard \/ kind = spool.KindManifest) by (destruct Hk as [[? _]|?]; auto).
  pose proof (spool.write_files _ _ _ _ _ _ _ _ _ Hk' Hp Hh Hne HW) as HF. split; [split|].
  - apply rtc_once. eapply enqueue_step; [exact B1| |done..|exact HW]. by intros bs [= <-].
  - intros h id (sp' & f0 & ob & d & Hsp' & Hf0 & Hd & Hid). rewrite Hsp in Hsp'. injection Hsp' as <-.
    rewrite HD in Hf0. injection Hf0 as <- <-.
    destruct r as [u|e|]; [|exists sp, f', (Some (blocks sv)), d|done].
    + destruct (decide (spool.item_path sp peerID kind key = spool.item_path sp h spool.KindShard id)) as [E|E].
      * unfold spool.item_path in E. apply app_inv_head in E. injection E as -> E.
        destruct Hk as [[-> ->]| ->]; [|done]. exists sp, f', (Some (blocks sv)), data. rewrite lookup_insert_eq.
        assert (E' : blockstore.HashOf data = id) by (simpl in E; by injection E). rewrite <- E'.
        split_and!; try done. by rewrite HF, decide_True.
      * exists sp, f', (Some (blocks sv)), d. rewrite lookup_insert_eq. split_and!; try done. by rewrite HF, decide_False.
    + rewrite lookup_insert_eq. split_and!; try done. rewrite HF; [done|]. intros rand E. unfold spool.item_path in E.
      apply app_inv_head in E. by injection E.
  - intros -> ->. destruct Hk as [[_ ->]|?]; [|done]. exists sp, f', (Some (blocks sv)), data.
    rewrite lookup_insert_eq. split_and!; try done. by rewrite HF, decide_True.
Qed.

Lemma shard_id_text_hex id : blockstore.shard_id id -> hex_string id = true /\ id <> "".
Proof. intros [? Hl]%blockstore.shard_id_hex. split; [done|]. by intros ->. Qed.

Lemma put_shard_grows sv p id sh st st' (r : outcome unit) :
  blockstore.shard_id id -> put_shard fate clock disk sv p id sh st = (st', r) ->
  grows sv (node.disks (world st)) (node.disks (world st')).
Proof.
  intros Hid E. unfold put_shard, on_world in E.
  destruct (node.PutShardOnPeer _ _ _ _ _ _ _ _) as [w' o] eqn:HP. injection E as <- <-. simpl.
  apply grows_same; [by eapply node.PutShardOnPeer_steps|by eapply node.PutShardOnPeer_self].
Qed.

Lemma ship1_lodged sv hl holder sh st st' :
  spool_apart sv hl -> holder ∈ hl -> attached sv (world st) ->
  ship1 fate clock disk sv holder (blockstore.HashOf sh) sh st = (st', Ok tt) ->
  grows sv (node.disks (world st)) (node.disks (world st')) /\
  lodged sv (node.disks (world st')) holder (blockstore.HashOf sh).
Proof.
  intros Hap Hin Ha. pose proof (blockstore.HashOf_shard_id sh) as Hid. unfold ship1. case_bool_decide as Hh.
  - intros E%wrapped_Ok. rewrite Hh. destruct (local_put_grows sv sh st st') as [? ?]; [|done..|split; [done|by left]].
    intros sp Hsp. apply (Hap sp Hsp).
  - destruct (peer_Decode holder) as [p|] eqn:Hp; [|done]. intros E. apply bind_Ok in E as (st1 & r & E1 & E).
    unfold attempt in E1. destruct (put_shard _ _ _ _ _ _ _ _) as [st2 o] eqn:HP.
    pose proof (put_shard_grows _ _ _ _ _ _ _ Hid HP) as G1.
    assert (st2 = st1 /\ r = o) as [-> ->] by (by destruct o; simplify_eq).
    destruct o as [[]|e|]; [|destruct (spool sv) as [sp|] eqn:Hsp; [|done]|done].
    + injection E as <-. split; [done|]. left. by eapply put_shard_placed.
    + apply bind_Ok in E as (st3 & q & E3 & E). unfold attempt in E3.
      destruct (on_fs _ _ _ st1) as [st4 o] eqn:HF.
      assert (st4 = st3 /\ q = o) as [-> ->] by (by destruct o; simplify_eq).
      destruct o as [[]|e'|]; [|done..]. injection E as <-.
      assert (Ha1 : attached sv (world st1)) by (apply attached_disks; eapply grows_attached; [exact G1|]; by apply attached_disks).
      destruct (on_fs_disks _ _ _ _ _ Ha1 HF) as (f0 & f' & HD & HW & -> & _).
      destruct (Hap sp Hsp) as [Hb Hpl]. rewrite Forall_forall in Hpl. destruct (shard_id_text_hex _ Hid) as [Hx Hne].
      destruct (enqueue_grows sv sp (disk (node.tick (world st1))) f0 f' (Some (blocks sv)) holder spool.KindShard (blockstore.HashOf sh) sh (Ok tt)
        (node.disks (world st1)) Hsp Hb (Hpl holder Hin)) as [G2 Q]; [by left|done..|].
      split; [by eapply grows_trans|]. right. by apply Q.
Qed.

Lemma ship_lodged sv hl shards : forall i st st' ids,
  spool_apart sv hl -> attached sv (world st) -> 0 <= i ->
  ship fate clock disk sv hl i shards st = (st', Ok ids) ->
  grows sv (node.disks (world st)) (node.disks (world st')) /\
  forall j id, ids !! j = Some id -> exists h, hl !! (Z.to_nat i + j)%nat = Some h /\ lodged sv (node.disks (world st')) h id.
Proof.
  induction shards as [|sh shards IH]; intros i st st' ids Hsp Ha Hi HS; cbn [ship] in HS.
  { injection HS as <- <-. split; [apply grows_refl|done]. }
  apply bind_Ok in HS as (st1 & holder & E1 & HS). apply lift_Ok in E1 as [[_ Hh]%index_Ok ->].
  apply bind_Ok in HS as (st2 & [] & E2 & HS).
  destruct (ship1_lodged _ hl _ _ _ _ Hsp ltac:(by eapply list_elem_of_lookup_2) Ha E2) as [R2 P2].
  apply bind_Ok in HS as (st3 & ids' & E3 & HS). injection HS as <- <-.
  assert (Ha2 : attached sv (world st2)).
  { apply attached_disks. eapply grows_attached; [exact R2|]. by apply attached_disks. }
  destruct (IH (i + 1) st2 st3 ids' Hsp Ha2 ltac:(lia) E3) as [R3 P3]. split; [by eapply grows_trans|].
  intros [|j] id Hj; simpl in Hj.
  - injection Hj as <-. exists holder. rewrite Nat.add_0_r. split; [done|].
    eapply grows_lodged; [exact R3|apply blockstore.HashOf_shard_id|done].
  - destruct (P3 j id Hj) as (h & Hh' & Hp). exists h. split; [|done]. rewrite <- Hh'. f_equal. lia.
Qed.

(** All shards of a list of stripes are with their holders. *)
Definition all_placed (D : disksT) (hl : list string) (stripes : list manifest.Stripe) : Prop :=
  forall stripe j id, stripe ∈ stripes -> manifest.ShardIDs stripe !! j = Some id ->
    exists h, hl !! j = Some h /\ blockstore.shard_id id /\ placed D h id.

(** The same, or on the way to them. *)
Definition all_lodged sv (D : disksT) (hl : list string) (stripes : list manifest.Stripe) : Prop :=
  forall stripe j id, stripe ∈ stripes -> manifest.ShardIDs stripe !! j = Some id ->
    exists h, hl !! j = Some h /\ blockstore.shard_id id /\ lodged sv D h id.

Lemma grows_all_lodged sv D D' hl stripes : grows sv D D' -> all_lodged sv D hl stripes -> all_lodged sv D' hl stripes.
Proof. intros G HL stripe j id Hs Hj. destruct (HL stripe j id Hs Hj) as (h & ? & ? & ?). exists h. eauto using grows_lodged. Qed.

Lemma uploadStripe_lodged sv key hl idx pt st st' stripe :
  spool_apart sv hl -> attached sv (world st) ->
  uploadStripe fate clock disk sv key hl idx pt st = (st', Ok stripe) ->
  grows sv (node.disks (world st)) (node.disks (world st')) /\
  all_lodged sv (node.disks (world st')) hl [stripe].
Proof.
  intros Hsp Ha HU. unfold uploadStripe in HU.
  apply bind_Ok in HU as (st1 & ct & E1 & HU). apply wrapped_Ok, on_rng_Ok in E1 as (r & _ & ->).
  apply bind_Ok in HU as (st2 & shards & E2 & HU). apply wrapped_Ok, lift_Ok in E2 as [_ ->].
  apply bind_Ok in HU as (st3 & ids & E3 & HU). injection HU as <- <-.
  pose proof (ship_ids _ _ _ _ _ _ _ E3) as Hids. apply ship_lodged in E3 as [R3 P3]; [|done|done|lia].
  split; [exact R3|]. intros s j id Hs Hj. apply list_elem_of_singleton in Hs as ->. simpl in Hj.
  destruct (P3 j id Hj) as (h & Hh & Hp). exists h. split_and!; [exact Hh| |done].
  rewrite Hids, list_lookup_fmap in Hj. destruct (shards !! j) as [sh|]; [|done]. injection Hj as <-.
  apply blockstore.HashOf_shard_id.
Qed.

Lemma put_loop_lodged sv key hl fuel : forall idx body st st' stripes n,
  spool_apart sv hl -> attached sv (world st) ->
  put_loop fate clock disk fuel sv key hl idx body st = (st', Ok (stripes, n)) ->
  grows sv (node.disks (world st)) (node.disks (world st')) /\
  all_lodged sv (node.disks (world st')) hl stripes.
Proof.
  induction fuel as [|fuel IH]; intros idx body st st' stripes n Hsp Ha HP; cbn [put_loop] in HP; [done|].
  destruct (ReadFull_body body (stripeSize sv)) as [[buf body'] e].
  destruct ((zlen buf =? 0) && is_end e).
  { injection HP as <- <- _. split; [apply grows_refl|]. intros s j id Hs. by apply elem_of_nil in Hs. }
  apply bind_Ok in HP as (st1 & stripe & E1 & HP). apply wrapped_Ok in E1.
  apply uploadStripe_lodged in E1 as [R1 P1]; [|done..].
  destruct (is_end e); [by injection HP as <- <- _|]. destruct e as [e|]; [done|].
  apply bind_Ok in HP as (st2 & [ss' n'] & E2 & HP). injection HP as <- <- _.
  assert (Ha1 : attached sv (world st1)).
  { apply attached_disks. eapply grows_attached; [exact R1|]. by apply attached_disks. }
  destruct (IH _ _ _ _ _ _ Hsp Ha1 E2) as [R2 P2]. split; [by eapply grows_trans|].
  intros s j id [->|Hs]%elem_of_cons Hj; [|by apply (P2 s)].
  by apply (grows_all_lodged _ _ _ _ _ R2 P1 stripe j id ltac:(constructor)).
Qed.

(** ** The local store *)

Definition local_store sv st : option db := node.nstore <$> (node.nodes (world st) !! peer_String (self sv)).

(** A step that touches no disk and leaves the local store alone. *)
Definition silent sv st st' : Prop :=
  node.disks (world st') = node.disks (world st) /\ local_store sv st' = local_store sv st.

Lemma on_rng_silent {A} sv (f : bytes -> bytes * outcome A) st st' o : on_rng f st = (st', o) -> silent sv st st'.
Proof. unfold on_rng. destruct (f (rng st)). by intros [= <- <-]. Qed.

Lemma on_local_store {A} sv (f : db -> db * outcome A) st st' o s :
  local_store sv st = Some s -> on_store disk sv f st = (st', o) ->
  node.disks (world st') = node.disks (world st) /\ exists s', f s = (s', o) /\ local_store sv st' = Some s'.
Proof.
  unfold local_store, on_store, on_local, on_world.
  destruct (node.nodes (world st) !! peer_String (self sv)) as [n|] eqn:Hn; [|done]. intros [= <-].
  destruct (f (node.nstore n)) as [s' o'] eqn:Hf. intros [= <- <-]. simpl. rewrite lookup_insert_eq. split; [|eauto].
  unfold node.disks. simpl. rewrite fmap_insert. apply insert_id. by rewrite lookup_fmap, Hn.
Qed.

Lemma with_store_Ok {A} sv (f : db -> outcome A) st st' a :
  with_store disk sv f st = (st', Ok a) ->
  silent sv st st' /\ exists s, local_store sv st = Some s /\ f s = Ok a.
Proof.
  unfold with_store, on_local, on_world, silent, local_store.
  destruct (node.nodes (world st) !! peer_String (self sv)) as [n|] eqn:Hn; [|done]. intros [= <- Ha]. simpl.
  rewrite insert_id by done. rewrite Hn. split_and!; [done..|by exists (node.nstore n)].
Qed.

Lemma silent_trans sv st1 st2 st3 : silent sv st1 st2 -> silent sv st2 st3 -> silent sv st1 st3.
Proof. intros [? ?] [? ?]. split; congruence. Qed.

Lemma wrapForMode_silent sv mode key name g st st' o :
  wrapForMode sv mode key name g st = (st', o) -> silent sv st st'.
Proof.
  unfold wrapForMode, bind. repeat case_bool_decide; simpl; try by intros [= <- _].
  - destruct (on_rng _ st) as [st1 r] eqn:E1. apply (on_rng_silent sv) in E1. by destruct r; intros [= <- _].
  - destruct (on_rng _ st) as [st1 r] eqn:E1. apply (on_rng_silent sv) in E1.
    destruct r; try by intros [= <- _]. destruct (on_rng _ st1) as [st2 r2] eqn:E2. apply (on_rng_silent sv) in E2.
    pose proof (silent_trans _ _ _ _ E1 E2). by destruct r2; intros [= <- _].
Qed.

(** What wrapping sealed, unwrapping opens: the file key for the owner (for
    every member in shared mode), and the file name. *)
Lemma wrap_unwrap sv mode key name g st st' wk dn enc m :
  box_pair (EncPub sv) (EncPriv sv) -> length (EncPriv sv) = crypto.EncPrivSize ->
  wrapForMode sv mode key name g st = (st', Ok (wk, dn, enc)) ->
  manifest.Mode m = mode -> manifest.WrappedKey m = wk -> manifest.Filename m = dn ->
  manifest.FilenameEncrypted m = enc -> manifest.OwnerPeerID m = peer_String (self sv) ->
  unwrapForMode sv m g = Ok key /\ maybeDecryptFilename m key = name /\
  (mode = manifest.ModeShared -> forall sv', unwrapForMode sv' m g = Ok key).
Proof.
  intros Hb Hl HW HM HK HF HE HO. unfold wrapForMode in HW. unfold unwrapForMode, maybeDecryptFilename.
  rewrite HM, HK, HE, HF, HO. case_bool_decide as Em.
  - rewrite Em. case_bool_decide as Hs; simpl in HW |- *; [|done].
    apply bind_Ok in HW as (st1 & w & E1 & HW). injection HW as _ <- <- <-.
    apply on_rng_Ok in E1 as (r & E1 & _). apply crypto.OpenAES_SealAES in E1. rewrite E1. auto.
  - case_bool_decide as Ep; [|done]. rewrite Ep. case_bool_decide as Hs; simpl in HW |- *; [|done].
    apply bind_Ok in HW as (st1 & w & E1 & HW). apply bind_Ok in HW as (st2 & ct & E2 & HW).
    injection HW as _ <- <- <-. apply on_rng_Ok in E1 as (r1 & E1 & _). apply on_rng_Ok in E2 as (r2 & E2 & _).
    rewrite b64_decode_encode, (crypto.OpenAES_SealAES _ _ _ _ _ E2), string_bytes_string.
    rewrite (bool_decide_eq_true_2 (peer_String (self sv) = peer_String (self sv))) by done. simpl.
    split; [by eapply crypto.OpenAnonymous_SealAnonymous|]. split; [done|]. by intros E.
Qed.

(** ** The manifest on its way to the holders *)

Lemma PutManifestRaw_effect sv p fid raw w w' o :
  text_ok fid = true -> node.PutManifestRawOnPeer fate clock disk w (peer_String (self sv)) p fid raw = (w', o) ->
  rtc node.dstep (node.disks w) (node.disks w') /\
  node.nodes w' !! peer_String (self sv) = node.nodes w !! peer_String (self sv).
Proof.
  intros Hid HP. unfold node.PutManifestRawOnPeer in HP. destruct (node.blockRequest _ _ _ _ _ _ _) as [w1 r] eqn:HB.
  assert (Ew : w' = w1) by (repeat case_match; by simplify_eq). subst w1. clear HP.
  assert (Hok : node.request_ok (node.NewRequest node.OpPutManifest fid raw) = true)
    by (unfold node.request_ok; simpl; by rewrite Hid).
  split; [by eapply node.blockRequest_disks|].
  apply node.blockRequest_inv in HB as [[-> _]|(n & Hne & _ & HS)]; [done| |done].
  destruct (node.serveBlock _ n _). destruct HS as [-> _]. by rewrite lookup_insert_ne.
Qed.

Lemma on_fs_store {A} sv (f : wio -> fs -> fs * outcome A) st st' o :
  on_fs disk sv f st = (st', o) -> local_store sv st' = local_store sv st.
Proof.
  unfold on_fs, on_local, on_world, local_store. destruct (node.nodes (world st) !! _) as [n|] eqn:Hn; [|intros [= <- <-]; simpl; by rewrite Hn].
  destruct (f _ _) as [f' o']. intros [= <- <-]. simpl. by rewrite lookup_insert_eq.
Qed.

Lemma replicate_effect sv fid raw hl : forall st st' o,
  spool_apart sv hl -> hex_string fid = true -> fid <> "" -> attached sv (world st) ->
  replicate_manifest fate clock disk sv fid raw hl st = (st', o) ->
  grows sv (node.disks (world st)) (node.disks (world st')) /\ local_store sv st' = local_store sv st.
Proof.
  induction hl as [|h hl IH]; intros st st' o Hsp Hid Hne Ha HR; cbn [replicate_manifest] in HR;
    [injection HR as <- _; split; [apply grows_refl|done]|].
  assert (Hsp' : spool_apart sv hl) by (intros sp E; destruct (Hsp sp E) as [? ?%Forall_cons]; intuition).
  case_bool_decide; [by eapply IH|]. destruct (peer_Decode h) as [p|]; [|by eapply IH].
  unfold bind at 1, attempt at 1, on_world at 1 in HR.
  destruct (node.PutManifestRawOnPeer _ _ _ _ _ _ _ _) as [w' r] eqn:HP.
  destruct (PutManifestRaw_effect _ _ _ _ _ _ _ (node.hex_string_text _ Hid) HP) as [HD HN].
  set (st1 := NewFS w' (rng st) (cached st)) in *.
  assert (HL : local_store sv st1 = local_store sv st) by (unfold local_store; simpl; by rewrite HN).
  assert (G1 : grows sv (node.disks (world st)) (node.disks (world st1)))
    by (apply grows_same; [done|]; unfold node.disks; simpl; by rewrite !lookup_fmap, HN).
  assert (Ha1 : attached sv (world st1)) by (apply attached_disks; eapply grows_attached; [exact G1|]; by apply attached_disks).
  assert (Hgo : forall st2, grows sv (node.disks (world st1)) (node.disks (world st2)) -> local_store sv st2 = local_store sv st1 ->
    replicate_manifest fate clock disk sv fid raw hl st2 = (st', o) ->
    grows sv (node.disks (world st)) (node.disks (world st')) /\ local_store sv st' = local_store sv st).
  { intros st2 G2 L2 HR2. apply IH in HR2 as [G3 L3]; [|done..|].
    - split; [by do 2 (eapply grows_trans; [eassumption|])|congruence].
    - apply attached_disks. eapply grows_attached; [exact G2|]. by apply attached_disks. }
  destruct r as [u|e|]; [| |by injection HR as <- _].
  - unfold bind, ret in HR. apply (Hgo st1); [apply grows_refl|done|exact HR].
  - destruct (spool sv) as [sp|] eqn:Es; unfold bind in HR; [|apply (Hgo st1); [apply grows_refl|done|exact HR]].
    unfold attempt in HR. destruct (on_fs _ _ _ st1) as [st2 q] eqn:HF.
    destruct (on_fs_disks _ _ _ _ _ Ha1 HF) as (f0 & f' & HD0 & HW & HD' & _). destruct (Hsp sp Es) as [Hb Hpl].
    apply Forall_cons in Hpl as [Hpl _].
    destruct (enqueue_grows sv sp (disk (node.tick (world st1))) f0 f' (Some (blocks sv)) h spool.KindManifest fid raw q
      (node.disks (world st1)) Es Hb Hpl) as [G2 _]; [by right|done..|]. rewrite <- HD' in G2.
    pose proof (on_fs_store _ _ _ _ _ HF) as L2.
    destruct q as [v|e'|]; [apply (Hgo st2); done..|]. injection HR as <- _. split; [by eapply grows_trans|congruence].
Qed.

Lemma pname_not_manifest fid fid' : pnameKey fid <> manifest.key fid'.
Proof. done. Qed.

Lemma savePrivateName_keeps s fid name s' o fid' :
  savePrivateName s fid name = (s', o) -> manifest.Get s' fid' = manifest.Get s fid'.
Proof.
  unfold savePrivateName. case_bool_decide; [by intros [= <- _]|].
  destruct (Marshal name); [|by intros [= <- _]..]. intros HP. unfold manifest.Get.
  by rewrite (store.Put_other _ _ _ _ _ _ HP (not_eq_sym (pname_not_manifest _ _))).
Qed.

(** The phases of a successful [Put]. *)
Record upload_trace sv filename (body : Body) opts st st' m g key stw stw' stl : Prop := {
  ut_group : exists s, local_store sv st = Some s /\ resolveGroup s (OptGroupID opts) = Ok g;
  ut_silent : silent sv st stw;
  ut_wrap : wrapForMode sv (manifest.Mode m) key filename g stw =
    (stw', Ok (manifest.WrappedKey m, manifest.Filename m, manifest.FilenameEncrypted m));
  ut_loop : put_loop fate clock disk (S (length (content body))) sv key (manifest.Holders m) 0 body stw' =
    (stl, Ok (manifest.Stripes m, manifest.Size m));
  ut_nonempty : manifest.Size m <> 0;
  ut_fields : manifest.GroupID m = group.ID g /\ params_of m = params sv /\
    manifest.StripeDataSize m = stripeSize sv /\ manifest.OwnerPeerID m = peer_String (self sv);
  ut_id : hex_string (manifest.FileID m) = true /\ manifest.FileID m <> "";
  ut_holders : zlen (manifest.Holders m) = manifest.DataShards m + manifest.ParityShards m;
  ut_after : spool_apart sv (manifest.Holders m) -> attached sv (world stl) ->
    grows sv (node.disks (world stl)) (node.disks (world st')) /\
    (is_Some (local_store sv stl) -> manifest.manifest_ok m = true ->
     exists s, local_store sv st' = Some s /\ manifest.Get s (manifest.FileID m) = Ok (manifest.manifest_norm m));
  ut_members : exists s mids, local_store sv st = Some s /\ groupMemberIDs s (group.ID g) = Ok mids /\ manifest.Holders m ⊆ mids
}.

(** What follows the loop: the manifest is saved here, then sent around. *)
Lemma Put_tail sv m filename raw st1 st2 st3 st' q o :
  spool_apart sv (manifest.Holders m) -> hex_string (manifest.FileID m) = true -> manifest.FileID m <> "" ->
  attached sv (world st1) -> on_store disk sv (fun s => manifest.Put s m) st1 = (st2, Ok tt) ->
  (if bool_decide (manifest.Mode m = manifest.ModePrivate)
   then attempt (on_store disk sv (fun s => savePrivateName s (manifest.FileID m) filename))
   else ret (Ok tt)) st2 = (st3, Ok q) ->
  replicate_manifest fate clock disk sv (manifest.FileID m) raw (manifest.Holders m) st3 = (st', Ok o) ->
  grows sv (node.disks (world st1)) (node.disks (world st')) /\
  (is_Some (local_store sv st1) -> manifest.manifest_ok m = true ->
   exists s, local_store sv st' = Some s /\ manifest.Get s (manifest.FileID m) = Ok (manifest.manifest_norm m)).
Proof.
  intros Hsp Hid Hne Ha E1 E2 E3.
  destruct (local_store sv st1) as [s1|] eqn:Hs1.
  2: { exfalso. unfold local_store in Hs1. unfold on_store, on_local, on_world in E1.
       by destruct (node.nodes (world st1) !! peer_String (self sv)). }
  destruct (on_local_store _ _ _ _ _ _ Hs1 E1) as [D1 (s2 & P1 & L2)].
  assert (H23 : node.disks (world st3) = node.disks (world st2) /\ exists s3, local_store sv st3 = Some s3 /\
    manifest.Get s3 (manifest.FileID m) = manifest.Get s2 (manifest.FileID m)).
  { case_bool_decide; [|injection E2 as <- _; eauto]. unfold attempt in E2.
    destruct (on_store _ _ _ st2) as [st2' r] eqn:E2'. assert (st2' = st3) as -> by (destruct r; by simplify_eq).
    destruct (on_local_store _ _ _ _ _ _ L2 E2') as [D2 (s3 & P2 & L3)]. split; [done|]. exists s3.
    split; [done|]. by eapply savePrivateName_keeps. }
  destruct H23 as [D2 (s3 & L3 & G3)].
  apply replicate_effect in E3 as [D3 L4]; [|done..|by eapply disks_attached; [|exact Ha]; congruence].
  split; [by rewrite <- D1, <- D2|]. intros _ Hok. exists s3. split; [by rewrite L4|].
  rewrite G3. by eapply manifest.Put_Get_same.
Qed.

Ltac step H x := let st := fresh "st" in let E := fresh "E" in apply bind_Ok in H as (st & x & E & H).

Lemma Put_inv sv filename body opts st st' m :
  0 <= ec.DataShards (params sv) + ec.ParityShards (params sv) ->
  Put fate clock disk sv filename body opts st = (st', Ok m) ->
  exists g key stw stw' stl, upload_trace sv filename body opts st st' m g key stw stw' stl.
Proof.
  intros Hslots HP. unfold Put in HP. step HP g.
  set (mode := if bool_decide (OptMode opts = "") then manifest.ModeShared else OptMode opts) in HP.
  destruct (negb (bool_decide (mode = manifest.ModeShared)) && _); [done|].
  step HP fidRaw. step HP key. step HP mids. destruct (Z.ltb_spec (zlen mids) (ec.DataShards (params sv) + ec.ParityShards (params sv))) as [|Hmem].
  { step HP u. done. }
  step HP w. destruct w as [[wk dn] enc]. step HP now. step HP ln. destruct ln as [stripes total].
  destruct (Z.eqb_spec total 0) as [|Hne]; [done|]. step HP u1. step HP u2. step HP raw. step HP u3.
  step HP u4. step HP u5. injection HP as -> <-.
  assert (Hfid : hex_string (hex_encode fidRaw) = true /\ hex_encode fidRaw <> "").
  { split; [apply hex_encode_string|]. apply on_rng_Ok in E0 as (r0 & [Hl _]%rand_Read_Ok & _). by destruct fidRaw. }
  apply with_store_Ok in E as [S1 Hg]. apply (on_rng_silent sv) in E0, E1. apply with_store_Ok in E2 as [S2 (s2 & Hs2 & Hids)].
  injection E4 as -> _. apply wrapped_Ok in E6, E8. apply lift_Ok in E8 as [_ ->], E10 as [_ ->], E11 as [_ ->].
  destruct u1, u3. exists g, key, st3, st5, st6. split; simpl; try done.
  - by repeat (eapply silent_trans; [eassumption|]).
  - unfold params_of. simpl. by destruct (params sv).
  - apply holders.length_Pick. lia.
  - intros Hsp Ha. destruct Hfid as [F1 F2]. by eapply Put_tail; [exact Hsp|exact F1|exact F2|exact Ha|..].
  - exists s2, mids. split_and!; [|done|intros h; apply holders.Pick_incl].
    destruct S1, E0, E1. congruence.
Qed.

(** ** The manifest at the holders

    Up to the replication an upload leaves the store of every other node as it
    is; each round of the replication files the manifest with the peer it
    reaches, and undoes nothing. *)

Section one_peer.
Context (sv : Service) (q : string) (s : db).
Hypothesis other : q <> peer_String (self sv).

(** A program all of whose runs leave the store of [q] as it is. *)
Definition calmly {A} (c : M A) : Prop :=
  forall st st' o, c st = (st', o) -> node.stands (world st) q s -> node.stands (world st') q s.

Lemma calmly_lift {A} (o : outcome A) : calmly (lift o).
Proof. by intros st st' o' [= <- _]. Qed.

Lemma calmly_ret {A} (a : A) : calmly (ret a).
Proof. apply (calmly_lift (Ok a)). Qed.

Lemma calmly_fail {A} e : calmly (fail (A := A) e).
Proof. apply (calmly_lift (Err e)). Qed.

Lemma calmly_bind {A B} (c : M A) (k : A -> M B) : calmly c -> (forall a, calmly (k a)) -> calmly (bind c k).
Proof.
  intros Hc Hk st st' o. unfold bind. destruct (c st) as [st1 r] eqn:E. intros E2 Hs. pose proof (Hc _ _ _ E Hs).
  destruct r as [a|e|]; [by eapply Hk|by injection E2 as <- _..].
Qed.

Lemma calmly_attempt {A} (c : M A) : calmly c -> calmly (attempt c).
Proof. intros Hc st st' o. unfold attempt. destruct (c st) as [st1 r] eqn:E. destruct r; intros [= <- _]; by eapply Hc. Qed.

Lemma calmly_wrapped {A} msg (c : M A) : calmly c -> calmly (wrapped msg c).
Proof. intros Hc st st' o. unfold wrapped. destruct (c st) as [st1 r] eqn:E. intros [= <- _]. by eapply Hc. Qed.

Lemma calmly_on_rng {A} (f : bytes -> bytes * outcome A) : calmly (on_rng f).
Proof. intros st st' o. unfold on_rng. destruct (f (rng st)). by intros [= <- _]. Qed.

Lemma calmly_on_local {A} (f : wio -> node.NodeState -> node.NodeState * outcome A) : calmly (on_local disk sv f).
Proof.
  intros st st' o. unfold on_local, on_world. destruct (node.nodes (world st) !! peer_String (self sv)) as [n|]; [|by intros [= <- _]].
  destruct (f _ n) as [n' r]. intros [= <- _]. unfold node.stands. simpl. by rewrite lookup_insert_ne.
Qed.

Lemma calmly_with_store {A} (f : db -> outcome A) : calmly (with_store disk sv f).
Proof. apply (calmly_on_local (fun _ n => (n, f (node.nstore n)))). Qed.

Lemma calmly_on_store {A} (f : db -> db * outcome A) : calmly (on_store disk sv f).
Proof. apply (calmly_on_local (fun _ n => let '(s', o) := f (node.nstore n) in (node.set_store n s', o))). Qed.

Lemma calmly_put_shard p id sh : blockstore.shard_id id -> calmly (put_shard fate clock disk sv p id sh).
Proof.
  intros Hid st st' o. unfold put_shard, on_world. destruct (node.PutShardOnPeer _ _ _ _ _ _ _ _) as [w' r] eqn:HP.
  intros [= <- _]. by eapply node.PutShardOnPeer_stands.
Qed.

Lemma calmly_get_shard p id : blockstore.shard_id id -> calmly (get_shard fate clock disk sv p id).
Proof.
  intros Hid st st' o. unfold get_shard, on_world. destruct (node.GetShardFromPeer _ _ _ _ _ _ _) as [w' r] eqn:HP.
  intros [= <- _]. by eapply node.GetShardFromPeer_stands.
Qed.

Ltac calm_step :=
  first [apply calmly_ret | apply calmly_fail | apply calmly_lift | apply calmly_on_rng | apply calmly_on_local
        | apply calmly_put_shard, blockstore.HashOf_shard_id
        | apply calmly_attempt | apply calmly_wrapped | apply calmly_bind; [|intros ?]
        | match goal with |- calmly (match ?x with _ => _ end) => destruct x end ].

Lemma calmly_ship hl shards : forall i, calmly (ship fate clock disk sv hl i shards).
Proof. induction shards as [|sh shards IH]; intros i; cbn [ship]; unfold ship1; repeat (apply IH || calm_step). Qed.

Lemma calmly_uploadStripe key hl idx pt : calmly (uploadStripe fate clock disk sv key hl idx pt).
Proof. unfold uploadStripe. repeat (apply calmly_ship || calm_step). Qed.

Lemma calmly_put_loop key hl fuel : forall idx body, calmly (put_loop fate clock disk fuel sv key hl idx body).
Proof.
  induction fuel as [|fuel IH]; intros idx body; cbn [put_loop]; [apply calmly_lift|].
  destruct (ReadFull_body body (stripeSize sv)) as [[buf body'] e].
  repeat (apply IH || apply calmly_uploadStripe || calm_step).
Qed.

Lemma calmly_wrapForMode mode key name g : calmly (wrapForMode sv mode key name g).
Proof. unfold wrapForMode. repeat calm_step. Qed.

(** All of [Put] before the replication is calm. *)
Lemma Put_replicates filename body opts st st' m :
  Put fate clock disk sv filename body opts st = (st', Ok m) ->
  exists st1 raw, manifest.Marshal' m = Ok raw /\ hex_string (manifest.FileID m) = true /\
    (node.stands (world st) q s -> node.stands (world st1) q s) /\
    replicate_manifest fate clock disk sv (manifest.FileID m) raw (manifest.Holders m) st1 = (st', Ok tt).
Proof.
  intros HP. unfold Put in HP. step HP g.
  set (mode := if bool_decide (OptMode opts = "") then manifest.ModeShared else OptMode opts) in HP.
  destruct (negb (bool_decide (mode = manifest.ModeShared)) && _); [done|].
  step HP fidRaw. step HP key. step HP mids. destruct (_ <? _); [by step HP u|].
  step HP w. destruct w as [[wk dn] enc]. step HP now. step HP ln. destruct ln as [stripes total].
  destruct (total =? 0); [done|]. step HP u1. step HP u2. step HP raw. step HP u3.
  step HP u4. step HP u5. injection HP as -> <-. apply wrapped_Ok, lift_Ok in E8 as [Hraw ->].
  apply lift_Ok in E10 as [_ ->], E11 as [_ ->]. destruct u3. eexists _, raw. split_and!; [exact Hraw|apply hex_encode_string| |exact E9].
  intros Hs. apply (calmly_with_store _ _ _ _ E), (calmly_on_rng _ _ _ _ E0), (calmly_on_rng _ _ _ _ E1) in Hs.
  apply (calmly_with_store _ _ _ _ E2), (calmly_wrapForMode _ _ _ _ _ _ _ E3) in Hs. injection E4 as -> _.
  apply (calmly_put_loop _ _ _ _ _ _ _ _ E5), (calmly_wrapped _ _ (calmly_on_store _) _ _ _ E6) in Hs.
  case_bool_decide; [by apply (calmly_attempt _ (calmly_on_store _) _ _ _ E7) in Hs|by injection E7 as <- _].
Qed.

(** What holds before the rounds to the holders [hl]: the node at [q] has the
    manifest, or one of the rounds goes there. *)
Definition before_rounds (w : node.World) m (hl : list string) : Prop :=
  node.filed_at w q m \/ (node.stands w q s /\ exists h p, h ∈ hl /\ peer_Decode h = Some p /\ peer_String p = q).

Lemma before_rounds_skip w m h hl :
  (forall p, peer_Decode h = Some p -> peer_String p <> q) -> before_rounds w m (h :: hl) -> before_rounds w m hl.
Proof.
  intros Hne [?|(Hs & h' & p & [->|Hh]%elem_of_cons & Hp & Hq)]; [by left|by destruct (Hne p Hp Hq)|right; eauto 10].
Qed.

Lemma before_rounds_same w w' m hl :
  node.nodes w' !! q = node.nodes w !! q -> before_rounds w m hl -> before_rounds w' m hl.
Proof. unfold before_rounds, node.filed_at, node.stands. by intros ->. Qed.

Lemma before_rounds_nil w m : before_rounds w m [] -> node.filed_at w q m.
Proof. intros [?|(_ & h & p & Hh & _)]; [done|]. by apply elem_of_nil in Hh. Qed.

(** A round. *)
Lemma before_rounds_step m raw h p hl w w' r :
  manifest.Unmarshal' raw = Ok m -> manifest.manifest_norm m = m ->
  (forall t, fate t (peer_String (self sv)) q = node.Through) -> store.writable s ->
  node.fits (node.NewRequest node.OpPutManifest (manifest.FileID m) raw) -> node.fits (node.NewResponse true "" []) ->
  peer_Decode h = Some p ->
  node.PutManifestRawOnPeer fate clock disk w (peer_String (self sv)) p (manifest.FileID m) raw = (w', r) ->
  before_rounds w m (h :: hl) -> before_rounds w' m hl.
Proof.
  intros Hraw Hnorm Hfate Hw Hf1 Hf2 Hp HP Hpre.
  eapply (node.PutManifestRawOnPeer_round _ _ _ m raw Hraw Hnorm _ _ _ _ _ q s) in HP;
    [|exact other|apply Hfate|done..|by destruct Hpre as [?|[? _]]; [right|left]].
  destruct HP as [[_ HF]|[Hne HW]]; [by left|]. eapply before_rounds_same; [exact HW|].
  eapply before_rounds_skip; [|exact Hpre]. rewrite Hp. by intros p0 [= <-].
Qed.

Lemma self_elsewhere p : peer_Decode (peer_String (self sv)) = Some p -> peer_String p <> q.
Proof. rewrite peer_Decode_String. intros [= <-]. done. Qed.

(** The rounds of the replication leave the node at [q] with the manifest, once
    one of them goes there. *)
Lemma replicate_files m raw hl :
  manifest.Unmarshal' raw = Ok m -> manifest.manifest_norm m = m ->
  (forall t, fate t (peer_String (self sv)) q = node.Through) -> store.writable s ->
  node.fits (node.NewRequest node.OpPutManifest (manifest.FileID m) raw) -> node.fits (node.NewResponse true "" []) ->
  forall st st', replicate_manifest fate clock disk sv (manifest.FileID m) raw hl st = (st', Ok tt) ->
  before_rounds (world st) m hl -> node.filed_at (world st') q m.
Proof.
  intros Hraw Hnorm Hfate Hw Hf1 Hf2. induction hl as [|h hl IH]; intros st st' HR Hpre; cbn [replicate_manifest] in HR.
  { injection HR as <-. by apply before_rounds_nil. }
  case_bool_decide as Hself.
  { eapply IH; [exact HR|]. eapply before_rounds_skip; [|exact Hpre]. rewrite Hself. apply self_elsewhere. }
  destruct (peer_Decode h) as [p|] eqn:Hp.
  2: { eapply IH; [exact HR|]. eapply before_rounds_skip; [|exact Hpre]. by rewrite Hp. }
  apply bind_Ok in HR as (st1 & r & E1 & HR). apply bind_Ok in HR as (st2 & r2 & E2 & HR). eapply IH; [exact HR|].
  apply (before_rounds_same (world st1)).
  { destruct r, (spool sv); try by injection E2 as <- _. unfold attempt, on_fs, on_local, on_world in E2.
    destruct (node.nodes (world st1) !! peer_String (self sv)); [|done].
    destruct (spool.EnqueueManifest _ _ _ _ _ _) as [f' []]; try done; injection E2 as <- _; simpl; by rewrite lookup_insert_ne. }
  unfold attempt, on_world in E1. destruct (node.PutManifestRawOnPeer _ _ _ _ _ _ _ _) as [w' r'] eqn:HP.
  assert (world st1 = w') as -> by (by destruct r'; injection E1 as <- _). by eapply before_rounds_step.
Qed.

(** A holder that can be reached, whose store takes the write, has the manifest
    when [Put] returns. *)
Lemma Put_replicated filename body opts st st' m raw h p :
  Put fate clock disk sv filename body opts st = (st', Ok m) -> node.stands (world st) q s -> store.writable s ->
  h ∈ manifest.Holders m -> peer_Decode h = Some p -> peer_String p = q ->
  (forall t, fate t (peer_String (self sv)) q = node.Through) ->
  manifest.manifest_ok m = true -> manifest.Marshal' m = Ok raw ->
  node.fits (node.NewRequest node.OpPutManifest (manifest.FileID m) raw) -> node.fits (node.NewResponse true "" []) ->
  node.filed_at (world st') q (manifest.manifest_norm m).
Proof.
  intros HP Hs Hw Hh Hp Hq Hfate Hok Hraw Hf1 Hf2. apply Put_replicates in HP as (st1 & raw' & Hraw' & _ & Hcalm & HR).
  rewrite Hraw in Hraw'. injection Hraw' as <-.
  eapply (replicate_files (manifest.manifest_norm m) raw); [by apply Unmarshal_Marshal| |done|exact Hw|done|done|exact HR|].
  - apply manifest.norm_idemp.
  - right. split; [by apply Hcalm|]. by exists h, p.
Qed.

End one_peer.

(** The holder is another node, up and always within reach of [sv]; its store
    takes the write, and the manifest fits a frame. *)
Definition receptive sv st m (h : string) : Prop :=
  exists p s raw, peer_Decode h = Some p /\ peer_String p <> peer_String (self sv) /\
    (forall t, fate t (peer_String (self sv)) (peer_String p) = node.Through) /\
    node.stands (world st) (peer_String p) s /\ store.writable s /\ manifest.Marshal' m = Ok raw /\
    node.fits (node.NewRequest node.OpPutManifest (manifest.FileID m) raw) /\ node.fits (node.NewResponse true "" []).

(** Every such holder has the manifest when [Put] returns it. *)
Lemma Put_receptive sv filename body opts st st' m h :
  Put fate clock disk sv filename body opts st = (st', Ok m) -> manifest.manifest_ok m = true ->
  h ∈ manifest.Holders m -> receptive sv st m h ->
  exists p, peer_Decode h = Some p /\ node.filed_at (world st') (peer_String p) (manifest.manifest_norm m).
Proof.
  intros HP Hok Hh (p & s & raw & Hp & Hne & Hfate & Hs & Hw & Hraw & Hf1 & Hf2). exists p. split; [done|].
  by eapply Put_replicated.
Qed.

(** ** Correctness *)

(** A service that can upload: sizes within bounds, a key pair of its own. *)
Record configured sv : Prop := {
  cf_stripe : 0 < stripeSize sv;
  cf_alloc : stripeSize sv + 28 <= ec.maxAlloc;
  cf_slots : 0 <= ec.DataShards (params sv) + ec.ParityShards (params sv);
  cf_pair : box_pair (EncPub sv) (EncPriv sv);
  cf_priv : length (EncPriv sv) = crypto.EncPrivSize
}.

(** The manifest [Put] returns stands for the bytes it read.  The group is
    the one asked for; the wrapped key opens, for the uploader (in shared mode
    for every member holding the group's key), to a key under which the name
    decrypts to the given name; the size is the length of the body; there is
    one stripe per started [StripeDataSize] bytes, and each stripe's record -
    ciphertext length, shard identifiers - is that of a Reed-Solomon code word
    of a ciphertext that opens to exactly that piece of the body. *)
Theorem Put_describes sv filename body opts st st' m :
  configured sv -> Put fate clock disk sv filename body opts st = (st', Ok m) ->
  exists g key,
    (exists s, local_store sv st = Some s /\ resolveGroup s (OptGroupID opts) = Ok g) /\
    manifest.GroupID m = group.ID g /\
    unwrapForMode sv m g = Ok key /\ maybeDecryptFilename m key = filename /\
    (manifest.Mode m = manifest.ModeShared -> forall sv', unwrapForMode sv' m g = Ok key) /\
    manifest.Size m = zlen (content body) /\ content body <> [] /\
    zlen (manifest.Holders m) = manifest.DataShards m + manifest.ParityShards m /\
    records key (params_of m) (manifest.StripeDataSize m) (content body) (manifest.Stripes m).
Proof.
  intros [C1 C2 C3 C4 C5] HP. destruct (Put_inv _ _ _ _ _ _ _ C3 HP) as (g & key & stw & stw' & stl & T).
  destruct T as [T1 T2 T3 T4 T5 (F1 & F2 & F3 & F4) T7 T8 T9].
  destruct (wrap_unwrap _ _ _ _ _ _ _ _ _ _ m C4 C5 T3) as (U1 & U2 & U3); [done..|].
  destruct (put_loop_records _ _ _ _ _ _ _ _ _ _ C1 C2 T4) as [Hsz Hrec].
  exists g, key. rewrite F2, F3. split_and!; try done. intros E. rewrite E in Hsz. done.
Qed.

Lemma choose_list {A B} (P : nat -> A -> B -> Prop) (l : list A) :
  (forall i x, l !! i = Some x -> exists y, P i x y) ->
  exists ys : list B, (forall i x, l !! i = Some x -> exists y, y ∈ ys /\ P i x y) /\
    Forall (fun y => exists i x, l !! i = Some x /\ P i x y) ys.
Proof.
  revert P. induction l as [|x l IH]; intros P HP; [by exists []|].
  destruct (HP 0%nat x eq_refl) as [y Hy]. destruct (IH (fun i => P (S i))) as (ys & Hys & Hall).
  { intros i z Hz. by apply (HP (S i)). }
  exists (y :: ys). split.
  - intros [|i] z Hz; simpl in Hz.
    + injection Hz as <-. exists y. split; [constructor|done].
    + destruct (Hys i z Hz) as (y' & ? & ?). exists y'. split; [by constructor|done].
  - constructor; [by exists 0%nat, x|]. eapply Forall_impl; [exact Hall|]. intros z (i & w & ? & ?). by exists (S i), w.
Qed.

(** No bytes stored anywhere under the name of one of [shards] collide with it. *)
Definition no_collision (D : disksT) (shards : list bytes) : Prop :=
  forall p d sh, sh ∈ shards -> node.shard_in D p (blockstore.HashOf sh) = Some d ->
    blockstore.HashOf d = blockstore.HashOf sh -> d = sh.

(** [sh] has the name and the length of a shard of one of the stripes. *)
Definition shard_of (p : ec.Params) (stripes : list manifest.Stripe) (sh : bytes) : Prop :=
  exists stripe, stripe ∈ stripes /\ blockstore.HashOf sh ∈ manifest.ShardIDs stripe /\
    zlen sh = ec.shard_len p (manifest.CiphertextBytes stripe).

Lemma no_collision_truthful D shards cw :
  node.all_sound D -> no_collision D shards -> (forall sh, sh ∈ cw -> sh ∈ shards) -> truthful D cw.
Proof.
  intros Hs Hn Hin p sh d Hsh Hd. eapply Hn; [by apply Hin|exact Hd|]. unfold node.shard_in in Hd.
  destruct (D !! p) as [[f [bs|]]|] eqn:HD; try done. destruct (blockstore.Get f bs _) eqn:Hg; try done.
  injection Hd as ->. eapply Hs; [exact HD|apply blockstore.HashOf_shard_id|done].
Qed.

Lemma describes_shard_of key p stripe pt ct cw stripes :
  describes key p stripe pt ct cw -> stripe ∈ stripes -> Forall (shard_of p stripes) cw.
Proof.
  intros (Hp & Hct & (_ & Hsz & _) & Hz & _ & _ & Hids) Hs. apply Forall_forall. intros sh Hsh. exists stripe.
  split_and!; [done|rewrite Hids; by apply list_elem_of_fmap_2|]. rewrite <- Hz.
  unfold same_size in Hsz. rewrite Forall_forall in Hsz. unfold zlen at 1. rewrite (Hsz sh Hsh).
  destruct (ec.shard_len_bounds p (zlen ct)) as [Hpos _]; [by apply ec.supported_data| |lia].
  destruct ct; [done|unfold zlen; simpl; lia].
Qed.

Lemma records_hold key p ss content stripes :
  records key p ss content stripes ->
  exists shards, Forall (shard_of p stripes) shards /\
    forall D, node.all_sound D -> no_collision D shards ->
    forall i stripe, stripes !! i = Some stripe ->
    exists ct cw, describes key p stripe (chunk ss content (Z.of_nat i)) ct cw /\ truthful D cw.
Proof.
  intros [_ Hr].
  destruct (choose_list (fun i stripe cw => exists ct, describes key p stripe (chunk ss content (Z.of_nat i)) ct cw) stripes)
    as (cws & Hcws & Hall).
  { intros i x Hx. destruct (Hr i x Hx) as (ct & cw & ?). eauto. }
  exists (concat cws). split.
  { apply Forall_concat. eapply Forall_impl; [exact Hall|]. intros cw (i & stripe & Hi & ct & Hd).
    eapply describes_shard_of; [exact Hd|by eapply list_elem_of_lookup_2]. }
  intros D HD Hn i stripe Hi. destruct (Hcws i stripe Hi) as (cw & Hin & ct & Hde).
  exists ct, cw. split; [done|]. eapply no_collision_truthful; [done..|]. intros sh Hsh.
  apply list_elem_of_In, in_concat. exists cw. by rewrite <- !list_elem_of_In.
Qed.

(** The node of [sv] reaches the holder: it is the node itself, or the network
    lets its requests through. *)
Definition reaches sv (holder : string) : Prop :=
  exists p, peer_Decode holder = Some p /\
    (peer_String p = peer_String (self sv) \/
     forall t, fate t (peer_String (self sv)) (peer_String p) = node.Through).

(** The shards of [m], as they are stored, fit the protocol's frames. *)
Definition frames_fit (D : disksT) m : Prop :=
  forall stripe id, stripe ∈ manifest.Stripes m -> id ∈ manifest.ShardIDs stripe ->
    node.fits (node.NewRequest node.OpGetShard id []) /\
    forall p d, node.shard_in D p id = Some d -> node.fits (node.NewResponse true "" d).

Lemma placed_available sv (D : disksT) holder id :
  placed D holder id -> reaches sv holder ->
  node.fits (node.NewRequest node.OpGetShard id []) ->
  (forall p d, node.shard_in D p id = Some d -> node.fits (node.NewResponse true "" d)) ->
  available fate sv D (id, holder).
Proof.
  intros (p & Hp & d & Hd & _) (p' & Hp' & Hr) F1 F2. rewrite Hp in Hp'. injection Hp' as <-.
  destruct (decide (peer_String p = peer_String (self sv))) as [E|Hne].
  { left. simpl. rewrite <- E. eauto. }
  right. destruct Hr as [|Hr]; [done|]. split.
  - simpl. intros ->. rewrite peer_Decode_String in Hp. by injection Hp as <-.
  - exists p, d. split_and!; eauto.
Qed.

Lemma at_least_zip {A B} (P : A * B -> Prop) (Q : B -> Prop) n (l : list A) (k : list B) :
  length l = length k -> (forall j a b, l !! j = Some a -> k !! j = Some b -> Q b -> P (a, b)) ->
  at_least Q n k -> at_least P n (zip l k).
Proof.
  revert n k. induction l as [|a l IH]; intros n [|b k] Hlen HPQ (sub & Hs & Hn & HQ); try done.
  { apply sublist_nil_r in Hs as ->. by exists []. }
  assert (IH' : forall n, at_least Q n k -> at_least P n (zip l k)).
  { intros n' Hk. apply IH; [by injection Hlen| |done]. intros j x y. apply (HPQ (S j)). }
  apply sublist_cons_r in Hs as [Hs|(sub' & -> & Hs)].
  - destruct (IH' n) as (sub' & ? & ? & ?); [by exists sub|]. exists sub'. split_and!; [by constructor|done..].
  - apply Forall_cons in HQ as [Hb HQ]. destruct (IH' (n - 1)) as (sub2 & ? & ? & ?).
    { exists sub'. split_and!; [done| |done]. unfold zlen in *. simpl in Hn. lia. }
    exists ((a, b) :: sub2). split_and!; [by constructor|unfold zlen in *; simpl in *; lia|].
    constructor; [|done]. by apply (HPQ 0%nat).
Qed.

(** A successful upload has every shard with its holder or in the queue for it. *)
Lemma Put_lodged sv filename body opts st st' m :
  0 <= ec.DataShards (params sv) + ec.ParityShards (params sv) ->
  spool_apart sv (manifest.Holders m) -> attached sv (world st) -> Put fate clock disk sv filename body opts st = (st', Ok m) ->
  grows sv (node.disks (world st)) (node.disks (world st')) /\
  all_lodged sv (node.disks (world st')) (manifest.Holders m) (manifest.Stripes m).
Proof.
  intros Hsl Hsp Ha HP. destruct (Put_inv _ _ _ _ _ _ _ Hsl HP) as (g & key & stw & stw' & stl & T).
  destruct T as [_ [T2 _] T3 T4 _ _ _ _ T9]. apply wrapForMode_silent in T3 as [T3 _].
  assert (Ha' : attached sv (world stw')) by (eapply disks_attached; [|exact Ha]; congruence).
  destruct (put_loop_lodged _ _ _ _ _ _ _ _ _ _ Hsp Ha' T4) as [R P]. rewrite T3, T2 in R.
  destruct (T9 Hsp) as [R' _].
  { apply attached_disks. eapply grows_attached; [exact R|]. by apply attached_disks. }
  split; [by eapply grows_trans|by eapply grows_all_lodged].
Qed.

(** And the manifest is in the uploader's own store. *)
Lemma Put_saved sv filename body opts st st' m :
  0 <= ec.DataShards (params sv) + ec.ParityShards (params sv) ->
  spool_apart sv (manifest.Holders m) -> attached sv (world st) -> Put fate clock disk sv filename body opts st = (st', Ok m) ->
  manifest.manifest_ok m = true ->
  exists s, local_store sv st' = Some s /\ manifest.Get s (manifest.FileID m) = Ok (manifest.manifest_norm m).
Proof.
  intros Hsl Hsp Ha HP Hok. destruct (Put_inv _ _ _ _ _ _ _ Hsl HP) as (g & key & stw & stw' & stl & T).
  destruct T as [_ [T2 _] T3 T4 _ _ _ _ T9]. apply wrapForMode_silent in T3 as [T3 _].
  assert (Ha' : attached sv (world stw')) by (eapply disks_attached; [|exact Ha]; congruence).
  destruct (put_loop_lodged _ _ _ _ _ _ _ _ _ _ Hsp Ha' T4) as [R _].
  assert (Hal : attached sv (world stl)) by (apply attached_disks; eapply grows_attached; [exact R|]; by apply attached_disks).
  destruct (T9 Hsp Hal) as [_ HS]. apply HS; [|done]. destruct Hal as (n & Hn & _). unfold local_store. rewrite Hn. by eexists.
Qed.

Lemma no_spool_placed sv D hl stripes : spool sv = None -> all_lodged sv D hl stripes -> all_placed D hl stripes.
Proof.
  intros Hsp HL stripe j id Hs Hj. destruct (HL stripe j id Hs Hj) as (h & ? & ? & [?|(sp & ? & ? & ? & E & _)]); [eauto|].
  by rewrite Hsp in E.
Qed.

Lemma with_store_run {A} sv (f : db -> outcome A) st s :
  local_store sv st = Some s -> exists st', with_store disk sv f st = (st', f s) /\ silent sv st st' /\ cached st' = cached st.
Proof.
  unfold with_store, on_local, on_world, silent, local_store.
  destruct (node.nodes (world st) !! peer_String (self sv)) as [n|] eqn:Hn; [|done]. intros [= <-]. simpl.
  rewrite insert_id by done. eexists. split_and!; [done|done|simpl; by rewrite Hn|done].
Qed.

(** Opening a file whose manifest is at hand. *)
Lemma OpenReader_local sv fid st s m g key :
  local_store sv st = Some s -> manifest.Get s fid = Ok m -> group.LoadByID s (manifest.GroupID m) = Ok g ->
  unwrapForMode sv m g = Ok key ->
  exists st', OpenReader fate clock disk range sv fid st =
      (st', Ok (NewReader m key 0 (maybeDecryptFilename m key))) /\ silent sv st st' /\ cached st' = cached st.
Proof.
  intros Hs Hm Hg Hk. unfold OpenReader, bind, attempt.
  destruct (with_store_run sv (fun s => manifest.Get s fid) st s Hs) as (st1 & E1 & S1 & C1). rewrite E1, Hm. simpl.
  assert (Hs1 : local_store sv st1 = Some s) by (destruct S1 as [_ S1]; congruence).
  destruct (with_store_run sv (fun s => group.LoadByID s (manifest.GroupID m)) st1 s Hs1) as (st2 & E2 & S2 & C2).
  rewrite E2, Hg. simpl. unfold lift. rewrite Hk. exists st2. split_and!; [done|by eapply silent_trans|congruence].
Qed.

(** The holder has its shard of every stripe. *)
Definition settled (D : disksT) m (h : string) : Prop :=
  forall stripe j id, stripe ∈ manifest.Stripes m -> manifest.ShardIDs stripe !! j = Some id ->
    manifest.Holders m !! j = Some h -> placed D h id.

(** With no queue, every holder is settled once the upload has succeeded, and
    stays so. *)
Lemma no_spool_settled sv D D' m h :
  spool sv = None -> all_lodged sv D (manifest.Holders m) (manifest.Stripes m) -> rtc node.dstep D D' -> settled D' m h.
Proof.
  intros Hsp HL HR stripe j id Hst Hj Hh.
  destruct (no_spool_placed _ _ _ _ Hsp HL stripe j id Hst Hj) as (h' & Hh' & Hid & Hp).
  rewrite Hh in Hh'. injection Hh' as <-. by eapply dsteps_placed.
Qed.

(** What a download needs of the reader's own node: it is up, its store has the
    manifest and the group record, its cache holds nothing wrong for the file,
    and the shards fit the frames of the protocol. *)
Record at_hand sv m g content st : Prop := {
  ah_attached : attached sv (world st);
  ah_store : exists s, local_store sv st = Some s /\
    manifest.Get s (manifest.FileID m) = Ok (manifest.manifest_norm m) /\
    group.LoadByID s (manifest.GroupID m) = Ok g;
  ah_cache : cache.agrees (cached st) (manifest.FileID m) (chunk (manifest.StripeDataSize m) content);
  ah_frames : frames_fit (node.disks (world st)) m
}.

(** And of the others: it reaches at least [k] holders that have their shards. *)
Record can_download sv m g content st : Prop := {
  cd_hand : at_hand sv m g content st;
  cd_reach : at_least (fun h => reaches sv h /\ settled (node.disks (world st)) m h) (manifest.DataShards m) (manifest.Holders m)
}.

(** Opening a stored file gives a reader in working order. *)
Lemma open_ready sv' m g key content st :
  can_download sv' m g content st -> unwrapForMode sv' m g = Ok key ->
  holds_file (node.disks (world st)) m key content ->
  let r := NewReader (manifest.manifest_norm m) key 0 (maybeDecryptFilename m key) in
  exists st1, OpenReader fate clock disk range sv' (manifest.FileID m) st = (st1, Ok r) /\
    ready sv' r content (node.disks (world st)) st1 /\ reachable fate sv' (r_m r) (node.disks (world st)).
Proof.
  intros [[Ha (s & Hs & Hm & Hg) Hc Hf] Hr] Hk HF r. pose proof HF as [F1 F2 F3 F4 F5 F6].
  destruct (OpenReader_local sv' (manifest.FileID m) st s (manifest.manifest_norm m) g key Hs Hm Hg Hk)
    as (st1 & E1 & [D1 _] & C1). exists st1. split_and!; [exact E1| |].
  { constructor; [done|by eapply disks_attached| |by rewrite C1]. by constructor. }
  intros stripe Hst. unfold enough. simpl in Hst |- *.
  apply list_elem_of_lookup_1 in Hst as Hi. destruct Hi as [i Hi].
  destruct (F6 i stripe Hi) as (ct & cw & (_ & _ & (Hcw & _) & _ & _ & _ & Hids) & _).
  refine (at_least_zip _ _ _ _ _ _ _ Hr); [|intros j id h Hid Hh [Hre Hse]].
  - rewrite Hids, length_map. unfold zlen in *. simpl in *. lia.
  - destruct (Hf stripe id Hst) as [G1 G2]; [by eapply list_elem_of_lookup_2|].
    apply placed_available; [by eapply Hse|done..].
Qed.

Lemma download sv' m g key content st fuel :
  can_download sv' m g content st -> unwrapForMode sv' m g = Ok key ->
  holds_file (node.disks (world st)) m key content ->
  zlen content + copy_buffer < 2 ^ 63 -> zlen content < Z.of_nat fuel * copy_buffer ->
  exists st', Get fate clock disk range fuel sv' (manifest.FileID m) st =
    (st', Ok (Some (content, Manifest (NewReader (manifest.manifest_norm m) key 0 (maybeDecryptFilename m key))))).
Proof.
  intros Hcan Hk HF Hb Hfuel. destruct (open_ready sv' m g key content st Hcan Hk HF) as (st1 & E1 & Hready & Hreach).
  set (r := NewReader _ _ _ _) in *.
  destruct (io_Copy_spec fate clock disk sv' content (node.disks (world st)) fuel r [] st1 Hready Hreach)
    as [st2 E2]; [simpl; pose proof (zlen_nonneg content); lia|done|simpl; lia|].
  exists st2. unfold Get, bind. rewrite E1. by rewrite E2.
Qed.

(** [C25] A truncated upload is accepted as complete.  [Put] treats
    [io.ErrUnexpectedEOF] as the end of the body, and an HTTP body cut short by
    the client ends with that very error: the manifest and the state are the
    same as if the client had sent the shorter file. *)
Theorem truncated_upload_accepted sv filename data opts st :
  Put fate clock disk sv filename (NewBody data ErrUnexpectedEOF) opts st =
  Put fate clock disk sv filename (NewBody data EOF) opts st.
Proof.
  assert (HL : forall fuel key hl idx data,
    put_loop fate clock disk fuel sv key hl idx (NewBody data ErrUnexpectedEOF) =
    put_loop fate clock disk fuel sv key hl idx (NewBody data EOF)).
  { induction fuel as [|fuel IH]; intros; [done|]. cbn [put_loop]. unfold ReadFull_body. simpl.
    destruct (stripeSize sv <=? zlen data0); [by rewrite IH|]. destruct (0 <? zlen data0); done. }
  unfold Put. apply bind_ext. intros g st1. cbv zeta. destruct (negb _ && _); [done|]. do 3 (apply bind_ext; intros ? ?).
  destruct (_ <? _); [done|]. apply bind_ext. intros [[wk dn] enc] ?. apply bind_ext. intros ? ?. by rewrite HL.
Qed.

End with_libraries.

(** ** End to end

    The network, clocks and disks of the download are not those of the upload. *)
Section end_to_end.
Context `{Badger, !Sha256, !manifest.ManifestCbor, !ledger.EntryCbor, !node.RequestCbor, !node.ResponseCbor,
  PeerIDs, AesGcm, NaclBox, ReedSolomon, !group.GroupCbor, !group.MemberCbor, !NameCbor}.
Context (fate fate' : nat -> string -> string -> node.Fate) (clock clock' : nat -> Z) (disk disk' : nat -> wio).
Context (range : gmap string group.Member -> list (string * group.Member)).
Implicit Types (sv : Service) (m : manifest.Manifest) (st : FS).

(** A file that was uploaded can be downloaded.  Every shard is with its holder
    or in the uploader's queue, and there are shards with the names and lengths
    the manifest records such that in every later state of the world in which no
    stored bytes collide with one of them, [Get] by the uploader, or in shared
    mode by any member with the group's record, returns the uploaded bytes, under
    the uploaded name, as soon as [k] holders can be reached and are settled. *)
Lemma Put_Get_file sv filename body opts st st1 m :
  configured sv -> spool_apart sv (manifest.Holders m) -> attached sv (world st) -> node.all_sound (node.disks (world st)) ->
  zlen (content body) + copy_buffer < 2 ^ 63 ->
  Put fate clock disk sv filename body opts st = (st1, Ok m) ->
  exists g shards,
    (exists s, local_store sv st = Some s /\ resolveGroup s (OptGroupID opts) = Ok g) /\
    all_lodged sv (node.disks (world st1)) (manifest.Holders m) (manifest.Stripes m) /\
    Forall (shard_of (params_of m) (manifest.Stripes m)) shards /\
    forall sv' st2 fuel,
      sv' = sv \/ manifest.Mode m = manifest.ModeShared ->
      rtc node.dstep (node.disks (world st1)) (node.disks (world st2)) ->
      no_collision (node.disks (world st2)) shards ->
      can_download fate' sv' m g (content body) st2 ->
      zlen (content body) < Z.of_nat fuel * copy_buffer ->
      exists st3 m', Get fate' clock' disk' range fuel sv' (manifest.FileID m) st2 = (st3, Ok (Some (content body, m'))) /\
        manifest.FileID m' = manifest.FileID m /\ (filename <> "" -> manifest.Filename m' = filename).
Proof.
  intros HC Hsp Ha Hsound Hb HP.
  destruct (Put_lodged _ _ _ _ _ _ _ _ _ _ (cf_slots _ HC) Hsp Ha HP) as [[R1 _] P1].
  destruct HC as [C1 C2 C3 C4 C5]. destruct (Put_inv _ _ _ _ _ _ _ _ _ _ C3 HP) as (g & key & stw & stw' & stl & T).
  destruct T as [T1 T2 T3 T4 T5 (F1 & F2 & F3 & F4) T7 T8 T9].
  destruct (wrap_unwrap _ _ _ _ _ _ _ _ _ _ m C4 C5 T3) as (U1 & U2 & U3); [done..|].
  destruct (put_loop_records _ _ _ _ _ _ _ _ _ _ _ _ _ C1 C2 T4) as [Hsz Hrec].
  destruct (records_hold _ _ _ _ _ Hrec) as (shards & Hof & Hshards). exists g, shards. split_and!; [done|done|by rewrite F2|].
  intros sv' st2 fuel Hsv R2 Hn Hcan Hfuel.
  assert (HS2 : node.all_sound (node.disks (world st2))) by (eapply node.dsteps_sound; [exact R2|by eapply node.dsteps_sound]).
  destruct (download fate' clock' disk' range sv' m g key (content body) st2 fuel Hcan) as [st3 E]; [by destruct Hsv as [-> | ?]; auto| |done..|].
  - constructor; rewrite ?F3; try done; [unfold copy_buffer in Hb; lia|apply Hrec|].
    intros i stripe Hi. rewrite F2. by apply Hshards.
  - eexists _, _. split; [exact E|]. unfold Manifest. cbn [decryptedFilename r_m]. rewrite U2. split.
    + by case_bool_decide.
    + intros Hne. by rewrite bool_decide_eq_true_2.
Qed.

End end_to_end.
End upload.
