(* ===== verification/Network.v ===== *)
(** * The network: what the nodes do, act by act

    The operations of the daemons - uploads, downloads, repairs, passes of the
    spool worker, pings, flushes, joins, gossip, and the block server answering
    whatever bytes arrive - change the nodes in a few kinds of atomic acts.  An
    act changes one node: requests are served one at a time, a record of the
    ledger is taken under its mutex, a store transaction commits, one file is
    written or removed.  What holds along every sequence of acts holds for the
    operations in any order and interleaved in any way. *)

From S2P Require Import Prelude Ext Concrete Store Fs Blockstore Crypto Ec Holders Cache Manifest Ledger Group.
From S2P Require Import Blocks Spool Base64 File Reader Upload.

Module network.
Import file reader upload.

Section with_libraries.
Context `{Badger, !Sha256, !manifest.ManifestCbor, !ledger.EntryCbor, !node.RequestCbor, !node.ResponseCbor,
  PeerIDs, AesGcm, NaclBox, ReedSolomon, !group.GroupCbor, !group.MemberCbor, !NameCbor}.

Abbreviation disksT := (gmap string (fs * option blockstore.Store)).
Abbreviation nodesT := (gmap string node.NodeState).

(** The data directory of each node; its shards and its queue are where [Open]
    of the two packages puts them. *)
Context (base : string -> path).

Implicit Types (sv : Service) (m : manifest.Manifest) (N : nodesT) (n : node.NodeState).
Implicit Types (f : fs) (ob : option blockstore.Store) (bs : blockstore.Store) (D : disksT).

Definition spool_of (p : string) : spool.Spool := spool.NewSpool (base p ++ ["spool"]).

(** The names the operating system makes up for temporary files are names. *)
Definition plain_io (io : wio) : Prop := plain_name (tmp_name io) = true.

Definition disks_of N : disksT := node.disk_of <$> N.

(** A queued shard is named by its hash. *)
Definition item_ok (kind key : string) (data : bytes) : Prop :=
  (kind = spool.KindShard /\ key = blockstore.HashOf data \/ kind = spool.KindManifest) /\ hex_string key = true /\ key <> "".

Inductive act N : nodesT -> Prop :=
  | act_serve p n io now remote input :
      N !! p = Some n -> plain_io io -> act N (<[p := (node.handleBlocks io now remote n input).1]> N)
  | act_account p n l : N !! p = Some n -> act N (<[p := node.set_ledger n l]> N)
  | act_manifest p n m s' r :
      N !! p = Some n -> manifest.Put (node.nstore n) m = (s', r) ->
      act N (<[p := node.set_store n s']> N)
  | act_table p n s' :
      N !! p = Some n -> (forall fid, manifest.Get s' fid = manifest.Get (node.nstore n) fid) ->
      act N (<[p := node.set_store n s']> N)
  | act_shard p n io bs id data f' r :
      N !! p = Some n -> node.nblocks n = Some bs -> plain_io io ->
      blockstore.Put io (node.nfs n) bs id data = (f', r) -> act N (<[p := node.set_fs n f']> N)
  | act_queue p n io peerID kind key data f' r :
      N !! p = Some n -> plain_io io -> plain_name peerID = true -> item_ok kind key data ->
      spool.write io (node.nfs n) (spool_of p) peerID kind key data = (f', r) -> act N (<[p := node.set_fs n f']> N)
  | act_sent p n peerID q e :
      N !! p = Some n -> plain_name peerID = true -> spool.item (spool_of p) peerID e -> peer_Decode peerID = Some q ->
      file_at (node.nfs n) (spool.root (spool_of p) ++ [peerID]) = None ->
      (spool.Kind e = spool.KindShard -> blockstore.shard_id (spool.Key e) -> node.has (disks_of N) (peer_String q) (spool.Key e)) ->
      act N (<[p := node.set_fs n (spool.Remove (node.nfs n) e).1]> N)
  | act_file p n f' :
      N !! p = Some n -> spool.os_names f' ->
      (forall d t, d = "blocks" \/ d = "spool" -> f' !! ((base p ++ [d]) ++ t) = node.nfs n !! ((base p ++ [d]) ++ t)) ->
      act N (<[p := node.set_fs n f']> N).

(** ** The invariant of the network *)

(** What is queued as a shard is named by its hash. *)
Definition queue_sound (p : string) f : Prop := forall peerID key data,
  file_at f (spool.item_path (spool_of p) peerID spool.KindShard key) = Some data -> blockstore.HashOf data = key.

Record healthy N : Prop := {
  he_blocks p n bs : N !! p = Some n -> node.nblocks n = Some bs -> blockstore.root bs = base p ++ ["blocks"];
  he_names p n : N !! p = Some n -> spool.os_names (node.nfs n);
  he_sound p n bs : N !! p = Some n -> node.nblocks n = Some bs -> blockstore.sound (node.nfs n) bs;
  he_filed p n : N !! p = Some n -> manifest.filed (node.nstore n);
  he_queue p n : N !! p = Some n -> queue_sound p (node.nfs n)
}.

(** The part of it one node has. *)
Record well p n : Prop := {
  we_blocks bs : node.nblocks n = Some bs -> blockstore.root bs = base p ++ ["blocks"];
  we_names : spool.os_names (node.nfs n);
  we_sound bs : node.nblocks n = Some bs -> blockstore.sound (node.nfs n) bs;
  we_filed : manifest.filed (node.nstore n);
  we_queue : queue_sound p (node.nfs n)
}.

Lemma healthy_well N : healthy N <-> map_Forall well N.
Proof.
  split.
  - intros [E1 E2 E3 E4 E5] p n Hn. split; eauto.
  - intros Hw. split; intros p n; [intros bs Hn|intros Hn|intros bs Hn|intros Hn|intros Hn]; apply (Hw p n Hn).
Qed.

(** Paths all of whose names are plain. *)
Definition plain_path (q : path) : Prop := Forall (fun c => plain_name c = true) q.

Lemma os_names_grow (f f' : fs) :
  spool.os_names f -> (forall q, is_Some (f' !! q) -> is_Some (f !! q) \/ plain_path q) -> spool.os_names f'.
Proof.
  intros Hf HK q c Hq. destruct (HK _ Hq) as [?|Hp]; [by eapply Hf|]. apply Forall_app in Hp as [_ Hp]. by apply Forall_cons in Hp as [? _].
Qed.

Lemma plain_prefix (q d : path) : q `prefix_of` d -> plain_path d -> plain_path q.
Proof. intros [k ->] Hd. by apply Forall_app in Hd as [? _]. Qed.

Lemma Put_names io f bs id data f' r :
  plain_io io -> plain_path (blockstore.root bs) -> spool.os_names f ->
  blockstore.Put io f bs id data = (f', r) -> spool.os_names f'.
Proof.
  intros Hio Hr Hf HP. eapply os_names_grow; [exact Hf|]. intros q Hq.
  destruct (blockstore.Put_keys _ _ _ _ _ _ _ _ HP Hq) as [?|(a & Ha & [Hpre|[->|(i & Hi & ->)]])]; [auto|..]; right.
  - eapply plain_prefix; [exact Hpre|]. apply Forall_app. split; [done|by constructor].
  - apply Forall_app. split; [done|]. by repeat constructor.
  - apply Forall_app. split; [done|]. by repeat constructor.
Qed.

Lemma write_names io f sp peerID kind key data f' r :
  plain_io io -> plain_path (spool.root sp) -> plain_name peerID = true -> item_ok kind key data -> spool.os_names f ->
  spool.write io f sp peerID kind key data = (f', r) -> spool.os_names f'.
Proof.
  intros Hio Hr Hp (Hk & Hh & Hne) Hf HW.
  assert (Hk' : kind = spool.KindShard \/ kind = spool.KindManifest) by (destruct Hk as [[? _]|?]; auto).
  rewrite spool.write_shape in HW by done. eapply os_names_grow; [exact Hf|]. intros q Hq.
  assert (Hd : plain_path (spool.root sp ++ [peerID])) by (apply Forall_app; split; [done|by constructor]).
  destruct (write_rename_keys _ _ _ _ _ _ _ _ HW Hq) as [?|[Hpre|[->| ->]]]; [auto|..]; right.
  - by eapply plain_prefix.
  - apply Forall_app. split; [done|by constructor].
  - apply Forall_app. split; [done|]. constructor; [by apply spool.item_plain|done].
Qed.

Hypothesis plain_base : forall p, plain_path (base p).

Lemma plain_dir p d : plain_name d = true -> plain_path (base p ++ [d]).
Proof. intros Hd. apply Forall_app. split; [apply plain_base|by constructor]. Qed.

(** A write to a node's disk that keeps names and content addressing. *)
Lemma well_fs p n f' :
  well p n -> spool.os_names f' -> (forall bs, node.nblocks n = Some bs -> blockstore.sound f' bs) -> queue_sound p f' ->
  well p (node.set_fs n f').
Proof. intros [W1 W2 W3 W4 W5] Hn Hs. by split. Qed.

Lemma well_ledger p n l : well p n -> well p (node.set_ledger n l).
Proof. intros [W1 W2 W3 W4 W5]. by split. Qed.

Lemma well_store p n s' : well p n -> manifest.filed s' -> well p (node.set_store n s').
Proof. intros [W1 W2 W3 W4 W5] Hf. by split. Qed.

Lemma well_account p n now remote req resp : well p n -> well p (node.account now remote n req resp).
Proof. intros Hw. unfold node.account. repeat case_match; try done; by apply well_ledger. Qed.

Lemma well_put p n io bs id data f' r :
  well p n -> node.nblocks n = Some bs -> plain_io io -> blockstore.Put io (node.nfs n) bs id data = (f', r) ->
  well p (node.set_fs n f').
Proof.
  intros Hw Hb Hio HP. pose proof Hw as [W1 W2 W3 W4 W5]. apply well_fs; [done|..].
  - eapply Put_names; [done| |exact W2|exact HP]. rewrite (W1 bs Hb). by apply plain_dir.
  - intros bs' Hb'. rewrite Hb in Hb'. injection Hb' as <-. by eapply blockstore.Put_sound; [apply W3|].
  - intros peerID key d. rewrite (blockstore.Put_outside _ _ _ _ _ _ _ _ HP); [apply W5|]. intros t. rewrite (W1 bs Hb).
    unfold spool.item_path. simpl. by apply apart_paths.
Qed.

Lemma well_manifest p n m s' r :
  well p n -> manifest.Put (node.nstore n) m = (s', r) -> well p (node.set_store n s').
Proof. intros Hw HP. apply well_store; [done|]. by eapply manifest.Put_filed; [apply Hw|]. Qed.

Lemma well_serve p n io now remote input :
  well p n -> plain_io io -> well p (node.handleBlocks io now remote n input).1.
Proof.
  intros Hw Hio. unfold node.handleBlocks. destruct (node.readFrame input) as [req|e|]; [|done..].
  destruct (node.serveBlock io n req) as [n1 resp] eqn:HS. cbn [fst]. apply well_account.
  unfold node.serveBlock in HS. destruct (node.nblocks n) as [bs|] eqn:Hb; [|by injection HS as <- _].
  repeat (match type of HS with (if ?b then _ else _) = _ => destruct b end).
  - destruct (blockstore.Put io (node.nfs n) bs _ _) as [f' r] eqn:HP.
    assert (n1 = node.set_fs n f') as -> by (destruct r; by injection HS as <- _). by eapply well_put.
  - destruct (blockstore.Get _ _ _); by injection HS as <- _.
  - unfold manifest.Unmarshal' in HS. destruct (Unmarshal _) as [m1|e|] eqn:HU; [|by injection HS as <- _..].
    destruct (negb _); [by injection HS as <- _|]. destruct (manifest.Put (node.nstore n) m1) as [s' r] eqn:HP.
    assert (n1 = node.set_store n s') as -> by (destruct r; by injection HS as <- _).
    by eapply well_manifest.
  - destruct (manifest.Get _ _) as [m1| |]; [destruct (manifest.Marshal' m1)|..]; by injection HS as <- _.
  - by injection HS as <- _.
Qed.

(** An item goes, no shard does. *)
Lemma well_sent p n peerID e :
  well p n -> spool.item (spool_of p) peerID e -> well p (node.set_fs n (spool.Remove (node.nfs n) e).1).
Proof.
  intros Hw Hit. pose proof Hw as [W1 W2 W3 W4 W5]. pose proof (spool.Remove_sub (node.nfs n) e) as Hsub.
  apply well_fs; [done|by eapply spool.os_names_sub| |].
  2: { intros k key data. unfold file_at. destruct ((spool.Remove (node.nfs n) e).1 !! _) as [x|] eqn:E; [|done].
       intros Hx. apply (W5 k key data). unfold file_at. by rewrite (lookup_weaken _ _ _ _ E Hsub). }
  intros bs Hb id data Hid Hg. eapply (W3 bs Hb); [done|].
  apply blockstore.Get_file_at. apply blockstore.Get_file_at in Hg. unfold file_at in Hg |- *.
  destruct ((spool.Remove (node.nfs n) e).1 !! _) as [x|] eqn:E; [|done]. by rewrite (lookup_weaken _ _ _ _ E Hsub).
Qed.

Lemma well_queue p n io peerID kind key data f' r :
  well p n -> plain_io io -> plain_name peerID = true -> item_ok kind key data ->
  spool.write io (node.nfs n) (spool_of p) peerID kind key data = (f', r) -> well p (node.set_fs n f').
Proof.
  intros Hw Hio Hp Hk HW. pose proof Hw as [W1 W2 W3 W4 W5]. pose proof Hk as (Hk1 & Hh & Hne). apply well_fs; [done|..].
  - eapply write_names; [done| |done|done|exact W2|exact HW]. by apply plain_dir.
  - intros bs Hb. set (D := {[ p := (node.nfs n, Some bs) ]} : disksT).
    assert (HD : node.dstep D (<[p := (f', Some bs)]> D)).
    { eapply (enqueue_step _ p (base p) (spool_of p)); [done| |exact Hp| |exact Hh|exact Hne|apply lookup_singleton_eq|exact HW].
      - intros bs' [= <-]. by apply W1.
      - destruct Hk1 as [[? _]|?]; auto. }
    eapply (node.dstep_sound _ _ HD); [|apply lookup_insert_eq].
    intros q g bs' Hq. apply lookup_singleton_Some in Hq as [_ [= <- <-]]. by apply W3.
  - intros k key' d. assert (Hk' : kind = spool.KindShard \/ kind = spool.KindManifest) by (destruct Hk1 as [[? _]|?]; auto).
    pose proof (spool.write_files _ _ _ _ _ _ _ _ _ Hk' Hp Hh Hne HW) as HF. destruct r; [| |done]; rewrite HF.
    + case_decide as E; [|apply W5]. intros [= <-]. unfold spool.item_path in E. apply app_inv_head in E. injection E as _ E.
      destruct Hk1 as [[-> ->]| ->]; [|done]. simpl in E. by injection E.
    + apply W5.
    + intros rand E. unfold spool.item_path in E. apply app_inv_head in E. by injection E.
Qed.

(** A write outside the two directories. *)
Lemma well_file p n f' :
  well p n -> spool.os_names f' ->
  (forall d t, d = "blocks" \/ d = "spool" -> f' !! ((base p ++ [d]) ++ t) = node.nfs n !! ((base p ++ [d]) ++ t)) ->
  well p (node.set_fs n f').
Proof.
  intros Hw Hos Hsame. pose proof Hw as [W1 W2 W3 W4 W5]. apply well_fs; [done..| |].
  2: { intros k key data. unfold file_at, spool.item_path. simpl. rewrite Hsame by auto. apply W5. }
  intros bs Hb id data Hid Hg.
  eapply (W3 bs Hb); [done|]. apply blockstore.Get_file_at. apply blockstore.Get_file_at in Hg. unfold file_at in *.
  rewrite blockstore.shard_path, (W1 bs Hb), Hsame in Hg by auto. by rewrite blockstore.shard_path, (W1 bs Hb).
Qed.

(** [healthy] is an invariant of every act, of honest nodes and under every client. *)
Lemma act_healthy N N' : act N N' -> healthy N -> healthy N'.
Proof.
  rewrite !healthy_well. intros HA HW.
  destruct HA as [p n io now remote input Hn Hio|p n l Hn|p n m s' r Hn HP|p n s' Hn Hs|p n io bs id data f' r Hn Hb Hio HP
    |p n io peerID kind key data f' r Hn Hio Hp Hk HP|p n peerID q e Hn Hp Hit Hq Hd Hh|p n f' Hn Hos Hsame]; apply map_Forall_insert_2; try done;
    specialize (HW p n Hn).
  - by apply well_serve.
  - by apply well_ledger.
  - by eapply well_manifest.
  - apply well_store; [done|]. intros fid m Hm. rewrite Hs in Hm. by apply (we_filed _ _ HW).
  - by eapply well_put.
  - by eapply well_queue.
  - by eapply well_sent.
  - by apply well_file.
Qed.

Lemma acts_healthy N N' : rtc act N N' -> healthy N -> healthy N'.
Proof. induction 1; eauto using act_healthy. Qed.

(** ** No shard is lost *)

(** [sv] is the service of the node it names. *)
Definition seated sv : Prop :=
  blockstore.root (blocks sv) = base (peer_String (self sv)) ++ ["blocks"] /\
  (spool sv = None \/ spool sv = Some (spool_of (peer_String (self sv)))).

Lemma disks_insert N p n : disks_of (<[p := n]> N) = <[p := node.disk_of n]> (disks_of N).
Proof. apply fmap_insert. Qed.

Lemma disks_lookup N p n : N !! p = Some n -> disks_of N !! p = Some (node.disk_of n).
Proof. intros Hn. unfold disks_of. by rewrite lookup_fmap, Hn. Qed.

(** What one act does to the disks, and to the queue of [sv]. *)
Lemma same_disks N p n n' : N !! p = Some n -> node.disk_of n' = node.disk_of n -> disks_of (<[p := n']> N) = disks_of N.
Proof. intros Hn E. rewrite disks_insert, E. apply insert_id. by apply disks_lookup. Qed.

(** A write to another node's disk, or one that leaves the files of the queue. *)
Lemma other_queued sv D p f ob f' k id :
  D !! p = Some (f, ob) ->
  (p = peer_String (self sv) -> forall sp data, spool sv = Some sp ->
     file_at f (spool.item_path sp k spool.KindShard id) = Some data ->
     file_at f' (spool.item_path sp k spool.KindShard id) = Some data) ->
  queued sv D k id -> queued sv (<[p := (f', ob)]> D) k id.
Proof.
  intros HD Hk (sp & f0 & ob0 & data & Hsp & Hf0 & Hdata & Hh).
  destruct (decide (p = peer_String (self sv))) as [->|Hne].
  - rewrite HD in Hf0. injection Hf0 as <- <-. exists sp, f', ob, data. rewrite lookup_insert_eq. split_and!; auto.
  - exists sp, f0, ob0, data. by rewrite lookup_insert_ne.
Qed.

Lemma put_queued sv D p f bs io id' data f' r k id :
  seated sv -> D !! p = Some (f, Some bs) -> blockstore.root bs = base p ++ ["blocks"] ->
  blockstore.Put io f bs id' data = (f', r) -> queued sv D k id -> queued sv (<[p := (f', Some bs)]> D) k id.
Proof.
  intros [_ Hsp] HD Hb HP Hq. eapply other_queued; [exact HD| |exact Hq]. intros -> sp d Es Hd.
  destruct Hsp as [Hsp|Hsp]; rewrite Hsp in Es; [done|]. injection Es as <-.
  rewrite (blockstore.Put_outside _ _ _ _ _ _ _ _ HP); [done|]. intros t. rewrite Hb. unfold spool.item_path. simpl.
  by apply apart_paths.
Qed.

Lemma queue_queued sv D p f ob io peerID kind key data f' r k id :
  seated sv -> D !! p = Some (f, ob) -> plain_name peerID = true -> item_ok kind key data ->
  spool.write io f (spool_of p) peerID kind key data = (f', r) -> queued sv D k id -> queued sv (<[p := (f', ob)]> D) k id.
Proof.
  intros [_ Hsp] HD Hp (Hk & Hh & Hne) HW Hq.
  assert (Hk' : kind = spool.KindShard \/ kind = spool.KindManifest) by (destruct Hk as [[? _]|?]; auto).
  pose proof (spool.write_files _ _ _ _ _ _ _ _ _ Hk' Hp Hh Hne HW) as HF.
  destruct (decide (p = peer_String (self sv) /\ spool.item_path (spool_of p) peerID kind key = spool.item_path (spool_of p) k spool.KindShard id /\ is_ok r = true))
    as [(-> & E & Hr)|Hno].
  - destruct Hq as (sp & _ & _ & _ & Es & _). destruct Hsp as [Hsp|Hsp]; rewrite Hsp in Es; [done|]. injection Es as <-.
    destruct r; [|done..].
    exists (spool_of (peer_String (self sv))), f', ob, data. rewrite lookup_insert_eq. split_and!; [done|done| |].
    + rewrite HF, decide_True; done.
    + unfold spool.item_path in E. apply app_inv_head in E. injection E as _ E.
      destruct Hk as [[-> ->]| ->]; [|done]. simpl in E. by injection E.
  - eapply other_queued; [exact HD| |exact Hq]. intros -> sp d Es Hd.
    destruct Hsp as [Hsp|Hsp]; rewrite Hsp in Es; [done|]. injection Es as <-. destruct r; [| |done].
    + rewrite HF, decide_False; [done|]. intros E. by apply Hno.
    + rewrite HF; [done|]. intros rand E. unfold spool.item_path in E. apply app_inv_head in E. by injection E.
Qed.

Lemma item_dir sp peerID kind key :
  filepath_Dir (spool.item_path sp peerID kind key) = spool.root sp ++ [peerID].
Proof.
  unfold filepath_Dir, spool.item_path. change [peerID; kind +:+ "_" +:+ key] with ([peerID] ++ [kind +:+ "_" +:+ key]).
  by rewrite app_assoc, removelast_last.
Qed.

Lemma sent_step D p f ob peerID e :
  D !! p = Some (f, ob) -> (forall bs, ob = Some bs -> blockstore.root bs = base p ++ ["blocks"]) ->
  spool.item (spool_of p) peerID e -> node.dstep D (<[p := ((spool.Remove f e).1, ob)]> D).
Proof.
  intros HD Hb (_ & Hk & Hpath). apply node.ds_other with f; [done|]. intros bs id' -> Hid'. specialize (Hb bs eq_refl).
  unfold blockstore.Get, ReadFile. rewrite (spool.Remove_lookup _ _ _ _ Hpath); [done|..];
    rewrite ?item_dir, blockstore.shard_path, Hb by done; unfold spool.item_path; simpl; intros E; by apply apart_paths in E.
Qed.

(** Removing the item of a shard that is with its holder loses nothing. *)
Lemma sent_queued sv D p f ob peerID q e k id :
  seated sv -> D !! p = Some (f, ob) -> (forall bs, ob = Some bs -> blockstore.root bs = base p ++ ["blocks"]) ->
  spool.item (spool_of p) peerID e -> peer_Decode peerID = Some q ->
  file_at f (spool.root (spool_of p) ++ [peerID]) = None ->
  (spool.Kind e = spool.KindShard -> blockstore.shard_id (spool.Key e) -> node.has D (peer_String q) (spool.Key e)) ->
  blockstore.shard_id id -> queued sv D k id -> lodged sv (<[p := ((spool.Remove f e).1, ob)]> D) k id.
Proof.
  intros [_ Hsp] HD Hb Hit Hq Hd Hh Hid Hqu. pose proof (sent_step _ _ _ _ _ _ HD Hb Hit) as HS. destruct Hit as (_ & Hk & Hpath).
  destruct (decide (p = peer_String (self sv) /\ spool.item_path (spool_of p) peerID (spool.Kind e) (spool.Key e) = spool.item_path (spool_of p) k spool.KindShard id))
    as [(-> & E)|Hno].
  - left. unfold spool.item_path in E. apply app_inv_head in E. injection E as -> E.
    assert (spool.Kind e = spool.KindShard /\ spool.Key e = id) as [Ek Ei].
    { destruct Hk as [Hk|Hk]; rewrite Hk in E |- *; simpl in E; [|done]. split; [done|]. by injection E. }
    rewrite <- Ei in Hid |- *. eapply dsteps_placed; [by apply rtc_once|done|]. exists q. split; [done|]. by apply Hh.
  - right. eapply other_queued; [exact HD| |exact Hqu]. intros -> sp d Es Hdd.
    destruct Hsp as [Hsp|Hsp]; rewrite Hsp in Es; [done|]. injection Es as <-.
    rewrite (spool.Remove_files _ _ _ _ Hpath), decide_False; [done| |by rewrite item_dir].
    intros E. by apply Hno.
Qed.

Lemma file_queued sv D p f ob f' k id :
  seated sv -> D !! p = Some (f, ob) ->
  (forall d t, d = "blocks" \/ d = "spool" -> f' !! ((base p ++ [d]) ++ t) = f !! ((base p ++ [d]) ++ t)) ->
  queued sv D k id -> queued sv (<[p := (f', ob)]> D) k id.
Proof.
  intros [_ Hsp] HD Hsame Hq. eapply other_queued; [exact HD| |exact Hq]. intros -> sp d Es Hd.
  destruct Hsp as [Hsp|Hsp]; rewrite Hsp in Es; [done|]. injection Es as <-.
  unfold file_at, spool.item_path in *. simpl in *. by rewrite Hsame by auto.
Qed.

(** An act stores at most a shard on one disk, and removes none. *)
Lemma act_disks N N' : healthy N -> act N N' -> rtc node.dstep (disks_of N) (disks_of N').
Proof.
  intros HN HA.
  destruct HA as [p n io now remote input Hn Hio|p n l Hn|p n m s' r Hn HP|p n s' Hn Hs|p n io bs id' data f' r Hn Hb Hio HP
    |p n io peerID kind key data f' r Hn Hio Hp Hk HP|p n peerID q e Hn Hp Hit Hq Hd Hh|p n f' Hn Hos Hsame];
    pose proof (disks_lookup _ _ _ Hn) as HD; pose proof (fun bs => he_blocks _ HN p n bs Hn) as HB.
  - destruct (node.handleBlocks_disk io now remote n input) as [E|(bs & id' & data & f' & r & Hb & HP & E)].
    { by rewrite (same_disks _ _ _ _ Hn E). }
    rewrite disks_insert, E. unfold node.disk_of in HD. rewrite Hb in HD. apply rtc_once. by eapply node.ds_put.
  - by rewrite (same_disks _ _ _ (node.set_ledger n l) Hn).
  - by rewrite (same_disks _ _ _ (node.set_store n s') Hn).
  - by rewrite (same_disks _ _ _ (node.set_store n s') Hn).
  - rewrite disks_insert. unfold node.disk_of in *. rewrite Hb in HD. simpl. rewrite Hb. apply rtc_once. by eapply node.ds_put.
  - rewrite disks_insert. unfold node.disk_of in *. simpl. destruct Hk as (Hk & Hh & Hne). apply rtc_once.
    eapply (enqueue_step _ p (base p) (spool_of p)); [done|exact HB|exact Hp| |exact Hh|exact Hne|exact HD|exact HP].
    destruct Hk as [[? _]|?]; auto.
  - rewrite disks_insert. apply rtc_once. by eapply sent_step.
  - rewrite disks_insert. unfold node.disk_of in *. simpl. apply rtc_once. apply node.ds_other with (node.nfs n); [done|].
    intros bs id' Hbs Hid'. unfold blockstore.Get, ReadFile. by rewrite blockstore.shard_path, (HB bs Hbs), Hsame by auto.
Qed.

(** No act loses a shard that is with its holder or queued for it. *)
Lemma act_lodged sv N N' k id :
  seated sv -> healthy N -> act N N' -> blockstore.shard_id id ->
  lodged sv (disks_of N) k id -> lodged sv (disks_of N') k id.
Proof.
  intros Hsv HN HA Hid [Hp|Hq]; [left; eapply dsteps_placed; [by apply act_disks|done..]|].
  destruct HA as [p n io now remote input Hn Hio|p n l Hn|p n m s' r Hn HP|p n s' Hn Hs|p n io bs id' data f' r Hn Hb Hio HP
    |p n io peerID kind key data f' r Hn Hio Hp Hk HP|p n peerID q e Hn Hp Hit Hpq Hd Hh|p n f' Hn Hos Hsame];
    pose proof (disks_lookup _ _ _ Hn) as HD; pose proof (fun bs => he_blocks _ HN p n bs Hn) as HB.
  - destruct (node.handleBlocks_disk io now remote n input) as [E|(bs & id' & data & f' & r & Hb & HP & E)].
    { rewrite (same_disks _ _ _ _ Hn E). by right. }
    rewrite disks_insert, E. unfold node.disk_of in HD. rewrite Hb in HD. right. by eapply put_queued; [| |apply HB|..].
  - rewrite (same_disks _ _ _ (node.set_ledger n l) Hn); [by right|done].
  - rewrite (same_disks _ _ _ (node.set_store n s') Hn); [by right|done].
  - rewrite (same_disks _ _ _ (node.set_store n s') Hn); [by right|done].
  - rewrite disks_insert. unfold node.disk_of in *. rewrite Hb in HD. simpl. rewrite Hb. right. by eapply put_queued; [| |apply HB|..].
  - rewrite disks_insert. right. by eapply queue_queued.
  - rewrite disks_insert. by eapply sent_queued.
  - rewrite disks_insert. right. by eapply file_queued.
Qed.

Lemma acts_disks N N' : healthy N -> rtc act N N' -> rtc node.dstep (disks_of N) (disks_of N').
Proof.
  intros HN HR. induction HR as [|N N1 N2 HA _ IH]; [done|].
  etrans; [by apply act_disks|]. apply IH. by eapply act_healthy.
Qed.

Lemma acts_lodged sv N N' k id :
  seated sv -> healthy N -> rtc act N N' -> blockstore.shard_id id ->
  lodged sv (disks_of N) k id -> lodged sv (disks_of N') k id.
Proof.
  intros Hsv HN HR Hid. induction HR as [|N N1 N2 HA _ IH]; [done|]. intros HL.
  apply IH; [by eapply act_healthy|by eapply act_lodged].
Qed.

(** ** Programs as sequences of acts *)

Section programs.
Context (fate : nat -> string -> string -> node.Fate) (clock : nat -> Z) (disk : nat -> wio).
Context (range : gmap string group.Member -> list (string * group.Member)).
Hypothesis plain_disk : forall t, plain_io (disk t).

Abbreviation moves w w' := (rtc act (node.nodes w) (node.nodes w')).

Lemma blockRequest_acts w me p req w' r : node.blockRequest fate clock disk w me p req = (w', r) -> moves w w'.
Proof.
  intros [E|(n & input & _ & Hn & E)]%node.blockRequest_handled; rewrite E; [done|].
  apply rtc_once. by apply act_serve.
Qed.

Lemma record_acts w me upd : moves w (node.record w me upd).
Proof.
  unfold node.record. destruct (node.nodes w !! me) as [n|] eqn:Hn; [|done]. destruct (node.nledger n); [|done].
  apply rtc_once. by apply act_account.
Qed.

Lemma PutShardOnPeer_acts w me p id data w' r :
  node.PutShardOnPeer fate clock disk w me p id data = (w', r) -> moves w w'.
Proof.
  unfold node.PutShardOnPeer. destruct (node.blockRequest _ _ _ _ _ _ _) as [w1 r1] eqn:HB. apply blockRequest_acts in HB.
  destruct r1 as [resp| |]; [destruct (negb _)|..]; intros [= <- _]; try done. etrans; [exact HB|apply record_acts].
Qed.

Lemma GetShardFromPeer_acts w me p id w' r :
  node.GetShardFromPeer fate clock disk w me p id = (w', r) -> moves w w'.
Proof.
  unfold node.GetShardFromPeer. destruct (node.blockRequest _ _ _ _ _ _ _) as [w1 r1] eqn:HB. apply blockRequest_acts in HB.
  destruct r1 as [resp| |]; [destruct (negb _)|..]; intros [= <- _]; try done. etrans; [exact HB|apply record_acts].
Qed.

Lemma PutManifestRawOnPeer_acts w me p id raw w' r :
  node.PutManifestRawOnPeer fate clock disk w me p id raw = (w', r) -> moves w w'.
Proof.
  unfold node.PutManifestRawOnPeer. destruct (node.blockRequest _ _ _ _ _ _ _) as [w1 r1] eqn:HB. apply blockRequest_acts in HB.
  destruct r1 as [resp| |]; [destruct (negb _)|..]; by intros [= <- _].
Qed.

Lemma PutManifestOnPeer_acts w me p m w' r :
  node.PutManifestOnPeer fate clock disk w me p m = (w', r) -> moves w w'.
Proof. unfold node.PutManifestOnPeer. destruct (manifest.Marshal' m); [apply PutManifestRawOnPeer_acts|by intros [= <- _]..]. Qed.

Lemma GetManifestFromPeer_acts w me p id w' r :
  node.GetManifestFromPeer fate clock disk w me p id = (w', r) -> moves w w'.
Proof.
  unfold node.GetManifestFromPeer. destruct (node.blockRequest _ _ _ _ _ _ _) as [w1 r1] eqn:HB. apply blockRequest_acts in HB.
  destruct r1 as [resp| |]; [destruct (negb _)|..]; by intros [= <- _].
Qed.

(** The service goes on being attached. *)
Lemma acts_attached sv N N' :
  rtc act N N' -> (exists n, N !! peer_String (self sv) = Some n /\ node.nblocks n = Some (blocks sv)) ->
  exists n, N' !! peer_String (self sv) = Some n /\ node.nblocks n = Some (blocks sv).
Proof.
  induction 1 as [|N N1 N2 HA _ IH]; [done|]. intros (n & Hn & Hb). apply IH. clear IH.
  assert (HU : forall p x x', N !! p = Some x -> node.nblocks x' = node.nblocks x ->
    exists n', (<[p := x']> N : nodesT) !! peer_String (self sv) = Some n' /\ node.nblocks n' = Some (blocks sv)).
  { intros p x x' Hx E. destruct (decide (p = peer_String (self sv))) as [->|Hne].
    - rewrite Hn in Hx. injection Hx as <-. exists x'. by rewrite lookup_insert_eq, E.
    - exists n. by rewrite lookup_insert_ne. }
  destruct HA as [p x io now remote input Hx _|p x l Hx|p x m s' r Hx _|p x s' Hx _|p x io bs id data f' r Hx _ _ _
    |p x io peerID kind key data f' r Hx _ _ _ _|p x peerID q e Hx _ _ _ _ _|p x f' Hx _ _]; eapply HU; try done.
  destruct (node.handleBlocks_disk io now remote x input) as [[= _ E]|(bs & id & data & f' & r & E & _ & E')]; [done|].
  injection E' as _ E'. by rewrite E', E.
Qed.

(** A program of the service [sv] all of whose runs are sequences of acts. *)
Definition does {A} sv (c : M A) : Prop :=
  forall st st' o, attached sv (world st) -> c st = (st', o) -> moves (world st) (world st').

Lemma does_attached sv st st' : moves (world st) (world st') -> attached sv (world st) -> attached sv (world st').
Proof. apply acts_attached. Qed.

Lemma does_lift {A} sv (o : outcome A) : does sv (lift o).
Proof. by intros st st' o' _ [= <- _]. Qed.

Lemma does_ret {A} sv (a : A) : does sv (ret a).
Proof. apply (does_lift sv (Ok a)). Qed.

Lemma does_fail {A} sv e : does sv (fail (A := A) e).
Proof. apply (does_lift sv (Err e)). Qed.

Lemma does_bind {A B} sv (c : M A) (k : A -> M B) : does sv c -> (forall a, does sv (k a)) -> does sv (bind c k).
Proof.
  intros Hc Hk st st' o Ha. unfold bind. destruct (c st) as [st1 r] eqn:E. pose proof (Hc _ _ _ Ha E) as M1.
  destruct r as [a|e|]; [|by intros [= <- _]..]. intros E2.
  etrans; [exact M1|]. eapply Hk; [by eapply does_attached|exact E2].
Qed.

Lemma does_attempt {A} sv (c : M A) : does sv c -> does sv (attempt c).
Proof.
  intros Hc st st' o Ha. unfold attempt. destruct (c st) as [st1 r] eqn:E. pose proof (Hc _ _ _ Ha E).
  by destruct r; intros [= <- _].
Qed.

Lemma does_wrapped {A} sv msg (c : M A) : does sv c -> does sv (wrapped msg c).
Proof.
  intros Hc st st' o Ha. unfold wrapped. destruct (c st) as [st1 r] eqn:E. pose proof (Hc _ _ _ Ha E).
  by intros [= <- _].
Qed.

(** Steps that touch no node. *)
Lemma does_still {A} sv (c : M A) : (forall st, world (c st).1 = world st) -> does sv c.
Proof. intros Hc st st' o _ E. specialize (Hc st). rewrite E in Hc. simpl in Hc. by rewrite Hc. Qed.

Lemma does_rng {A} sv (f : bytes -> bytes * outcome A) : does sv (on_rng f).
Proof. apply does_still. intros st. unfold on_rng. by destruct (f (rng st)). Qed.

Lemma does_now sv : does sv (time_Now clock).
Proof. by apply does_still. Qed.

Lemma does_cache_get sv fid i : does sv (cache_get fid i).
Proof. apply does_still. intros st. unfold cache_get. by destruct (cache.Get _ _ _). Qed.

Lemma does_cache_put sv fid i data : does sv (cache_put fid i data).
Proof. by apply does_still. Qed.

(** Steps over the network. *)
Lemma does_world {A} sv (f : node.World -> node.World * outcome A) :
  (forall w w' r, f w = (w', r) -> moves w w') -> does sv (on_world f).
Proof. intros Hf st st' o _. unfold on_world. destruct (f (world st)) as [w r] eqn:E. intros [= <- _]. by eapply Hf. Qed.

(** Steps on the service's own node. *)
Lemma does_local {A} sv (f : wio -> node.NodeState -> node.NodeState * outcome A) :
  (forall N n io n' r, N !! peer_String (self sv) = Some n -> node.nblocks n = Some (blocks sv) -> plain_io io -> f io n = (n', r) ->
     rtc act N (<[peer_String (self sv) := n']> N)) -> does sv (on_local disk sv f).
Proof.
  intros Hf st st' o (n & Hn & Hb). unfold on_local, on_world. rewrite Hn.
  destruct (f (disk (node.tick (world st))) n) as [n' r] eqn:E. intros [= <- _]. simpl. by eapply Hf.
Qed.

Lemma does_with_store {A} sv (f : db -> outcome A) : does sv (with_store disk sv f).
Proof. apply does_local. intros N n io n' r Hn _ _ [= <- _]. by rewrite insert_id. Qed.

Lemma does_local_get sv id : does sv (local_get disk sv id).
Proof. apply does_local. intros N n io n' r Hn _ _ [= <- _]. rewrite insert_id; [done|]. rewrite Hn. by destruct n. Qed.

Lemma does_local_put sv id data : does sv (local_put disk sv id data).
Proof.
  apply does_local. intros N n io n' r Hn Hb Hio E. destruct (blockstore.Put _ _ _ _ _) as [f' o] eqn:HP.
  injection E as <- _. apply rtc_once. by eapply act_shard.
Qed.

Lemma does_put_manifest sv m : does sv (on_store disk sv (fun s => manifest.Put s m)).
Proof.
  apply does_local. intros N n io n' r Hn Hb Hio E. destruct (manifest.Put _ _) as [s' o] eqn:HP.
  injection E as <- _. apply rtc_once. by eapply act_manifest.
Qed.

Lemma does_table {A} sv (f : db -> db * outcome A) :
  (forall s fid, manifest.Get (f s).1 fid = manifest.Get s fid) -> does sv (on_store disk sv f).
Proof.
  intros Hf. apply does_local. intros N n io n' r Hn Hb Hio E. specialize (Hf (node.nstore n)).
  destruct (f (node.nstore n)) as [s' o]. injection E as <- _. apply rtc_once. by apply act_table.
Qed.

Lemma does_enqueue sv sp peerID kind key data :
  seated sv -> spool sv = Some sp -> plain_name peerID = true -> item_ok kind key data ->
  does sv (on_fs disk sv (fun io f => spool.write io f sp peerID kind key data)).
Proof.
  intros [_ [Hs|Hs]] Es Hp Hk; rewrite Hs in Es; [done|]. injection Es as <-. apply does_local.
  intros N n io n' r Hn Hb Hio E. destruct (spool.write _ _ _ _ _ _ _) as [f' o] eqn:HW.
  injection E as <- _. apply rtc_once. eapply act_queue; [exact Hn|exact Hio|exact Hp|exact Hk|exact HW].
Qed.

Lemma does_put_shard sv p id data : does sv (put_shard fate clock disk sv p id data).
Proof. apply does_world. intros. by eapply PutShardOnPeer_acts. Qed.

Lemma does_get_shard sv p id : does sv (get_shard fate clock disk sv p id).
Proof. apply does_world. intros. by eapply GetShardFromPeer_acts. Qed.

Ltac does_step :=
  first [ apply does_ret | apply does_fail | apply does_lift | apply does_rng | apply does_now
        | apply does_with_store | apply does_local_get | apply does_local_put | apply does_put_manifest
        | apply does_put_shard | apply does_get_shard | apply does_cache_get | apply does_cache_put
        | apply does_attempt | apply does_wrapped | apply does_bind; [|intros ?]
        | match goal with |- does _ (match ?x with _ => _ end) => destruct x eqn:? end ].

(** *** Uploads *)

Lemma does_ship1 sv hl holder sh :
  seated sv -> (spool sv = None \/ Forall (fun h => plain_name h = true) hl) -> holder ∈ hl ->
  does sv (ship1 fate clock disk sv holder (blockstore.HashOf sh) sh).
Proof.
  intros Hsv Hpl Hin. unfold ship1. repeat does_step.
  unfold spool.EnqueueShard. destruct Hpl as [E|Hpl]; [congruence|]. apply does_enqueue; [done|done| |].
  - rewrite Forall_forall in Hpl. by apply Hpl.
  - destruct (shard_id_text_hex _ (blockstore.HashOf_shard_id sh)). split; [by left|done].
Qed.

Lemma does_ship sv hl shards : forall i,
  seated sv -> (spool sv = None \/ Forall (fun h => plain_name h = true) hl) -> does sv (ship fate clock disk sv hl i shards).
Proof.
  induction shards as [|sh shards IH]; intros i Hsv Hpl; cbn [ship]; [apply does_ret|].
  intros st st' o Ha. unfold bind at 1, lift at 1. destruct (index hl i) as [holder|e|] eqn:Hi; [|by intros [= <- _]..].
  apply index_Ok in Hi as [_ Hi]. revert st st' o Ha. apply does_bind.
  - apply (does_ship1 sv hl); [done|done|by eapply list_elem_of_lookup_2].
  - intros _. repeat (apply IH || does_step); done.
Qed.

Lemma does_put_loop sv key hl fuel : forall idx body,
  seated sv -> (spool sv = None \/ Forall (fun h => plain_name h = true) hl) ->
  does sv (put_loop fate clock disk fuel sv key hl idx body).
Proof.
  induction fuel as [|fuel IH]; intros idx body Hsv Hpl; cbn [put_loop]; [apply does_lift|].
  destruct (ReadFull_body body (stripeSize sv)) as [[buf body'] e]. unfold uploadStripe.
  repeat ((apply does_ship; assumption) || (apply IH; assumption) || does_step).
Qed.

Lemma does_replicate sv fid raw hl :
  seated sv -> (spool sv = None \/ Forall (fun h => plain_name h = true) hl) -> hex_string fid = true -> fid <> "" ->
  does sv (replicate_manifest fate clock disk sv fid raw hl).
Proof.
  intros Hsv Hpl Hx Hne. induction hl as [|h hl IH]; cbn [replicate_manifest]; [apply does_ret|].
  assert (IH' : does sv (replicate_manifest fate clock disk sv fid raw hl)).
  { apply IH. destruct Hpl as [?|[_ ?]%Forall_cons]; auto. }
  repeat ((apply IH') || (apply does_world; intros; by eapply PutManifestRawOnPeer_acts) || does_step).
  destruct Hpl as [E|[Hh _]%Forall_cons]; [congruence|]. apply does_enqueue; [done..|]. split; [by right|done].
Qed.

Lemma does_wrapForMode sv mode key name g : does sv (wrapForMode sv mode key name g).
Proof. unfold wrapForMode. repeat does_step. Qed.

(** The identifiers of the members a node knows are file names, as the ones the
    program makes are. *)
Definition plain_members (s : db) : Prop :=
  forall gid members, group.ListMembers s gid = Ok members -> Forall (fun mem => plain_name (group.PeerID mem) = true) members.

Lemma groupMemberIDs_plain s gid ids :
  plain_members s -> groupMemberIDs s gid = Ok ids -> Forall (fun h => plain_name h = true) ids.
Proof.
  unfold groupMemberIDs. intros Hs. destruct (group.ListMembers s gid) as [ms| |] eqn:E; [|done..]. intros [= <-].
  specialize (Hs gid ms E). rewrite merge_sort_Permutation. by apply Forall_fmap.
Qed.

(** A step that leaves the nodes alone, before the program proper. *)
Definition still {A} sv (c : M A) : Prop :=
  forall st st' o, attached sv (world st) -> c st = (st', o) -> node.nodes (world st') = node.nodes (world st).

Definition does_when {A} sv (P : nodesT -> Prop) (c : M A) : Prop :=
  forall st st' o, P (node.nodes (world st)) -> attached sv (world st) -> c st = (st', o) -> moves (world st) (world st').

Lemma does_when_does {A} sv P (c : M A) : does sv c -> does_when sv P c.
Proof. intros Hc st st' o _. apply Hc. Qed.

Lemma does_when_bind {A B} sv (P : nodesT -> Prop) (c : M A) (k : A -> M B) :
  still sv c ->
  (forall st st' a, P (node.nodes (world st)) -> attached sv (world st) -> c st = (st', Ok a) -> does_when sv P (k a)) ->
  does_when sv P (bind c k).
Proof.
  intros Hc Hk st st' o HP Ha. unfold bind. destruct (c st) as [st1 r] eqn:E. pose proof (Hc _ _ _ Ha E) as EN.
  destruct r as [a|e|]; [|intros [= <- _]; by rewrite EN..]. intros E2. rewrite <- EN.
  eapply Hk; [exact HP|exact Ha|exact E|by rewrite EN| |exact E2]. unfold attached. by rewrite EN.
Qed.

Lemma still_with_store {A} sv (f : db -> outcome A) : still sv (with_store disk sv f).
Proof.
  intros st st' o (n & Hn & _). unfold with_store, on_local, on_world. rewrite Hn. intros [= <- _]. simpl. by apply insert_id.
Qed.

Lemma still_rng {A} sv (f : bytes -> bytes * outcome A) : still sv (on_rng f).
Proof. intros st st' o _. unfold on_rng. destruct (f (rng st)). by intros [= <- _]. Qed.

Definition knows_plain sv N : Prop :=
  spool sv = None \/ forall n, N !! peer_String (self sv) = Some n -> plain_members (node.nstore n).

Lemma does_Put sv filename body opts :
  seated sv -> does_when sv (knows_plain sv) (Put fate clock disk sv filename body opts).
Proof.
  intros Hsv. unfold Put. apply does_when_bind; [apply still_with_store|]. intros _ _ g _ _ _.
  set (mode := if bool_decide (OptMode opts = "") then manifest.ModeShared else OptMode opts).
  destruct (negb _ && _); [apply does_when_does, does_fail|].
  apply does_when_bind; [apply still_rng|]. intros st0 st0' fidRaw _ _ Hfid.
  assert (Hf : hex_string (hex_encode fidRaw) = true /\ hex_encode fidRaw <> "").
  { split; [apply hex_encode_string|]. apply on_rng_Ok in Hfid as (r0 & [Hl _]%rand_Read_Ok & _). by destruct fidRaw. }
  clear st0 st0' Hfid. apply does_when_bind; [apply still_rng|]. intros _ _ key _ _ _.
  apply does_when_bind; [apply still_with_store|]. intros st1 st1' ids HP _ HI.
  assert (Hpl : spool sv = None \/ Forall (fun h => plain_name h = true) ids).
  { destruct HP as [?|HP]; [by left|]. right. apply with_store_Ok in HI as [_ (s & Hs & HI)]. unfold local_store in Hs.
    destruct (node.nodes (world st1) !! peer_String (self sv)) as [n|] eqn:Hn; [|done]. injection Hs as <-.
    eapply groupMemberIDs_plain; [by apply HP|exact HI]. }
  clear st1 st1' HP HI. apply does_when_does. destruct (_ <? _); [repeat does_step|].
  set (hl := holders.Pick _ _ _).
  assert (Hhl : spool sv = None \/ Forall (fun h => plain_name h = true) hl).
  { destruct Hpl as [?|Hpl]; [by left|]. right. rewrite Forall_forall in *. intros h Hh. apply Hpl. by eapply holders.Pick_incl. }
  destruct Hf as [F1 F2].
  repeat ((apply does_wrapForMode) || (apply does_put_loop; assumption) || (apply does_replicate; assumption) || does_step).
  apply does_table. intros s0 fid0. destruct (savePrivateName _ _ _) as [s' r] eqn:E. by eapply savePrivateName_keeps.
Qed.

(** *** Downloads *)

Lemma does_fetch_from sv fid members : does sv (fetch_from fate clock disk sv fid members).
Proof.
  induction members as [|mem members IH]; cbn [fetch_from];
    repeat ((apply IH) || (apply does_world; intros; by eapply GetManifestFromPeer_acts) || does_step).
Qed.

Lemma does_OpenReader sv fid : does sv (OpenReader fate clock disk range sv fid).
Proof. unfold OpenReader, fetchManifest. repeat ((apply does_fetch_from) || does_step). Qed.

Lemma does_gather sv k slots : forall got, does sv (gather fate clock disk sv k got slots).
Proof.
  induction slots as [|[id h] slots IH]; intros got; cbn [gather]; [apply does_ret|]. unfold fetch1.
  repeat ((apply IH) || does_step).
Qed.

Lemma does_stripeBytes sv r idx : does sv (stripeBytes fate clock disk sv r idx).
Proof. unfold stripeBytes, fetchAndDecryptStripe. repeat ((apply does_gather) || does_step). Qed.

Lemma does_read_loop sv r stop fuel : forall cur acc, does sv (read_loop fate clock disk fuel sv r cur stop acc).
Proof.
  induction fuel as [|fuel IH]; intros cur acc; cbn [read_loop]; [apply does_ret|].
  repeat ((apply IH) || (apply does_stripeBytes) || does_step).
Qed.

Lemma does_ReadAt sv r len off : does sv (ReadAt fate clock disk sv r len off).
Proof. unfold ReadAt. repeat ((apply does_read_loop) || does_step). Qed.

Lemma does_io_Copy sv fuel : forall r acc, does sv (io_Copy fate clock disk fuel sv r acc).
Proof.
  induction fuel as [|fuel IH]; intros r acc; cbn [io_Copy]; [apply does_ret|]. unfold Read.
  repeat ((apply IH) || (apply does_ReadAt) || does_step).
Qed.

Lemma does_Get sv fid fuel : does sv (Get fate clock disk range fuel sv fid).
Proof. unfold Get. repeat ((apply does_OpenReader) || (apply does_io_Copy) || does_step). Qed.

End programs.
End with_libraries.
End network.
