(* ===== verification/Delivery.v ===== *)
(** * The queue and the network

    internal/spool/worker.go running on a node of internal/node: the node is the
    [Sender] of the worker ([PutShardOnPeer], [PutManifestRawOnPeer]), its ledger
    says who is online.  A pass of the worker is a sequence of acts of
    [Network]. *)

From S2P Require Import Prelude Ext Concrete Store Fs Blockstore Crypto Ec Holders Cache Manifest Ledger Group.
From S2P Require Import Blocks Spool Base64 File Reader Upload Network.

Module delivery.
Import file reader upload.

Section with_libraries.
Context `{Badger, !Sha256, !manifest.ManifestCbor, !ledger.EntryCbor, !node.RequestCbor, !node.ResponseCbor,
  PeerIDs, AesGcm, NaclBox, ReedSolomon, !group.GroupCbor, !group.MemberCbor, !NameCbor}.
Implicit Types (sv : Service) (m : manifest.Manifest) (st : FS).

Abbreviation disksT := (gmap string (fs * option blockstore.Store)).

(** What the worker works on: the node it runs on, and the world that node talks
    to. *)
Record Host := NewHost { h_me : node.NodeState; h_nodes : gmap string node.NodeState; h_tick : nat }.

Implicit Types h : Host.

Section on_node.
Context (fate : nat -> string -> string -> node.Fate) (clock : nat -> Z) (disk : nat -> wio) (sv : Service).

Abbreviation me := (peer_String (self sv)).

Definition world_of h : node.World := node.NewWorld (<[me := h_me h]> (h_nodes h)) (h_tick h).

Definition host_of (n : node.NodeState) (w : node.World) : Host :=
  NewHost (default n (node.nodes w !! me)) (node.nodes w) (node.tick w).

Definition set_host_fs h f : Host := NewHost (node.set_fs (h_me h) f) (h_nodes h) (h_tick h).

Definition host_online h (p : string) : bool :=
  match node.nledger (h_me h) with Some l => ledger.IsOnline (node.nstore (h_me h)) l p | None => false end.

Definition host_put_shard h (p : pid) (id : string) (data : bytes) : Host * outcome unit :=
  let '(w, r) := node.PutShardOnPeer fate clock disk (world_of h) me p id data in (host_of (h_me h) w, r).

Definition host_put_manifest h (p : pid) (id : string) (raw : bytes) : Host * outcome unit :=
  let '(w, r) := node.PutManifestRawOnPeer fate clock disk (world_of h) me p id raw in (host_of (h_me h) w, r).

(** The peer has the shard, or a manifest of the file. *)
Definition host_accepted h (p : pid) (kind id : string) : Prop :=
  peer_String p <> me /\
  (kind = spool.KindShard -> blockstore.shard_id id -> node.has (node.disks (world_of h)) (peer_String p) id) /\
  (kind = spool.KindManifest -> text_ok id = true -> node.has_manifest (world_of h) (peer_String p) id).

(** ** The node as a sender *)

Lemma world_of_host_of n w : is_Some (node.nodes w !! me) -> world_of (host_of n w) = w.
Proof.
  intros [x Hx]. unfold world_of, host_of. cbn [h_me h_nodes h_tick]. rewrite Hx. cbn [default from_option].
  rewrite insert_id by done. by destruct w.
Qed.

(** What a request leaves of the host: its own disk, and everyone's shards and
    manifests. *)
Record answered h (w : node.World) : Prop := {
  an_up : is_Some (node.nodes w !! me);
  an_disk : node.disk_of (default (h_me h) (node.nodes w !! me)) = node.disk_of (h_me h);
  an_steps : rtc node.dstep (node.disks (world_of h)) (node.disks w);
  an_manifests p id : node.has_manifest (world_of h) p id -> node.has_manifest w p id
}.

Lemma answered_disks h w :
  node.disks w !! me = node.disks (world_of h) !! me -> rtc node.dstep (node.disks (world_of h)) (node.disks w) ->
  (forall p id, node.has_manifest (world_of h) p id -> node.has_manifest w p id) -> answered h w.
Proof.
  unfold node.disks at 1 2. rewrite !lookup_fmap. unfold world_of at 1. cbn [node.nodes]. rewrite lookup_insert_eq.
  intros HD HS HM. destruct (node.nodes w !! me) as [n|] eqn:Hn; [|done]. apply (inj Some) in HD.
  split; [rewrite Hn; by eexists|by rewrite Hn|done|done].
Qed.

Lemma PutShard_answered h p id data w r :
  node.PutShardOnPeer fate clock disk (world_of h) me p id data = (w, r) -> answered h w.
Proof.
  intros HP. apply answered_disks; [by eapply node.PutShardOnPeer_self|by eapply node.PutShardOnPeer_steps|].
  intros q k Hq. unfold node.PutShardOnPeer in HP. destruct (node.blockRequest _ _ _ _ _ _ _) as [w1 r1] eqn:HB.
  pose proof (node.blockRequest_manifest _ _ _ _ _ _ _ _ _ _ _ HB Hq).
  destruct r1 as [resp| |]; [destruct (negb _)|..]; injection HP as <- _; rewrite ?node.record_manifest; done.
Qed.

Lemma PutManifest_answered h p id raw w r :
  node.PutManifestRawOnPeer fate clock disk (world_of h) me p id raw = (w, r) -> answered h w.
Proof.
  intros HP. unfold node.PutManifestRawOnPeer in HP. destruct (node.blockRequest _ _ _ _ _ _ _) as [w1 r1] eqn:HB.
  assert (w1 = w) as -> by (destruct r1 as [resp| |]; [destruct (negb _)|..]; by injection HP as <- _).
  apply answered_disks; [|by eapply node.blockRequest_disks|intros q k; by eapply node.blockRequest_manifest].
  apply node.blockRequest_self in HB. unfold node.disks. by rewrite !lookup_fmap, HB.
Qed.

Lemma answered_hfs h w : answered h w -> node.nfs (h_me (host_of (h_me h) w)) = node.nfs (h_me h).
Proof. intros [_ E _ _]. by injection E. Qed.

Lemma answered_accepted h w p k id :
  answered h w -> host_accepted h p k id -> host_accepted (host_of (h_me h) w) p k id.
Proof.
  intros [Hu _ HS HM] (Hne & A1 & A2). unfold host_accepted. rewrite world_of_host_of by done.
  split_and!; [done| |by auto]. intros Hk Hid. eapply node.dsteps_has; [exact HS|done|auto].
Qed.

Lemma accepted_set_fs h f p k id : host_accepted h p k id -> host_accepted (set_host_fs h f) p k id.
Proof.
  intros (Hne & A1 & A2). unfold host_accepted, world_of, set_host_fs. cbn [h_me h_nodes h_tick]. split_and!; [done| |].
  - intros Hk Hid. destruct (A1 Hk Hid) as (d & Hd & Hh). exists d. split; [|done]. revert Hd.
    unfold node.shard_in, node.disks, world_of. cbn [node.nodes]. by rewrite !lookup_fmap, !lookup_insert_ne.
  - intros Hk Hid. destruct (A2 Hk Hid) as (n & m & Hn & Hm). exists n, m. split; [|done]. revert Hn.
    unfold world_of. cbn [node.nodes]. by rewrite !lookup_insert_ne.
Qed.

#[export] Instance node_sender : spool.Sender Host.
Proof.
  refine {| spool.hfs h := node.nfs (h_me h); spool.set_hfs := set_host_fs; spool.IsOnline := host_online;
    spool.PutShardOnPeer := host_put_shard; spool.PutManifestRawOnPeer := host_put_manifest;
    spool.accepted := host_accepted |}.
  - done.
  - intros h p id data. unfold host_put_shard. destruct (node.PutShardOnPeer _ _ _ _ _ _ _ _) as [w r] eqn:HP.
    eapply answered_hfs, PutShard_answered, HP.
  - intros h p id data. unfold host_put_manifest. destruct (node.PutManifestRawOnPeer _ _ _ _ _ _ _ _) as [w r] eqn:HP.
    eapply answered_hfs, PutManifest_answered, HP.
  - intros h p id data h1. unfold host_put_shard. destruct (node.PutShardOnPeer _ _ _ _ _ _ _ _) as [w r] eqn:HP.
    intros [= <- ->]. pose proof (an_up _ _ (PutShard_answered _ _ _ _ _ _ HP)) as Hu.
    unfold host_accepted. rewrite world_of_host_of by done. split_and!; [by eapply node.PutShardOnPeer_remote|intros _ Hid|done].
    apply node.PutShardOnPeer_Ok in HP as (_ & Hh & Hs); [by exists data|done].
  - intros h p id data h1. unfold host_put_manifest. destruct (node.PutManifestRawOnPeer _ _ _ _ _ _ _ _) as [w r] eqn:HP.
    intros [= <- ->]. pose proof (an_up _ _ (PutManifest_answered _ _ _ _ _ _ HP)) as Hu.
    unfold host_accepted. rewrite world_of_host_of by done. split_and!; [by eapply node.PutManifestRawOnPeer_remote|done|intros _ Hid].
    by apply node.PutManifestRawOnPeer_Ok in HP as [_ ?].
  - apply accepted_set_fs.
  - intros h q id' data p k id. unfold host_put_shard. destruct (node.PutShardOnPeer _ _ _ _ _ _ _ _) as [w r] eqn:HP.
    apply answered_accepted. by eapply PutShard_answered.
  - intros h q id' data p k id. unfold host_put_manifest. destruct (node.PutManifestRawOnPeer _ _ _ _ _ _ _ _) as [w r] eqn:HP.
    apply answered_accepted. by eapply PutManifest_answered.
Defined.

(** One [flushAll] of the worker, on the state of the file service. *)
Definition worker_pass (sp : spool.Spool) st : FS * list spool.Entry :=
  match node.nodes (world st) !! me with
  | Some n =>
      let '(h, sent) := spool.flushAll (host_of n (world st)) sp in
      (NewFS (world_of h) (rng st) (cached st), sent)
  | None => (st, [])
  end.

(** ** A pass as a sequence of acts *)

Context (base : string -> path).
Hypothesis plain_disk : forall t, network.plain_io (disk t).

Abbreviation nodes_of h := (node.nodes (world_of h)).

Lemma send_acts h p e b : rtc (network.act base) (nodes_of h) (nodes_of (spool.send h p e b).1).
Proof.
  unfold spool.send. case_bool_decide; cbn [spool.PutShardOnPeer spool.PutManifestRawOnPeer node_sender];
    unfold host_put_shard, host_put_manifest.
  - destruct (node.PutShardOnPeer _ _ _ _ _ _ _ _) as [w r] eqn:HP. cbn [fst].
    rewrite world_of_host_of by (by eapply an_up, PutShard_answered). by eapply network.PutShardOnPeer_acts.
  - destruct (node.PutManifestRawOnPeer _ _ _ _ _ _ _ _) as [w r] eqn:HP. cbn [fst].
    rewrite world_of_host_of by (by eapply an_up, PutManifest_answered). by eapply network.PutManifestRawOnPeer_acts.
Qed.

Lemma pass_acts N0 : spool.pass_inv (network.spool_of base me) (fun h => rtc (network.act base) N0 (nodes_of h)).
Proof.
  split.
  - intros h p e b Hh. etrans; [exact Hh|apply send_acts].
  - intros h peerID p e b h1 Hh Hpl Hit Hp Hd _ HS. pose proof (send_acts h p e b) as HA. pose proof (spool.send_hfs h p e b) as Hf.
    rewrite HS in HA, Hf. simpl in HA, Hf, Hd |- *. etrans; [exact Hh|]. eapply rtc_r; [exact HA|].
    destruct Hit as (I1 & Hk & I3). destruct (spool.send_accepted _ _ _ _ _ Hk HS) as (_ & A & _).
    rewrite <- (insert_insert_eq (h_nodes h1) me (node.set_fs (h_me h1) (spool.Remove (node.nfs (h_me h1)) e).1) (h_me h1)).
    eapply network.act_sent; [apply lookup_insert_eq|exact Hpl|by split_and!|exact Hp|by rewrite Hf|]. intros Ek Hid.
    by apply A.
Qed.

Lemma worker_pass_acts sp st st' sent :
  spool sv = Some sp -> network.seated base sv ->
  (forall n, node.nodes (world st) !! me = Some n -> spool.os_names (node.nfs n)) ->
  worker_pass sp st = (st', sent) -> rtc (network.act base) (node.nodes (world st)) (node.nodes (world st')).
Proof.
  intros Hsp [_ [E|E]] Hos; rewrite Hsp in E; [done|]. injection E as ->. unfold worker_pass.
  destruct (node.nodes (world st) !! me) as [n|] eqn:Hn; [|by intros [= <- _]].
  destruct (spool.flushAll (host_of n (world st)) _) as [h r] eqn:HF. intros [= <- _]. simpl.
  eapply (spool.flushAll_inv _ _ _ _ _ (pass_acts (node.nodes (world st))) ); [| |exact HF].
  - simpl. rewrite Hn. by apply Hos.
  - rewrite world_of_host_of; [done|by eexists].
Qed.

(** ** What a pass delivers *)

(** The node at [p] of the world takes every shard. *)
Definition taking (p : string) (w : node.World) : Prop := exists n, node.nodes w !! p = Some n /\ node.accepting n.

Definition online_at (w : node.World) (p : string) : bool :=
  match node.nodes w !! me with
  | Some n => match node.nledger n with Some l => ledger.IsOnline (node.nstore n) l p | None => false end
  | None => false
  end.

Lemma host_online_at h p : host_online h p = online_at (world_of h) p.
Proof. unfold online_at, world_of, host_online. cbn [node.nodes]. by rewrite lookup_insert_eq. Qed.

Hypothesis fine_disk : forall t, node.fine (disk t).

Lemma blockRequest_taking p w q req w' r : node.blockRequest fate clock disk w me q req = (w', r) -> taking p w -> taking p w'.
Proof.
  intros [E|(n & input & _ & Hn & E)]%node.blockRequest_handled (x & Hx & Ha); unfold taking; rewrite E; [by exists x|].
  destruct (decide (peer_String q = p)) as [<-|Hne].
  - rewrite lookup_insert_eq. eexists. split; [done|]. rewrite Hn in Hx. injection Hx as <-. by apply node.handleBlocks_accepting.
  - rewrite lookup_insert_ne by done. by exists x.
Qed.

Lemma blockRequest_online w q req w' r p :
  node.blockRequest fate clock disk w me q req = (w', r) -> online_at w' p = online_at w p.
Proof. intros E%node.blockRequest_self. unfold online_at. by rewrite E. Qed.

Lemma record_taking p w f : taking p w -> taking p (node.record w me f).
Proof.
  intros (x & Hx & Ha). unfold node.record. destruct (node.nodes w !! me) as [n|] eqn:Hn; [|by exists x].
  destruct (node.nledger n) as [l|]; [|by exists x]. unfold taking. cbn [node.set_node node.nodes].
  destruct (decide (me = p)) as [<-|Hne].
  - rewrite lookup_insert_eq. eexists. split; [done|]. rewrite Hn in Hx. injection Hx as <-. by eapply node.accepting_disk.
  - rewrite lookup_insert_ne by done. by exists x.
Qed.

Lemma record_online w q n now p :
  online_at (node.record w me (fun s l => ledger.RecordStoredOnThem s l q n now)) p = online_at w p.
Proof.
  unfold node.record, online_at. destruct (node.nodes w !! me) as [x|] eqn:Hx; [|by rewrite Hx].
  destruct (node.nledger x) as [l|] eqn:Hl; [|by rewrite Hx, Hl]. cbn [node.set_node node.nodes].
  rewrite lookup_insert_eq. cbn [node.nledger node.set_ledger node.nstore]. apply ledger.StoredOnThem_online.
Qed.

(** The worker's sends leave a peer that takes shards taking them, and online in
    the ledger. *)
Definition open_to (k : string) (p : pid) h : Prop := online_at (world_of h) k = true /\ taking (peer_String p) (world_of h).

Lemma send_open k p h q e b : open_to k p h -> open_to k p (spool.send h q e b).1.
Proof.
  intros [Ho Ht]. unfold spool.send. case_bool_decide; cbn [spool.PutShardOnPeer spool.PutManifestRawOnPeer node_sender];
    unfold host_put_shard, host_put_manifest.
  - destruct (node.PutShardOnPeer _ _ _ _ _ _ _ _) as [w r] eqn:HP. cbn [fst]. unfold open_to.
    rewrite world_of_host_of by (by eapply an_up, PutShard_answered).
    unfold node.PutShardOnPeer in HP. destruct (node.blockRequest _ _ _ _ _ _ _) as [w1 r1] eqn:HB.
    pose proof (blockRequest_taking _ _ _ _ _ _ HB Ht) as T1. pose proof (blockRequest_online _ _ _ _ _ k HB) as O1. rewrite Ho in O1.
    destruct r1 as [resp| |]; [destruct (negb _)|..]; injection HP as <- _; try done.
    split; [by rewrite record_online|by apply record_taking].
  - destruct (node.PutManifestRawOnPeer _ _ _ _ _ _ _ _) as [w r] eqn:HP. cbn [fst]. unfold open_to.
    rewrite world_of_host_of by (by eapply an_up, PutManifest_answered).
    unfold node.PutManifestRawOnPeer in HP. destruct (node.blockRequest _ _ _ _ _ _ _) as [w1 r1] eqn:HB.
    pose proof (blockRequest_taking _ _ _ _ _ _ HB Ht) as T1. pose proof (blockRequest_online _ _ _ _ _ k HB) as O1. rewrite Ho in O1.
    destruct r1 as [resp| |]; [destruct (negb _)|..]; by injection HP as <- _.
Qed.

Lemma set_fs_open k (p : pid) h f : peer_String p <> me -> open_to k p h -> open_to k p (set_host_fs h f).
Proof.
  intros Hne [Ho (n & Hn & Ha)]. unfold open_to, taking, online_at, world_of, set_host_fs in *. cbn [node.nodes h_me h_nodes] in *.
  rewrite lookup_insert_eq in *. split; [done|]. exists n. by rewrite lookup_insert_ne in *.
Qed.

(** What lies in the queue of this node for [k] fits a message. *)
Definition queue_fits (k : string) f : Prop := node.fits (node.NewResponse true "" []) /\
  forall key data, file_at f (spool.item_path (network.spool_of base me) k spool.KindShard key) = Some data ->
    node.fits (node.NewRequest node.OpPutShard key data).

Lemma open_takes k p f0 :
  peer_String p <> me -> (forall t, fate t me (peer_String p) = node.Through) ->
  network.queue_sound base me f0 -> queue_fits k f0 ->
  spool.takes (network.spool_of base me) k p f0 (open_to k p).
Proof.
  intros Hne Hf Hq [Hr Hfit]. split.
  - intros. by apply send_open.
  - intros. by apply set_fs_open.
  - intros h [Ho _]. simpl. by rewrite host_online_at.
  - intros h e b [_ (n & Hn & Ha)] (_ & _ & Hpath) Hk HR. unfold spool.Read in HR. rewrite Hpath, Hk in HR.
    apply ReadFile_file_at in HR. unfold spool.send. rewrite bool_decide_eq_true_2 by done.
    cbn [spool.PutShardOnPeer node_sender]. unfold host_put_shard. rewrite <- (Hq _ _ _ HR). pose proof (Hfit _ _ HR) as Hfit'.
    rewrite <- (Hq _ _ _ HR) in Hfit'.
    destruct (node.PutShardOnPeer_through fate clock disk (world_of h) me p n b) as [w E]; auto.
    rewrite E. eauto.
Qed.

Hypothesis plain_base : forall p, network.plain_path (base p).

(** The queue of a reachable holder drains.  The holder [k] is another node,
    in order and with room on its disk; this node's ledger has it online, messages
    to it arrive, disk calls do not fail, and what is queued for it fits a message.
    Then after one pass of the worker - whatever happens to the items of the other
    peers, and to the manifests - no shard is left in the queue for [k], and every
    shard that was queued for it is on its disk. *)
Lemma pass_delivers sp st st' sent n k p :
  spool sv = Some sp -> network.seated base sv -> network.healthy base (node.nodes (world st)) ->
  node.nodes (world st) !! me = Some n -> spool.tree (node.nfs n) -> queue_fits k (node.nfs n) ->
  plain_name k = true -> peer_Decode k = Some p -> peer_String p <> me ->
  online_at (world st) k = true -> taking (peer_String p) (world st) ->
  (forall t, fate t me (peer_String p) = node.Through) ->
  worker_pass sp st = (st', sent) ->
  (forall id, ~ queued sv (node.disks (world st')) k id) /\
  (forall id, queued sv (node.disks (world st)) k id -> placed (node.disks (world st')) k id).
Proof.
  intros Hsp Hseat HN Hn Ht Hfit Hpl Hp Hne Hon Htk Hfate HW.
  assert (Hos : spool.os_names (node.nfs n)) by (by eapply network.he_names).
  assert (HA : rtc (network.act base) (node.nodes (world st)) (node.nodes (world st'))).
  { eapply worker_pass_acts; [exact Hsp|exact Hseat| |exact HW]. intros x Hx. rewrite Hn in Hx. by injection Hx as <-. }
  assert (Esp : sp = network.spool_of base me) by (destruct Hseat as [_ [E|E]]; congruence). subst sp.
  assert (HE : forall id, ~ queued sv (node.disks (world st')) k id).
  { intros id (sp & f & ob & data & Hsp' & Hf & Hfile & Hh). rewrite Hsp in Hsp'. injection Hsp' as <-.
    unfold worker_pass in HW. rewrite Hn in HW.
    destruct (spool.flushAll (host_of n (world st)) _) as [h r] eqn:HF. injection HW as <- _.
    assert (Hw : world_of (host_of n (world st)) = world st) by (by apply world_of_host_of; eexists).
    assert (Hme : h_me (host_of n (world st)) = n) by (unfold host_of; simpl; by rewrite Hn).
    unfold node.disks in Hf. cbn [world] in Hf. rewrite lookup_fmap in Hf. unfold world_of in Hf. cbn [node.nodes] in Hf.
    rewrite lookup_insert_eq in Hf. injection Hf as Hf _.
    pose proof (spool.flushAll_drains (network.spool_of base me) k p (open_to k p) (host_of n (world st)) h r id) as HD.
    cbn [spool.hfs node_sender] in HD. rewrite Hme, Hf, Hfile in HD. discriminate HD; try done.
    - apply open_takes; [done|done|by eapply network.he_queue|done].
    - simpl. by destruct (base me).
    - intros E. pose proof (blockstore.HashOf_shard_id data) as (x & Hl & Ex). rewrite Hh, E in Ex. by destruct x.
    - unfold open_to. by rewrite Hw. }
  split; [done|]. intros id Hq.
  assert (Hid : blockstore.shard_id id) by (destruct Hq as (? & ? & ? & data & _ & _ & _ & <-); apply blockstore.HashOf_shard_id).
  destruct (network.acts_lodged _ plain_base sv _ _ k id Hseat HN HA Hid (or_intror Hq)) as [?|Hq']; [done|]. by destruct (HE id).
Qed.

End on_node.
End with_libraries.
End delivery.
