(* ===== verification/Queue.v ===== *)
(** * The queue under concurrent use

    [Spool] has the operations of internal/spool one after the other.  In the daemon
    uploads enqueue while the worker drains: [write] runs under the mutex of the
    spool, the worker's [ListEntries], [Read] and [Remove] do not.  Here every system
    call is a step of its own; the goroutines that enqueue and the worker take their
    steps in any order.  The operations of [Spool] are the runs in which one of them
    moves alone. *)

From S2P Require Import Prelude Ext Concrete Fs Spool Network.

Module queue.
Import spool network.

(** ** The calls of [write] *)

Record Job := NewJob { j_peer : string; j_kind : string; j_key : string; j_data : bytes; j_io : wio }.

(** Where a goroutine in [write] is: before the mutex, before one of its system
    calls, or returned. *)
Inductive wpc := WEnter | WMkdir | WCreate | WData | WClose | WRename | WRet (r : outcome unit).

Definition returned (pc : wpc) : bool := match pc with WRet _ => true | _ => false end.

Implicit Types (f : fs) (sp : Spool) (j : Job) (pc : wpc) (e : Entry) (es : list Entry) (peer kind key : string) (b : bytes).

Definition job_dir sp j : path := filepath_Join (root sp) [j_peer j].
Definition job_dst sp j : path := filepath_Join (job_dir sp j) [j_kind j +:+ "_" +:+ j_key j].
Definition job_tmp sp j : path := job_dir sp j ++ [tmp_name (j_io j)].

(** The guard of [write], before it takes the mutex. *)
Definition refused j : bool := bool_decide (j_peer j = "") || bool_decide (j_key j = "").

(** One system call of [write] under the mutex. *)
Definition write_call sp j pc f : wpc * fs :=
  let io := j_io j in
  let tmp := job_tmp sp j in
  match pc with
  | WMkdir =>
      match io_mkdir io with
      | Some e => (WRet (Err e), f)
      | None => match MkdirAll f (job_dir sp j) with
                | (f', Ok _) => (WCreate, f')
                | (f', r) => (WRet r, f')
                end
      end
  | WCreate =>
      match io_create io, f !! tmp with
      | Some e, _ => (WRet (Err e), f)
      | None, Some _ => (WRet (Err (ErrMsg "file exists")), f)
      | None, None => if is_dir f (job_dir sp j) then (WData, <[tmp := File []]> f) else (WRet (Err ErrNotExist), f)
      end
  | WData =>
      match io_write io with
      | Some e => (WRet (Err e), delete tmp f)
      | None => (WClose, <[tmp := File (j_data j)]> f)
      end
  | WClose =>
      match io_close io with
      | Some e => (WRet (Err e), delete tmp f)
      | None => (WRename, f)
      end
  | WRename =>
      match io_rename io with
      | Some e => (WRet (Err e), f)
      | None => let '(f', r) := rename f tmp (job_dst sp j) (j_data j) in (WRet r, f')
      end
  | WEnter | WRet _ => (pc, f)
  end.

(** ** The calls of the worker *)

(** Where the worker is: between passes; in the loop of [flushAll]; in the loop of
    [flushPeer], with the entries to come; about to send what it read; about to
    remove the entry; about to prune the directory. *)
Inductive kpc :=
  | KIdle
  | KPeers (ps : list string)
  | KWork (es : list Entry) (ps : list string)
  | KSend (e : Entry) (b : bytes) (es : list Entry) (ps : list string)
  | KRemove (e : Entry) (es : list Entry) (ps : list string)
  | KPrune (dir : path) (es : list Entry) (ps : list string).

(** The order of the two loops of [flushPeer]: shards, then manifests. *)
Definition work es : list Entry :=
  filter (fun e => Kind e = KindShard) es ++ filter (fun e => Kind e = KindManifest) es.

(** What was sent and accepted. *)
Abbreviation Sent := (list (Entry * bytes)).

Section steps.
Context `{PeerIDs} (sp : Spool).

(** The worker's steps.  [PendingPeers] takes the mutex; whether a peer is online,
    and whether it accepts an item, is not decided here. *)
Inductive kstep (mu : option nat) : fs * kpc * Sent -> fs * kpc * Sent -> Prop :=
  | k_pass f sent : mu = None ->
      kstep mu (f, KIdle, sent) (f, KPeers (match PendingPeers f sp with Ok ps => ps | _ => [] end), sent)
  | k_end f sent : kstep mu (f, KPeers [], sent) (f, KIdle, sent)
  | k_skip f sent p ps : kstep mu (f, KPeers (p :: ps), sent) (f, KPeers ps, sent)
  | k_list f sent p q ps es : peer_Decode p = Some q -> ListEntries f sp p = Ok es ->
      kstep mu (f, KPeers (p :: ps), sent) (f, KWork (work es) ps, sent)
  | k_done f sent ps : kstep mu (f, KWork [] ps, sent) (f, KPeers ps, sent)
  | k_read f sent e b es ps : Read f e = Ok b ->
      kstep mu (f, KWork (e :: es) ps, sent) (f, KSend e b es ps, sent)
  | k_unread f sent e es ps : (forall b, Read f e <> Ok b) ->
      kstep mu (f, KWork (e :: es) ps, sent) (f, KWork es ps, sent)
  | k_sent f sent e b es ps : kstep mu (f, KSend e b es ps, sent) (f, KRemove e es ps, sent ++ [(e, b)])
  | k_failed f sent e b es ps : kstep mu (f, KSend e b es ps, sent) (f, KPeers ps, sent)
  | k_removed f sent e p es ps f' r : e_path e = Some p -> Fs.Remove f p = (f', r) ->
      r = Ok tt \/ (exists er, r = Err er /\ errors_Is er ErrNotExist = true) ->
      kstep mu (f, KRemove e es ps, sent) (f', KPrune (filepath_Dir p) es ps, sent)
  | k_unremoved f sent e p es ps f' er : e_path e = Some p -> Fs.Remove f p = (f', Err er) -> errors_Is er ErrNotExist = false ->
      kstep mu (f, KRemove e es ps, sent) (f', KWork es ps, sent)
  | k_prune f sent dir es ps : kstep mu (f, KPrune dir es ps, sent) ((Fs.Remove f dir).1, KWork es ps, sent).

(** ** Everything together *)

Record State := NewState {
  q_fs : fs;
  q_mu : option nat;
  q_writers : gmap nat (Job * wpc);
  q_worker : kpc;
  q_sent : Sent
}.

(** [J] are the calls of [EnqueueShard] and [EnqueueManifest] there can be. *)
Inductive step (J : Job -> Prop) : State -> State -> Prop :=
  | st_call f mu ws k sent i j : J j -> ws !! i = None ->
      step J (NewState f mu ws k sent) (NewState f mu (<[i := (j, WEnter)]> ws) k sent)
  | st_refuse f mu ws k sent i j : ws !! i = Some (j, WEnter) -> refused j = true ->
      step J (NewState f mu ws k sent)
        (NewState f mu (<[i := (j, WRet (Err (ErrMsg "spool: empty peer id or key")))]> ws) k sent)
  | st_lock f ws k sent i j : ws !! i = Some (j, WEnter) -> refused j = false ->
      step J (NewState f None ws k sent) (NewState f (Some i) (<[i := (j, WMkdir)]> ws) k sent)
  | st_write f ws k sent i j pc f' pc' : ws !! i = Some (j, pc) -> write_call sp j pc f = (pc', f') ->
      step J (NewState f (Some i) ws k sent)
        (NewState f' (if returned pc' then None else Some i) (<[i := (j, pc')]> ws) k sent)
  | st_worker f mu ws k sent f' k' sent' : kstep mu (f, k, sent) (f', k', sent') ->
      step J (NewState f mu ws k sent) (NewState f' mu ws k' sent').

Definition start f : State := NewState f None ∅ KIdle [].

(** ** One goroutine alone *)

(** [n] calls of [write]. *)
Fixpoint calls (n : nat) j pc f : wpc * fs :=
  match n with
  | O => (pc, f)
  | S n' => let '(pc', f') := write_call sp j pc f in calls n' j pc' f'
  end.

Lemma calls_ret n j r f : calls n j (WRet r) f = (WRet r, f).
Proof. by induction n. Qed.

Lemma is_dir_mkdir f dir f' : MkdirAll f dir = (f', Ok tt) -> is_dir f' dir = true.
Proof.
  intros E. unfold is_dir. destruct dir as [|c dir]; [done|]. pose proof (mkdirs_dir _ _ _ _ E) as Hd. simpl in Hd.
  by rewrite Hd.
Qed.

(** [write] is five calls. *)
Lemma calls_write j f f' r :
  refused j = false -> write (j_io j) f sp (j_peer j) (j_kind j) (j_key j) (j_data j) = (f', r) ->
  calls 5 j WMkdir f = (WRet r, f').
Proof.
  unfold refused, write, write_rename_to. intros ->. cbv zeta. unfold calls, write_call.
  fold (job_dir sp j). fold (job_dst sp j). fold (job_tmp sp j).
  destruct (io_mkdir (j_io j)); [by intros [= <- <-]|].
  destruct (MkdirAll f (job_dir sp j)) as [f1 [[]|er|]] eqn:EM; [|by intros [= <- <-]..].
  destruct (io_create (j_io j)); [by intros [= <- <-]|].
  destruct (f1 !! job_tmp sp j); [by intros [= <- <-]|]. rewrite (is_dir_mkdir _ _ _ EM).
  destruct (io_write (j_io j)); [by intros [= <- <-]|]. destruct (io_close (j_io j)); [by intros [= <- <-]|].
  destruct (io_rename (j_io j)); [by intros [= <- <-]|]. by intros ->.
Qed.

Lemma calls_run J i j k sent f' r : forall n ws pc f,
  returned pc = false -> calls n j pc f = (WRet r, f') -> ws !! i = Some (j, pc) ->
  rtc (step J) (NewState f (Some i) ws k sent) (NewState f' None (<[i := (j, WRet r)]> ws) k sent).
Proof.
  induction n as [|n IH]; intros ws pc f Hpc; simpl; [by intros [= -> _]|].
  destruct (write_call sp j pc f) as [pc1 f1] eqn:EC. intros E Hi.
  eapply rtc_l; [by eapply st_write|]. destruct (returned pc1) eqn:ER.
  - destruct pc1; try done. rewrite calls_ret in E. by injection E as <- <-.
  - etrans; [eapply IH; [exact ER|exact E|by rewrite lookup_insert_eq]|]. by rewrite insert_insert_eq.
Qed.

(** A goroutine that enqueues alone does what [write] of [Spool] does. *)
Lemma write_alone J i j ws k sent f f' r :
  ws !! i = Some (j, WEnter) -> write (j_io j) f sp (j_peer j) (j_kind j) (j_key j) (j_data j) = (f', r) ->
  rtc (step J) (NewState f None ws k sent) (NewState f' None (<[i := (j, WRet r)]> ws) k sent).
Proof.
  intros Hi E. destruct (refused j) eqn:Hr.
  - unfold write in E. unfold refused in Hr. rewrite Hr in E. injection E as <- <-. apply rtc_once. by eapply st_refuse.
  - eapply rtc_l; [by eapply st_lock|]. apply calls_write in E; [|done].
    etrans; [eapply calls_run; [|exact E|by rewrite lookup_insert_eq]; done|]. by rewrite insert_insert_eq.
Qed.

(** The worker alone: a removal, the entries of one kind, a peer, a pass. *)
Lemma remove_run e p es ps f sent :
  e_path e = Some p -> rtc (kstep None) (f, KRemove e es ps, sent) ((Remove f e).1, KWork es ps, sent).
Proof.
  intros He. unfold Remove. rewrite He. destruct (Fs.Remove f p) as [f1 r] eqn:ER. destruct r as [[]|er|].
  - eapply rtc_l; [eapply k_removed; [exact He|exact ER|by left]|]. apply rtc_once, k_prune.
  - destruct (errors_Is er ErrNotExist) eqn:EE; [|apply rtc_once; by eapply k_unremoved].
    eapply rtc_l; [eapply k_removed; [exact He|exact ER|right; by eexists]|]. apply rtc_once, k_prune.
  - unfold Fs.Remove in ER. by repeat case_match.
Qed.

Context {W : Type} `{!Sender W}.
Implicit Types w : W.

Lemma flush_entries_run p kind ps entries : forall rest w sent w' sent' stop acc,
  flush_entries w p kind entries sent = (w', sent', stop) ->
  exists bs, sent' = sent ++ map fst bs /\
    rtc (kstep None) (hfs w, KWork (filter (fun e => Kind e = kind) entries ++ rest) ps, acc)
      (hfs w', if stop then KPeers ps else KWork rest ps, acc ++ bs).
Proof.
  induction entries as [|e entries IH]; intros rest w sent w' sent' stop acc HF; cbn [flush_entries] in HF.
  { injection HF as <- <- <-. exists []. by rewrite !app_nil_r. }
  rewrite filter_cons. destruct (decide (Kind e = kind)) as [Hk|Hk].
  2: { rewrite bool_decide_eq_false_2 in HF by done. by apply IH. }
  rewrite bool_decide_eq_true_2 in HF by done. cbn [negb] in HF.
  destruct (Read (hfs w) e) as [b|er|] eqn:HR.
  2-3: destruct (IH rest _ _ _ _ _ acc HF) as (bs & E & HS); exists bs; split; [done|];
    (eapply rtc_l; [apply k_unread; intros b; by rewrite HR|exact HS]).
  assert (exists q, e_path e = Some q) as [q Hq] by (unfold Read in HR; destruct (e_path e); eauto; done).
  pose proof (send_hfs w p e b) as Hh. destruct (send w p e b) as [w1 r] eqn:HS. simpl in Hh.
  destruct r as [[]|er|].
  2-3: injection HF as <- <- <-; exists []; rewrite !app_nil_r; split; [done|]; rewrite Hh;
    (eapply rtc_l; [by apply k_read|]); apply rtc_once, k_failed.
  destruct (IH rest _ _ _ _ _ (acc ++ [(e, b)]) HF) as (bs & E & HR'). exists ((e, b) :: bs). split.
  { rewrite E. simpl. by rewrite <- app_assoc. }
  eapply rtc_l; [by apply k_read|]. eapply rtc_l; [apply k_sent|]. etrans; [by eapply remove_run|].
  rewrite hfs_set, Hh in HR'. rewrite <- app_assoc in HR'. exact HR'.
Qed.

Lemma flushPeer_run d ps w w' out acc :
  flushPeer w sp d = (w', out) ->
  exists bs, out = map fst bs /\ rtc (kstep None) (hfs w, KPeers (d :: ps), acc) (hfs w', KPeers ps, acc ++ bs).
Proof.
  unfold flushPeer. destruct (peer_Decode d) as [p|] eqn:Hp.
  2: { intros [= <- <-]. exists []. rewrite app_nil_r. split; [done|]. apply rtc_once, k_skip. }
  destruct (ListEntries (hfs w) sp d) as [es|er|] eqn:HL.
  2-3: intros [= <- <-]; exists []; rewrite app_nil_r; split; [done|]; apply rtc_once, k_skip.
  destruct (flush_entries w p KindShard es []) as [[w1 s1] stop] eqn:F1.
  destruct (flush_entries_run _ _ ps _ (filter (fun e => Kind e = KindManifest) es) _ _ _ _ _ acc F1) as (bs1 & E1 & R1).
  destruct stop.
  { intros [= <- <-]. exists bs1. split; [done|]. eapply rtc_l; [by eapply k_list|exact R1]. }
  destruct (flush_entries w1 p KindManifest es s1) as [[w2 s2] stop2] eqn:F2. intros [= <- <-].
  destruct (flush_entries_run _ _ ps _ [] _ _ _ _ _ (acc ++ bs1) F2) as (bs2 & E2 & R2). rewrite app_nil_r in R2.
  exists (bs1 ++ bs2). split; [by rewrite E2, E1, map_app|]. eapply rtc_l; [by eapply k_list|].
  etrans; [exact R1|]. rewrite app_assoc. destruct stop2; [exact R2|]. eapply rtc_r; [exact R2|]. apply k_done.
Qed.

Lemma flushAll_run w w' out acc :
  flushAll w sp = (w', out) ->
  exists bs, out = map fst bs /\ rtc (kstep None) (hfs w, KIdle, acc) (hfs w', KIdle, acc ++ bs).
Proof.
  intros HF. cut (exists bs, out = map fst bs /\ rtc (kstep None)
      (hfs w, KPeers (match PendingPeers (hfs w) sp with Ok ps => ps | _ => [] end), acc) (hfs w', KPeers [], acc ++ bs)).
  { intros (bs & E & R). exists bs. split; [done|]. eapply rtc_l; [by apply k_pass|]. eapply rtc_r; [exact R|apply k_end]. }
  unfold flushAll in HF. destruct (PendingPeers (hfs w) sp) as [ps|er|].
  2-3: injection HF as <- <-; exists []; by rewrite app_nil_r.
  cut (forall out0, fold_left (fun x p => if IsOnline x.1 p then let '(w', sent) := flushPeer x.1 sp p in (w', x.2 ++ sent) else x)
    ps (w, out0) = (w', out) -> exists bs, out = out0 ++ map fst bs /\ rtc (kstep None) (hfs w, KPeers ps, acc) (hfs w', KPeers [], acc ++ bs)).
  { intros HC. by destruct (HC [] HF) as (bs & -> & R); eauto. }
  clear HF. revert w acc. induction ps as [|d ps IH]; intros w acc out0 HF; cbn [fold_left fst snd] in HF.
  { injection HF as <- <-. exists []. by rewrite !app_nil_r. }
  destruct (IsOnline w d).
  - destruct (flushPeer w sp d) as [w1 s1] eqn:F1. destruct (flushPeer_run _ ps _ _ _ acc F1) as (bs1 & E1 & R1).
    destruct (IH w1 (acc ++ bs1) _ HF) as (bs2 & E2 & R2). exists (bs1 ++ bs2). rewrite app_assoc. split; [|by etrans].
    by rewrite E2, E1, map_app, app_assoc.
  - destruct (IH w acc _ HF) as (bs & E & R). exists bs. split; [done|]. eapply rtc_l; [apply k_skip|exact R].
Qed.

End steps.

Section safety.
Context `{PeerIDs} (sp : Spool) (content : string -> string -> string -> bytes).

Definition known kind : Prop := kind = KindShard \/ kind = KindManifest.

(** A call with a name for its temporary file, a known kind, a peer that is a file
    name, a hexadecimal key, and the bytes that belong to the key: shards are named
    by their hash, and the manifest of a new file is enqueued once per peer. *)
Record proper j : Prop := {
  pr_kind : known (j_kind j);
  pr_peer : plain_name (j_peer j) = true;
  pr_key : hex_string (j_key j) = true;
  pr_some : j_key j <> "";
  pr_tmp : plain_name (tmp_name (j_io j)) = true;
  pr_data : j_data j = content (j_peer j) (j_kind j) (j_key j)
}.

(** An item is in the queue or has been accepted, byte for byte. *)
Definition held f (sent : Sent) peer kind key b : Prop :=
  file_at f (item_path sp peer kind key) = Some b \/
  exists e, (e, b) ∈ sent /\ PeerID e = peer /\ Kind e = kind /\ Key e = key.

(** What the worker's position says. *)
Definition entry_ok e : Prop := known (Kind e) /\ e_path e = Some (item_path sp (PeerID e) (Kind e) (Key e)).

Definition worker_ok (sent : Sent) (k : kpc) : Prop :=
  match k with
  | KIdle => True
  | KPeers ps => Forall (fun p => plain_name p = true) ps
  | KWork es ps => Forall entry_ok es /\ Forall (fun p => plain_name p = true) ps
  | KSend e b es ps =>
      entry_ok e /\ b = content (PeerID e) (Kind e) (Key e) /\ Forall entry_ok es /\ Forall (fun p => plain_name p = true) ps
  | KRemove e es ps =>
      entry_ok e /\ (e, content (PeerID e) (Kind e) (Key e)) ∈ sent /\ Forall entry_ok es /\ Forall (fun p => plain_name p = true) ps
  | KPrune dir es ps =>
      (exists peer, dir = root sp ++ [peer]) /\ Forall entry_ok es /\ Forall (fun p => plain_name p = true) ps
  end.

(** Each file of the queue has the bytes of its key. *)
Definition sound f : Prop := forall peer kind key b,
  known kind -> file_at f (item_path sp peer kind key) = Some b -> b = content peer kind key.

(** What a step does to an item: nothing, or the item is put in place, or it is
    taken away after it was accepted. *)
Definition touched f f' (sent' : Sent) : Prop := forall peer kind key, known kind ->
  file_at f' (item_path sp peer kind key) = file_at f (item_path sp peer kind key) \/
  file_at f' (item_path sp peer kind key) = Some (content peer kind key) \/
  (file_at f' (item_path sp peer kind key) = None /\
   exists e, (e, content peer kind key) ∈ sent' /\ PeerID e = peer /\ Kind e = kind /\ Key e = key).

Lemma touched_same f f' sent' :
  (forall peer kind key, known kind -> file_at f' (item_path sp peer kind key) = file_at f (item_path sp peer kind key)) -> touched f f' sent'.
Proof. intros E peer kind key Hk. left. by apply E. Qed.

Lemma touched_sound f f' sent' : sound f -> touched f f' sent' -> sound f'.
Proof.
  intros HS HT peer kind key b Hk Hb. destruct (HT peer kind key Hk) as [E|[E|[E _]]]; rewrite E in Hb; [by eapply HS|by injection Hb|done].
Qed.

Lemma held_touched f f' sent sent' peer kind key b :
  known kind -> sound f -> touched f f' sent' -> (forall x, x ∈ sent -> x ∈ sent') ->
  held f sent peer kind key b -> held f' sent' peer kind key b.
Proof.
  intros Hk HS HT Hsub [Hf|(e & He & ?)]; [|right; exists e; auto]. pose proof (HS _ _ _ _ Hk Hf) as ->.
  destruct (HT peer kind key Hk) as [E|[E|[_ HE]]]; [left; by rewrite E|by left|by right].
Qed.

(** Item paths against each other, temporary files and directories. *)
Lemma item_path_inj p1 k1 x1 p2 k2 x2 :
  known k1 -> known k2 -> item_path sp p1 k1 x1 = item_path sp p2 k2 x2 -> p1 = p2 /\ k1 = k2 /\ x1 = x2.
Proof.
  unfold item_path. intros H1 H2 [= -> E]%app_inv_head. destruct H1 as [->| ->], H2 as [->| ->]; try discriminate E;
    split_and!; try done; by apply (inj (String.append _)), (inj (String.append _)) in E.
Qed.

Lemma item_path_snoc peer kind key : item_path sp peer kind key = (root sp ++ [peer]) ++ [kind +:+ "_" +:+ key].
Proof. unfold item_path. by rewrite <- app_assoc. Qed.

Lemma item_not_dir peer kind key peer' : item_path sp peer kind key <> root sp ++ [peer'].
Proof. unfold item_path. by intros [= ?]%app_inv_head. Qed.

Lemma job_paths j : proper j ->
  job_dir sp j = root sp ++ [j_peer j] /\ job_dst sp j = item_path sp (j_peer j) (j_kind j) (j_key j) /\
  forall peer kind key, known kind -> job_tmp sp j <> item_path sp peer kind key.
Proof.
  intros [P1 P2 P3 P4 P5 P6]. assert (HD : job_dir sp j = root sp ++ [j_peer j]) by (apply Join_plain; by constructor).
  split; [done|]. split.
  - unfold job_dst. rewrite HD, item_path_snoc. apply Join_plain. constructor; [by apply item_plain|done].
  - intros peer kind key Hk. unfold job_tmp. rewrite HD, item_path_snoc. intros [_ [= E]]%app_inj_2; [|done].
    pose proof (item_not_tmp kind key Hk) as Hn. rewrite <- E in Hn. unfold tmp_name in Hn. by rewrite has_prefix_app in Hn.
Qed.

Hypothesis plain_root : plain_path (root sp).

Lemma plain_job_dir j : proper j -> plain_path (job_dir sp j).
Proof. intros Hj. destruct (job_paths j Hj) as [-> _]. apply Forall_app. split; [done|]. constructor; [by apply Hj|done]. Qed.

Lemma os_names_insert f d c n : os_names f -> plain_name c = true -> os_names (<[d ++ [c] := n]> f).
Proof.
  intros Hos Hc q x Hq. destruct (decide (q ++ [x] = d ++ [c])) as [E|E]; [by apply app_inj_tail in E as [_ ->]|].
  rewrite lookup_insert_ne in Hq by done. by eapply Hos.
Qed.

Lemma os_names_delete f q : os_names f -> os_names (delete q f).
Proof. intros Hos. eapply os_names_sub; [exact Hos|]. apply delete_subseteq. Qed.

(** One call of [write]. *)
Lemma write_call_names j pc f pc' f' : proper j -> os_names f -> write_call sp j pc f = (pc', f') -> os_names f'.
Proof.
  intros Hj Hos. assert (HT : forall n, os_names (<[job_tmp sp j := n]> f)) by (intros n; apply os_names_insert; [done|by apply Hj]).
  destruct (job_paths j Hj) as (_ & ED & _). destruct pc; simpl; [by intros [= _ <-]|..|by intros [= _ <-]].
  - destruct (io_mkdir _); [by intros [= _ <-]|]. destruct (MkdirAll f (job_dir sp j)) as [f1 r1] eqn:EM.
    assert (os_names f1); [|destruct r1; by intros [= _ <-]]. eapply os_names_grow; [exact Hos|]. intros q Hq.
    destruct (mkdirs_keys _ _ _ _ _ _ EM Hq) as [?|Hpre]; [by left|right]. eapply plain_prefix; [exact Hpre|by apply plain_job_dir].
  - destruct (io_create _); [by intros [= _ <-]|]. destruct (f !! _); [by intros [= _ <-]|].
    destruct (is_dir _ _); intros [= _ <-]; [apply HT|done].
  - destruct (io_write _); intros [= _ <-]; [by apply os_names_delete|apply HT].
  - destruct (io_close _); intros [= _ <-]; [by apply os_names_delete|done].
  - destruct (io_rename _); [by intros [= _ <-]|]. unfold rename.
    assert (HD : os_names (<[job_dst sp j := File (j_data j)]> (delete (job_tmp sp j) f))).
    { rewrite ED, item_path_snoc. apply os_names_insert; [by apply os_names_delete|]. by apply item_plain; apply Hj. }
    destruct (f !! job_dst sp j) as [[]|]; [by intros [= _ <-]|..]; (destruct (is_dir _ _); intros [= _ <-]; [apply HD|done]).
Qed.

Lemma write_call_touched j pc f pc' f' sent : proper j -> write_call sp j pc f = (pc', f') ->
  touched f f' sent /\ (pc <> WRet (Ok tt) -> pc' = WRet (Ok tt) -> file_at f' (job_dst sp j) = Some (j_data j)).
Proof.
  intros Hj. destruct (job_paths j Hj) as (_ & ED & HT).
  assert (Hins : forall n, touched f (<[job_tmp sp j := File n]> f) sent).
  { intros n. apply touched_same. intros peer kind key Hk. rewrite file_at_insert_file, decide_False; [done|by apply HT]. }
  assert (Hdel : touched f (delete (job_tmp sp j) f) sent).
  { apply touched_same. intros peer kind key Hk. rewrite file_at_delete, decide_False; [done|by apply HT]. }
  assert (Hid : touched f f sent) by (by apply touched_same).
  destruct pc; simpl; [by intros [= <- <-]|..|by intros [= <- <-]].
  - destruct (io_mkdir _); [by intros [= <- <-]|]. destruct (MkdirAll f (job_dir sp j)) as [f1 r1] eqn:EM.
    assert (touched f f1 sent) by (apply touched_same; intros peer kind key _; by eapply mkdirs_files).
    destruct r1; intros [= <- <-]; split; done.
  - destruct (io_create _); [by intros [= <- <-]|]. destruct (f !! _); [by intros [= <- <-]|].
    destruct (is_dir _ _); intros [= <- <-]; split; try done; apply Hins.
  - destruct (io_write _); intros [= <- <-]; split; try done; apply Hins.
  - destruct (io_close _); by intros [= <- <-].
  - destruct (io_rename _); [by intros [= <- <-]|]. unfold rename.
    assert (HD : touched f (<[job_dst sp j := File (j_data j)]> (delete (job_tmp sp j) f)) sent /\
      file_at (<[job_dst sp j := File (j_data j)]> (delete (job_tmp sp j) f)) (job_dst sp j) = Some (j_data j)).
    { split; [|by rewrite file_at_insert_file, decide_True]. intros peer kind key Hk. rewrite file_at_insert_file.
      case_decide as E; [|rewrite file_at_delete, decide_False by (by apply HT); by left]. right. left. f_equal.
      rewrite ED in E. apply item_path_inj in E as (<- & <- & <-); [apply Hj|apply Hj|done]. }
    destruct (f !! job_dst sp j) as [[]|]; [by intros [= <- <-]|..];
      (destruct (is_dir _ _); intros [= <- <-]; [split; [apply HD|intros _ _; apply HD]|split; done]).
Qed.

(** One step of the worker. *)
Lemma Remove_item f peer kind key f' r sent e : Fs.Remove f (item_path sp peer kind key) = (f', r) -> known kind ->
  (e, content peer kind key) ∈ sent -> PeerID e = peer -> Kind e = kind -> Key e = key -> touched f f' sent.
Proof.
  intros ER Hk He E1 E2 E3 peer' kind' key' Hk'. pose proof (Fs_Remove_lookup f (item_path sp peer kind key) (item_path sp peer' kind' key')) as HL.
  rewrite ER in HL. simpl in HL. unfold file_at. destruct (decide (item_path sp peer' kind' key' = item_path sp peer kind key)) as [E|E].
  2: { left. by rewrite HL. }
  apply item_path_inj in E as (-> & -> & ->); [|done..]. unfold Fs.Remove in ER.
  destruct (f !! item_path sp peer kind key) as [[]|] eqn:EL; [destruct (has_children _ _)|..]; injection ER as <- <-.
  - left. by rewrite EL.
  - left. by rewrite lookup_delete_eq.
  - right. right. rewrite lookup_delete_eq. split; [done|by exists e].
  - left. by rewrite EL.
Qed.

Lemma Remove_dir_touched f peer sent : touched f (Fs.Remove f (root sp ++ [peer])).1 sent.
Proof.
  apply touched_same. intros peer' kind key _. unfold file_at. by rewrite Fs_Remove_lookup by apply item_not_dir.
Qed.

Lemma work_ok es : Forall entry_ok es -> Forall entry_ok (work es).
Proof.
  intros He. apply Forall_app. split; apply Forall_forall; intros e [_ Hin]%list_elem_of_filter; rewrite Forall_forall in He; by apply He.
Qed.

Lemma kstep_ok mu f k sent f' k' sent' :
  os_names f -> sound f -> worker_ok sent k -> kstep sp mu (f, k, sent) (f', k', sent') ->
  os_names f' /\ touched f f' sent' /\ worker_ok sent' k' /\ (forall x, x ∈ sent -> x ∈ sent').
Proof.
  intros Hos HS Hk Hst. assert (Hid : touched f f sent) by (by apply touched_same).
  inversion Hst; subst; simpl in *; try (split_and!; tauto); clear Hst.
  - split_and!; try done. destruct (PendingPeers f' sp) as [ps|er|] eqn:HP; [by eapply PendingPeers_plain|by constructor..].
  - apply Forall_cons in Hk as [_ Hk]. by split_and!.
  - apply Forall_cons in Hk as [Hp Hk]. split_and!; try done. apply work_ok.
    match goal with HL : ListEntries _ _ _ = Ok _ |- _ => destruct (ListEntries_items _ _ _ _ Hos Hp HL) as [[Hit _]| ->]; [|done] end.
    eapply Forall_impl; [exact Hit|]. intros e (E & ? & ?). unfold entry_ok. by rewrite E.
  - destruct Hk as [[He Hes]%Forall_cons Hps]. split_and!; try done.
    match goal with HR : Read _ _ = Ok _ |- _ => unfold Read in HR; rewrite (proj2 He) in HR; apply ReadFile_file_at in HR;
      eapply HS; [apply He|exact HR] end.
  - destruct Hk as [[_ Hes]%Forall_cons Hps]. by split_and!.
  - destruct Hk as (He & -> & Hes & Hps). split_and!; try done; [by apply touched_same|apply elem_of_app; right; by constructor|].
    intros x Hx. apply elem_of_app. by left.
  - destruct Hk as (He & Hin & Hes & Hps). match goal with HP : e_path _ = Some _ |- _ => rewrite (proj2 He) in HP; injection HP as <- end.
    match goal with HR : Fs.Remove _ _ = _ |- _ => pose proof (Fs_Remove_sub f (item_path sp (PeerID e) (Kind e) (Key e))) as Hsub; rewrite HR in Hsub;
      split_and!; [by eapply os_names_sub|by eapply Remove_item; [exact HR|apply He|..]| |done|done|done] end.
    exists (PeerID e). unfold filepath_Dir. by rewrite item_path_snoc, removelast_last.
  - destruct Hk as (He & Hin & Hes & Hps). match goal with HP : e_path _ = Some _ |- _ => rewrite (proj2 He) in HP; injection HP as <- end.
    match goal with HR : Fs.Remove _ _ = _ |- _ => pose proof (Fs_Remove_sub f (item_path sp (PeerID e) (Kind e) (Key e))) as Hsub; rewrite HR in Hsub;
      split_and!; [by eapply os_names_sub|by eapply Remove_item; [exact HR|apply He|..]|done|done|done] end.
  - destruct Hk as ((peer & ->) & Hes & Hps). split_and!; try done; [|apply Remove_dir_touched].
    eapply os_names_sub; [exact Hos|apply Fs_Remove_sub].
Qed.

(** ** The invariant *)

Record Inv f0 (st : State) : Prop := {
  iv_names : os_names (q_fs st);
  iv_sound : sound (q_fs st);
  iv_worker : worker_ok (q_sent st) (q_worker st);
  iv_jobs i j pc : q_writers st !! i = Some (j, pc) -> proper j /\
    (pc = WRet (Ok tt) -> held (q_fs st) (q_sent st) (j_peer j) (j_kind j) (j_key j) (j_data j));
  iv_first peer kind key b : known kind -> file_at f0 (item_path sp peer kind key) = Some b -> held (q_fs st) (q_sent st) peer kind key b
}.

(** The files change under the goroutines. *)
Lemma Inv_touched f0 f mu ws k sent f' mu' k' sent' :
  Inv f0 (NewState f mu ws k sent) -> os_names f' -> touched f f' sent' -> worker_ok sent' k' ->
  (forall x, x ∈ sent -> x ∈ sent') -> Inv f0 (NewState f' mu' ws k' sent').
Proof.
  intros [I1 I2 I3 I4 I5] Hn HT Hk Hsub. simpl in *. split; simpl; [done|by eapply touched_sound|done|..].
  - intros i j pc Hi. destruct (I4 i j pc Hi) as [Hj Hh]. split; [done|]. intros Hr. eapply held_touched; [apply Hj|exact I2|exact HT|exact Hsub|by apply Hh].
  - intros peer kind key b Hkn Hb. eapply held_touched; [done|exact I2|exact HT|exact Hsub|by apply I5].
Qed.

(** One goroutine moves. *)
Lemma Inv_writer f0 f mu ws k sent mu' i j pc :
  Inv f0 (NewState f mu ws k sent) -> proper j ->
  (pc = WRet (Ok tt) -> held f sent (j_peer j) (j_kind j) (j_key j) (j_data j)) ->
  Inv f0 (NewState f mu' (<[i := (j, pc)]> ws) k sent).
Proof.
  intros [I1 I2 I3 I4 I5] Hj Hh. simpl in *. split; simpl; try done. intros i' j' pc'. destruct (decide (i' = i)) as [->|Hne].
  - rewrite lookup_insert_eq. by intros [= <- <-].
  - rewrite lookup_insert_ne by done. apply I4.
Qed.

Lemma Inv_step f0 st st' : Inv f0 st -> step sp proper st st' -> Inv f0 st'.
Proof.
  intros HI Hst. destruct Hst as [f mu ws k sent i j Hj Hi|f mu ws k sent i j Hi Hr|f ws k sent i j Hi Hr
    |f ws k sent i j pc f' pc' Hi HC|f mu ws k sent f' k' sent' HK].
  - by eapply Inv_writer.
  - eapply Inv_writer; [exact HI|by eapply (iv_jobs _ _ HI)|done].
  - eapply Inv_writer; [exact HI|by eapply (iv_jobs _ _ HI)|done].
  - destruct (iv_jobs _ _ HI i j pc Hi) as [Hj Hh]. destruct (write_call_touched _ _ _ _ _ sent Hj HC) as [HT Hdst].
    eapply (Inv_writer f0 f' (Some i)); [eapply (Inv_touched f0 f (Some i)); [exact HI|by eapply write_call_names; [|apply (iv_names _ _ HI)|]|done|apply (iv_worker _ _ HI)|done]|done|].
    intros ->. destruct (returned pc) eqn:Hret; [destruct pc as [| | | | | |r]; try done; simpl in HC; injection HC as -> <-; by apply Hh|].
    assert (pc <> WRet (Ok tt)) by (by intros ->). left. destruct (job_paths j Hj) as (_ & <- & _). by apply Hdst.
  - destruct (kstep_ok _ _ _ _ _ _ _ (iv_names _ _ HI) (iv_sound _ _ HI) (iv_worker _ _ HI) HK) as (Hn & HT & Hk & Hsub).
    by eapply Inv_touched.
Qed.

(** [C7] The queue loses nothing under concurrent use.  Goroutines enqueue shards
    and manifests while the worker lists, reads, sends and removes, their system
    calls in any order, with disk faults and refused sends anywhere.  At every moment
    each item whose [write] returned without error, and each item that was queued
    at the start, lies in the queue with its bytes or has been accepted by its peer
    with these bytes - provided that items under one name have one content. *)
Theorem queue_keeps f0 st :
  os_names f0 -> sound f0 -> rtc (step sp proper) (start f0) st ->
  (forall i j, q_writers st !! i = Some (j, WRet (Ok tt)) -> held (q_fs st) (q_sent st) (j_peer j) (j_kind j) (j_key j) (j_data j)) /\
  (forall peer kind key b, known kind -> file_at f0 (item_path sp peer kind key) = Some b -> held (q_fs st) (q_sent st) peer kind key b).
Proof.
  intros Hos HS Hrun. assert (HI : Inv f0 st).
  { cut (Inv f0 (start f0)); [|by split; simpl; try done; intros; left]. induction Hrun; eauto using Inv_step. }
  split; [|apply HI]. intros i j Hi. by apply (iv_jobs _ _ HI i j _ Hi).
Qed.

End safety.

(** ** The window between MkdirAll and CreateTemp *)

Section race.
Context `{PeerIDs} (sp : Spool).

Lemma has_children_none f dir : (forall c, f !! (dir ++ [c]) = None) -> has_children f dir = false.
Proof.
  intros Hno. apply Bool.not_true_iff_false. unfold has_children. rewrite existsb_exists. intros (q & Hq & Hd).
  apply bool_decide_eq_true in Hd as [Hne <-]. apply list_elem_of_In, list_elem_of_fmap in Hq as ([q' n] & -> & Hq).
  apply elem_of_map_to_list in Hq. simpl in *. destruct q' as [|c q' _] using rev_ind; [done|].
  specialize (Hno c). rewrite removelast_last in Hno. by rewrite Hq in Hno.
Qed.

Lemma is_dir_gone f dir : dir <> [] -> f !! dir = None -> is_dir f dir = false.
Proof. intros Hne E. unfold is_dir. destruct dir; [done|]. by rewrite E. Qed.

(** [MkdirAll] of what is there. *)
Lemma mkdirs_there f todo : forall dn, (forall t, t `prefix_of` todo -> t <> [] -> f !! (dn ++ t) = Some Dir) -> mkdirs f dn todo = (f, Ok tt).
Proof.
  induction todo as [|c todo IH]; intros dn Hd; simpl; [done|].
  rewrite (Hd [c]) by (done || by apply prefix_cons, prefix_nil). apply IH. intros t Ht Hne.
  rewrite <- app_assoc. apply Hd; [by apply prefix_cons|done].
Qed.

Lemma tree_above f dir : tree f -> f !! dir = Some Dir -> forall t, t `prefix_of` dir -> t <> [] -> f !! t = Some Dir.
Proof.
  intros Ht Hd t [u ->] Hne. induction u as [|c u IH] using rev_ind; [by rewrite app_nil_r in Hd|]. apply IH.
  rewrite app_assoc in Hd. eapply Ht; [by destruct t|by rewrite Hd].
Qed.

Lemma only_entry f peer kind key b :
  known kind -> plain_name peer = true -> key <> "" -> root sp <> [] -> tree f -> os_names f ->
  file_at f (item_path sp peer kind key) = Some b ->
  (forall c, c <> kind +:+ "_" +:+ key -> f !! ((root sp ++ [peer]) ++ [c]) = None) ->
  ListEntries f sp peer = Ok [NewEntry peer kind key (Some (item_path sp peer kind key))].
Proof.
  intros Hk Hp Hne Hr Ht Hos Hf Honly. set (dir := root sp ++ [peer]) in *. set (name := kind +:+ "_" +:+ key) in *.
  rewrite item_path_snoc in Hf. fold dir name in Hf.
  assert (Hs : is_Some (f !! (dir ++ [name]))) by (unfold file_at in Hf; by destruct (f !! (dir ++ [name]))).
  assert (Hd : f !! dir = Some Dir) by (eapply Ht; [by unfold dir; destruct (root sp)|exact Hs]).
  assert (Hn : plain_name name = true) by (by eapply Hos).
  assert (HR : exists names, ReadDir f dir = Ok names) by (unfold ReadDir; rewrite Hd; eauto). destruct HR as [names HR].
  pose proof (ReadDir_NoDup _ _ _ HR) as Hnd. pose proof (elem_of_ReadDir f dir names) as Hel.
  assert (names = [name]) as ->.
  { assert (Hin : name ∈ names) by (by apply Hel). assert (Hall : forall c, c ∈ names -> c = name).
    { intros c Hc. destruct (decide (c = name)) as [->|Hcn]; [done|]. apply Hel in Hc; [|done]. rewrite Honly in Hc by done. by destruct Hc. }
    destruct names as [|c1 [|c2 names]]; [by apply elem_of_nil in Hin|by rewrite (Hall c1) by constructor|]. exfalso.
    apply NoDup_cons in Hnd as [Hnd _]. apply Hnd. rewrite (Hall c1), (Hall c2) by (repeat constructor). constructor. }
  unfold ListEntries. rewrite (Join_plain (root sp) [peer]) by (by constructor). fold dir. rewrite HR. simpl.
  unfold parse_name. rewrite (item_not_tmp kind key Hk : has_prefix ".tmp-" name = false). rewrite (Join_plain _ [name]) by (by constructor).
  unfold dir, name. rewrite item_path_snoc. destruct key as [|c key]; [done|]. by destruct Hk as [->| ->].
Qed.

Lemma skip_to mu l1 p l2 f sent : rtc (kstep sp mu) (f, KPeers (l1 ++ p :: l2), sent) (f, KPeers (p :: l2), sent).
Proof. induction l1 as [|d l1 IH]; [done|]. simpl. eapply rtc_l; [apply k_skip|exact IH]. Qed.

Lemma worker_run J mu ws x y : rtc (kstep sp mu) x y ->
  rtc (step sp J) (NewState x.1.1 mu ws x.1.2 x.2) (NewState y.1.1 mu ws y.1.2 y.2).
Proof.
  induction 1 as [x|x y z Hxy _ IH]; [done|]. destruct x as [[f k] sent], y as [[f1 k1] sent1]. eapply rtc_l; [by apply st_worker|exact IH].
Qed.

(** The worker delivers the only item of a peer, up to the pruning. *)
Lemma last_item_run mu f peer kind key b q ps :
  known kind -> plain_name peer = true -> key <> "" -> root sp <> [] -> tree f -> os_names f ->
  file_at f (item_path sp peer kind key) = Some b -> peer_Decode peer = Some q ->
  (forall c, c <> kind +:+ "_" +:+ key -> f !! ((root sp ++ [peer]) ++ [c]) = None) ->
  let e := NewEntry peer kind key (Some (item_path sp peer kind key)) in
  rtc (kstep sp mu) (f, KPeers (peer :: ps), []) (delete (root sp ++ [peer]) (delete (item_path sp peer kind key) f), KWork [] ps, [(e, b)]).
Proof.
  intros Hk Hp Hne Hr Ht Hos Hf Hq Honly e. set (dir := root sp ++ [peer]) in *.
  assert (Hl : f !! item_path sp peer kind key = Some (File b)) by (unfold file_at in Hf; repeat case_match; by simplify_eq).
  assert (HD : f !! dir = Some Dir) by (apply (Ht dir (kind +:+ "_" +:+ key)); [by unfold dir; destruct (root sp)|]; rewrite item_path_snoc in Hl; by eexists).
  eapply rtc_l; [eapply k_list; [exact Hq|by eapply only_entry]|].
  assert (HW : work [e] = [e]) by (by destruct Hk as [->| ->]). fold e. rewrite HW.
  eapply rtc_l; [apply (k_read _ _ _ _ e b); unfold Read; cbn [e_path]; by apply ReadFile_file_at|].
  eapply rtc_l; [apply k_sent|].
  eapply rtc_l; [eapply (k_removed _ _ _ _ e); [reflexivity|unfold Fs.Remove; rewrite Hl; reflexivity|by left]|].
  assert (ED : filepath_Dir (item_path sp peer kind key) = dir) by (unfold filepath_Dir; by rewrite item_path_snoc, removelast_last).
  rewrite ED. apply rtc_once. set (f1 := delete (item_path sp peer kind key) f).
  assert (HP : (Fs.Remove f1 dir).1 = delete dir f1).
  { unfold Fs.Remove. assert (f1 !! dir = Some Dir) as -> by (unfold f1; rewrite lookup_delete_ne; [done|apply item_not_dir]).
    rewrite has_children_none; [done|]. intros c. unfold f1. rewrite item_path_snoc. fold dir.
    destruct (decide (c = kind +:+ "_" +:+ key)) as [->|Hc]; [by rewrite lookup_delete_eq|].
    rewrite lookup_delete_ne; [by apply Honly|]. by intros [= E]%app_inv_head. }
  rewrite <- HP. apply k_prune.
Qed.

(** [C13] Enqueueing can fail although no call does.  The worker prunes a peer's
    directory when it has sent the last item in it, and does not hold the mutex:
    between [MkdirAll] and [CreateTemp] of a [write] for that peer the directory can
    disappear.  Then [write] returns that the file does not exist, with every
    system call of its own free of faults, and the item is neither queued nor sent. *)
Theorem enqueue_can_fail f0 j kind key b q r :
  known kind -> plain_name (j_peer j) = true -> key <> "" -> root sp <> [] -> tree f0 -> os_names f0 ->
  file_at f0 (item_path sp (j_peer j) kind key) = Some b -> peer_Decode (j_peer j) = Some q ->
  (forall c, c <> kind +:+ "_" +:+ key -> f0 !! ((root sp ++ [j_peer j]) ++ [c]) = None) ->
  known (j_kind j) -> hex_string (j_key j) = true -> refused j = false -> j_io j = io_fine r -> j_key j <> key ->
  exists st, rtc (step sp (eq j)) (start f0) st /\ q_writers st !! 0%nat = Some (j, WRet (Err ErrNotExist)) /\ q_mu st = None /\
    file_at (q_fs st) (job_dst sp j) = None /\ forall e, e ∈ map fst (q_sent st) -> Key e = key.
Proof.
  intros Hk Hp Hne Hr Ht Hos Hf Hq Honly Hk' Hx Hrf Hio Hjk. set (dir := root sp ++ [j_peer j]) in *.
  assert (HD : job_dir sp j = dir) by (apply Join_plain; by constructor).
  assert (HE : job_dst sp j = item_path sp (j_peer j) (j_kind j) (j_key j)).
  { unfold job_dst. rewrite HD, item_path_snoc. apply Join_plain. constructor; [by apply item_plain|done]. }
  destruct (item_listed f0 sp (j_peer j) kind key b Hk Hp Hne Hr Ht Hos Hf) as [(peers & HP & Hin) _].
  apply list_elem_of_split in Hin as (l1 & l2 & ->).
  assert (Hl : f0 !! dir = Some Dir).
  { eapply (Ht dir (kind +:+ "_" +:+ key)); [by unfold dir; destruct (root sp)|]. rewrite item_path_snoc in Hf. unfold file_at in Hf. fold dir in Hf. by destruct (f0 !! _). }
  assert (HM : MkdirAll f0 (job_dir sp j) = (f0, Ok tt)) by (rewrite HD; apply mkdirs_there; by apply tree_above).
  set (f2 := delete dir (delete (item_path sp (j_peer j) kind key) f0)).
  set (e := NewEntry (j_peer j) kind key (Some (item_path sp (j_peer j) kind key))).
  assert (Hgone : f2 !! dir = None) by (unfold f2; by rewrite lookup_delete_eq).
  assert (Htmp : f2 !! job_tmp sp j = None).
  { unfold f2, job_tmp. rewrite HD. rewrite !lookup_delete_None. right. right. apply Honly. rewrite Hio. by destruct Hk as [->| ->]. }
  exists (NewState f2 None (<[0%nat := (j, WRet (Err ErrNotExist))]> (<[0%nat := (j, WCreate)]> (<[0%nat := (j, WMkdir)]> {[0%nat := (j, WEnter)]}))) (KWork [] l2) [(e, b)]).
  split_and!; [|simpl; by rewrite lookup_insert_eq|done| |].
  - eapply rtc_l; [apply st_worker, k_pass; done|]. rewrite HP.
    eapply rtc_l; [by apply (st_call _ _ _ _ _ _ _ 0%nat j)|].
    eapply rtc_l; [by apply (st_lock _ _ _ _ _ _ 0%nat j); [rewrite lookup_insert_eq|]|].
    eapply rtc_l; [apply (st_write _ _ _ _ _ _ 0%nat j WMkdir f0 WCreate); [by rewrite lookup_insert_eq|]; simpl; by rewrite Hio, HM|].
    etrans; [refine (worker_run _ _ _ (_, _, _) (_, _, _) (skip_to _ l1 (j_peer j) l2 f0 []))|].
    etrans; [refine (worker_run _ _ _ (_, _, _) (_, _, _) (last_item_run _ f0 (j_peer j) kind key b q l2 Hk Hp Hne Hr Ht Hos Hf Hq Honly))|].
    apply rtc_once. cbn [fst snd]. apply (st_write _ _ f2 _ _ _ 0%nat j WCreate f2 (WRet (Err ErrNotExist))); [by rewrite lookup_insert_eq|].
    unfold write_call. rewrite Hio, Htmp, HD. cbn [io_create io_fine]. rewrite is_dir_gone; [done| |exact Hgone]. by unfold dir; destruct (root sp).
  - simpl. rewrite HE. unfold f2, file_at. rewrite lookup_delete_ne by (apply not_eq_sym, item_not_dir).
    destruct (decide (item_path sp (j_peer j) kind key = item_path sp (j_peer j) (j_kind j) (j_key j))) as [E|E].
    { rewrite E. by rewrite lookup_delete_eq. }
    rewrite lookup_delete_ne by done. rewrite item_path_snoc. fold dir. rewrite Honly; [done|]. intros E'. apply E. by rewrite !item_path_snoc, E'.
  - simpl. intros e' He'. apply list_elem_of_singleton in He' as ->. done.
Qed.

End race.

(** ** The operations of [Spool] are runs *)

Section alone.
Context `{PeerIDs} (sp : Spool) {W : Type} `{!Sender W}.

(** The two models of the spool agree.  While nobody else
    moves, a goroutine that enqueues goes through exactly what [write] does to the
    files, to its result; and a pass of the worker goes through what [flushAll] does,
    to the same files and the same sent entries, in the same order. *)
Lemma calls_refine J ws :
  (forall i j k sent f f' r, ws !! i = Some (j, WEnter) ->
     write (j_io j) f sp (j_peer j) (j_kind j) (j_key j) (j_data j) = (f', r) ->
     rtc (step sp J) (NewState f None ws k sent) (NewState f' None (<[i := (j, WRet r)]> ws) k sent)) /\
  (forall (w w' : W) out sent, flushAll w sp = (w', out) ->
     exists bs, out = map fst bs /\
       rtc (step sp J) (NewState (hfs w) None ws KIdle sent) (NewState (hfs w') None ws KIdle (sent ++ bs))).
Proof.
  split; [intros; by eapply write_alone|]. intros w w' out sent HF.
  destruct (flushAll_run sp w w' out sent HF) as (bs & E & R). exists bs. split; [done|].
  exact (worker_run sp J None ws (_, _, _) (_, _, _) R).
Qed.

End alone.

(** ** Witnesses *)

Definition sample_content (peer kind key : string) : bytes := [Byte.x09].

Definition sample_job : Job := NewJob "12DB" KindShard "0c" [Byte.x09] (io_fine "1").

Lemma sample_proper : proper sample_content sample_job.
Proof. split; try done. by left. Qed.

Definition sample_after : fs := (write (io_fine "1") ∅ sample_spool "12DB" KindShard "0c" [Byte.x09]).1.

Lemma queue_keeps_witness : exists st, rtc (step (H := toy_peers) sample_spool (proper sample_content)) (start ∅) st /\
  q_writers st !! 0%nat = Some (sample_job, WRet (Ok tt)) /\
  held sample_spool (q_fs st) (q_sent st) "12DB" KindShard "0c" [Byte.x09].
Proof.
  set (st := NewState sample_after None (<[0%nat := (sample_job, WRet (Ok tt))]> (<[0%nat := (sample_job, WEnter)]> ∅)) KIdle []).
  assert (Hrun : rtc (step (H := toy_peers) sample_spool (proper sample_content)) (start ∅) st).
  { eapply rtc_l; [apply (st_call _ _ _ _ _ _ _ 0%nat sample_job); [exact sample_proper|reflexivity]|].
    apply (write_alone sample_spool _ 0%nat sample_job (<[0%nat := (sample_job, WEnter)]> ∅) KIdle [] ∅ sample_after (Ok tt));
      [reflexivity|vm_compute; reflexivity]. }
  exists st. split_and!; [exact Hrun|reflexivity|].
  refine (proj1 (queue_keeps sample_spool sample_content _ ∅ st _ _ Hrun) 0%nat sample_job _).
  - repeat constructor.
  - by intros q c [n Hn].
  - by intros peer kind key b _ Hb.
  - reflexivity.
Defined.

Lemma alone_check f dir name :
  forallb (fun kv => bool_decide (kv.1 = []) || negb (bool_decide (removelast kv.1 = dir)) || bool_decide (last kv.1 = Some name)) (map_to_list f) = true ->
  forall c, c <> name -> f !! (dir ++ [c]) = None.
Proof.
  rewrite forallb_forall. intros Hall c Hc. destruct (f !! (dir ++ [c])) as [n|] eqn:E; [|done]. exfalso.
  specialize (Hall (dir ++ [c], n)). cbn [fst] in Hall. rewrite removelast_last, last_snoc in Hall.
  assert (Hin : In (dir ++ [c], n) (map_to_list f)) by (by apply list_elem_of_In, elem_of_map_to_list). specialize (Hall Hin).
  rewrite (bool_decide_eq_false_2 (dir ++ [c] = [])), (bool_decide_eq_true_2 (dir = dir)), bool_decide_eq_false_2 in Hall; [done|congruence|done|by destruct dir].
Qed.

(** The queue has one shard for the peer; a second one is enqueued. *)
Definition next_job : Job := NewJob "12DB" KindShard "0d" [Byte.x08] (io_fine "2").

Lemma enqueue_can_fail_witness : exists st, rtc (step (H := toy_peers) sample_spool (eq next_job)) (start sample_after) st /\
  q_writers st !! 0%nat = Some (next_job, WRet (Err ErrNotExist)).
Proof.
  destruct (enqueue_can_fail (H := toy_peers) sample_spool sample_after next_job KindShard "0c" [Byte.x09] "B" "2")
    as (st & R & E & _); [..|by exists st].
  - by left.
  - reflexivity.
  - discriminate.
  - discriminate.
  - apply tree_check. vm_compute. reflexivity.
  - apply os_names_check. vm_compute. reflexivity.
  - vm_compute. reflexivity.
  - reflexivity.
  - apply alone_check. vm_compute. reflexivity.
  - by left.
  - reflexivity.
  - reflexivity.
  - reflexivity.
  - discriminate.
Defined.

End queue.
