(* ===== verification/Repair.v ===== *)
(** * internal/repair/repair.go: moving an offline peer's shards to a spare

    The service works for the local node [sv] (the daemon gives it the same
    node, store, block store and ledger as the file service).  The manifests it
    walks come from other nodes too; the identifiers it cuts to twelve
    characters for its log, the slots it indexes, are theirs. *)

From S2P Require Import Prelude Ext Concrete Store Fs Blockstore Crypto Ec Holders Cache Manifest Ledger Group.
From S2P Require Import Blocks Spool Base64 File Reader Upload.

Module repair.
Import file reader upload.

Section with_libraries.
Context `{Badger, !Sha256, !manifest.ManifestCbor, !ledger.EntryCbor, !node.RequestCbor, !node.ResponseCbor,
  PeerIDs, AesGcm, NaclBox, ReedSolomon, !group.GroupCbor, !group.MemberCbor, !NameCbor}.
Context (fate : nat -> string -> string -> node.Fate) (clock : nat -> Z) (disk : nat -> wio).
Implicit Types (sv : Service) (m : manifest.Manifest) (st : FS).

Notation "'do!' x ':=' c 'in' k" := (bind c (fun x => k))
  (at level 10, x pattern, c at level 200, k at level 200, only parsing).

(** [s.ledger.IsOnline(peer)]; a method call on a nil ledger panics. *)
Definition online sv (peer : string) : M bool :=
  on_local disk sv (fun _ n =>
    (n, match node.nledger n with Some l => Ok (ledger.IsOnline (node.nstore n) l peer) | None => Panic end)).

(** The argument [m.FileID[:12]] of the log calls. *)
Definition log12 (s : string) : M string := lift (str_slice s 0 12).

(** One turn of the loop that gathers [k] shards from the slots other than
    [slot]: the shard of slot [i], if it can be had. *)
Definition fetch_slot sv (holders : list string) (slot i : Z) (shardID : string) : M (option bytes) :=
  if i =? slot then ret None
  else
    do! l := attempt (local_get disk sv shardID) in
    match l with
    | Ok data => ret (Some data)
    | _ =>
        do! holder := lift (index holders i) in
        do! skip := (if bool_decide (holder = peer_String (self sv)) then ret true
                     else do! up := online sv holder in ret (negb up)) in
        if skip : bool then ret None
        else match peer_Decode holder with
             | None => ret None
             | Some p =>
                 do! x := attempt (get_shard fate clock disk sv p shardID) in
                 ret (match x with Ok data => Some data | _ => None end)
             end
    end.

(** The loop from slot [i] on, [ids] being the identifiers from there: the
    entries of [shardBytes], and the final count. *)
Fixpoint gather sv (holders : list string) (slot k i gathered : Z) (ids : list string) : M (list bytes * Z) :=
  match ids with
  | [] => ret ([], gathered)
  | shardID :: ids' =>
      if gathered <? k then
        do! x := fetch_slot sv holders slot i shardID in
        do! (rest, n) := gather sv holders slot k (i + 1) (match x with Some _ => gathered + 1 | None => gathered end) ids' in
        ret (default [] x :: rest, n)
      else ret (map (fun _ => []) ids, gathered)
  end.

(** Store the rebuilt shard on the spare. *)
Definition place sv (spare shardID : string) (data : bytes) : M unit :=
  if bool_decide (spare = peer_String (self sv)) then local_put disk sv shardID data
  else match peer_Decode spare with
       | None => fail (ErrMsg "failed to parse peer ID")
       | Some p => put_shard fate clock disk sv p shardID data
       end.

(** A slot that [Reconstruct] filled is not empty, so the test for nil is a test
    for the empty slice. *)
Definition migrateStripeShard sv m (stripe : manifest.Stripe) (slot : Z) (spare : string) (params : ec.Params) : M unit :=
  let total := ec.DataShards params + ec.ParityShards params in
  if negb (zlen (manifest.ShardIDs stripe) =? total) then fail (ErrMsg "stripe malformed")
  else
    do! (shardBytes, gathered) :=
      gather sv (manifest.Holders m) slot (ec.DataShards params) 0 0 (manifest.ShardIDs stripe) in
    if gathered <? ec.DataShards params then fail (ErrMsg "cannot reconstruct")
    else
      let '(full, decoded) := ec.Decode params shardBytes (manifest.CiphertextBytes stripe) in
      do! _ := wrapped "ec reconstruct: " (lift decoded) in
      do! sh := lift (index full slot) in
      if bool_decide (sh = []) then fail (ErrMsg "ec reconstruct produced no shard")
      else
        do! id := lift (index (manifest.ShardIDs stripe) slot) in
        if negb (bool_decide (blockstore.HashOf sh = id)) then fail (ErrMsg "reconstructed shard hash mismatch")
        else place sv spare id sh.

(** The number of holders still there. *)
Fixpoint live sv (holders : list string) : M Z :=
  match holders with
  | [] => ret 0
  | h :: holders' =>
      do! up := (if bool_decide (h = peer_String (self sv)) then ret true else online sv h) in
      do! n := live sv holders' in
      ret (if up : bool then n + 1 else n)
  end.

(** The first member that is no holder and is online (or this node). *)
Fixpoint find_spare sv (busy : list string) (members : list group.Member) : M string :=
  match members with
  | [] => ret ""
  | mem :: members' =>
      if bool_decide (group.PeerID mem ∈ busy) then find_spare sv busy members'
      else
        do! up := (if bool_decide (group.PeerID mem = peer_String (self sv)) then ret true
                   else online sv (group.PeerID mem)) in
        if up : bool then ret (group.PeerID mem) else find_spare sv busy members'
  end.

Fixpoint migrate_all sv m (slot : Z) (spare : string) (params : ec.Params) (stripes : list manifest.Stripe) : M unit :=
  match stripes with
  | [] => ret tt
  | stripe :: stripes' =>
      do! r := attempt (migrateStripeShard sv m stripe slot spare params) in
      match r with
      | Ok _ => migrate_all sv m slot spare params stripes'
      | Err e => do! _ := log12 (manifest.FileID m) in fail e
      | Panic => lift Panic
      end
  end.

(** [m.Holders[slot] = spare] *)
Definition set_holder m (slot : Z) (spare : string) : manifest.Manifest :=
  manifest.NewManifest (manifest.FileID m) (manifest.GroupID m) (manifest.Filename m) (manifest.Size m)
    (manifest.DataShards m) (manifest.ParityShards m) (manifest.StripeDataSize m)
    (<[Z.to_nat slot := spare]> (manifest.Holders m)) (manifest.Stripes m) (manifest.CreatedAt m)
    (manifest.OwnerPeerID m) (manifest.Mode m) (manifest.WrappedKey m) (manifest.FilenameEncrypted m).

Fixpoint propagate sv m (holders : list string) : M unit :=
  match holders with
  | [] => ret tt
  | h :: holders' =>
      if bool_decide (h = peer_String (self sv)) then propagate sv m holders'
      else match peer_Decode h with
           | None => propagate sv m holders'
           | Some p =>
               do! _ := attempt (on_world (fun w =>
                 node.PutManifestOnPeer fate clock disk w (peer_String (self sv)) p m)) in
               propagate sv m holders'
           end
  end.

Definition repairFile sv m (slot : Z) : M unit :=
  do! n := live sv (manifest.Holders m) in
  if manifest.DataShards m <? n then do! _ := log12 (manifest.FileID m) in ret tt
  else
    do! members := wrapped "list members: " (with_store disk sv (fun s => group.ListMembers s (manifest.GroupID m))) in
    do! spare := find_spare sv (manifest.Holders m) members in
    if bool_decide (spare = "") then
      do! _ := log12 (manifest.FileID m) in do! _ := log12 (manifest.GroupID m) in ret tt
    else
      do! _ := migrate_all sv m slot spare (params_of m) (manifest.Stripes m) in
      let m' := set_holder m slot spare in
      do! _ := wrapped "save manifest: " (on_store disk sv (fun s => manifest.Put s m')) in
      do! _ := propagate sv m' (manifest.Holders m') in
      do! _ := log12 (manifest.FileID m') in
      ret tt.

(** [indexOf] *)
Fixpoint indexOf_from (i : Z) (s : list string) (v : string) : Z :=
  match s with
  | [] => -1
  | x :: s' => if bool_decide (x = v) then i else indexOf_from (i + 1) s' v
  end.

Definition indexOf (s : list string) (v : string) : Z := indexOf_from 0 s v.

Fixpoint scan_manifests sv (offlinePeer : string) (ms : list manifest.Manifest) : M unit :=
  match ms with
  | [] => ret tt
  | m :: ms' =>
      let slot := indexOf (manifest.Holders m) offlinePeer in
      if slot <? 0 then scan_manifests sv offlinePeer ms'
      else
        do! r := attempt (repairFile sv m slot) in
        do! _ := match r with
                 | Err _ => do! _ := log12 (manifest.FileID m) in ret tt
                 | _ => ret tt
                 end in
        scan_manifests sv offlinePeer ms'
  end.

Definition ScanForOfflinePeer sv (offlinePeer : string) : M unit :=
  do! r := attempt (with_store disk sv manifest.List) in
  match r with
  | Ok manifests => scan_manifests sv offlinePeer manifests
  | _ => ret tt
  end.

(** ** What the steps of a repair leave alone *)

Definition quiet sv st st' : Prop :=
  rtc node.dstep (node.disks (world st)) (node.disks (world st')) /\ local_store sv st' = local_store sv st.

#[local] Instance quiet_trans sv : Transitive (quiet sv).
Proof. intros st1 st2 st3 [R1 L1] [R2 L2]. split; [by etrans|congruence]. Qed.

Lemma quiet_attached sv st st' : quiet sv st st' -> attached sv (world st) -> attached sv (world st').
Proof. intros [R _] Ha. apply attached_disks. eapply dsteps_attached; [done|]. by apply attached_disks. Qed.

(** A program all of whose runs are quiet. *)
Definition quietly {A} sv (c : M A) : Prop :=
  forall st st' o, attached sv (world st) -> c st = (st', o) -> quiet sv st st'.

Lemma quietly_pure {A} sv (o : outcome A) : quietly sv (lift o).
Proof. intros st st' o' _ [= <- _]. done. Qed.

Lemma quietly_bind {A B} sv (c : M A) (k : A -> M B) :
  quietly sv c -> (forall a, quietly sv (k a)) -> quietly sv (bind c k).
Proof.
  intros Hc Hk st st' o Ha. unfold bind. destruct (c st) as [st1 r] eqn:E. pose proof (Hc _ _ _ Ha E) as Q1.
  destruct r as [a|e|]; [|by intros [= <- _]..]. intros E2.
  etrans; [exact Q1|]. eapply Hk; [by eapply quiet_attached|exact E2].
Qed.

Lemma quietly_attempt {A} sv (c : M A) : quietly sv c -> quietly sv (attempt c).
Proof.
  intros Hc st st' o Ha. unfold attempt. destruct (c st) as [st1 r] eqn:E. pose proof (Hc _ _ _ Ha E).
  by destruct r; intros [= <- _].
Qed.

Lemma quietly_wrapped {A} sv msg (c : M A) : quietly sv c -> quietly sv (wrapped msg c).
Proof.
  intros Hc st st' o Ha. unfold wrapped. destruct (c st) as [st1 r] eqn:E. pose proof (Hc _ _ _ Ha E).
  by intros [= <- _].
Qed.

Lemma quietly_local {A} sv (f : wio -> node.NodeState -> outcome A) : quietly sv (on_local disk sv (fun io n => (n, f io n))).
Proof.
  intros st st' o (n & Hn & _). unfold on_local, on_world. rewrite Hn. intros [= <- _].
  unfold quiet, local_store. simpl. by rewrite insert_id.
Qed.

Lemma quietly_local_get sv id : quietly sv (local_get disk sv id).
Proof.
  intros st st' o (n & Hn & _). unfold local_get, on_fs, on_local, on_world. rewrite Hn. intros [= <- _].
  unfold quiet, local_store. simpl. rewrite lookup_insert_eq, Hn. split; [|done].
  unfold node.disks. simpl. rewrite fmap_insert, insert_id; [done|]. by rewrite lookup_fmap, Hn.
Qed.

Lemma quietly_local_put sv id data : quietly sv (local_put disk sv id data).
Proof.
  intros st st' o Ha. unfold local_put, on_fs, on_local, on_world. destruct Ha as (n & Hn & Hb). rewrite Hn.
  destruct (blockstore.Put _ _ _ _ _) as [f' r] eqn:HP. intros [= <- _]. split.
  - apply rtc_once. unfold node.disks at 2. simpl. rewrite fmap_insert. unfold node.disk_of at 1. simpl. rewrite Hb.
    eapply node.ds_put; [|exact HP]. unfold node.disks. rewrite lookup_fmap, Hn. simpl. unfold node.disk_of. by rewrite Hb.
  - unfold local_store. simpl. by rewrite lookup_insert_eq, Hn.
Qed.

Lemma record_store w me f me' : node.nstore <$> (node.nodes (node.record w me f) !! me') = node.nstore <$> (node.nodes w !! me').
Proof.
  unfold node.record. destruct (node.nodes w !! me) as [n|] eqn:Hn; [|done]. destruct (node.nledger n); [|done].
  simpl. rewrite lookup_insert. case_decide as E; [subst; by rewrite Hn|done].
Qed.

(** A request leaves the requester's own store alone. *)
Lemma blockRequest_store w me p req w' r :
  node.request_ok req = true -> node.blockRequest fate clock disk w me p req = (w', r) ->
  node.nodes w' !! me = node.nodes w !! me.
Proof.
  intros Hok HB. apply node.blockRequest_inv in HB as [[-> _]|(n & Hne & _ & HS)]; [done| |done].
  destruct (node.serveBlock _ n _). destruct HS as [-> _]. by rewrite lookup_insert_ne.
Qed.

Lemma quietly_get_shard sv p id : blockstore.shard_id id -> quietly sv (get_shard fate clock disk sv p id).
Proof.
  intros Hid st st' o _. unfold get_shard, on_world. destruct (node.GetShardFromPeer _ _ _ _ _ _ _) as [w' r] eqn:HG.
  intros [= <- _]. split; [simpl; by rewrite (node.GetShardFromPeer_disks _ _ _ _ _ _ _ _ _ Hid HG)|].
  unfold local_store. simpl. unfold node.GetShardFromPeer in HG.
  destruct (node.blockRequest _ _ _ _ _ _ _) as [w1 r1] eqn:HB.
  apply blockRequest_store in HB; [|apply node.request_ok_shard; auto].
  destruct r1 as [resp|e|]; [destruct (negb _)|..]; injection HG as <- _; rewrite ?record_store; by rewrite HB.
Qed.

Lemma quietly_put_shard sv p id data : blockstore.shard_id id -> quietly sv (put_shard fate clock disk sv p id data).
Proof.
  intros Hid st st' o _. unfold put_shard, on_world. destruct (node.PutShardOnPeer _ _ _ _ _ _ _ _) as [w' r] eqn:HG.
  intros [= <- _]. split; [simpl; by eapply node.PutShardOnPeer_steps|].
  unfold local_store. simpl. unfold node.PutShardOnPeer in HG.
  destruct (node.blockRequest _ _ _ _ _ _ _) as [w1 r1] eqn:HB.
  apply blockRequest_store in HB; [|apply node.request_ok_shard; auto].
  destruct r1 as [resp|e|]; [destruct (negb _)|..]; injection HG as <- _; rewrite ?record_store; by rewrite HB.
Qed.

Lemma quietly_send_manifest sv p m :
  text_ok (manifest.FileID m) = true ->
  quietly sv (on_world (fun w => node.PutManifestOnPeer fate clock disk w (peer_String (self sv)) p m)).
Proof.
  intros Hid st st' o _. unfold on_world, node.PutManifestOnPeer.
  destruct (manifest.Marshal' m) as [raw|e|]; [|by intros [= <- _]..].
  destruct (node.PutManifestRawOnPeer _ _ _ _ _ _ _ _) as [w' r] eqn:HP.
  destruct (PutManifestRaw_effect _ _ _ _ _ _ _ _ _ _ Hid HP) as [HD HN]. intros [= <- _]. split; [done|].
  unfold local_store. simpl. by rewrite HN.
Qed.

Lemma quietly_online sv peer : quietly sv (online sv peer).
Proof. apply (quietly_local sv (fun _ n => _)). Qed.

Lemma quietly_members sv (f : db -> outcome (list group.Member)) : quietly sv (with_store disk sv f).
Proof. apply (quietly_local sv (fun _ n => f (node.nstore n))). Qed.

Lemma quietly_ret {A} sv (a : A) : quietly sv (ret a).
Proof. apply (quietly_pure sv (Ok a)). Qed.

Lemma quietly_fail {A} sv e : quietly sv (fail (A := A) e).
Proof. apply (quietly_pure sv (Err e)). Qed.

Ltac quiet_step :=
  first [apply quietly_ret | apply quietly_fail | apply quietly_pure | apply quietly_online | apply quietly_members
        | apply quietly_local_get | apply quietly_local_put | apply quietly_get_shard; assumption
        | apply quietly_put_shard; assumption
        | apply quietly_attempt | apply quietly_wrapped | apply quietly_bind; [|intros ?]
        | match goal with |- quietly _ (match ?x with _ => _ end) => destruct x end ].

Lemma quietly_gather sv hl slot k ids : forall i g,
  Forall blockstore.shard_id ids -> quietly sv (gather sv hl slot k i g ids).
Proof.
  induction ids as [|id ids IH]; intros i g Hids; cbn [gather]; [apply quietly_ret|].
  apply Forall_cons in Hids as [Hid Hids]. unfold fetch_slot. repeat first [apply IH; assumption | quiet_step].
Qed.

Lemma quietly_place sv spare id data : blockstore.shard_id id -> quietly sv (place sv spare id data).
Proof. intros Hid. unfold place. repeat quiet_step. Qed.

Lemma quietly_live sv hl : quietly sv (live sv hl).
Proof. induction hl as [|h hl IH]; cbn [live]; repeat (apply IH || quiet_step). Qed.

Lemma quietly_find_spare sv busy members : quietly sv (find_spare sv busy members).
Proof. induction members as [|mem members IH]; cbn [find_spare]; repeat (apply IH || quiet_step). Qed.

Lemma quietly_propagate sv m hl : text_ok (manifest.FileID m) = true -> quietly sv (propagate sv m hl).
Proof.
  intros Hid. induction hl as [|h hl IH]; cbn [propagate];
    repeat (apply IH || (apply quietly_send_manifest; assumption) || quiet_step).
Qed.

(** Members read from the store, and so the manifest that names one of them,
    hold text that encodes. *)
Lemma ListMembers_text s gid members mem :
  group.ListMembers s gid = Ok members -> mem ∈ members -> text_ok (group.PeerID mem) = true.
Proof.
  rewrite group.ListMembers_scan. intros [= <-] (kv & _ & Hm)%list_elem_of_omap.
  destruct (Unmarshal kv.2) as [x| |] eqn:HU; [|done..]. injection Hm as ->. apply Unmarshal_ok in HU.
  unfold group.member_ok in HU. rewrite !andb_true_iff in HU. tauto.
Qed.

Lemma set_holder_ok m slot spare :
  manifest.manifest_ok m = true -> text_ok spare = true -> manifest.manifest_ok (set_holder m slot spare) = true.
Proof.
  unfold manifest.manifest_ok. intros Hm Hs. simpl. unfold zlen in *. rewrite length_insert.
  assert (Hf : forallb text_ok (manifest.Holders m) = true -> forallb text_ok (<[Z.to_nat slot := spare]> (manifest.Holders m)) = true).
  { rewrite !forallb_forall. intros HF x Hx%list_elem_of_In. apply list_elem_of_lookup_1 in Hx as [i Hi].
    apply list_lookup_insert_Some in Hi as [(_ & <- & _)|[_ Hi]]; [done|].
    apply HF, list_elem_of_In. by eapply list_elem_of_lookup_2. }
  rewrite !andb_true_iff in *. tauto.
Qed.

(** A stripe moved is a stripe whose shard is with the spare. *)
Lemma migrate_placed sv m stripe slot spare p st st' :
  attached sv (world st) -> Forall blockstore.shard_id (manifest.ShardIDs stripe) ->
  migrateStripeShard sv m stripe slot spare p st = (st', Ok tt) ->
  quiet sv st st' /\ exists id, manifest.ShardIDs stripe !! Z.to_nat slot = Some id /\ placed (node.disks (world st')) spare id.
Proof.
  intros Ha Hids HM. unfold migrateStripeShard in HM. destruct (negb _); [done|].
  apply bind_Ok in HM as (st1 & [bs n] & E1 & HM). pose proof (quietly_gather _ _ _ _ _ _ _ Hids _ _ _ Ha E1) as Q1.
  destruct (n <? _); [done|]. destruct (ec.Decode _ _ _) as [full decoded].
  apply bind_Ok in HM as (st2 & d & E2 & HM). apply wrapped_Ok, lift_Ok in E2 as [_ ->].
  apply bind_Ok in HM as (st3 & sh & E3 & HM). apply lift_Ok in E3 as [_ ->].
  destruct (bool_decide (sh = [])); [done|]. apply bind_Ok in HM as (st4 & id & E4 & HM).
  apply lift_Ok in E4 as [[_ Hid]%index_Ok ->]. case_bool_decide as Hh; simpl in HM; [|done]. subst id.
  pose proof (quiet_attached _ _ _ Q1 Ha) as Ha1.
  pose proof (quietly_place sv spare _ sh (blockstore.HashOf_shard_id sh) _ _ _ Ha1 HM) as Q2.
  split; [by etrans|]. exists (blockstore.HashOf sh). split; [done|]. unfold place in HM. case_bool_decide as Hs.
  - rewrite Hs. by eapply local_put_placed.
  - destruct (peer_Decode spare) as [q|] eqn:Hq; [|done]. by eapply put_shard_placed.
Qed.

(** Every shard of slot [slot] is with [spare]. *)
Definition slot_placed (D : gmap string (fs * option blockstore.Store)) (slot : Z) (spare : string) (stripes : list manifest.Stripe) : Prop :=
  forall stripe, stripe ∈ stripes -> exists id, manifest.ShardIDs stripe !! Z.to_nat slot = Some id /\ placed D spare id.

Lemma migrate_all_placed sv m slot spare p stripes : forall st st',
  attached sv (world st) ->
  (forall stripe, stripe ∈ stripes -> Forall blockstore.shard_id (manifest.ShardIDs stripe)) ->
  migrate_all sv m slot spare p stripes st = (st', Ok tt) ->
  quiet sv st st' /\ slot_placed (node.disks (world st')) slot spare stripes.
Proof.
  induction stripes as [|stripe stripes IH]; intros st st' Ha Hids HM; cbn [migrate_all] in HM.
  { injection HM as <-. split; [done|]. intros s Hs. by apply elem_of_nil in Hs. }
  apply bind_Ok in HM as (st1 & r & E1 & HM). destruct r as [[]|e|]; [|by apply bind_Ok in HM as (? & ? & _ & ?)|done].
  assert (E1' : migrateStripeShard sv m stripe slot spare p st = (st1, Ok tt)).
  { unfold attempt in E1. destruct (migrateStripeShard _ _ _ _ _ _ _) as [st2 [[]|e|]]; [|done..]. by injection E1 as <-. }
  destruct (migrate_placed _ _ _ _ _ _ _ _ Ha (Hids _ ltac:(constructor)) E1') as [Q1 (id & Hid & P1)].
  destruct (IH st1 st') as [Q2 P2]; [by eapply quiet_attached| |done|].
  { intros s Hs. apply Hids. by constructor. }
  split; [by etrans|]. intros s [-> | Hs]%elem_of_cons; [|by apply P2]. exists id. split; [done|].
  eapply dsteps_placed; [apply Q2| |done]. specialize (Hids stripe ltac:(constructor)).
  rewrite Forall_forall in Hids. apply Hids. by eapply list_elem_of_lookup_2.
Qed.

(** *** Who is there, and who can take over *)

(** What the node of [sv] holds of a peer: it is the node itself, or the ledger
    has it online. *)
Definition up sv st (h : string) : bool :=
  bool_decide (h = peer_String (self sv)) ||
  match node.nodes (world st) !! peer_String (self sv) with
  | Some n => match node.nledger n with Some l => ledger.IsOnline (node.nstore n) l h | None => false end
  | None => false
  end.

(** More holders are there than the file needs. *)
Definition headroom sv st m : bool := manifest.DataShards m <? zlen (List.filter (up sv st) (manifest.Holders m)).

(** The first member, in the order of the store, that holds nothing of the file
    and is there; [""] when there is none. *)
Definition spare_of sv st m (members : list group.Member) : string :=
  match List.find (fun mem => negb (bool_decide (group.PeerID mem ∈ manifest.Holders m)) && up sv st (group.PeerID mem)) members with
  | Some mem => group.PeerID mem
  | None => ""
  end.

Definition same_nodes st st' : Prop := node.nodes (world st') = node.nodes (world st).

Lemma same_nodes_up sv st st' h : same_nodes st st' -> up sv st' h = up sv st h.
Proof. unfold up. by intros ->. Qed.

Lemma same_nodes_silent sv st st' : same_nodes st st' -> silent sv st st'.
Proof. intros E. unfold silent, node.disks, local_store. by rewrite E. Qed.

Lemma online_up sv h st st' (b : bool) :
  (if bool_decide (h = peer_String (self sv)) then ret true else online sv h) st = (st', Ok b) -> same_nodes st st' /\ b = up sv st h.
Proof.
  unfold up. case_bool_decide; [by intros [= <- <-]|]. unfold online, on_local, on_world.
  destruct (node.nodes (world st) !! peer_String (self sv)) as [n|] eqn:Hn; [|done].
  destruct (node.nledger n) as [l|]; [|done]. intros [= <- <-]. unfold same_nodes. simpl. by rewrite insert_id.
Qed.

Lemma live_up sv hl : forall st st' n,
  live sv hl st = (st', Ok n) -> same_nodes st st' /\ n = zlen (List.filter (up sv st) hl).
Proof.
  induction hl as [|h hl IH]; intros st st' n HL; cbn [live] in HL; [by injection HL as <- <-|].
  apply bind_Ok in HL as (st1 & b & E1 & HL). apply online_up in E1 as [S1 ->].
  apply bind_Ok in HL as (st2 & n' & E2 & HL). apply IH in E2 as [S2 ->]. injection HL as <- <-.
  split; [unfold same_nodes in *; congruence|]. rewrite (filter_ext (up sv st1) (up sv st)) by (intros; by apply same_nodes_up).
  simpl. destruct (up sv st h); [|done]. unfold zlen. simpl. lia.
Qed.

Lemma find_spare_of sv m members : forall st st' spare,
  find_spare sv (manifest.Holders m) members st = (st', Ok spare) -> same_nodes st st' /\ spare = spare_of sv st m members.
Proof.
  unfold spare_of. induction members as [|mem members IH]; intros st st' spare HF; cbn [find_spare] in HF; [by injection HF as <- <-|].
  simpl. case_bool_decide as Hb; simpl; [by apply IH|]. apply bind_Ok in HF as (st1 & b & E1 & HF).
  apply online_up in E1 as [S1 ->]. destruct (up sv st (group.PeerID mem)) eqn:Hu; [injection HF as <- <-; by split|].
  apply IH in HF as [S2 ->]. split; [unfold same_nodes in *; congruence|].
  erewrite find_ext; [done|]. intros x. simpl. by rewrite (same_nodes_up _ _ _ _ S1).
Qed.

(** *** What the other nodes see of a repair

    Nothing but shards, until the manifest is saved; then it goes to every holder. *)

Section one_peer.
Context (sv : Service) (q : string) (s : db).
Hypothesis other : q <> peer_String (self sv).

Abbreviation calmly := (upload.calmly q s).

Lemma calmly_online peer : calmly (online sv peer).
Proof. by apply (calmly_on_local disk sv q s other). Qed.

Ltac calm_step :=
  first [apply calmly_ret | apply calmly_fail | apply calmly_lift | by apply calmly_online | by apply calmly_on_local
        | by apply calmly_with_store | by apply calmly_get_shard | by apply calmly_put_shard
        | apply calmly_attempt | apply calmly_wrapped | apply calmly_bind; [|intros ?]
        | match goal with |- upload.calmly _ _ (match ?x with _ => _ end) => destruct x end ].

Lemma calmly_gather hl slot k ids : forall i g,
  Forall blockstore.shard_id ids -> calmly (gather sv hl slot k i g ids).
Proof.
  induction ids as [|id ids IH]; intros i g Hids; cbn [gather]; [apply calmly_ret|].
  apply Forall_cons in Hids as [Hid Hids]. unfold fetch_slot. repeat first [apply IH; assumption | calm_step].
Qed.

Lemma calmly_migrateStripeShard m stripe slot spare p :
  Forall blockstore.shard_id (manifest.ShardIDs stripe) -> calmly (migrateStripeShard sv m stripe slot spare p).
Proof.
  intros Hids. unfold migrateStripeShard. destruct (negb _); [apply calmly_fail|].
  apply calmly_bind; [by apply calmly_gather|]. intros [bs n]. destruct (n <? _); [apply calmly_fail|].
  destruct (ec.Decode _ _ _) as [full decoded]. apply calmly_bind; [apply calmly_wrapped, calmly_lift|intros d].
  apply calmly_bind; [apply calmly_lift|intros sh]. case_bool_decide; [apply calmly_fail|].
  apply calmly_bind; [apply calmly_lift|intros id]. case_bool_decide as Hid; simpl; [subst id|apply calmly_fail].
  pose proof (blockstore.HashOf_shard_id sh). unfold place, local_put, on_fs. repeat calm_step.
Qed.

Lemma calmly_migrate_all m slot spare p stripes :
  (forall stripe, stripe ∈ stripes -> Forall blockstore.shard_id (manifest.ShardIDs stripe)) ->
  calmly (migrate_all sv m slot spare p stripes).
Proof.
  induction stripes as [|stripe stripes IH]; intros Hids; cbn [migrate_all]; [apply calmly_ret|].
  apply calmly_bind; [apply calmly_attempt, calmly_migrateStripeShard, Hids; constructor|].
  intros [[]|e|]; [apply IH; intros s' Hs; apply Hids; by constructor|repeat calm_step..].
Qed.

(** The rounds of the propagation. *)
Lemma propagate_files m raw hl :
  manifest.manifest_ok m = true -> manifest.Marshal' m = Ok raw ->
  (forall t, fate t (peer_String (self sv)) q = node.Through) -> store.writable s ->
  node.fits (node.NewRequest node.OpPutManifest (manifest.FileID m) raw) -> node.fits (node.NewResponse true "" []) ->
  forall st st', propagate sv m hl st = (st', Ok tt) ->
  before_rounds q s (world st) (manifest.manifest_norm m) hl -> node.filed_at (world st') q (manifest.manifest_norm m).
Proof.
  intros Hok Hraw Hfate Hw Hf1 Hf2. induction hl as [|h hl IH]; intros st st' HR Hpre; cbn [propagate] in HR.
  { injection HR as <-. by eapply before_rounds_nil. }
  case_bool_decide as Hself.
  { eapply IH; [exact HR|]. eapply before_rounds_skip; [|exact Hpre]. rewrite Hself. by apply self_elsewhere. }
  destruct (peer_Decode h) as [p|] eqn:Hp.
  2: { eapply IH; [exact HR|]. eapply before_rounds_skip; [|exact Hpre]. by rewrite Hp. }
  apply bind_Ok in HR as (st1 & r & E1 & HR). eapply IH; [exact HR|].
  unfold attempt, on_world, node.PutManifestOnPeer in E1. rewrite Hraw in E1.
  destruct (node.PutManifestRawOnPeer _ _ _ _ _ _ _ _) as [w' r'] eqn:HP.
  assert (world st1 = w') as -> by (by destruct r'; injection E1 as <- _).
  eapply (before_rounds_step fate clock disk sv q s other (manifest.manifest_norm m) raw); [by apply Unmarshal_Marshal|
    by apply manifest.norm_idemp|done|exact Hw|done|done|exact Hp|exact HP|exact Hpre].
Qed.

End one_peer.
(** *** The phases of a repair *)

Lemma repairFile_inv sv m slot st st' s members :
  local_store sv st = Some s -> group.ListMembers s (manifest.GroupID m) = Ok members ->
  repairFile sv m slot st = (st', Ok tt) ->
  let spare := spare_of sv st m members in
  if headroom sv st m || bool_decide (spare = "") then same_nodes st st'
  else exists st3 st4 st5, same_nodes st st3 /\
    migrate_all sv m slot spare (params_of m) (manifest.Stripes m) st3 = (st4, Ok tt) /\
    on_store disk sv (fun s => manifest.Put s (set_holder m slot spare)) st4 = (st5, Ok tt) /\
    propagate sv (set_holder m slot spare) (manifest.Holders (set_holder m slot spare)) st5 = (st', Ok tt).
Proof.
  intros Hs Hmem HR spare. unfold repairFile in HR. apply bind_Ok in HR as (st1 & n & E1 & HR).
  apply live_up in E1 as [S1 ->]. unfold headroom. destruct (manifest.DataShards m <? _).
  { apply bind_Ok in HR as (st2 & x & E2 & HR). apply lift_Ok in E2 as [_ ->]. by injection HR as <-. }
  apply bind_Ok in HR as (st2 & members' & E2 & HR). apply wrapped_Ok in E2.
  assert (same_nodes st1 st2 /\ members' = members) as [S2 ->].
  { unfold same_nodes, local_store in *. unfold with_store, on_local, on_world in E2. rewrite <- S1 in Hs.
    destruct (node.nodes (world st1) !! peer_String (self sv)) as [n|] eqn:Hn; [|done]. injection Hs as <-.
    rewrite Hmem in E2. injection E2 as <- <-. simpl. by rewrite insert_id. }
  apply bind_Ok in HR as (st3 & spare' & E3 & HR). apply find_spare_of in E3 as [S3 ->].
  assert (Hsp : spare_of sv st2 m members = spare).
  { unfold spare, spare_of. erewrite find_ext; [done|]. intros x. simpl. f_equal.
    etrans; [by apply same_nodes_up, S2|by apply same_nodes_up]. }
  rewrite Hsp in HR. assert (S13 : same_nodes st st3) by (unfold same_nodes in *; congruence). simpl. case_bool_decide.
  { apply bind_Ok in HR as (st4 & x & E4 & HR). apply lift_Ok in E4 as [_ ->].
    apply bind_Ok in HR as (st5 & x' & E5 & HR). apply lift_Ok in E5 as [_ ->]. by injection HR as <-. }
  apply bind_Ok in HR as (st4 & [] & E4 & HR). apply bind_Ok in HR as (st5 & [] & E5 & HR). apply wrapped_Ok in E5.
  apply bind_Ok in HR as (st6 & [] & E6 & HR). apply bind_Ok in HR as (st7 & x & E7 & HR).
  apply lift_Ok in E7 as [_ ->]. injection HR as <-. by exists st3, st4, st5.
Qed.

(** A spare is a member, and new. *)
Lemma spare_of_new sv st m members :
  spare_of sv st m members <> "" ->
  (spare_of sv st m members ∉ manifest.Holders m) /\ exists mem, mem ∈ members /\ group.PeerID mem = spare_of sv st m members.
Proof.
  unfold spare_of. destruct (List.find _ members) as [mem|] eqn:E; [|done]. intros _.
  apply find_some in E as [Hin Hb]. apply andb_true_iff in Hb as [Hb _]. apply negb_true_iff, bool_decide_eq_false in Hb.
  split; [done|]. exists mem. split; [by apply list_elem_of_In|done].
Qed.

(** After the migration every shard is with the holder the new manifest names. *)
Lemma migrated_placed sv m slot spare D D' :
  0 <= slot < zlen (manifest.Holders m) ->
  (forall stripe, stripe ∈ manifest.Stripes m -> Forall blockstore.shard_id (manifest.ShardIDs stripe)) ->
  (forall stripe j id, stripe ∈ manifest.Stripes m -> manifest.ShardIDs stripe !! j = Some id -> j <> Z.to_nat slot ->
     exists h, manifest.Holders m !! j = Some h /\ placed D h id) ->
  rtc node.dstep D D' -> slot_placed D' slot spare (manifest.Stripes m) ->
  all_placed D' (manifest.Holders (set_holder m slot spare)) (manifest.Stripes m).
Proof.
  intros Hslot Hids Hpl R P stripe j id Hst Hj. assert (Hid : blockstore.shard_id id).
  { specialize (Hids stripe Hst). rewrite Forall_forall in Hids. apply Hids. by eapply list_elem_of_lookup_2. }
  simpl. destruct (decide (j = Z.to_nat slot)) as [->|Hne].
  - exists spare. rewrite list_lookup_insert_eq by (unfold zlen in *; lia). split_and!; [done..|].
    destruct (P stripe Hst) as (id' & Hid' & Hp). rewrite Hj in Hid'. by injection Hid' as <-.
  - destruct (Hpl stripe j id Hst Hj Hne) as (h & Hh & Hp). exists h. rewrite list_lookup_insert_ne by done.
    split_and!; [done..|]. by eapply dsteps_placed.
Qed.

Lemma slot_placed_steps D D' slot spare m :
  (forall stripe, stripe ∈ manifest.Stripes m -> Forall blockstore.shard_id (manifest.ShardIDs stripe)) ->
  rtc node.dstep D D' -> slot_placed D slot spare (manifest.Stripes m) -> slot_placed D' slot spare (manifest.Stripes m).
Proof.
  intros Hids R P stripe Hst. destruct (P stripe Hst) as (id & Hid & Hp). exists id. split; [done|].
  eapply dsteps_placed; [exact R| |done]. specialize (Hids stripe Hst). rewrite Forall_forall in Hids.
  apply Hids. by eapply list_elem_of_lookup_2.
Qed.

(** [C5] A repair restores the file's placement.  Whenever [repairFile] returns
    without error, for a manifest the encoding keeps with proper shard
    identifiers: if more holders are there than the file needs, or no member
    of the group that holds nothing of it is there, every disk and the stored
    manifest are as they were; otherwise the first such member has been made the
    holder of the slot: the manifest with it in that slot is saved, every other
    node the manifest names that is up and within reach and whose store takes the
    write has it, and, if every shard of the file
    but those of the slot was with its holder, every shard of every stripe is now
    with the holder the new manifest names.  Shards stored anywhere are never lost
    on the way. *)
Theorem repairFile_restores sv m slot st st' s members :
  attached sv (world st) -> local_store sv st = Some s -> group.ListMembers s (manifest.GroupID m) = Ok members ->
  0 <= slot < zlen (manifest.Holders m) ->
  manifest.manifest_ok m = true ->
  (forall stripe, stripe ∈ manifest.Stripes m -> Forall blockstore.shard_id (manifest.ShardIDs stripe)) ->
  repairFile sv m slot st = (st', Ok tt) ->
  let spare := spare_of sv st m members in
  rtc node.dstep (node.disks (world st)) (node.disks (world st')) /\
  if headroom sv st m || bool_decide (spare = "")
  then node.disks (world st') = node.disks (world st) /\ local_store sv st' = local_store sv st
  else
    (spare ∉ manifest.Holders m) /\
    (exists s', local_store sv st' = Some s' /\
       manifest.Get s' (manifest.FileID m) = Ok (manifest.manifest_norm (set_holder m slot spare))) /\
    ((forall stripe j id, stripe ∈ manifest.Stripes m -> manifest.ShardIDs stripe !! j = Some id -> j <> Z.to_nat slot ->
        exists h, manifest.Holders m !! j = Some h /\ placed (node.disks (world st)) h id) ->
     all_placed (node.disks (world st')) (manifest.Holders (set_holder m slot spare)) (manifest.Stripes m)) /\
    forall h, h ∈ manifest.Holders (set_holder m slot spare) -> receptive fate sv st (set_holder m slot spare) h ->
      exists p, peer_Decode h = Some p /\
        node.filed_at (world st') (peer_String p) (manifest.manifest_norm (set_holder m slot spare)).
Proof.
  intros Ha Hs Hmem Hslot Hok Hids HR spare. pose proof (repairFile_inv _ _ _ _ _ _ _ Hs Hmem HR) as HI. cbv zeta in HI.
  fold spare in HI. destruct (headroom sv st m) eqn:Hh; simpl in HI |- *.
  { destruct (same_nodes_silent sv _ _ HI) as [-> ->]. by split_and!. }
  case_bool_decide as Hsp; [destruct (same_nodes_silent sv _ _ HI) as [-> ->]; by split_and!|].
  destruct HI as (st3 & st4 & st5 & S3 & E4 & E5 & E6). destruct (same_nodes_silent sv _ _ S3) as [D3 L3].
  destruct (spare_of_new _ _ _ _ Hsp) as [Hnew (mem & Hin & Hpid)]. fold spare in Hnew, Hpid.
  assert (Hok' : manifest.manifest_ok (set_holder m slot spare) = true).
  { apply set_holder_ok; [done|]. rewrite <- Hpid. by eapply ListMembers_text. }
  assert (Ha3 : attached sv (world st3)) by (by eapply disks_attached).
  destruct (migrate_all_placed _ _ _ _ _ _ _ _ Ha3 Hids E4) as [[R4 L4] P4]. rewrite D3 in R4.
  assert (Hs4 : local_store sv st4 = Some s) by congruence.
  destruct (on_local_store _ _ _ _ _ _ _ Hs4 E5) as [D5 (s5 & P5 & L5)].
  assert (Ha5 : attached sv (world st5)).
  { eapply disks_attached; [exact D5|]. apply attached_disks. eapply dsteps_attached; [exact R4|]. by apply attached_disks. }
  assert (Htext : text_ok (manifest.FileID (set_holder m slot spare)) = true).
  { unfold manifest.manifest_ok in Hok'. rewrite !andb_true_iff in Hok'. tauto. }
  destruct (quietly_propagate _ _ _ Htext _ _ _ Ha5 E6) as [R6 L6]. rewrite D5 in R6.
  assert (R : rtc node.dstep (node.disks (world st)) (node.disks (world st'))) by (by etrans).
  split; [exact R|]. split_and!; [done| | |].
  - exists s5. split; [congruence|]. by eapply (manifest.Put_Get_same s (set_holder m slot spare)).
  - intros Hpl. eapply migrated_placed; [done..|exact R|]. exact (slot_placed_steps _ _ _ _ _ Hids R6 P4).
  - intros h Hh' (p & s0 & raw & Hp & Hne & Hfate & Hst & Hw & Hraw & Hf1 & Hf2). exists p. split; [done|].
    eapply (propagate_files sv _ s0 Hne _ raw); [done|done|done|exact Hw|done|done|exact E6|]. right. split; [|by exists h, p].
    assert (Hst3 : node.stands (world st3) (peer_String p) s0) by (unfold node.stands in *; by rewrite S3).
    apply (calmly_migrate_all _ _ _ Hne _ _ _ _ _ Hids _ _ _ E4) in Hst3.
    by apply (calmly_on_store disk sv _ _ Hne _ _ _ _ E5) in Hst3.
Qed.

(** ** Rebuilding a shard *)

Definition has_ledger sv st : Prop :=
  exists n l, node.nodes (world st) !! peer_String (self sv) = Some n /\ node.nledger n = Some l.

Lemma online_run sv peer st :
  has_ledger sv st -> exists st' b, online sv peer st = (st', Ok b) /\ same_shards st st' /\ has_ledger sv st'.
Proof.
  intros (n & l & Hn & Hl). unfold online, on_local, on_world, same_shards, has_ledger. rewrite Hn, Hl.
  rewrite insert_id by done. eexists _, _. split; [done|]. split; [done|]. simpl. eauto.
Qed.

Lemma local_get_ledger sv id st st' o : has_ledger sv st -> attempt (local_get disk sv id) st = (st', o) -> has_ledger sv st'.
Proof.
  intros (n & l & Hn & Hl). unfold attempt, local_get, on_fs, on_local, on_world, has_ledger. rewrite Hn.
  destruct (blockstore.Get _ _ _); intros [= <- _]; simpl; rewrite lookup_insert_eq; eexists _, l; split; done.
Qed.

Lemma record_ledger w me f : (exists n l, node.nodes w !! me = Some n /\ node.nledger n = Some l) ->
  exists n l, node.nodes (node.record w me f) !! me = Some n /\ node.nledger n = Some l.
Proof.
  intros (n & l & Hn & Hl). unfold node.record. rewrite Hn, Hl. simpl. rewrite lookup_insert_eq.
  eexists _, _. split; done.
Qed.

Lemma get_shard_ledger sv p id st st' o :
  blockstore.shard_id id -> has_ledger sv st -> attempt (get_shard fate clock disk sv p id) st = (st', o) -> has_ledger sv st'.
Proof.
  intros Hid Hl. unfold attempt, get_shard, on_world. destruct (node.GetShardFromPeer _ _ _ _ _ _ _) as [w' r] eqn:HG.
  intros E. assert (st' = NewFS w' (rng st) (cached st)) as -> by (destruct r; by injection E). clear E.
  unfold has_ledger in *. simpl. unfold node.GetShardFromPeer in HG.
  destruct (node.blockRequest _ _ _ _ _ _ _) as [w1 r1] eqn:HB.
  apply blockRequest_store in HB; [|apply node.request_ok_shard; auto]. rewrite <- HB in Hl.
  destruct r1 as [resp|e|]; [destruct (negb _)|..]; injection HG as <- _; [done|by apply record_ledger|done..].
Qed.

(** One slot: a shard that is fetched is the right one. *)
Lemma fetch_slot_spec sv hl slot i sh st :
  attached sv (world st) -> has_ledger sv st -> 0 <= i < zlen hl ->
  (forall p d, node.shard_in (node.disks (world st)) p (blockstore.HashOf sh) = Some d -> d = sh) ->
  exists st' x, fetch_slot sv hl slot i (blockstore.HashOf sh) st = (st', Ok x) /\ same_shards st st' /\
    has_ledger sv st' /\ (x = None \/ x = Some sh).
Proof.
  intros Ha Hl Hi Ht. pose proof (blockstore.HashOf_shard_id sh) as Hid. unfold fetch_slot.
  destruct (i =? slot); [exists st, None; split_and!; by auto|].
  destruct (local_get_spec disk sv (blockstore.HashOf sh) st Ha) as (st1 & o & E1 & S1 & Ho).
  pose proof (local_get_ledger _ _ _ _ _ Hl E1) as Hl1. unfold bind at 1. rewrite E1.
  destruct (node.shard_in _ _ _) as [d|] eqn:Hd.
  { subst o. exists st1, (Some d). split_and!; try done. right. f_equal. by eapply Ht. }
  destruct Ho as [e ->]. destruct (lookup_lt_is_Some_2 hl (Z.to_nat i)) as [h Hh]; [unfold zlen in *; lia|].
  unfold bind at 1, lift. rewrite (proj2 (index_Ok hl i h)) by (split; [lia|done]).
  assert (Hsk : exists st2 b, (if bool_decide (h = peer_String (self sv)) then ret true
    else bind (online sv h) (fun up => ret (negb up))) st1 = (st2, Ok b) /\ same_shards st1 st2 /\ has_ledger sv st2).
  { case_bool_decide; [exists st1, true; by split_and!|].
    destruct (online_run sv h st1 Hl1) as (st2 & b & E2 & S2 & Hl2). unfold bind. rewrite E2. by exists st2, (negb b). }
  destruct Hsk as (st2 & b & E2 & S2 & Hl2). unfold bind at 1. rewrite E2. pose proof (same_shards_trans _ _ _ S1 S2) as S12.
  destruct b; [exists st2, None; split_and!; by auto|].
  destruct (peer_Decode h) as [p|]; [|exists st2, None; split_and!; by auto].
  destruct (get_shard_spec fate clock disk sv p (blockstore.HashOf sh) st2 Hid) as (st3 & o & E3 & S3 & Ho).
  pose proof (get_shard_ledger _ _ _ _ _ _ Hid Hl2 E3) as Hl3. unfold bind. rewrite E3.
  exists st3, (match o with Ok data => Some data | _ => None end). split_and!; [done|by eapply same_shards_trans|done|].
  destruct o as [d|e'|]; [|by left..]. right. f_equal. eapply Ht. destruct S12 as [<- _]. by apply Ho.
Qed.

Lemma gather_rebuild sv hl slot k : forall cw i g st,
  attached sv (world st) -> has_ledger sv st -> 0 <= i -> i + zlen cw <= zlen hl ->
  truthful (node.disks (world st)) cw -> Forall (fun sh => sh <> []) cw ->
  exists st' bs n, gather sv hl slot k i g (map blockstore.HashOf cw) st = (st', Ok (bs, n)) /\ same_shards st st' /\
    erasure_of cw bs /\ n = g + Z.of_nat (present bs).
Proof.
  induction cw as [|sh cw IH]; intros i g st Ha Hl Hi Hlen Ht Hne; cbn [map gather].
  { exists st, [], g. split_and!; [done|done|constructor|unfold present; simpl; lia]. }
  apply Forall_cons in Hne as [Hsh Hne]. assert (Hz : zlen (sh :: cw) = zlen cw + 1) by (unfold zlen; simpl; lia).
  pose proof (zlen_nonneg cw). destruct (g <? k).
  2: { destruct (none_present (blockstore.HashOf sh :: map blockstore.HashOf cw) (sh :: cw)) as [N1 N2].
       { simpl. by rewrite length_map. }
       exists st, (map (fun _ => []) (blockstore.HashOf sh :: map blockstore.HashOf cw)), g.
       split_and!; [done|done|exact N1|rewrite N2; lia]. }
  destruct (fetch_slot_spec sv hl slot i sh st Ha Hl) as (st1 & x & E1 & S1 & Hl1 & Hx); [lia| |].
  { intros p d. apply Ht. constructor. }
  pose proof S1 as (D1 & _ & _).
  destruct (IH (i + 1) (match x with Some _ => g + 1 | None => g end) st1) as (st2 & bs & n & E2 & S2 & He & Hn).
  { by eapply disks_attached. } { done. } { lia. } { lia. }
  { rewrite D1. intros p s d Hs. apply Ht. by constructor. } { done. }
  exists st2, (default [] x :: bs), n. unfold bind. rewrite E1, E2. split_and!; [done|by eapply same_shards_trans| |].
  - constructor; [|done]. destruct Hx as [-> | ->]; auto.
  - rewrite present_cons, Hn. destruct Hx as [-> | ->]; simpl; [lia|]. rewrite decide_False by done. lia.
Qed.

(** A repair never moves a wrong shard.  For a stripe that stands for some
    bytes, with no stored bytes colliding with its shards, [migrateStripeShard]
    either reports that fewer than [k] shards could be had, or has rebuilt
    exactly the shard of the failed slot and answers as storing it on the spare
    does: decoding and the hash check never fail, and nothing panics before. *)
Theorem migrate_rebuilds sv m stripe slot spare key pt ct cw sh st :
  attached sv (world st) -> has_ledger sv st ->
  describes key (params_of m) stripe pt ct cw -> truthful (node.disks (world st)) cw ->
  zlen (manifest.Holders m) = manifest.DataShards m + manifest.ParityShards m ->
  0 <= slot -> cw !! Z.to_nat slot = Some sh ->
  exists st1, same_shards st st1 /\
    (migrateStripeShard sv m stripe slot spare (params_of m) st = (st1, Err (ErrMsg "cannot reconstruct")) \/
     migrateStripeShard sv m stripe slot spare (params_of m) st = place sv spare (blockstore.HashOf sh) sh st1).
Proof.
  intros Ha Hl (D1 & D2 & D3 & D4 & D5 & D6 & D7) Ht Hhl Hslot Hsh. pose proof D3 as (Hcw & Hsize & _).
  assert (Hne : Forall (fun s => s <> []) cw) by (by eapply ec.encoding_nonempty).
  destruct (gather_rebuild sv (manifest.Holders m) slot (manifest.DataShards m) cw 0 0 st Ha Hl) as (st1 & bs & n & E & S & He & Hn);
    [done|simpl in Hcw; lia|done|done|].
  exists st1. split; [done|].
  assert (Hids : zlen (map blockstore.HashOf cw) = zlen cw) by (unfold zlen; by rewrite length_map).
  assert (HM : migrateStripeShard sv m stripe slot spare (params_of m) st =
    if n <? manifest.DataShards m then (st1, Err (ErrMsg "cannot reconstruct")) else place sv spare (blockstore.HashOf sh) sh st1).
  2: { rewrite HM. destruct (n <? _); auto. }
  unfold migrateStripeShard. rewrite D7, Hids, Hcw, Z.eqb_refl. cbn [negb].
  change (ec.DataShards (params_of m)) with (manifest.DataShards m). unfold bind at 1. rewrite E.
  destruct (Z.ltb_spec n (manifest.DataShards m)) as [|Hk]; [done|].
  rewrite <- D4, (ec.Decode_encoding _ _ _ _ D1 D2 D3 D5 He) by (simpl; lia).
  unfold bind, wrapped, lift. simpl. rewrite (proj2 (index_Ok cw slot sh)) by done.
  rewrite Forall_forall in Hne. rewrite bool_decide_eq_false_2 by (apply Hne; by eapply list_elem_of_lookup_2).
  rewrite (proj2 (index_Ok (map blockstore.HashOf cw) slot (blockstore.HashOf sh))).
  2: { split; [done|]. rewrite list_lookup_fmap, Hsh. done. }
  by rewrite bool_decide_eq_true_2.
Qed.

(** ** Identifiers of other nodes *)

Lemma log12_Ok (s : string) st st' x : log12 s st = (st', Ok x) -> (12 <= String.length s)%nat.
Proof.
  unfold log12. intros [E _]%lift_Ok. unfold str_slice in E. destruct (12 <=? Z.of_nat (String.length s)) eqn:Hl; [lia|].
  by rewrite andb_false_r in E.
Qed.

(** Whichever way it goes, a repair of a file logs its identifier. *)
Lemma repairFile_logs sv m slot st st' : repairFile sv m slot st = (st', Ok tt) -> (12 <= String.length (manifest.FileID m))%nat.
Proof.
  intros HR. unfold repairFile in HR. apply bind_Ok in HR as (st1 & n & _ & HR). destruct (_ <? n).
  { apply bind_Ok in HR as (st2 & x & E & _). by eapply log12_Ok. }
  apply bind_Ok in HR as (st2 & members & _ & HR). apply bind_Ok in HR as (st3 & spare & _ & HR). case_bool_decide.
  { apply bind_Ok in HR as (st4 & x & E & _). by eapply log12_Ok. }
  do 3 (apply bind_Ok in HR as (? & ? & _ & HR)). apply bind_Ok in HR as (? & ? & E & _). by apply log12_Ok in E.
Qed.

Lemma indexOf_found l v : forall i, 0 <= i -> v ∈ l -> 0 <= indexOf_from i l v.
Proof.
  induction l as [|x l IH]; intros i Hi Hv; [by apply elem_of_nil in Hv|]. simpl. case_bool_decide; [done|].
  apply IH; [lia|]. by apply elem_of_cons in Hv as [|].
Qed.

Lemma log12_short (s : string) st : (String.length s < 12)%nat -> log12 s st = (st, Panic).
Proof.
  intros Hl. unfold log12, lift, str_slice. destruct (12 <=? Z.of_nat (String.length s)) eqn:E; [lia|].
  by rewrite andb_false_r.
Qed.

Lemma scan_short sv peer ms m : forall st,
  m ∈ ms -> peer ∈ manifest.Holders m -> (String.length (manifest.FileID m) < 12)%nat ->
  (scan_manifests sv peer ms st).2 = Panic.
Proof.
  induction ms as [|m' ms IH]; intros st Hin Hp Hl; [by apply elem_of_nil in Hin|]. cbn [scan_manifests].
  destruct (Z.ltb_spec (indexOf (manifest.Holders m') peer) 0) as [Hneg|Hslot].
  { apply IH; [|done..]. apply elem_of_cons in Hin as [<-|]; [|done].
    pose proof (indexOf_found _ _ 0 ltac:(lia) Hp). unfold indexOf in Hneg. lia. }
  unfold bind at 1, attempt. destruct (repairFile sv m' _ st) as [st1 r] eqn:ER. destruct r as [[]|e|]; [| |done].
  - unfold bind. cbn [ret]. apply IH; [|done..]. apply elem_of_cons in Hin as [<-|]; [|done].
    apply repairFile_logs in ER. lia.
  - apply elem_of_cons in Hin as [<-|Hin].
    + unfold bind. by rewrite log12_short.
    + unfold bind. destruct (log12 (manifest.FileID m') st1) as [st2 [x|e'|]] eqn:EL; [by apply IH| |done].
      unfold log12, lift, str_slice in EL. by destruct (_ && _).
Qed.

(** [C17] A peer can stop the daemon.  The block server stores any manifest whose
    identifier matches the request, however short; the repair scan cuts the
    identifier to twelve characters for its log on every path.  So once a peer
    has had a manifest with a shorter identifier stored that names [peer] as a
    holder, the scan started when [peer] goes offline panics. *)
Theorem short_id_stops_daemon sv st io n m raw peer :
  manifest.manifest_ok m = true -> manifest.Marshal' m = Ok raw ->
  peer ∈ manifest.Holders m -> (String.length (manifest.FileID m) < 12)%nat ->
  let '(n', resp) := node.serveBlock io n (node.NewRequest node.OpPutManifest (manifest.FileID m) raw) in
  node.OK resp = true -> node.nodes (world st) !! peer_String (self sv) = Some n' ->
  (ScanForOfflinePeer sv peer st).2 = Panic.
Proof.
  intros Hok Hraw Hp Hl. unfold node.serveBlock. destruct (node.nblocks n) as [bs|]; [|done]. simpl.
  unfold manifest.Marshal', manifest.Unmarshal' in *. rewrite (Unmarshal_Marshal _ _ Hok Hraw).
  destruct (negb _); [done|]. destruct (manifest.Put (node.nstore n) _) as [s' r] eqn:HP.
  destruct r as [[]|e|]; [|done..]. intros _ Hn.
  assert (HP' : manifest.Get s' (manifest.FileID m) = Ok (manifest.manifest_norm (manifest.manifest_norm m))).
  { apply (manifest.Put_Get_same (node.nstore n) (manifest.manifest_norm m)); [|done]. by eapply Unmarshal_ok, Unmarshal_Marshal. }
  pose proof (manifest.List_scan s') as HL. pose proof (proj2 (manifest.elem_of_List s' _ _ HL) (ex_intro _ _ HP')) as Hin.
  unfold ScanForOfflinePeer, bind, attempt, with_store, on_local, on_world. rewrite Hn. cbn [node.nstore node.set_store]. rewrite HL.
  by eapply scan_short.
Qed.

End with_libraries.
End repair.
