(* ===== verification/Scenario.v ===== *)
(** * A network of four nodes, run

    Concrete states for the theorems of [Reader], [Upload] and [Repair]: four nodes with
    the executable libraries of [Concrete], one of which uploads a file of two
    stripes in a 2+1 code and reads it back with a holder down. *)

From S2P Require Import Prelude Ext Concrete Store Fs Blockstore Crypto Ec Holders Cache Manifest Ledger Group.
From S2P Require Import Blocks Spool Base64 File Reader Upload Repair.

Module scenario.
Import file reader upload.

#[global] Instance name_cbor : NameCbor.
Proof. refine (tree_cbor _ _ ts of_ts _ _); done. Defined.

(** ** The network *)

Definition gid : string := group.ID group.sample_group.

Definition add_member (s : db (Badger := mem_badger)) (p : string) : db (Badger := mem_badger) :=
  (group.PutMember s gid (group.sample_member ("12D" +:+ p) [])).1.

Definition member_store : db (Badger := mem_badger) :=
  foldl add_member (group.Save store.empty group.sample_group).1 ["A"; "B"; "C"; "D"].

Definition blocks_dir : blockstore.Store := blockstore.NewStore ["d"; "blocks"].
Definition spool_dir : spool.Spool := spool.NewSpool ["d"; "spool"].

(** Every node has heard from all of them but Bob. *)
Definition heard : ledger.dirty_map :=
  foldl (fun l p => (ledger.RecordPing member_store l ("12D" +:+ p) true 1700000000000000000 1700000000000000001).1)
    ∅ ["A"; "C"; "D"].

Definition fresh_node : node.NodeState := node.NewNode member_store ∅ (Some blocks_dir) (Some heard).

Definition start : FS :=
  NewFS (node.NewWorld (<["12DA" := fresh_node]> (<["12DB" := fresh_node]> (<["12DC" := fresh_node]>
    (<["12DD" := fresh_node]> ∅)))) 0)
    (replicate 300 Byte.x2a) (cache.NewStripeCache 4).

Definition service_of (p : string) : Service :=
  NewService toy_peers p (replicate 32 Byte.x05) (replicate 32 Byte.x05) blocks_dir (Some spool_dir) (ec.NewParams 2 1) 4.

Definition alice : Service := service_of "A".

Definition text : bytes := [Byte.x68; Byte.x65; Byte.x6c; Byte.x6c; Byte.x6f; Byte.x21].

Definition members_range (m : gmap string group.Member) : list (string * group.Member) := map_to_list m.

Definition upload_with (fate : nat -> string -> string -> node.Fate) (body : Body) (mode : string) :=
  Put fate node.sample_clock node.sample_disk alice "hello.txt" body (NewPutOptions gid mode) start.

Definition uploaded := upload_with node.all_through (NewBody text EOF) "".

Definition ok_or {A} (d : A) (o : outcome A) : A := match o with Ok a => a | _ => d end.

Definition the_manifest : manifest.Manifest := Eval vm_compute in ok_or manifest.sample uploaded.2.

Lemma uploaded_Ok : uploaded = (uploaded.1, Ok the_manifest).
Proof. etrans; [apply surjective_pairing|]. apply (f_equal (pair uploaded.1)). vm_compute. reflexivity. Qed.

(** ** Reading back with a holder down *)

Definition bob_down (t : nat) (src dst : string) : node.Fate :=
  if bool_decide (dst = "12DB") then node.NoStream (ErrMsg "no route") else node.Through.

Definition after : FS := uploaded.1.
Definition shelf := node.disks (world after).

Definition file_key : bytes := replicate 32 Byte.x2a.
Definition nonce : bytes := replicate 12 Byte.x2a.

Definition sealed (pt : bytes) : bytes := nonce ++ gcm_Seal file_key nonce pt.
Definition coded (pt : bytes) : list bytes := match ec.Encode (ec.NewParams 2 1) (sealed pt) with Ok cw => cw | _ => [] end.

Definition opened : Reader := NewReader the_manifest file_key 0 "hello.txt".

(** Checkers for the hypotheses of the theorems, and that they suffice. *)
Definition describes_check key p (stripe : manifest.Stripe) (pt ct : bytes) (cw : list bytes) : bool :=
  bool_decide (ec.Encode p ct = Ok cw) && (zlen ct =? manifest.CiphertextBytes stripe) &&
  (zlen ct <=? ec.maxAlloc) && bool_decide (crypto.OpenAES key ct = Ok pt) &&
  bool_decide (manifest.ShardIDs stripe = map blockstore.HashOf cw).

Lemma describes_intro key p stripe pt ct cw :
  describes_check key p stripe pt ct cw = true -> describes key p stripe pt ct cw.
Proof.
  unfold describes_check. intros Hc. go_bool.
  repeat match goal with E : bool_decide _ = true |- _ => apply bool_decide_eq_true in E end.
  match goal with E : ec.Encode _ _ = Ok _ |- _ => apply ec.Encode_inv in E as (? & ? & ?) end.
  by split_and!.
Qed.

Definition truthful_check (D : gmap string (fs * option blockstore.Store)) (cw : list bytes) : bool :=
  forallb (fun p => forallb (fun sh =>
    match node.shard_in D p (blockstore.HashOf sh) with Some d => bool_decide (d = sh) | None => true end) cw)
    (map_to_list D).*1.

Lemma truthful_intro D cw : truthful_check D cw = true -> truthful D cw.
Proof.
  unfold truthful_check. rewrite forallb_forall. intros Hc p sh d Hsh Hd.
  assert (Hp : p ∈ (map_to_list D).*1).
  { unfold node.shard_in in Hd. destruct (D !! p) as [x|] eqn:E; [|done].
    apply list_elem_of_fmap. exists (p, x). split; [done|]. by apply elem_of_map_to_list. }
  apply list_elem_of_In, Hc in Hp. rewrite forallb_forall in Hp. apply list_elem_of_In, Hp in Hsh.
  rewrite Hd in Hsh. by apply bool_decide_eq_true in Hsh.
Qed.

Definition stripe_at (i : nat) : manifest.Stripe :=
  default (manifest.NewStripe 0 [] 0 0) (manifest.Stripes the_manifest !! i).

Lemma stripes_two : manifest.Stripes the_manifest = [stripe_at 0; stripe_at 1].
Proof. vm_compute. reflexivity. Qed.

Lemma lookup_two {A} (a b x : A) i : [a; b] !! i = Some x -> i = 0%nat /\ x = a \/ i = 1%nat /\ x = b.
Proof. destruct i as [|[|i]]; simpl; [intros [= ->]; auto..|done]. Qed.

Lemma stripe_size : manifest.StripeDataSize the_manifest = 4.
Proof. vm_compute. reflexivity. Qed.

Definition fresh_check (c : cache.StripeCache) : bool :=
  (cache.maxBytes c =? 4) && match cache.lru c with [] => true | _ => false end &&
  match map_to_list (cache.index c) with [] => true | _ => false end &&
  match map_to_list (cache.elems c) with [] => true | _ => false end && (cache.next c =? 0)%nat && (cache.curBytes c =? 0).

Lemma fresh_intro c : fresh_check c = true -> c = cache.NewStripeCache 4.
Proof.
  unfold fresh_check, cache.NewStripeCache. destruct c as [m l i e n b]. cbn [cache.maxBytes cache.lru cache.index cache.elems cache.next cache.curBytes].
  intros Hc. repeat (apply andb_true_iff in Hc as [Hc ?]). destruct l; [|done].
  destruct (map_to_list i) eqn:Hi; [|done]. destruct (map_to_list e) eqn:He; [|done].
  apply map_to_list_empty_iff in Hi, He. apply Z.eqb_eq in Hc. subst m i e.
  repeat match goal with E : (_ =? _) = true |- _ => apply Z.eqb_eq in E | E : (_ =? _)%nat = true |- _ => apply Nat.eqb_eq in E end.
  by subst.
Qed.

#[local] Instance Store_eq_dec : EqDecision blockstore.Store.
Proof. solve_decision. Defined.

Definition attached_check (sv : Service) (w : node.World) : bool :=
  match node.nodes w !! peer_String (self sv) with Some n => bool_decide (node.nblocks n = Some (blocks sv)) | None => false end.

Lemma attached_intro sv w : attached_check sv w = true -> attached sv w.
Proof. unfold attached, attached_check. destruct (node.nodes w !! _) as [n|]; [|done]. intros E%bool_decide_eq_true. eauto. Qed.

Definition fits_check {T ok norm} `{!Cbor T ok norm} (v : T) : bool :=
  match Marshal v with Ok raw => zlen raw <=? node.maxFrameSize | _ => false end.

Lemma fits_intro {T ok norm} `{!Cbor T ok norm} (v : T) : fits_check v = true -> node.fits v.
Proof. unfold fits_check, node.fits. destruct (Marshal v) as [raw| |]; [|done..]. intros ?%Z.leb_le. eauto. Qed.

Definition receptive_check (sv : Service) (st : FS) m (h : string) : bool :=
  match peer_Decode h, manifest.Marshal' m with
  | Some p, Ok raw =>
      negb (bool_decide (peer_String p = peer_String (self sv))) &&
      match node.nodes (world st) !! peer_String p with
      | Some n => negb (mem_full (node.nstore n)) && match node.nblocks n with Some _ => true | None => false end
      | None => false
      end && fits_check (node.NewRequest node.OpPutManifest (manifest.FileID m) raw) && fits_check (node.NewResponse true "" [])
  | _, _ => false
  end.

Lemma receptive_intro fate sv st m h :
  (forall t p, peer_Decode h = Some p -> fate t (peer_String (self sv)) (peer_String p) = node.Through) ->
  receptive_check sv st m h = true -> receptive fate sv st m h.
Proof.
  unfold receptive_check, receptive. destruct (peer_Decode h) as [p|] eqn:Hp; [|done].
  destruct (manifest.Marshal' m) as [raw|e|] eqn:Hr; [|done..]. intros Hfate Hc. apply andb_true_iff in Hc as [Hc F2].
  apply andb_true_iff in Hc as [Hc F1]. apply andb_true_iff in Hc as [Hne Hc].
  apply negb_true_iff, bool_decide_eq_false in Hne. destruct (node.nodes (world st) !! peer_String p) as [n|] eqn:Hn; [|done].
  apply andb_true_iff in Hc as [Hw Hb]. apply negb_true_iff in Hw. destruct (node.nblocks n) as [bs|] eqn:Hbs; [|done].
  exists p, (node.nstore n), raw. split_and!; [done|done|intros t; by apply Hfate|by exists n; rewrite Hbs|
    by apply store.mem_writable|done|by apply fits_intro|by apply fits_intro].
Qed.

Definition available_check (sv : Service) (D : gmap string (fs * option blockstore.Store)) (slot : string * string) : bool :=
  match node.shard_in D (peer_String (self sv)) slot.1 with
  | Some _ => true
  | None =>
      match peer_Decode slot.2 with
      | Some p =>
          match node.shard_in D (peer_String p) slot.1 with
          | Some d =>
              bool_decide (slot.2 <> peer_String (self sv)) && bool_decide (peer_String p <> peer_String (self sv)) &&
              bool_decide (peer_String p <> "12DB") &&
              fits_check (node.NewRequest node.OpGetShard slot.1 []) && fits_check (node.NewResponse true "" d)
          | None => false
          end
      | None => false
      end
  end.

Lemma available_intro sv D slot : available_check sv D slot = true -> available bob_down sv D slot.
Proof.
  unfold available_check. destruct (node.shard_in D (peer_String (self sv)) slot.1) eqn:E1.
  { intros _. left. by rewrite E1. }
  destruct (peer_Decode slot.2) as [p|] eqn:Ep; [|done].
  destruct (node.shard_in D (peer_String p) slot.1) as [d|] eqn:Ed; [|done]. intros Hc. go_bool.
  repeat match goal with E : bool_decide _ = true |- _ => apply bool_decide_eq_true in E end.
  right. split; [done|]. exists p, d. split_and!; [done..| |done|by apply fits_intro|by apply fits_intro].
  intros t. unfold bob_down. by rewrite bool_decide_eq_false_2.
Qed.

Lemma at_least_intro {A} (P : A -> Prop) (f : A -> bool) n l :
  (forall x, f x = true -> P x) -> (n <=? zlen (List.filter f l)) = true -> at_least P n l.
Proof.
  intros HP Hn%Z.leb_le. exists (List.filter f l). split_and!; [|done|].
  - clear. induction l as [|x l IH]; simpl; [constructor|]. destruct (f x); by constructor.
  - apply Forall_forall. intros x Hx%list_elem_of_In%filter_In. apply HP, Hx.
Qed.

Definition shard_ids : list string := concat (map manifest.ShardIDs (manifest.Stripes the_manifest)).

(** Whatever is stored under a name, that its disk is one of the nodes'. *)
Lemma shard_in_dom D p id d : node.shard_in D p id = Some d -> p ∈ (map_to_list D).*1.
Proof.
  intros Hd. unfold node.shard_in in Hd. destruct (D !! p) as [x|] eqn:E; [|done].
  apply list_elem_of_fmap. exists (p, x). split; [done|]. by apply elem_of_map_to_list.
Qed.

Lemma in_concat_map {A B} (f : A -> list B) l x y : x ∈ l -> y ∈ f x -> y ∈ concat (map f l).
Proof. rewrite !list_elem_of_In. intros Hx Hy. apply in_concat. exists (f x). split; [by apply in_map|done]. Qed.

Lemma in_shard_ids stripe id :
  stripe ∈ manifest.Stripes the_manifest -> id ∈ manifest.ShardIDs stripe -> id ∈ shard_ids.
Proof. apply (in_concat_map manifest.ShardIDs (manifest.Stripes the_manifest)). Qed.

Definition disk_check (D : gmap string (fs * option blockstore.Store)) (ids : list string) (P : bytes -> bool) : bool :=
  forallb (fun p => forallb (fun id => match node.shard_in D p id with Some d => P d | None => true end) ids)
    (map_to_list D).*1.

Lemma disk_forall (D : gmap string (fs * option blockstore.Store)) (ids : list string) (P : bytes -> bool) :
  disk_check D ids P = true ->
  forall p id d, id ∈ ids -> node.shard_in D p id = Some d -> P d = true.
Proof.
  unfold disk_check. rewrite forallb_forall. intros Hc p id d Hid Hd. pose proof (shard_in_dom _ _ _ _ Hd) as Hp.
  apply list_elem_of_In, Hc in Hp. rewrite forallb_forall in Hp. apply list_elem_of_In, Hp in Hid. by rewrite Hd in Hid.
Qed.

Definition the_group : group.Group := group.group_norm group.sample_group.

Definition store_check (o : option (db (Badger := mem_badger))) m (g : group.Group) : bool :=
  match o with
  | Some s => bool_decide (manifest.Get s (manifest.FileID m) = Ok (manifest.manifest_norm m)) &&
              bool_decide (group.LoadByID s (manifest.GroupID m) = Ok g)
  | None => false
  end.

Lemma store_intro o m g : store_check o m g = true ->
  exists s, o = Some s /\ manifest.Get s (manifest.FileID m) = Ok (manifest.manifest_norm m) /\
    group.LoadByID s (manifest.GroupID m) = Ok g.
Proof. unfold store_check. destruct o as [s|]; [|done]. intros Hc. exists s. go_bool. by split_and!. Qed.

Definition ledger_check (sv : Service) (st : FS) : bool :=
  match node.nodes (world st) !! peer_String (self sv) with
  | Some n => match node.nledger n with Some _ => true | None => false end
  | None => false
  end.

Lemma ledger_intro sv st : ledger_check sv st = true -> repair.has_ledger sv st.
Proof.
  unfold ledger_check, repair.has_ledger. destruct (node.nodes (world st) !! _) as [n|]; [|done].
  destruct (node.nledger n) as [l|] eqn:E; [|done]. eauto.
Qed.

Lemma ledger_store sv st : repair.has_ledger sv st -> is_Some (local_store sv st).
Proof. intros (n & l & Hn & _). unfold local_store. rewrite Hn. by eexists. Qed.

Definition placed_check (D : gmap string (fs * option blockstore.Store)) (holder id : string) : bool :=
  match peer_Decode holder with
  | Some p => match node.shard_in D (peer_String p) id with
              | Some d => bool_decide (blockstore.HashOf d = id) | None => false end
  | None => false
  end.

Lemma placed_intro D holder id : placed_check D holder id = true -> placed D holder id.
Proof.
  unfold placed_check, placed, node.has. destruct (peer_Decode holder) as [p|]; [|done].
  destruct (node.shard_in D (peer_String p) id) as [d|] eqn:Hd; [|done]. intros Hh%bool_decide_eq_true. eauto.
Qed.

Definition slots_check (D : gmap string (fs * option blockstore.Store)) (i : nat) : bool :=
  forallb (fun j => match manifest.ShardIDs (stripe_at i) !! j, manifest.Holders the_manifest !! j with
                    | Some id, Some h => placed_check D h id | None, _ => true | _, None => false end) (seq 0 3).

Definition enough_check (D : gmap string (fs * option blockstore.Store)) (i : nat) : bool :=
  2 <=? zlen (List.filter (available_check alice D) (zip (manifest.ShardIDs (stripe_at i)) (manifest.Holders the_manifest))).

Definition hand_checks (st : FS) : bool :=
  attached_check alice (world st) && fresh_check (cached st) && store_check (local_store alice st) the_manifest the_group &&
  disk_check (node.disks (world st)) shard_ids (fun d => fits_check (node.NewResponse true "" d)).

(** Everything the witnesses need of the state after the upload, checked in one
    run of it. *)
Definition state_checks (st : FS) : list bool :=
  let D := node.disks (world st) in
  [ attached_check alice (world st); fresh_check (cached st); ledger_check alice st; hand_checks st;
    truthful_check D (coded (chunk 4 text 0)); truthful_check D (coded (chunk 4 text 1));
    enough_check D 0; enough_check D 1; slots_check D 0; slots_check D 1 ].

Lemma after_checks : forallb id (state_checks after) = true.
Proof. vm_compute. reflexivity. Qed.

Lemma after_check i b : state_checks after !! i = Some b -> b = true.
Proof.
  pose proof after_checks as E. rewrite forallb_forall in E. intros Hb. apply (E b), list_elem_of_In.
  by eapply list_elem_of_lookup_2.
Qed.

Lemma shelf_holds : holds_file shelf the_manifest file_key text.
Proof.
  constructor; rewrite ?stripe_size; [vm_compute; reflexivity|vm_compute; reflexivity|done|vm_compute; reflexivity| |].
  - rewrite stripes_two. unfold zlen. simpl. lia.
  - rewrite stripes_two. intros i stripe Hi.
    apply lookup_two in Hi as Hc. set (pt := chunk 4 text (Z.of_nat i)). exists (sealed pt), (coded pt).
    destruct Hc as [[-> ->]|[-> ->]]; (split; [apply describes_intro; vm_compute; reflexivity|apply truthful_intro]).
    + exact (after_check 4 _ eq_refl).
    + exact (after_check 5 _ eq_refl).
Qed.

Lemma after_attached : attached alice (world after).
Proof. exact (attached_intro _ _ (after_check 0 _ eq_refl)). Qed.

Lemma after_ledger : repair.has_ledger alice after.
Proof. exact (ledger_intro _ _ (after_check 2 _ eq_refl)). Qed.

Lemma after_ready : ready alice opened text shelf after.
Proof.
  constructor; [done|exact after_attached|apply shelf_holds|].
  rewrite (fresh_intro _ (after_check 1 _ eq_refl)). apply cache.NewStripeCache_agrees.
Qed.

Lemma shelf_reachable : reachable bob_down alice (r_m opened) shelf.
Proof.
  intros stripe Hs. change (r_m opened) with the_manifest in *. rewrite stripes_two in Hs. unfold enough.
  apply (at_least_intro _ (available_check alice shelf)); [apply available_intro|].
  apply elem_of_cons in Hs as [-> | ->%list_elem_of_singleton].
  - exact (after_check 6 _ eq_refl).
  - exact (after_check 7 _ eq_refl).
Qed.

Abbreviation read_at := (ReadAt bob_down node.sample_clock node.sample_disk).

Lemma ReadAt_exact_witness :
  exists st', read_at alice opened 10 3 after = (st', Ok ([Byte.x6c; Byte.x6f; Byte.x21], Some EOF)).
Proof.
  destruct (ReadAt_exact bob_down node.sample_clock node.sample_disk alice opened text shelf 10 3 after
    after_ready shelf_reachable) as (st' & E & _); [lia|lia|lia|].
  exists st'. exact E.
Defined.

Lemma ReadAt_never_wrong_witness :
  exists st' data err, read_at alice opened 2 1 after = (st', Ok (data, err)) /\ data `prefix_of` drop 1 text.
Proof.
  destruct (ReadAt_never_wrong bob_down node.sample_clock node.sample_disk alice opened text shelf 2 1 after
    after_ready) as (st' & data & err & E & Hp & _); [lia|lia|lia|].
  exists st', data, err. split; [exact E|exact Hp].
Defined.

Lemma copy_returns_file_witness :
  exists st', io_Copy bob_down node.sample_clock node.sample_disk 1 alice opened [] after = (st', Ok (Some text)).
Proof.
  apply (copy_returns_file bob_down node.sample_clock node.sample_disk alice opened text shelf after 1
    after_ready shelf_reachable); [reflexivity|reflexivity|reflexivity].
Defined.

(** A manifest that claims more bytes than its stripes hold. *)
Definition short_reader : Reader :=
  NewReader (manifest.NewManifest "ab" gid "x" 9 2 1 4 [] [] 0 "12DA" manifest.ModeShared [] false) file_key 0 "x".

Lemma short_manifest_spins_witness :
  io_Copy node.all_through node.sample_clock node.sample_disk 1000 alice short_reader [] start = (start, Ok None).
Proof.
  apply (short_manifest_spins node.all_through node.sample_clock node.sample_disk alice short_reader start [] 1000);
    vm_compute; try split; reflexivity || discriminate.
Defined.

Lemma alice_configured : configured alice.
Proof. constructor; [reflexivity|discriminate|discriminate|split; reflexivity|reflexivity]. Qed.

Lemma Put_describes_witness :
  exists g key, unwrapForMode alice the_manifest g = Ok key /\
    records key (params_of the_manifest) (manifest.StripeDataSize the_manifest) text (manifest.Stripes the_manifest).
Proof.
  destruct (Put_describes node.all_through node.sample_clock node.sample_disk alice "hello.txt" (NewBody text EOF)
    (NewPutOptions gid "") start uploaded.1 the_manifest alice_configured uploaded_Ok)
    as (g & key & _ & _ & Hk & _ & _ & _ & _ & _ & Hr).
  exists g, key. split; [exact Hk|exact Hr].
Defined.

Lemma start_sound : node.all_sound (node.disks (world start)).
Proof.
  intros p f bs Hp. unfold node.disks in Hp. rewrite lookup_fmap in Hp. simpl in Hp.
  assert (Hf : f = ∅).
  { repeat (rewrite lookup_insert in Hp; case_decide; [by injection Hp|]). done. }
  subst f. intros id data _ Hg. apply blockstore.Get_file_at in Hg. done.
Qed.

(** Short inputs of the hash of [Concrete] do not collide. *)
Lemma short_no_collision (a b : bytes) :
  zlen a <= 31 -> zlen b <= 31 -> blockstore.HashOf a = blockstore.HashOf b -> a = b.
Proof.
  intros Ha Hb E%(inj hex_encode). unfold Sum256, toy_sha256 in E. cbn [take] in E. injection E as El E.
  apply (f_equal byteZ) in El. rewrite !byteZ_Zbyte, !Z.mod_small in El by (pose proof (zlen_nonneg a); pose proof (zlen_nonneg b); lia).
  apply (f_equal (take (length a))) in E. rewrite !take_take in E. unfold zlen in *.
  rewrite !Nat.min_l, take_app_length in E by lia. rewrite E. assert (length a = length b) as -> by lia. apply take_app_length.
Qed.

Lemma ids_fit id : id ∈ shard_ids -> fits_check (node.NewRequest node.OpGetShard id []) = true.
Proof.
  intros Hid%list_elem_of_In. revert id Hid.
  apply (proj1 (forallb_forall (fun id => fits_check (node.NewRequest node.OpGetShard id [])) shard_ids)).
  vm_compute. reflexivity.
Qed.

(** Conditions on a state that its disks can be checked for. *)
Lemma no_collision_intro (D : gmap string (fs * option blockstore.Store)) shards :
  disk_check D shard_ids (fun d => zlen d <=? 31) = true ->
  Forall (shard_of (params_of the_manifest) (manifest.Stripes the_manifest)) shards -> no_collision D shards.
Proof.
  intros HD. rewrite Forall_forall. intros Hall p d sh Hsh Hd E. destruct (Hall sh Hsh) as (stripe & Hs & Hid & Hz).
  apply short_no_collision; [| |done].
  - apply Z.leb_le. eapply (disk_forall D shard_ids (fun d => zlen d <=? 31) HD); [|exact Hd].
    eapply in_shard_ids; [exact Hs|exact Hid].
  - rewrite Hz. rewrite stripes_two in Hs. apply elem_of_cons in Hs as [-> | ->%list_elem_of_singleton]; vm_compute; discriminate.
Qed.

Lemma hand_intro st : hand_checks st = true -> at_hand alice the_manifest the_group text st.
Proof.
  unfold hand_checks. intros [[[C1 C2]%andb_true_iff C3]%andb_true_iff C4]%andb_true_iff. constructor.
  - by apply attached_intro.
  - by apply store_intro.
  - rewrite (fresh_intro _ C2). apply cache.NewStripeCache_agrees.
  - intros stripe id Hs Hid. assert (Hin : id ∈ shard_ids) by (eapply in_shard_ids; [exact Hs|exact Hid]).
    split; [apply fits_intro, ids_fit, Hin|]. intros p d Hd.
    eapply fits_intro, (disk_forall _ _ _ C4); [exact Hin|exact Hd].
Qed.

Definition reach_check (holder : string) : bool :=
  match peer_Decode holder with Some p => bool_decide (peer_String p <> "12DB") | None => false end.

Lemma reach_intro holder : reach_check holder = true -> reaches bob_down alice holder.
Proof.
  unfold reach_check, reaches. destruct (peer_Decode holder) as [p|]; [|done]. intros Hp%bool_decide_eq_true.
  exists p. split; [done|]. right. intros t. unfold bob_down. by rewrite bool_decide_eq_false_2.
Qed.

(** The shards of a stripe, as the holders have them. *)
Lemma stripe_ids i : (i < 2)%nat ->
  manifest.ShardIDs (stripe_at i) = map blockstore.HashOf (coded (chunk 4 text (Z.of_nat i))).
Proof. intros Hi. destruct i as [|[|i]]; [vm_compute; reflexivity..|lia]. Qed.

Lemma stripe_cases stripe : stripe ∈ manifest.Stripes the_manifest -> exists i, (i < 2)%nat /\ stripe = stripe_at i.
Proof.
  rewrite stripes_two. intros [-> | ->%list_elem_of_singleton]%elem_of_cons; [exists 0%nat|exists 1%nat]; split; lia || done.
Qed.

Lemma all_at_holders stripe j id :
  stripe ∈ manifest.Stripes the_manifest -> manifest.ShardIDs stripe !! j = Some id ->
  exists h, manifest.Holders the_manifest !! j = Some h /\ placed shelf h id.
Proof.
  intros (i & Hi & ->)%stripe_cases Hj.
  assert (Hc : slots_check shelf i = true).
  { destruct i as [|[|i]]; [exact (after_check 8 _ eq_refl)|exact (after_check 9 _ eq_refl)|lia]. }
  assert (Hl : (j < 3)%nat).
  { apply lookup_lt_Some in Hj. rewrite (stripe_ids i Hi) in Hj. destruct i as [|[|i]]; [exact Hj..|lia]. }
  unfold slots_check in Hc. rewrite forallb_forall in Hc. specialize (Hc j). rewrite Hj in Hc.
  destruct (manifest.Holders the_manifest !! j) as [h|]; [|discriminate Hc; apply in_seq; lia].
  exists h. split; [done|]. apply placed_intro, Hc, in_seq. lia.
Qed.

Lemma after_settled h : settled shelf the_manifest h.
Proof.
  intros stripe j id Hs Hj Hh. destruct (all_at_holders stripe j id Hs Hj) as (h' & Hh' & Hp). by simplify_eq.
Qed.

Lemma after_at_hand : at_hand alice the_manifest the_group text after.
Proof. exact (hand_intro _ (after_check 3 _ eq_refl)). Qed.

Lemma after_can_download : can_download bob_down alice the_manifest the_group text after.
Proof.
  split; [exact after_at_hand|].
  apply (at_least_intro _ reach_check); [intros h Hh; split; [by apply reach_intro|apply after_settled]|].
  vm_compute. reflexivity.
Qed.

Lemma alice_apart hl : forallb plain_name hl = true -> spool_apart alice hl.
Proof.
  intros Hpl sp [= <-]. split; [by exists ["d"]|]. apply Forall_forall. intros h Hh%list_elem_of_In.
  rewrite forallb_forall in Hpl. by apply Hpl.
Qed.

Lemma start_group s g : local_store alice start = Some s -> resolveGroup s gid = Ok g -> g = the_group.
Proof.
  unfold local_store, start. cbn [world node.nodes]. rewrite (lookup_insert_eq _ "12DA" fresh_node).
  intros [= <-] Hg. change (node.nstore fresh_node) with member_store in Hg.
  assert (E : resolveGroup member_store gid = Ok the_group) by (vm_compute; reflexivity). congruence.
Qed.

(** The download, run by another member. *)
Example download_by_member :
  match (Get node.all_through node.sample_clock node.sample_disk members_range 1 (service_of "C")
           (manifest.FileID the_manifest) after).2 with
  | Ok (Some (data, _)) => data = text
  | _ => False
  end.
Proof. vm_compute. reflexivity. Qed.

(** ** Repair: Bob, who holds the last slot, is down *)

Definition repair_bob := repair.repairFile bob_down node.sample_clock node.sample_disk alice the_manifest 2 after.

Lemma repair_bob_Ok : repair_bob = (repair_bob.1, Ok tt).
Proof. etrans; [apply surjective_pairing|]. apply (f_equal (pair repair_bob.1)). vm_compute. reflexivity. Qed.

Lemma shard_id_intro (b : bytes) id : blockstore.HashOf b = id -> blockstore.shard_id id.
Proof. intros <-. apply blockstore.HashOf_shard_id. Qed.

Definition repaired : manifest.Manifest := repair.set_holder the_manifest 2 "12DA".

Definition after_members : list group.Member :=
  match local_store alice after with
  | Some s => match group.ListMembers s gid with Ok members => members | _ => [] end
  | None => []
  end.

(** Two of the three holders are there, no more than the file needs, and Alice
    holds nothing of it: she takes Bob's slot, and Carol hears of it. *)
Lemma repairFile_restores_witness :
  let st' := repair_bob.1 in
  (exists s', local_store alice st' = Some s' /\
    manifest.Get s' (manifest.FileID the_manifest) = Ok (manifest.manifest_norm repaired)) /\
  all_placed (node.disks (world st')) (manifest.Holders repaired) (manifest.Stripes the_manifest) /\
  node.filed_at (world st') "12DC" (manifest.manifest_norm repaired).
Proof.
  intros st'. destruct (ledger_store _ _ after_ledger) as [s Hs].
  assert (Hmem : group.ListMembers s (manifest.GroupID the_manifest) = Ok after_members).
  { unfold after_members. rewrite Hs. change (manifest.GroupID the_manifest) with gid.
    rewrite group.ListMembers_scan. reflexivity. }
  destruct (repair.repairFile_restores bob_down node.sample_clock node.sample_disk alice the_manifest 2 after st' s after_members)
    as [_ HR].
  - exact after_attached.
  - exact Hs.
  - exact Hmem.
  - vm_compute. split; [discriminate|reflexivity].
  - vm_compute. reflexivity.
  - intros stripe (i & Hi & ->)%stripe_cases. rewrite stripe_ids by done. apply Forall_fmap, Forall_true.
    intros sh. apply blockstore.HashOf_shard_id.
  - apply repair_bob_Ok.
  - assert (Hspare : repair.spare_of alice after the_manifest after_members = "12DA") by (vm_compute; reflexivity).
    assert (Hhead : repair.headroom alice after the_manifest = false) by (vm_compute; reflexivity).
    rewrite Hspare, Hhead in HR. destruct HR as (_ & HS & HP & HF). split; [exact HS|]. split.
    { apply HP. intros stripe j id Hs' Hj _. by apply (all_at_holders stripe). }
    destruct (HF "12DC") as (p & Hp & Hfiled).
    + apply (list_elem_of_lookup_2 _ 1%nat). vm_compute. reflexivity.
    + apply receptive_intro; [|vm_compute; reflexivity]. intros t p [= <-]. reflexivity.
    + injection Hp as <-. exact Hfiled.
Defined.

Lemma migrate_rebuilds_witness :
  let sh := default [] (coded (chunk 4 text 0) !! 2%nat) in
  exists st1, same_shards after st1 /\
    (repair.migrateStripeShard bob_down node.sample_clock node.sample_disk alice the_manifest (stripe_at 0) 2 "12DA"
       (params_of the_manifest) after = (st1, Err (ErrMsg "cannot reconstruct")) \/
     repair.migrateStripeShard bob_down node.sample_clock node.sample_disk alice the_manifest (stripe_at 0) 2 "12DA"
       (params_of the_manifest) after =
     repair.place bob_down node.sample_clock node.sample_disk alice "12DA" (blockstore.HashOf sh) sh st1).
Proof.
  intros sh.
  apply (repair.migrate_rebuilds bob_down node.sample_clock node.sample_disk alice the_manifest (stripe_at 0) 2 "12DA"
    file_key (chunk 4 text 0) (sealed (chunk 4 text 0)) (coded (chunk 4 text 0)) sh after).
  - exact after_attached.
  - exact after_ledger.
  - apply describes_intro. vm_compute. reflexivity.
  - exact (truthful_intro _ _ (after_check 4 _ eq_refl)).
  - vm_compute. reflexivity.
  - discriminate.
  - vm_compute. reflexivity.
Defined.

(** A manifest with a short identifier, as a peer may send it. *)
Definition tiny : manifest.Manifest :=
  manifest.NewManifest "ab" gid "x" 1 2 1 4 ["12DB"] [] 0 "12DC" manifest.ModeShared [] false.

Definition tiny_raw : bytes := match manifest.Marshal' tiny with Ok raw => raw | _ => [] end.

Definition tricked : node.NodeState * node.Response :=
  node.serveBlock (io_fine "1") fresh_node (node.NewRequest node.OpPutManifest "ab" tiny_raw).

Definition tricked_world : FS :=
  NewFS (node.NewWorld (<["12DA" := tricked.1]> ∅) 0) [] (cache.NewStripeCache 4).

Lemma short_id_stops_daemon_witness :
  (repair.ScanForOfflinePeer bob_down node.sample_clock node.sample_disk alice "12DB" tricked_world).2 = Panic.
Proof.
  pose proof (repair.short_id_stops_daemon bob_down node.sample_clock node.sample_disk alice tricked_world (io_fine "1")
    fresh_node tiny tiny_raw "12DB") as HT.
  change (node.serveBlock (io_fine "1") fresh_node (node.NewRequest node.OpPutManifest (manifest.FileID tiny) tiny_raw))
    with tricked in HT.
  rewrite (surjective_pairing tricked) in HT. apply HT.
  - vm_compute. reflexivity.
  - vm_compute. reflexivity.
  - left.
  - simpl. lia.
  - vm_compute. reflexivity.
  - unfold tricked_world. cbn [world node.nodes]. apply lookup_insert_eq.
Defined.

(** ** An upload that reaches nobody

    With no holder in reach the upload succeeds: every shard is spooled.  Nobody
    can read the file then, the uploader included, even over a network that works
    again: the reader does not look into the queue. *)

Definition nobody (t : nat) (src dst : string) : node.Fate := node.NoStream (ErrMsg "no route").

Definition all_spooled := upload_with nobody (NewBody text EOF) "".

Example all_spooled_unreadable :
  is_ok all_spooled.2 = true /\
  is_ok (Get node.all_through node.sample_clock node.sample_disk members_range 10 alice (manifest.FileID the_manifest) all_spooled.1).2 = false.
Proof. vm_compute. split; reflexivity. Qed.

End scenario.
