(* ===== verification/Readers.v ===== *)
(** * Reads side by side

    The readers of one daemon - downloads, streams of the mount - share the stripe
    cache of the file service, and none holds its mutex while it fetches a stripe.
    [Reader] has [ReadAt] of internal/file/reader.go in one piece; here it is cut
    where other goroutines can come in between: at each call of the cache and at
    each slot of the gathering loop.  A schedule says who moves next. *)

From S2P Require Import Prelude Ext Concrete Store Fs Blockstore Crypto Ec Holders Cache Manifest Ledger Group.
From S2P Require Import Blocks Spool File Reader Upload Repair Scenario.

Module readers.
Import file reader.

(** One call of [ReadAt] on a reader: [len(dst)] and the offset. *)
Record Task := NewTask { t_r : Reader; t_n : Z; t_off : Z }.

(** Where it is: before [cache.Get] for the stripe of [cur]; in the gathering loop,
    with the entries of [shardBytes] so far and the slots to come; before
    [cache.Put]; returned; panicked. *)
Inductive rpc :=
  | RGet (cur : Z) (acc : bytes)
  | RSlot (cur : Z) (acc : bytes) (stripe : manifest.Stripe) (bs : list bytes) (gathered : Z) (slots : list (string * string))
  | RPut (cur : Z) (acc data : bytes)
  | RRet (data : bytes) (err : option goerr)
  | RPanic.

Section with_libraries.
Context `{Badger, !Sha256, !manifest.ManifestCbor, !ledger.EntryCbor, !node.RequestCbor, !node.ResponseCbor,
  PeerIDs, AesGcm, NaclBox, ReedSolomon, !group.GroupCbor, !group.MemberCbor, !NameCbor}.
Context (fate : nat -> string -> string -> node.Fate) (clock : nat -> Z) (disk : nat -> wio).
Implicit Types (sv : Service) (t : Task) (pc : rpc) (st : FS).

Definition t_size t : Z := manifest.Size (r_m (t_r t)).
Definition t_stop t : Z := Z.min (wrap64 (t_off t + t_n t)) (t_size t).
Definition t_stripe t : Z := manifest.StripeDataSize (r_m (t_r t)).

(** The call of [ReadAt], up to its first stop. *)
Definition enter t : rpc := if t_size t <=? t_off t then RRet [] (Some EOF) else RGet (t_off t) [].

(** The end of [ReadAt]: after the loop, or on an error. *)
Definition leave t (data : bytes) (err : option goerr) : rpc :=
  match err with
  | Some e => RRet data (Some e)
  | None => RRet data (if (zlen data <? t_n t) && (t_size t <=? t_off t + zlen data) then Some EOF else None)
  end.

(** The copy out of a stripe. *)
Definition copy t (cur : Z) (acc data : bytes) : rpc :=
  let inStart := cur - wrap64 (Z.quot cur (t_stripe t) * t_stripe t) in
  let want := Z.min (t_stop t - cur) (zlen data - inStart) in
  match slice data inStart (inStart + want) with
  | Ok chunk => if want =? 0 then leave t (acc ++ chunk) None else RGet (cur + want) (acc ++ chunk)
  | _ => RPanic
  end.

(** [fetchAndDecryptStripe] up to the gathering loop. *)
Definition begin_fetch t (cur : Z) (acc : bytes) : rpc :=
  let m := r_m (t_r t) in
  let idx := Z.quot cur (t_stripe t) in
  if (idx <? 0) || (zlen (manifest.Stripes m) <=? idx) then leave t acc (Some (ErrMsg "stripe index out of range"))
  else match index (manifest.Stripes m) idx with
       | Ok stripe =>
           let total := manifest.DataShards m + manifest.ParityShards m in
           if negb (zlen (manifest.ShardIDs stripe) =? total) || negb (zlen (manifest.Holders m) =? total)
           then leave t acc (Some (ErrMsg "manifest stripe malformed"))
           else RSlot cur acc stripe [] 0 (zip (manifest.ShardIDs stripe) (manifest.Holders m))
       | _ => RPanic
       end.

(** [fetchAndDecryptStripe] after the loop, with [shardBytes]. *)
Definition end_fetch t (cur : Z) (acc : bytes) (stripe : manifest.Stripe) (shardBytes : list bytes) (gathered : Z) : rpc :=
  let m := r_m (t_r t) in
  if gathered <? manifest.DataShards m then leave t acc (Some (ErrMsg "not enough shards available"))
  else
    match owrap "ec decode stripe: " (ec.Decode (ec.NewParams (manifest.DataShards m) (manifest.ParityShards m)) shardBytes
                                        (manifest.CiphertextBytes stripe)).2 with
    | Ok ct => match owrap "decrypt stripe: " (openStripeCiphertext (r_key (t_r t)) ct) with
               | Ok pt => RPut cur acc pt
               | Err e => leave t acc (Some e)
               | Panic => RPanic
               end
    | Err e => leave t acc (Some e)
    | Panic => RPanic
    end.

(** One move of a task. *)
Definition move sv t pc : FS -> FS * rpc := fun st =>
  match pc with
  | RGet cur acc =>
      if cur <? t_stop t then
        if t_stripe t =? 0 then (st, RPanic)
        else if zlen (manifest.Stripes (r_m (t_r t))) <=? Z.quot cur (t_stripe t) then (st, leave t acc None)
        else
          match cache_get (manifest.FileID (r_m (t_r t))) (Z.quot cur (t_stripe t)) st with
          | (st', Ok (Some data)) => (st', copy t cur acc data)
          | (st', Ok None) => (st', begin_fetch t cur acc)
          | (st', _) => (st', RPanic)
          end
      else (st, leave t acc None)
  | RSlot cur acc stripe bs gathered slots =>
      match slots with
      | (shardID, holder) :: slots' =>
          if gathered <? manifest.DataShards (r_m (t_r t)) then
            match fetch1 fate clock disk sv shardID holder st with
            | (st', Ok x) => (st', RSlot cur acc stripe (bs ++ [default [] x]) (match x with Some _ => gathered + 1 | None => gathered end) slots')
            | (st', Err e) => (st', leave t acc (Some e))
            | (st', Panic) => (st', RPanic)
            end
          else (st, end_fetch t cur acc stripe (bs ++ map (fun _ => []) slots) gathered)
      | [] => (st, end_fetch t cur acc stripe bs gathered)
      end
  | RPut cur acc data =>
      let '(st', _) := cache_put (manifest.FileID (r_m (t_r t))) (Z.quot cur (t_stripe t)) data st in (st', copy t cur acc data)
  | RRet _ _ | RPanic => (st, pc)
  end.

(** The tasks with their positions; a schedule names who moves. *)
Abbreviation Pool := (list (Task * rpc)).

Definition sched1 sv (x : FS * Pool) (i : nat) : FS * Pool :=
  match x.2 !! i with
  | Some (t, pc) => let '(st', pc') := move sv t pc x.1 in (st', <[i := (t, pc')]> x.2)
  | None => x
  end.

Definition run sv (sched : list nat) (st : FS) (ts : list Task) : FS * Pool :=
  fold_left (sched1 sv) sched (st, map (fun t => (t, enter t)) ts).

(** ** One reader alone *)

Section alone.
Context (sv : Service) (t : Task).

Definition moves : relation (FS * rpc) := rtc (fun x y => y = move sv t x.2 x.1).

Lemma move_then st pc x : moves (move sv t pc st) x -> moves (st, pc) x.
Proof. intros Hx. eapply rtc_l; [|exact Hx]. done. Qed.

(** Where the call goes with the outcome of a part of it. *)
Definition onward {A} (acc : bytes) (k : A -> rpc) (o : outcome A) : rpc :=
  match o with Ok a => k a | Err e => leave t acc (Some e) | Panic => RPanic end.

Definition ended {A} (k : A -> rpc) (o : outcome A) : rpc := match o with Ok a => k a | _ => RPanic end.

Lemma gather_run cur acc stripe slots : forall st g bs st' o,
  gather fate clock disk sv (manifest.DataShards (r_m (t_r t))) g slots st = (st', o) ->
  moves (st, RSlot cur acc stripe bs g slots) (st', onward acc (fun x => end_fetch t cur acc stripe (bs ++ x.1) x.2) o).
Proof.
  induction slots as [|[id holder] slots IH]; intros st g bs st' o HG; apply move_then; cbn [gather move] in *.
  { injection HG as <- <-. simpl. by rewrite app_nil_r. }
  destruct (g <? _); [|injection HG as <- <-; done]. unfold bind at 1 in HG.
  destruct (fetch1 _ _ _ sv id holder st) as [st1 [x|e|]]; [|injection HG as <- <-; done..].
  unfold bind in HG. destruct (gather _ _ _ sv _ _ slots st1) as [st2 o2] eqn:EG. apply (IH _ _ (bs ++ [default [] x])) in EG.
  destruct o2 as [[rest n]|e|]; injection HG as <- <-; simpl in *; by rewrite <- ?app_assoc in EG.
Qed.

Lemma fetch_run cur acc st st' o :
  fetchAndDecryptStripe fate clock disk sv (t_r t) (Z.quot cur (t_stripe t)) st = (st', o) ->
  moves (st, begin_fetch t cur acc) (st', onward acc (RPut cur acc) o).
Proof.
  unfold fetchAndDecryptStripe, begin_fetch. destruct (_ || _); [by intros [= <- <-]|]. unfold bind at 1, lift at 1.
  destruct (index _ _) as [stripe|e|] eqn:EI; [|exfalso; unfold index in EI; by repeat case_match|by intros [= <- <-]].
  destruct (_ || _); [by intros [= <- <-]|]. unfold bind at 1. destruct (gather _ _ _ sv _ _ _ st) as [st1 o1] eqn:EG. intros HF.
  etrans; [by eapply gather_run|]. destruct o1 as [[bs n]|e|]; [|by injection HF as <- <-..]. simpl in *. unfold end_fetch.
  destruct (n <? _); [by injection HF as <- <-|]. unfold bind, wrapped, lift in HF.
  destruct (owrap _ (ec.Decode _ _ _).2) as [ct|e|]; [|by injection HF as <- <-..].
  destruct (owrap _ (openStripeCiphertext _ _)) as [pt|e|]; by injection HF as <- <-.
Qed.

Lemma stripe_run cur acc st st' o :
  cur < t_stop t -> t_stripe t <> 0 -> Z.quot cur (t_stripe t) < zlen (manifest.Stripes (r_m (t_r t))) ->
  stripeBytes fate clock disk sv (t_r t) (Z.quot cur (t_stripe t)) st = (st', o) ->
  moves (st, RGet cur acc) (st', onward acc (copy t cur acc) o).
Proof.
  intros Hc Hs Hi HB. apply move_then. cbn [move]. rewrite (proj2 (Z.ltb_lt _ _)), (proj2 (Z.eqb_neq _ _)), (proj2 (Z.leb_gt _ _)) by done.
  unfold stripeBytes, bind at 1 in HB. unfold cache_get in *. destruct (cache.Get _ _ _) as [c [data|]]; [by injection HB as <- <-|].
  unfold bind at 1 in HB. destruct (fetchAndDecryptStripe _ _ _ sv _ _ _) as [st2 o2] eqn:EF. etrans; [by eapply fetch_run|].
  destruct o2 as [pt|e|]; [|by injection HB as <- <-..]. unfold bind, cache_put, ret in HB. injection HB as <- <-. by apply move_then.
Qed.

Lemma loop_run fuel : forall cur acc st st' o,
  t_stop t - cur < Z.of_nat fuel -> read_loop fate clock disk fuel sv (t_r t) cur (t_stop t) acc st = (st', o) ->
  moves (st, RGet cur acc) (st', ended (fun x => leave t x.1 x.2) o).
Proof.
  induction fuel as [|fuel IH]; intros cur acc st st' o Hf HL; cbn [read_loop] in HL.
  { injection HL as <- <-. apply move_then. cbn [move]. by rewrite (proj2 (Z.ltb_ge _ _)) by lia. }
  destruct (Z.ltb_spec cur (t_stop t)) as [Hlt|Hge].
  2: { injection HL as <- <-. apply move_then. cbn [move]. by rewrite (proj2 (Z.ltb_ge _ _)) by lia. }
  fold (t_stripe t) in HL. destruct (Z.eqb_spec (t_stripe t) 0) as [Hz|Hz].
  { injection HL as <- <-. apply move_then. cbn [move]. by rewrite (proj2 (Z.ltb_lt _ _)), (proj2 (Z.eqb_eq _ _)). }
  destruct (Z.leb_spec (zlen (manifest.Stripes (r_m (t_r t)))) (Z.quot cur (t_stripe t))) as [Hi|Hi].
  { injection HL as <- <-. apply move_then. cbn [move].
    by rewrite (proj2 (Z.ltb_lt _ _)), (proj2 (Z.eqb_neq _ _)), (proj2 (Z.leb_le _ _)). }
  unfold bind at 1, attempt in HL. destruct (stripeBytes _ _ _ sv _ _ st) as [st1 o1] eqn:ES.
  etrans; [by eapply stripe_run|]. destruct o1 as [data|e|]; [|by injection HL as <- <-..]. cbn [onward]. unfold copy.
  unfold bind at 1, lift in HL. set (inStart := cur - _) in *. set (want := Z.min _ _) in *.
  destruct (slice data inStart (inStart + want)) as [chunk|e|] eqn:EC; [|exfalso; unfold slice in EC; by repeat case_match|by injection HL as <- <-].
  destruct (Z.eqb_spec want 0) as [Hw|Hw]; [by injection HL as <- <-|].
  apply slice_Ok in EC as (Hb & _ & _).
  apply IH in HL; [exact HL|lia].
Qed.

(** A reader that moves alone goes through what [ReadAt] does, to its result. *)
Theorem ReadAt_moves st st' o :
  ReadAt fate clock disk sv (t_r t) (t_n t) (t_off t) st = (st', o) ->
  moves (st, enter t) (st', ended (fun x => RRet x.1 x.2) o).
Proof.
  unfold ReadAt, enter. fold (t_size t). destruct (t_size t <=? t_off t); [by intros [= <- <-]|]. fold (t_stop t).
  unfold bind. destruct (read_loop _ _ _ _ sv _ _ _ _ st) as [st1 o1] eqn:EL. apply loop_run in EL; [|lia]. intros HR.
  etrans; [exact EL|]. destruct o1 as [[data [e|]]|e|]; by injection HR as <- <-.
Qed.

End alone.

(** ** Many readers *)

Section together.
Context (sv : Service) (D : gmap string (fs * option blockstore.Store)).

(** The files by their identifiers: the stripe size and the content. *)
Context (file : string -> Z * bytes).

Definition t_content t : bytes := (file (manifest.FileID (r_m (t_r t)))).2.

(** A task that can be served in state [st]. *)
Record fits t st : Prop := {
  ft_ready : ready sv (t_r t) (t_content t) D st;
  ft_stripe : t_stripe t = (file (manifest.FileID (r_m (t_r t)))).1;
  ft_range : 0 <= t_off t /\ 0 <= t_n t /\ t_off t + t_n t < 2 ^ 63
}.

Definition within t : Prop := reachable fate sv (r_m (t_r t)) D.

(** What a call may return: a prefix of the bytes asked for, and all of them when
    [k] slots of every stripe are within reach. *)
Definition right_answer t (data : bytes) (err : option goerr) : Prop :=
  data `prefix_of` drop (Z.to_nat (t_off t)) (t_content t) /\
  (within t -> data = take (Z.to_nat (t_n t)) (drop (Z.to_nat (t_off t)) (t_content t)) /\
     err = if (zlen (t_content t) <=? t_off t) || (zlen (t_content t) - t_off t <? t_n t) then Some EOF else None).

(** The bytes copied when the loop is at [cur]. *)
Definition copied t (cur : Z) (acc : bytes) : Prop :=
  t_off t <= cur <= Z.max (t_off t) (t_stop t) /\ t_off t < zlen (t_content t) /\
  acc = take (Z.to_nat (cur - t_off t)) (drop (Z.to_nat (t_off t)) (t_content t)).

Definition stripe_of t (cur : Z) : bytes := chunk (t_stripe t) (t_content t) (Z.quot cur (t_stripe t)).

Definition on_course t pc : Prop :=
  match pc with
  | RGet cur acc => copied t cur acc
  | RSlot cur acc stripe bs gathered slots =>
      copied t cur acc /\ cur < t_stop t /\ (length slots <= length (manifest.Holders (r_m (t_r t))))%nat /\
      exists ct cw1 cw2, describes (r_key (t_r t)) (params_of (r_m (t_r t))) stripe (stripe_of t cur) ct (cw1 ++ cw2) /\
        truthful D (cw1 ++ cw2) /\ Forall2 (fun slot sh => slot.1 = blockstore.HashOf sh) slots cw2 /\
        erasure_of cw1 bs /\ gathered = Z.of_nat (present bs) /\
        (within t -> at_least (available fate sv D) (manifest.DataShards (r_m (t_r t)) - gathered) slots)
  | RPut cur acc data => copied t cur acc /\ cur < t_stop t /\ data = stripe_of t cur
  | RRet data err => right_answer t data err
  | RPanic => False
  end.

(** How many moves a position is away from the end, at most. *)
Definition moves_left t pc : Z :=
  let K := zlen (manifest.Holders (r_m (t_r t))) in
  match pc with
  | RGet cur _ => Z.max 0 (t_stop t - cur) * (K + 3) + 1
  | RSlot cur _ _ _ _ slots => (t_stop t - cur) * (K + 3) - K + zlen slots
  | RPut cur _ _ => (t_stop t - cur) * (K + 3) - K - 1
  | RRet _ _ | RPanic => 0
  end.

Lemma fits_stop t st : fits t st -> t_stop t = Z.min (t_off t + t_n t) (zlen (t_content t)) /\ t_size t = zlen (t_content t).
Proof.
  intros [Hr _ (R1 & R2 & R3)]. pose proof (hf_size _ _ _ _ (rd_file _ _ _ _ _ Hr)) as Hs. unfold t_stop, t_size. rewrite Hs.
  by rewrite wrap64_id by (unfold in_int64; lia).
Qed.

(** ** Leaving *)

Lemma leave_error t st cur acc e : fits t st -> copied t cur acc -> ~ within t -> on_course t (leave t acc (Some e)).
Proof.
  intros _ (_ & _ & ->) Hno. split; [|by intros Hx]. apply prefix_take.
Qed.

Lemma leave_end t st cur acc : fits t st -> copied t cur acc -> t_stop t <= cur -> on_course t (leave t acc None).
Proof.
  intros Hf (Hc & Ho & ->) Hs. destruct (fits_stop t st Hf) as [ES EZ]. destruct Hf as [_ _ (R1 & R2 & R3)].
  assert (cur = t_stop t) as -> by lia. unfold leave. simpl. set (data := take _ _).
  assert (Hz : zlen data = t_stop t - t_off t).
  { unfold data, zlen in *. rewrite length_take, length_drop. lia. }
  split; [apply prefix_take|]. intros _. split.
  - unfold data. destruct (decide (t_n t <= zlen (t_content t) - t_off t)); [f_equal; lia|].
    rewrite !take_ge; [done|rewrite length_drop; unfold zlen in *; lia..].
  - rewrite Hz, EZ, ES. destruct (Z.leb_spec (zlen (t_content t)) (t_off t)); [lia|]. simpl.
    destruct (Z.ltb_spec (Z.min (t_off t + t_n t) (zlen (t_content t)) - t_off t) (t_n t)), (Z.ltb_spec (zlen (t_content t) - t_off t) (t_n t)),
      (Z.leb_spec (zlen (t_content t)) (t_off t + (Z.min (t_off t + t_n t) (zlen (t_content t)) - t_off t))); simpl; try done; lia.
Qed.

(** ** The stripe of a position *)

Record at_stripe t (cur : Z) : Prop := {
  as_size : 0 < t_stripe t;
  as_index : 0 <= Z.quot cur (t_stripe t) < zlen (manifest.Stripes (r_m (t_r t)));
  as_start : 0 <= Z.quot cur (t_stripe t) * t_stripe t <= cur;
  as_next : cur < Z.quot cur (t_stripe t) * t_stripe t + t_stripe t;
  as_small : Z.quot cur (t_stripe t) < 2 ^ 63;
  as_wrap : wrap64 (Z.quot cur (t_stripe t) * t_stripe t) = Z.quot cur (t_stripe t) * t_stripe t
}.

Lemma stripe_at t st cur acc : fits t st -> copied t cur acc -> cur < t_stop t -> at_stripe t cur.
Proof.
  intros Hf (Hc & Ho & _) Hlt. destruct (fits_stop t st Hf) as [ES _]. destruct Hf as [Hr _ (R1 & R2 & R3)].
  pose proof (rd_file _ _ _ _ _ Hr) as [F1 F2 F3 F4 F5 F6]. fold (t_stripe t) in *.
  set (i := cur / t_stripe t).
  assert (Hi0 : 0 <= i) by (apply Z.div_pos; lia). pose proof (Z.div_mod cur (t_stripe t) ltac:(lia)) as Hdm.
  pose proof (Z.mod_pos_bound cur (t_stripe t) ltac:(lia)) as Hmod. fold i in Hdm.
  assert (Hiss : 0 <= i * t_stripe t <= cur) by nia.
  split; rewrite ?Z.quot_div_nonneg by lia; fold i; [lia|split; [lia|apply F5; nia]|lia|nia|nia|]. apply wrap64_id. unfold in_int64. lia.
Qed.

Lemma copy_ok t st cur acc : fits t st -> copied t cur acc -> cur < t_stop t ->
  on_course t (copy t cur acc (stripe_of t cur)) /\
  moves_left t (copy t cur acc (stripe_of t cur)) < (t_stop t - cur) * (zlen (manifest.Holders (r_m (t_r t))) + 3) - zlen (manifest.Holders (r_m (t_r t))) - 1.
Proof.
  intros Hf Hc Hlt. destruct (stripe_at t st cur acc Hf Hc Hlt) as [S1 S2 S3 S4 S5 S6]. destruct (fits_stop t st Hf) as [ES _].
  destruct Hc as (Hc & Ho & ->). destruct Hf as [_ _ (R1 & R2 & R3)]. unfold copy, stripe_of. rewrite S6.
  set (i := Z.quot cur (t_stripe t)) in *. set (ss := t_stripe t) in *.
  pose proof (zlen_chunk ss (t_content t) i S1 (proj1 S2)) as Hzc.
  set (want := Z.min (t_stop t - cur) (zlen (chunk ss (t_content t) i) - (cur - i * ss))).
  assert (Hw : 0 < want) by (unfold want; lia). assert (Hw2 : cur - i * ss + want <= zlen (chunk ss (t_content t) i)) by (unfold want; lia).
  rewrite slice_full by lia. replace (cur - i * ss + want - (cur - i * ss)) with want by lia. rewrite chunk_slice by lia.
  rewrite (proj2 (Z.eqb_neq want 0)) by lia. split.
  - split; [unfold want; lia|]. split; [done|].
    replace (drop (Z.to_nat cur) (t_content t)) with (drop (Z.to_nat (cur - t_off t)) (drop (Z.to_nat (t_off t)) (t_content t)))
      by (rewrite drop_drop; f_equal; lia).
    rewrite take_take_drop. f_equal. lia.
  - cbn [moves_left]. set (K := zlen (manifest.Holders (r_m (t_r t)))). assert (0 <= K) by (unfold K, zlen; lia).
    assert (Z.max 0 (t_stop t - (cur + want)) <= t_stop t - cur - 1) by lia. nia.
Qed.

Lemma hashes_zip (cw : list bytes) : forall (hs : list string), length hs = length cw ->
  Forall2 (fun slot sh => slot.1 = blockstore.HashOf sh) (zip (map blockstore.HashOf cw) hs) cw.
Proof. induction cw as [|sh cw IH]; intros [|h hs] Hl; try done. simpl. constructor; [done|]. apply IH. by injection Hl. Qed.

Lemma begin_fetch_ok t st cur acc : fits t st -> copied t cur acc -> cur < t_stop t ->
  on_course t (begin_fetch t cur acc) /\ moves_left t (begin_fetch t cur acc) < moves_left t (RGet cur acc).
Proof.
  intros Hf Hc Hlt. destruct (stripe_at t st cur acc Hf Hc Hlt) as [S1 S2 S3 S4 S5 S6].
  pose proof (ft_ready _ _ Hf) as Hr. pose proof (rd_file _ _ _ _ _ Hr) as [F1 F2 F3 F4 F5 F6]. fold (t_stripe t) in *.
  unfold begin_fetch. rewrite (proj2 (Z.ltb_ge _ _)), (proj2 (Z.leb_gt _ _)) by lia. cbn [orb].
  destruct (lookup_lt_is_Some_2 (manifest.Stripes (r_m (t_r t))) (Z.to_nat (Z.quot cur (t_stripe t)))) as [stripe Hst]; [unfold zlen in *; lia|].
  rewrite (proj2 (index_Ok _ _ _) (conj (proj1 S2) Hst)). destruct (F6 _ _ Hst) as (ct & cw & Hde & Ht). rewrite Z2Nat.id in Hde by lia.
  pose proof Hde as (Hsup & Hct & (Hlen & _) & Hcb & Hmax & Hopen & Hids). simpl in Hlen.
  assert (Hz : zlen (manifest.ShardIDs stripe) = manifest.DataShards (r_m (t_r t)) + manifest.ParityShards (r_m (t_r t)))
    by (rewrite Hids; unfold zlen in *; rewrite length_map; done).
  assert (Hl : length (manifest.Holders (r_m (t_r t))) = length cw) by (unfold zlen in *; lia).
  rewrite Hz, F4, Z.eqb_refl. cbn [orb negb].
  assert (Hzl : (length (zip (manifest.ShardIDs stripe) (manifest.Holders (r_m (t_r t)))) <= length (manifest.Holders (r_m (t_r t))))%nat)
    by (rewrite length_zip_with; lia).
  split.
  - split; [done|]. split; [done|]. split; [done|]. exists ct, [], cw. split_and!; [done|done| |constructor|done|].
    + rewrite Hids. by apply hashes_zip.
    + intros Hx. rewrite Z.sub_0_r. apply Hx. by eapply list_elem_of_lookup_2.
  - cbn [moves_left]. unfold zlen in *. rewrite (Z.max_r 0) by lia. lia.
Qed.

Lemma end_fetch_ok t st cur acc stripe shards gathered cw ct : fits t st -> copied t cur acc -> cur < t_stop t ->
  describes (r_key (t_r t)) (params_of (r_m (t_r t))) stripe (stripe_of t cur) ct cw -> erasure_of cw shards ->
  gathered = Z.of_nat (present shards) -> (within t -> manifest.DataShards (r_m (t_r t)) <= gathered) ->
  on_course t (end_fetch t cur acc stripe shards gathered) /\
  moves_left t (end_fetch t cur acc stripe shards gathered) < (t_stop t - cur) * (zlen (manifest.Holders (r_m (t_r t))) + 3) - zlen (manifest.Holders (r_m (t_r t))).
Proof.
  intros Hf Hc Hlt Hde He Hg Hx. pose proof Hde as (Hsup & Hct & Henc & Hcb & Hmax & Hopen & Hids).
  unfold end_fetch. destruct (Z.ltb_spec gathered (manifest.DataShards (r_m (t_r t)))) as [Hno|Hyes].
  { split; [apply (leave_error t st cur); [done|done|]; intros Hw; specialize (Hx Hw); lia|]. simpl. unfold zlen. nia. }
  rewrite <- Hcb. pose proof (ec.Decode_encoding (params_of (r_m (t_r t))) ct cw shards) as HD. unfold params_of in HD.
  pose proof (ec.supported_data _ Hsup) as Hk. simpl in Hk. rewrite HD by (try done; simpl; lia). simpl. unfold openStripeCiphertext. rewrite Hopen. simpl.
  split; [done|lia].
Qed.

(** ** One move *)

Lemma slot_shard t st cur acc stripe bs gathered id holder slots :
  on_course t (RSlot cur acc stripe bs gathered ((id, holder) :: slots)) -> blockstore.shard_id id.
Proof.
  intros (_ & _ & _ & ct & cw1 & cw2 & _ & _ & Hz & _). apply Forall2_cons_inv_l in Hz as (sh & cw' & Hid & _ & ->). simpl in Hid.
  rewrite Hid. apply blockstore.HashOf_shard_id.
Qed.

(** What a task does leaves the others served. *)
Lemma move_fits t u pc st st' pc' :
  fits t st -> on_course t pc -> move sv t pc st = (st', pc') -> fits u st -> fits u st'.
Proof.
  intros Ht Hc HM Hu. assert (HR : forall st1, ready sv (t_r u) (t_content u) D st1 -> fits u st1) by (intros st1 Hr; by destruct Hu).
  pose proof (ft_ready _ _ Hu) as Hr. destruct pc as [cur acc|cur acc stripe bs g slots|cur acc data|data err|]; cbn [move] in HM.
  - destruct (cur <? t_stop t); [|by injection HM as <- _]. destruct (t_stripe t =? 0); [by injection HM as <- _|].
    destruct (_ <=? _); [by injection HM as <- _|]. unfold cache_get in HM.
    pose proof (cache.Get_keeps (cached st) _ _ (manifest.FileID (r_m (t_r t))) (Z.quot cur (t_stripe t)) (rd_cache _ _ _ _ _ Hr)) as HK.
    destruct (cache.Get (cached st) _ _) as [c [d|]]; injection HM as <- _; apply HR; by apply ready_cache.
  - destruct slots as [|[id holder] slots]; [by injection HM as <- _|]. destruct (g <? _); [|by injection HM as <- _].
    destruct (fetch1_spec fate clock disk sv id holder st (rd_attached _ _ _ _ _ Hr) (slot_shard _ st _ _ _ _ _ _ _ _ Hc)) as (st1 & x & E & Hs & _).
    rewrite E in HM. injection HM as <- _. apply HR. by eapply ready_step.
  - destruct Hc as (Hc & Hlt & ->). destruct (stripe_at t st cur acc Ht Hc Hlt) as [_ S2 _ _ S5 _]. injection HM as <- _. apply HR.
    apply ready_cache; [done|]. apply cache.Put_keeps; [lia| |apply (rd_cache _ _ _ _ _ Hr)]. intros E. unfold stripe_of.
    change (manifest.StripeDataSize (r_m (t_r u))) with (t_stripe u). rewrite (ft_stripe _ _ Ht), (ft_stripe _ _ Hu). unfold t_content. by rewrite E.
  - by injection HM as <- _.
  - by injection HM as <- _.
Qed.

Lemma slot_course t st cur acc stripe bs g id holder slots st1 x :
  fits t st -> on_course t (RSlot cur acc stripe bs g ((id, holder) :: slots)) ->
  fetch1 fate clock disk sv id holder st = (st1, Ok x) ->
  on_course t (RSlot cur acc stripe (bs ++ [default [] x]) (match x with Some _ => g + 1 | None => g end) slots).
Proof.
  intros Hf Hc HF. pose proof (slot_shard _ st _ _ _ _ _ _ _ _ Hc) as Hid. pose proof (ft_ready _ _ Hf) as Hr.
  destruct (fetch1_spec fate clock disk sv id holder st (rd_attached _ _ _ _ _ Hr) Hid) as (st2 & x' & E & _ & Hx & Hav).
  rewrite HF in E. injection E as <- <-. rewrite (rd_disks _ _ _ _ _ Hr) in Hx, Hav.
  destruct Hc as (Hc & Hlt & Hln & ct & cw1 & cw2 & Hde & Ht & Hz & He & Hg & Hw).
  pose proof Hde as (Hsup & Hct & Henc & _). pose proof (ec.encoding_nonempty _ _ _ Hsup Hct Henc) as Hne.
  apply Forall2_cons_inv_l in Hz as (sh & cw' & Hh & Hz & ->). simpl in Hh.
  assert (Hsh : forall d, x = Some d -> d = sh).
  { intros d Hd. destruct (Hx d Hd) as [p Hp]. rewrite Hh in Hp. eapply Ht; [|exact Hp]. apply elem_of_app. right. constructor. }
  assert (Hsn : sh <> []) by (rewrite Forall_forall in Hne; apply Hne, elem_of_app; right; constructor).
  split; [done|]. split; [done|]. split; [simpl in Hln; lia|]. exists ct, (cw1 ++ [sh]), cw'. rewrite <- app_assoc. split_and!; [done|done|done| | |].
  - apply Forall2_app; [done|]. constructor; [|constructor]. destruct x as [d|]; [left; by apply Hsh|by right].
  - assert (HP : present (bs ++ [default [] x]) = (present bs + present [default [] x])%nat)
      by (unfold present; by rewrite filter_app, length_app). rewrite HP. destruct x as [d|]; simpl.
    + rewrite (Hsh d eq_refl), present_cons, decide_False by done. change (present []) with 0%nat. lia.
    + change (present [[]]) with 0%nat. lia.
  - intros Hx'. destruct (at_least_cons _ _ _ _ (Hw Hx')) as [Hal|[Hav1 Hal]].
    + destruct x; [|done]. destruct Hal as (sub & ? & ? & ?). exists sub. split_and!; [done|lia|done].
    + destruct (Hav Hav1) as [d ->]. replace (manifest.DataShards (r_m (t_r t)) - (g + 1)) with (manifest.DataShards (r_m (t_r t)) - g - 1) by lia. done.
Qed.

Lemma slots_end t st cur acc stripe bs g slots :
  fits t st -> on_course t (RSlot cur acc stripe bs g slots) -> slots = [] \/ manifest.DataShards (r_m (t_r t)) <= g ->
  on_course t (end_fetch t cur acc stripe (bs ++ map (fun _ => []) slots) g) /\
  moves_left t (end_fetch t cur acc stripe (bs ++ map (fun _ => []) slots) g) < moves_left t (RSlot cur acc stripe bs g slots).
Proof.
  intros Hf (Hc & Hlt & Hln & ct & cw1 & cw2 & Hde & Ht & Hz & He & Hg & Hw) Hs.
  destruct (none_present slots cw2) as [N1 N2]; [by eapply Forall2_length|].
  assert (HP : present (bs ++ map (fun _ => []) slots) = present bs) by (unfold present in *; rewrite filter_app, length_app; lia).
  destruct (end_fetch_ok t st cur acc stripe (bs ++ map (fun _ => []) slots) g (cw1 ++ cw2) ct Hf Hc Hlt Hde) as [E1 E2].
  - by apply Forall2_app.
  - by rewrite HP.
  - intros Hx. destruct Hs as [->|Hs]; [|done]. destruct (Hw Hx) as (sub & ->%sublist_nil_r & Hn & _). unfold zlen in Hn. simpl in Hn. lia.
  - split; [done|]. cbn [moves_left]. unfold zlen in *. lia.
Qed.

(** A task stays on its course, and comes closer to its end with every move. *)
Lemma move_course t pc st st' pc' :
  fits t st -> on_course t pc -> move sv t pc st = (st', pc') ->
  on_course t pc' /\ (moves_left t pc' < moves_left t pc \/ exists data err, pc = RRet data err /\ pc' = pc).
Proof.
  intros Hf Hc HM. destruct pc as [cur acc|cur acc stripe bs g slots|cur acc data|data err|]; cbn [move] in HM; [..|done].
  - destruct (Z.ltb_spec cur (t_stop t)) as [Hlt|Hge].
    2: { injection HM as <- <-. split; [by eapply leave_end|]. left. simpl. unfold zlen. lia. }
    destruct (stripe_at t st cur acc Hf Hc Hlt) as [S1 S2 S3 S4 S5 S6]. rewrite (proj2 (Z.eqb_neq _ _)), (proj2 (Z.leb_gt _ _)) in HM by lia.
    pose proof (cache.Get_agrees _ _ _ (Z.quot cur (t_stripe t)) ltac:(lia) (rd_cache _ _ _ _ _ (ft_ready _ _ Hf))) as [_ Hhit].
    unfold cache_get in HM. destruct (cache.Get (cached st) _ _) as [c hit]. simpl in Hhit. destruct hit as [data|]; injection HM as <- <-.
    + rewrite (Hhit data eq_refl). destruct (copy_ok t st cur acc Hf Hc Hlt) as [C1 C2]. split; [exact C1|]. left. cbn [moves_left] in *.
      eapply Z.lt_trans; [exact C2|]. unfold zlen. lia.
    + destruct (begin_fetch_ok t st cur acc Hf Hc Hlt) as [B1 B2]. auto.
  - destruct slots as [|[id holder] slots].
    { destruct (slots_end t st cur acc stripe bs g [] Hf Hc) as [E1 E2]; [by left|]. simpl in E1, E2. rewrite app_nil_r in E1, E2. injection HM as <- <-. auto. }
    destruct (Z.ltb_spec g (manifest.DataShards (r_m (t_r t)))) as [Hg|Hg].
    2: { destruct (slots_end t st cur acc stripe bs g ((id, holder) :: slots) Hf Hc) as [E1 E2]; [by right|]. injection HM as <- <-. auto. }
    destruct (fetch1_spec fate clock disk sv id holder st (rd_attached _ _ _ _ _ (ft_ready _ _ Hf)) (slot_shard _ st _ _ _ _ _ _ _ _ Hc)) as (st1 & x & E & _).
    rewrite E in HM. injection HM as <- <-. split; [by eapply slot_course|]. left. cbn [moves_left]. unfold zlen. simpl. lia.
  - destruct Hc as (Hc & Hlt & ->). injection HM as <- <-. destruct (copy_ok t st cur acc Hf Hc Hlt) as [C1 C2]. split; [exact C1|]. left. exact C2.
  - injection HM as <- <-. split; [done|]. right. by eexists _, _.
Qed.

Lemma enter_course t st : fits t st -> on_course t (enter t).
Proof.
  intros Hf. destruct (fits_stop t st Hf) as [_ EZ]. unfold enter. rewrite EZ. destruct Hf as [_ _ (R1 & R2 & R3)].
  destruct (Z.leb_spec (zlen (t_content t)) (t_off t)) as [Hge|Hlt].
  - split; [apply prefix_nil|]. intros _. split.
    + rewrite drop_ge by (unfold zlen in *; lia). by rewrite take_nil.
    + by rewrite (proj2 (Z.leb_le _ _)).
  - split; [lia|]. split; [done|]. by rewrite Z.sub_diag.
Qed.

(** ** Every schedule *)

(** The moves a call needs, at most. *)
Definition enough_moves t : Z := moves_left t (enter t).

Lemma run_course (ts : list Task) sched st : Forall (fun t => fits t st) ts ->
  let x := run sv sched st ts in
  Forall (fun t => fits t x.1) ts /\ map fst x.2 = ts /\
  forall i t pc, x.2 !! i = Some (t, pc) -> on_course t pc /\
    ((exists data err, pc = RRet data err) \/ moves_left t pc + Z.of_nat (count_occ Nat.eq_dec sched i) <= enough_moves t).
Proof.
  intros Hf. unfold run. induction sched as [|j sched IH] using rev_ind; simpl.
  { split_and!; [done|rewrite map_map; apply map_id|]. intros i t pc Hi. rewrite list_lookup_fmap in Hi.
    destruct (ts !! i) as [t'|] eqn:Et; [|done]. injection Hi as -> <-. split; [|right; unfold enough_moves; lia].
    eapply enter_course. rewrite Forall_forall in Hf. eapply Hf, list_elem_of_lookup_2, Et. }
  rewrite fold_left_app. simpl. destruct (fold_left (sched1 sv) sched _) as [st1 pool]. destruct IH as (IH1 & IH2 & IH3). simpl in *.
  assert (HC : forall i, count_occ Nat.eq_dec (sched ++ [j]) i = (count_occ Nat.eq_dec sched i + if Nat.eq_dec j i then 1 else 0)%nat).
  { intros i. rewrite count_occ_app. simpl. by destruct (Nat.eq_dec j i). }
  unfold sched1. simpl. destruct (pool !! j) as [[t pc]|] eqn:Ej.
  2: { split_and!; [done|done|]. intros i t pc Hi. destruct (IH3 i t pc Hi) as [C [?|M]]; split; auto. right. rewrite HC.
       destruct (Nat.eq_dec j i) as [->|]; [simpl in Hi; by rewrite Hi in Ej|lia]. }
  destruct (move sv t pc st1) as [st2 pc2] eqn:EM. simpl. destruct (IH3 j t pc Ej) as [C M].
  assert (Ht : ts !! j = Some t) by (rewrite <- IH2, list_lookup_fmap, Ej; done).
  assert (Hft : fits t st1) by (rewrite Forall_forall in IH1; eapply IH1, list_elem_of_lookup_2, Ht).
  destruct (move_course _ _ _ _ _ Hft C EM) as [C2 M2]. split_and!.
  - eapply Forall_impl; [exact IH1|]. intros u Hu. exact (move_fits _ _ _ _ _ _ Hft C EM Hu).
  - etrans; [apply (list_fmap_insert fst)|]. change (fst <$> pool) with (map fst pool). rewrite IH2. simpl. by apply list_insert_id.
  - intros i u pcu Hi. rewrite HC. destruct (decide (i = j)) as [->|Hij].
    + rewrite list_lookup_insert_eq in Hi by (by eapply lookup_lt_Some). injection Hi as <- <-. split; [done|].
      destruct (Nat.eq_dec j j) as [_|]; [|done]. destruct M2 as [M2|(d & e & -> & ->)]; [|left; by eexists _, _].
      destruct M as [(d & e & ->)|M]; [|right; lia]. simpl in EM. injection EM as _ <-. left. by eexists _, _.
    + rewrite list_lookup_insert_ne in Hi by done. destruct (IH3 i u pcu Hi) as [C' [?|M']]; split; auto.
      right. destruct (Nat.eq_dec j i) as [E|]; [by subst|lia].
Qed.

Lemma moves_left_pos t pc : on_course t pc -> 0 < moves_left t pc \/ exists data err, pc = RRet data err.
Proof.
  destruct pc as [cur acc|cur acc stripe bs g slots|cur acc data|data err|]; [intros _| intros (_ & Hlt & _)|intros (_ & Hlt & _)|eauto|done];
    left; cbn [moves_left]; unfold zlen; nia.
Qed.

(** [C6] Reads side by side do not disturb each other.  Any number of calls of
    [ReadAt] on the files of one service share its cache; each moves when the
    schedule says, a call of the cache or a fetched slot at a time.  Under every
    schedule, whatever has been evicted or fetched twice meanwhile, a call that has
    had its number of moves has returned, and a call that has returned has returned
    bytes of its file from its offset on - exactly the bytes asked for, with [io.EOF]
    exactly at the end, when [k] slots of each stripe of the file are within reach. *)
Theorem reads_together ts sched st i t :
  Forall (fun t => fits t st) ts -> ts !! i = Some t ->
  exists pc, (run sv sched st ts).2 !! i = Some (t, pc) /\
    (enough_moves t <= Z.of_nat (count_occ Nat.eq_dec sched i) -> exists data err, pc = RRet data err) /\
    (forall data err, pc = RRet data err -> right_answer t data err).
Proof.
  intros Hf Ht. destruct (run_course ts sched st Hf) as (_ & HM & HI). destruct ((run sv sched st ts).2 !! i) as [[t' pc]|] eqn:Ei.
  2: { exfalso. rewrite <- HM, list_lookup_fmap, Ei in Ht. done. }
  assert (t' = t) as -> by (rewrite <- HM, list_lookup_fmap, Ei in Ht; by injection Ht). destruct (HI i t pc Ei) as [C M].
  exists pc. split; [done|]. split; [|by intros data err ->]. intros He. destruct M as [?|M]; [done|].
  destruct (moves_left_pos t pc C) as [Hp|?]; [lia|done].
Qed.

End together.

End with_libraries.

(** ** Witness: two readers of the file of [Scenario], in turns *)

Import scenario.

Definition tail_read : Task := NewTask opened 10 3.
Definition head_read : Task := NewTask opened 4 0.

Definition in_turns : list nat := concat (replicate 40 [0%nat; 1%nat]).

Definition the_file (_ : string) : Z * bytes := (t_stripe tail_read, text).

Lemma opened_fits n off : 0 <= off -> 0 <= n -> off + n < 2 ^ 63 -> fits alice shelf the_file (NewTask opened n off) after.
Proof.
  intros H1 H2 H3. apply Build_fits; [exact after_ready|reflexivity|by split_and!].
Qed.

Lemma both_fit : Forall (fun t => fits alice shelf the_file t after) [tail_read; head_read].
Proof.
  apply Forall_cons; split; [apply opened_fits; lia|]. apply Forall_cons; split; [apply opened_fits; lia|]. apply Forall_nil_2.
Qed.

Lemma reads_together_witness : exists pc,
  (run bob_down node.sample_clock node.sample_disk alice in_turns after [tail_read; head_read]).2 !! 0%nat = Some (tail_read, pc) /\
  pc = RRet [Byte.x6c; Byte.x6f; Byte.x21] (Some EOF).
Proof.
  destruct (reads_together bob_down node.sample_clock node.sample_disk alice shelf the_file [tail_read; head_read] in_turns after 0%nat tail_read both_fit eq_refl)
    as (pc & E & Hret & Hright).
  exists pc. split; [exact E|]. destruct Hret as (data & err & ->); [apply Z.leb_le; vm_compute; reflexivity|].
  destruct (Hright data err eq_refl) as [_ Hx]. destruct (Hx shelf_reachable) as [-> ->]. reflexivity.
Defined.

End readers.
