(* ===== verification/Fuse.v ===== *)
(** * internal/fuse/fs.go: the read-only file system over the library

    The nodes of the tree, what each operation answers, and the reads of an open
    file.  The kernel and go-fuse call the operations; a path is looked up
    component by component ([walk]). *)

From S2P Require Import Prelude Ext Concrete Store Fs Blockstore Crypto Ec Holders Cache Manifest Ledger Group.
From S2P Require Import Blocks Spool Base64 File Reader Upload Repair Scenario.

Module fuse.
Import file reader upload.

(** [ENOTDIR] is the kernel's own answer: a file node has neither [Readdir] nor
    [Lookup]. *)
Inductive Errno := EIO | ENOENT | EROFS | ENOTDIR.

Definition S_IFDIR : Z := 16384.
Definition S_IFREG : Z := 32768.
Definition perm_dir : Z := 365.   (* 0o555 *)
Definition perm_file : Z := 292.  (* 0o444 *)

Definition uint64 (z : Z) : Z := z mod 2 ^ 64.

Record DirEntry := NewDirEntry { de_Name : string; de_Mode : Z }.
Record EntryOut := NewEntryOut { eo_Mode : Z; eo_Size : Z }.
Record AttrOut := NewAttrOut { at_Mode : Z; at_Size : Z; at_Mtime : Z; at_Atime : Z; at_Ctime : Z }.

Inductive Inode :=
  | rootNode
  | groupNode (groupID groupName : string)
  | privateNode (groupID : string)
  | fileNode (m : manifest.Manifest).

(** ** Names *)

(** [strings.NewReplacer("/", "_", "\x00", "_")] *)
Definition mask_char (c : ascii) : ascii :=
  if bool_decide (c = "/"%char) || bool_decide (c = "000"%char) then "_"%char else c.

Fixpoint replace_chars (s : string) : string :=
  match s with
  | EmptyString => EmptyString
  | String c s' => String (mask_char c) (replace_chars s')
  end.

Definition sanitize (s : string) : string :=
  if bool_decide (s = "") then "_"
  else
    let out := replace_chars s in
    if (200 <? String.length out)%nat then String.substring 0 200 out else out.

Definition shortID (m : manifest.Manifest) : string :=
  if (12 <=? String.length (manifest.FileID m))%nat then String.substring 0 12 (manifest.FileID m)
  else manifest.FileID m.

Definition visibleName (m : manifest.Manifest) (selfPeerID : string) : string :=
  if bool_decide (manifest.Mode m = manifest.ModePrivate) && manifest.FilenameEncrypted m then
    if negb (bool_decide (manifest.OwnerPeerID m = selfPeerID)) then ""
    else shortID m +:+ ".bin"
  else if negb (bool_decide (manifest.Filename m = "")) then manifest.Filename m
  else shortID m +:+ ".bin".

(** The name an entry is listed under. *)
Definition entry_name (self : string) (m : manifest.Manifest) : string := sanitize (visibleName m self).

Section with_libraries.
Context `{Badger, !Sha256, !manifest.ManifestCbor, !ledger.EntryCbor, !node.RequestCbor, !node.ResponseCbor,
  PeerIDs, AesGcm, NaclBox, ReedSolomon, !group.GroupCbor, !group.MemberCbor, !NameCbor}.
Context (fate : nat -> string -> string -> node.Fate) (clock : nat -> Z) (disk : nat -> wio).
Context (range : gmap string group.Member -> list (string * group.Member)).
Implicit Types (sv : Service) (m : manifest.Manifest) (r : Reader) (st : FS) (s : db) (gid self name : string).

Notation "'do!' x ':=' c 'in' k" := (bind c (fun x => k))
  (at level 10, x pattern, c at level 200, k at level 200, only parsing).

(** ** Directories *)

(** [all, _ := files.List()] *)
Definition files_of sv s : list manifest.Manifest := match List sv s with Ok all => all | _ => [] end.

(** [listFiles]: the shared files of the group, and our private ones. *)
Fixpoint split_files gid self (all : list manifest.Manifest) : list manifest.Manifest * list manifest.Manifest :=
  match all with
  | [] => ([], [])
  | m :: all' =>
      let '(shared, ownedPrivate) := split_files gid self all' in
      if negb (bool_decide (manifest.GroupID m = gid)) then (shared, ownedPrivate)
      else if bool_decide (manifest.Mode m = manifest.ModeShared) || bool_decide (manifest.Mode m = "")
      then (m :: shared, ownedPrivate)
      else if bool_decide (manifest.Mode m = manifest.ModePrivate) then
        if bool_decide (manifest.OwnerPeerID m = self) then (shared, m :: ownedPrivate) else (shared, ownedPrivate)
      else (shared, ownedPrivate)
  end.

Definition listFiles sv s gid self := split_files gid self (files_of sv s).

Definition ownedHere sv s gid self : list manifest.Manifest :=
  List.filter (fun m => bool_decide (manifest.GroupID m = gid) && bool_decide (manifest.Mode m = manifest.ModePrivate)
                 && bool_decide (manifest.OwnerPeerID m = self)) (files_of sv s).

Definition dir_entry (name : string) : DirEntry := NewDirEntry name (Z.lor S_IFDIR perm_dir).

Definition file_entry self m : DirEntry := NewDirEntry (entry_name self m) (Z.lor S_IFREG perm_file).

Definition root_Readdir s : Errno + list DirEntry :=
  match group.ListGroups s with
  | Ok groups => inr (map (fun g => dir_entry (sanitize (group.Name g))) groups)
  | _ => inl EIO
  end.

Definition group_Readdir sv s gid self : Errno + list DirEntry :=
  let '(shared, ownedPrivate) := listFiles sv s gid self in
  inr (map (file_entry self) shared ++ (if 0 <? zlen ownedPrivate then [dir_entry ".private"] else [])).

Definition private_Readdir sv s gid self : Errno + list DirEntry :=
  inr (map (file_entry self) (ownedHere sv s gid self)).

Definition Readdir sv s self (n : Inode) : Errno + list DirEntry :=
  match n with
  | rootNode => root_Readdir s
  | groupNode gid _ => group_Readdir sv s gid self
  | privateNode gid => private_Readdir sv s gid self
  | fileNode _ => inl ENOTDIR
  end.

(** The loops of the [Lookup] methods: the first match. *)
Fixpoint find_group (groups : list group.Group) name : Errno + (Inode * EntryOut) :=
  match groups with
  | [] => inl ENOENT
  | g :: groups' =>
      if negb (bool_decide (sanitize (group.Name g) = name)) then find_group groups' name
      else inr (groupNode (group.ID g) (group.Name g), NewEntryOut (Z.lor S_IFDIR perm_dir) 0)
  end.

Fixpoint find_file self (ms : list manifest.Manifest) name : Errno + (Inode * EntryOut) :=
  match ms with
  | [] => inl ENOENT
  | m :: ms' =>
      if negb (bool_decide (entry_name self m = name)) then find_file self ms' name
      else inr (fileNode m, NewEntryOut (Z.lor S_IFREG perm_file) (uint64 (manifest.Size m)))
  end.

Definition root_Lookup s name : Errno + (Inode * EntryOut) :=
  match group.ListGroups s with
  | Ok groups => find_group groups name
  | _ => inl EIO
  end.

Definition group_Lookup sv s gid self name : Errno + (Inode * EntryOut) :=
  if bool_decide (name = ".private") then
    if zlen (listFiles sv s gid self).2 =? 0 then inl ENOENT
    else inr (privateNode gid, NewEntryOut (Z.lor S_IFDIR perm_dir) 0)
  else find_file self (listFiles sv s gid self).1 name.

Definition private_Lookup sv s gid self name : Errno + (Inode * EntryOut) :=
  find_file self (ownedHere sv s gid self) name.

Definition Lookup sv s self (n : Inode) name : Errno + (Inode * EntryOut) :=
  match n with
  | rootNode => root_Lookup s name
  | groupNode gid _ => group_Lookup sv s gid self name
  | privateNode gid => private_Lookup sv s gid self name
  | fileNode _ => inl ENOTDIR
  end.

(** Looking up a path from a node. *)
Fixpoint walk sv s self (n : Inode) (path : list string) : Errno + Inode :=
  match path with
  | [] => inr n
  | name :: path' =>
      match Lookup sv s self n name with
      | inr (child, _) => walk sv s self child path'
      | inl e => inl e
      end
  end.

(** ** Attributes and contents *)

Definition Getattr (n : Inode) : AttrOut :=
  match n with
  | fileNode m =>
      let mtime := uint64 (Unix (manifest.CreatedAt m)) in
      NewAttrOut perm_file (uint64 (manifest.Size m)) mtime mtime mtime
  | _ => NewAttrOut perm_dir 0 0 0 0
  end.

(** [O_WRONLY|O_RDWR|O_APPEND|O_TRUNC] on Linux. *)
Definition write_flags : Z := Z.lor (Z.lor 1 2) (Z.lor 1024 512).

(** [fileNode.Open]; the log line of a failed open cuts the identifier. *)
Definition Open sv m (flags : Z) : M (Errno + Reader) :=
  if negb (Z.land flags write_flags =? 0) then ret (inl EROFS)
  else
    do! x := attempt (OpenReader fate clock disk range sv (manifest.FileID m)) in
    match x with
    | Ok rdr => ret (inr rdr)
    | _ => do! _ := lift (str_slice (manifest.FileID m) 0 12) in ret (inl EIO)
    end.

(** [openFile.Read] with [n = len(dst)]. *)
Definition Read sv r (n off : Z) : M (Errno + bytes) :=
  do! (data, err) := ReadAt fate clock disk sv r n off in
  match err with
  | None | Some EOF => ret (inr data)
  | Some _ => ret (inl EIO)
  end.

(** The requests of a reading application, one after the other. *)
Fixpoint reads sv r (reqs : list (Z * Z)) : M (list (Errno + bytes)) :=
  match reqs with
  | [] => ret []
  | (n, off) :: reqs' =>
      do! a := Read sv r n off in
      do! rest := reads sv r reqs' in
      ret (a :: rest)
  end.

(** [openFile.Release] drops the error of [Reader.Close], which has none. *)
Definition reader_Close r : option goerr := None.

Definition Release r : option Errno := match reader_Close r with _ => None end.

(** ** Names that fit a directory entry *)

Fixpoint has_char (c : ascii) (x : string) : bool :=
  match x with
  | EmptyString => false
  | String a x' => bool_decide (a = c) || has_char c x'
  end.

(** At most 200 bytes, not empty, no separator and no NUL. *)
Definition name_fits (x : string) : Prop :=
  x <> "" /\ (String.length x <= 200)%nat /\ has_char "/" x = false /\ has_char "000" x = false.

Lemma replace_chars_length x : String.length (replace_chars x) = String.length x.
Proof. induction x as [|c x IH]; simpl; [done|by rewrite IH]. Qed.

Lemma replace_chars_clean c x : c = "/"%char \/ c = "000"%char -> has_char c (replace_chars x) = false.
Proof.
  intros Hc. induction x as [|a x IH]; simpl; [done|]. rewrite IH, orb_false_r. apply bool_decide_eq_false_2.
  unfold mask_char. destruct Hc as [-> | ->]; repeat case_bool_decide; simpl; congruence.
Qed.

Lemma substring_clean c n x : has_char c x = false -> has_char c (String.substring 0 n x) = false.
Proof.
  revert n. induction x as [|a x IH]; intros [|n]; simpl; try done. intros [Ha Hx]%orb_false_iff.
  by rewrite Ha, IH.
Qed.

Lemma substring_length n x : (n <= String.length x)%nat -> String.length (String.substring 0 n x) = n.
Proof. revert n. induction x as [|a x IH]; intros [|n]; simpl; try lia. intros ?. by rewrite IH by lia. Qed.

Lemma sanitize_fits x : name_fits (sanitize x).
Proof.
  unfold sanitize, name_fits. case_bool_decide as Hx.
  { split_and!; [done|simpl; lia|reflexivity|reflexivity]. }
  pose proof (replace_chars_length x) as Hl.
  pose proof (replace_chars_clean "/" x (or_introl eq_refl)). pose proof (replace_chars_clean "000" x (or_intror eq_refl)).
  destruct (Nat.ltb_spec 200 (String.length (replace_chars x))).
  - assert (Hs : String.length (String.substring 0 200 (replace_chars x)) = 200%nat) by (apply substring_length; lia).
    split_and!; [intros E; rewrite E in Hs; done|lia|by apply substring_clean..].
  - split_and!; [|done..]. intros E. rewrite E in Hl. by destruct x.
Qed.

(** ** Listings *)

Lemma split_files_filter gid self all :
  (split_files gid self all).1 =
    List.filter (fun m => bool_decide (manifest.GroupID m = gid) &&
      (bool_decide (manifest.Mode m = manifest.ModeShared) || bool_decide (manifest.Mode m = ""))) all /\
  (split_files gid self all).2 =
    List.filter (fun m => bool_decide (manifest.GroupID m = gid) && bool_decide (manifest.Mode m = manifest.ModePrivate)
                   && bool_decide (manifest.OwnerPeerID m = self)) all.
Proof.
  induction all as [|m all [IH1 IH2]]; simpl; [done|]. destruct (split_files gid self all) as [sh pr]. simpl in *. subst.
  case_bool_decide; [simpl|done].
  assert (Hne : manifest.ModePrivate <> manifest.ModeShared /\ manifest.ModePrivate <> "") by (split; discriminate).
  destruct Hne as [H1' H2'].
  case_bool_decide as Hs; [rewrite (bool_decide_eq_false_2 (manifest.Mode m = manifest.ModePrivate)) by congruence; done|].
  case_bool_decide as He; [rewrite (bool_decide_eq_false_2 (manifest.Mode m = manifest.ModePrivate)) by congruence; done|].
  simpl. case_bool_decide; [|done]. simpl. by case_bool_decide.
Qed.

Lemma owned_is_private sv s gid self : (listFiles sv s gid self).2 = ownedHere sv s gid self.
Proof. unfold listFiles. apply split_files_filter. Qed.

(** The first file listed under [name]. *)
Definition named self name (ms : list manifest.Manifest) : option manifest.Manifest :=
  head (List.filter (fun m => bool_decide (entry_name self m = name)) ms).

Lemma find_file_named self ms name :
  find_file self ms name =
  match named self name ms with
  | Some m => inr (fileNode m, NewEntryOut (Z.lor S_IFREG perm_file) (uint64 (manifest.Size m)))
  | None => inl ENOENT
  end.
Proof. induction ms as [|m ms IH]; simpl; [done|]. unfold named in *. simpl. by case_bool_decide. Qed.

Lemma named_None self name ms : named self name ms = None <-> (name ∉ map (entry_name self) ms).
Proof.
  unfold named. induction ms as [|m ms IH]; simpl; [split; [intros _; apply not_elem_of_nil|done]|].
  rewrite not_elem_of_cons, <- IH. case_bool_decide as E; simpl.
  - split; [done|]. intros [Hn _]. congruence.
  - split; [by split|]. by intros [_ ?].
Qed.

Lemma named_Some self name ms m : named self name ms = Some m -> m ∈ ms /\ entry_name self m = name.
Proof.
  unfold named. intros Hh. assert (Hin : m ∈ List.filter (fun m => bool_decide (entry_name self m = name)) ms).
  { destruct (List.filter _ ms); simplify_eq/=. constructor. }
  apply list_elem_of_In, filter_In in Hin as [Hin E%bool_decide_eq_true]. by rewrite list_elem_of_In.
Qed.

(** The first entry of a listing under [name]. *)
Definition first_entry name (es : list DirEntry) : option DirEntry :=
  head (List.filter (fun e => bool_decide (de_Name e = name)) es).

Lemma first_entry_app name es es' :
  first_entry name (es ++ es') = match first_entry name es with Some e => Some e | None => first_entry name es' end.
Proof. unfold first_entry. rewrite List.filter_app. by destruct (List.filter _ es). Qed.

Lemma first_entry_files self name ms :
  first_entry name (map (file_entry self) ms) =
  (fun m => NewDirEntry name (Z.lor S_IFREG perm_file)) <$> named self name ms.
Proof.
  induction ms as [|m ms IH]; [done|]. unfold first_entry, named in *. simpl. case_bool_decide as E; [|exact IH].
  simpl. unfold file_entry. by rewrite E.
Qed.

Lemma find_group_entry groups name :
  match find_group groups name with
  | inr (child, out) => eo_Size out = at_Size (Getattr child) /\
      first_entry name (map (fun g => dir_entry (sanitize (group.Name g))) groups) = Some (NewDirEntry name (eo_Mode out))
  | inl e => e = ENOENT /\ first_entry name (map (fun g => dir_entry (sanitize (group.Name g))) groups) = None
  end.
Proof.
  induction groups as [|g groups IH]; [done|]. unfold first_entry in *. simpl. case_bool_decide as E; [|exact IH].
  simpl. unfold dir_entry. by rewrite E.
Qed.

Lemma find_file_entry self ms name rest :
  first_entry name rest = None ->
  match find_file self ms name with
  | inr (child, out) => eo_Size out = at_Size (Getattr child) /\
      first_entry name (map (file_entry self) ms ++ rest) = Some (NewDirEntry name (eo_Mode out))
  | inl e => e = ENOENT /\ first_entry name (map (file_entry self) ms ++ rest) = None
  end.
Proof.
  intros Hr. rewrite find_file_named, first_entry_app, first_entry_files. by destruct (named self name ms).
Qed.

(** [C35] Listing and lookup agree.  In every directory, a name is found by
    [Lookup] exactly if [Readdir] lists it, with the mode of the first entry of
    that name and the size [Getattr] reports; a name that is not listed gives
    [ENOENT].  The name [.private] of a group directory is the exception: it is
    the directory of the owner's private files, found exactly if there are any,
    whatever shared files are called. *)
Theorem Lookup_Readdir sv s self n name es :
  Readdir sv s self n = inr es ->
  match n with
  | groupNode gid _ => name = ".private" ->
      Lookup sv s self n name = if bool_decide (ownedHere sv s gid self = []) then inl ENOENT
        else inr (privateNode gid, NewEntryOut (Z.lor S_IFDIR perm_dir) 0)
  | _ => True
  end /\
  (match n with groupNode _ _ => name <> ".private" | _ => True end ->
   match Lookup sv s self n name with
   | inr (child, out) => eo_Size out = at_Size (Getattr child) /\
       first_entry name es = Some (NewDirEntry name (eo_Mode out))
   | inl e => e = ENOENT /\ first_entry name es = None
   end).
Proof.
  destruct n as [|gid gn|gid|m]; simpl; [..|done].
  - unfold root_Readdir, root_Lookup. destruct (group.ListGroups s) as [groups| |]; [|done..]. intros [= <-].
    split; [done|]. intros _. apply find_group_entry.
  - unfold group_Readdir, group_Lookup. rewrite <- (owned_is_private sv s gid self).
    destruct (listFiles sv s gid self) as [sh pr]. intros [= <-]. simpl. split.
    + intros ->. rewrite bool_decide_eq_true_2 by done. by destruct pr.
    + intros Hne. rewrite bool_decide_eq_false_2 by done. apply find_file_entry.
      destruct (0 <? zlen pr); [|done]. unfold first_entry. simpl. by rewrite bool_decide_eq_false_2 by congruence.
  - unfold private_Readdir, private_Lookup. intros [= <-]. split; [done|]. intros _.
    rewrite <- (app_nil_r (map _ _)). by apply find_file_entry.
Qed.

(** [C36] Every name the file system lists is a valid directory entry: not
    empty, at most 200 bytes, without a separator or NUL, whatever names and
    identifiers the manifests and groups of other members carry. *)
Theorem entries_fit sv s self n es :
  Readdir sv s self n = inr es -> Forall (fun e => name_fits (de_Name e)) es.
Proof.
  assert (HF : forall ms, Forall (fun e => name_fits (de_Name e)) (map (file_entry self) ms)).
  { intros ms. apply Forall_fmap, Forall_true. intros m. apply sanitize_fits. }
  destruct n as [|gid gn|gid|m]; simpl; [..|done].
  - unfold root_Readdir. destruct (group.ListGroups s) as [groups| |]; [|done..]. intros [= <-].
    apply Forall_fmap, Forall_true. intros g. apply sanitize_fits.
  - unfold group_Readdir. destruct (listFiles sv s gid self) as [sh pr]. intros [= <-]. apply Forall_app. split; [done|].
    destruct (0 <? zlen pr); [|done]. constructor; [|done]. split_and!; [done|simpl; lia|reflexivity|reflexivity].
  - intros [= <-]. apply HF.
Qed.

(** ** What can be reached *)

Definition shared_mode m : Prop := manifest.Mode m = manifest.ModeShared \/ manifest.Mode m = "".

Definition owned_private self m : Prop := manifest.Mode m = manifest.ModePrivate /\ manifest.OwnerPeerID m = self.

Lemma elem_shared sv s gid self m :
  m ∈ (listFiles sv s gid self).1 -> m ∈ files_of sv s /\ manifest.GroupID m = gid /\ shared_mode m.
Proof.
  unfold listFiles. rewrite (proj1 (split_files_filter _ _ _)), list_elem_of_In, filter_In, <- list_elem_of_In.
  intros [Hin Hc]. go_bool. split_and!; [done..|]. unfold shared_mode.
  match goal with E : _ \/ _ |- _ => destruct E as [E|E]; apply bool_decide_eq_true in E; auto end.
Qed.

Lemma elem_owned sv s gid self m :
  m ∈ ownedHere sv s gid self <-> m ∈ files_of sv s /\ manifest.GroupID m = gid /\ owned_private self m.
Proof.
  unfold ownedHere, owned_private. rewrite list_elem_of_In, filter_In, <- list_elem_of_In. split.
  - intros [Hin Hc]. go_bool. by split_and!.
  - intros (Hin & ? & ? & ?). split; [done|]. by rewrite !bool_decide_eq_true_2.
Qed.

Lemma find_file_Some self ms name child out :
  find_file self ms name = inr (child, out) -> exists m, child = fileNode m /\ m ∈ ms /\ entry_name self m = name.
Proof.
  rewrite find_file_named. destruct (named self name ms) as [m|] eqn:Hn; [|done]. intros [= <- <-].
  apply named_Some in Hn as [? ?]. eauto.
Qed.

Lemma find_group_Some groups name child out :
  find_group groups name = inr (child, out) ->
  exists g, child = groupNode (group.ID g) (group.Name g) /\ g ∈ groups /\ sanitize (group.Name g) = name.
Proof.
  induction groups as [|g groups IH]; simpl; [done|]. case_bool_decide as E; simpl.
  - intros [= <- <-]. exists g. split_and!; [done|constructor|done].
  - intros (g' & ? & ? & ?)%IH. exists g'. split_and!; [done|by constructor|done].
Qed.

Lemma walk_file sv s self m path m' : walk sv s self (fileNode m) path = inr (fileNode m') -> path = [] /\ m' = m.
Proof. destruct path as [|name path]; simpl; [intros [= ->]; done|done]. Qed.

(** [C33] What the mount shows.  A path that leads to a file is
    [<group>/<name>] to a shared file of that group, or
    [<group>/.private/<name>] to a private file of that group whose owner is
    this node: private files of other members, and files of groups this node
    does not belong to, cannot be reached. *)
Theorem walk_visible sv s self path m :
  walk sv s self rootNode path = inr (fileNode m) ->
  m ∈ files_of sv s /\
  exists g groups, group.ListGroups s = Ok groups /\ g ∈ groups /\ manifest.GroupID m = group.ID g /\
    (shared_mode m /\ path = [sanitize (group.Name g); entry_name self m] \/
     owned_private self m /\ path = [sanitize (group.Name g); ".private"; entry_name self m]).
Proof.
  destruct path as [|gname path]; [done|]. simpl. unfold root_Lookup. destruct (group.ListGroups s) as [groups| |] eqn:HG; [|done..].
  destruct (find_group groups gname) as [|[child out]] eqn:Hf; [done|].
  destruct (find_group_Some _ _ _ _ Hf) as (g & -> & Hg & Hname). destruct path as [|name path]; [done|]. simpl.
  unfold group_Lookup. case_bool_decide as Hp.
  - destruct (_ =? 0); [done|]. destruct path as [|name' path]; [done|]. simpl. unfold private_Lookup.
    destruct (find_file self _ name') as [|[child' out']] eqn:Hff; [done|].
    destruct (find_file_Some _ _ _ _ _ Hff) as (m0 & -> & Hm & Hn). intros [-> ->]%walk_file.
    apply elem_owned in Hm as (? & ? & ?). split; [done|]. exists g, groups. split_and!; [done..|]. right. by subst.
  - destruct (find_file self _ name) as [|[child' out']] eqn:Hff; [done|].
    destruct (find_file_Some _ _ _ _ _ Hff) as (m0 & -> & Hm & Hn). intros [-> ->]%walk_file.
    apply elem_shared in Hm as (? & ? & ?). split; [done|]. exists g, groups. split_and!; [done..|]. left. by subst.
Qed.

(** ** Private names *)

Lemma elem_files_of sv s m f : manifest.Get s f = Ok m -> enrich sv s m ∈ files_of sv s.
Proof.
  intros Hg. unfold files_of, List. destruct (manifest.List s) as [ms| |] eqn:HL; [|by rewrite manifest.List_scan in HL..].
  simpl. apply list_elem_of_fmap_2. apply (manifest.elem_of_List s ms m HL). eauto.
Qed.

(** The owner sees a private file by its name.  Its manifest carries
    the name encrypted; once [Put] has saved the plain name beside it, the group's
    [.private] directory lists the file under that name (made fit for a
    directory); before, it lists it under the first twelve digits of the
    identifier. *)
Theorem private_name_listed sv s s' m name f :
  manifest.Get s f = Ok m -> manifest.FileID m = f -> owned_private (peer_String (file.self sv)) m ->
  manifest.FilenameEncrypted m = true -> name <> "" -> text_ok name = true ->
  savePrivateName s f name = (s', Ok tt) ->
  exists es, Readdir sv s' (peer_String (file.self sv)) (privateNode (manifest.GroupID m)) = inr es /\
    NewDirEntry (sanitize name) (Z.lor S_IFREG perm_file) ∈ es /\
    (loadPrivateName s f = None -> exists es0,
       Readdir sv s (peer_String (file.self sv)) (privateNode (manifest.GroupID m)) = inr es0 /\
       NewDirEntry (sanitize (shortID m +:+ ".bin")) (Z.lor S_IFREG perm_file) ∈ es0).
Proof.
  intros Hg Hf [Hm Ho] He Hne Hok HS. eexists. split; [reflexivity|].
  assert (Hl : loadPrivateName s' f = Some name).
  { unfold savePrivateName in HS. rewrite bool_decide_eq_false_2 in HS by done.
    destruct (Marshal_total (A := string) name) as [raw Hraw]. rewrite Hraw in HS. unfold loadPrivateName.
    rewrite store.Get_spec, (store.Put_Ok _ _ _ _ HS), lookup_insert_eq.
    by rewrite (Unmarshal_Marshal name raw Hok Hraw). }
  assert (Hen : enrich sv s' m = set_plain m name).
  { unfold enrich. rewrite !bool_decide_eq_true_2, He by done. simpl. by rewrite Hf, Hl. }
  split.
  - apply list_elem_of_fmap. exists (set_plain m name). split.
    + unfold file_entry, entry_name, visibleName. simpl. rewrite andb_false_r. by rewrite bool_decide_eq_false_2.
    + apply elem_owned. rewrite <- Hen at 1. split; [|by split].
      apply (elem_files_of sv s' m f). by rewrite (savePrivateName_keeps _ _ _ _ _ _ HS).
  - intros Hnone. eexists. split; [reflexivity|]. apply list_elem_of_fmap. exists m. split.
    + unfold file_entry, entry_name, visibleName. by rewrite !bool_decide_eq_true_2, He by done.
    + apply elem_owned. split; [|by split]. replace m with (enrich sv s m); [by apply (elem_files_of sv s m f)|].
      unfold enrich. rewrite Hf, Hnone. by destruct (_ && _).
Qed.

(** ** Reading *)

Definition request_ok (req : Z * Z) : Prop := 0 <= req.1 /\ 0 <= req.2 /\ req.1 + req.2 < 2 ^ 63.

(** What a request for [n] bytes at [off] of [content] should get. *)
Definition answer (content : bytes) (req : Z * Z) : Errno + bytes :=
  inr (take (Z.to_nat req.1) (drop (Z.to_nat req.2) content)).

Lemma reads_spec sv r content D reqs : forall st,
  ready sv r content D st -> reachable fate sv (r_m r) D -> Forall request_ok reqs ->
  exists st', reads sv r reqs st = (st', Ok (map (answer content) reqs)) /\ ready sv r content D st'.
Proof.
  induction reqs as [|[n off] reqs IH]; intros st Hr Hx Hok; [by exists st|].
  apply Forall_cons in Hok as [(Hn & Ho & Hb) Hok]. simpl in Hn, Ho, Hb.
  destruct (ReadAt_spec fate clock disk sv r content D n off st Hr Ho Hn ltac:(lia)) as (st1 & k & err & E & Hr1 & Hre).
  destruct (Hre Hx) as [E1 E2]. rewrite E1 in E.
  destruct (IH st1 Hr1 Hx Hok) as (st2 & E3 & Hr2). exists st2. split; [|done].
  cbn [reads]. unfold bind at 1, Read, bind at 1. rewrite E, E2.
  assert (HR : forall b : bool, (match (if b then Some EOF else None) with
      | None | Some EOF => ret (inr (take (Z.to_nat n) (drop (Z.to_nat off) content)))
      | Some _ => ret (inl EIO) end : M (Errno + bytes)) = ret (answer content (n, off))) by (by intros []).
  rewrite HR. unfold ret at 1, bind. by rewrite E3.
Qed.

(** [C34] Reading through the mount reads the file.  When the node has the
    manifest and the group's record at hand and reaches [k] settled holders of the
    file ([can_download]), the file key opens and the shards hold the file, then
    opening its node for reading succeeds, and every sequence of reads of the open
    file - any offsets and lengths, in any order, overlapping or past the end - is
    answered with exactly the bytes of the file in those ranges. *)
Theorem mount_reads_file sv m0 m g key content st flags reqs :
  manifest.FileID m0 = manifest.FileID m -> Z.land flags write_flags = 0 ->
  can_download fate sv m g content st -> unwrapForMode sv m g = Ok key ->
  holds_file (node.disks (world st)) m key content -> Forall request_ok reqs ->
  exists st1 r st2, Open sv m0 flags st = (st1, Ok (inr r)) /\
    reads sv r reqs st1 = (st2, Ok (map (answer content) reqs)).
Proof.
  intros Hid Hfl Hcan Hk HF Hreq.
  destruct (open_ready fate clock disk range sv m g key content st Hcan Hk HF) as (st1 & E1 & Hready & Hreach).
  set (r := NewReader _ _ _ _) in *. destruct (reads_spec sv r content _ reqs st1 Hready Hreach Hreq) as (st2 & E2 & _).
  exists st1, r, st2. split; [|done]. unfold Open. rewrite Hfl, Hid. cbn [Z.eqb negb]. unfold bind, attempt. by rewrite E1.
Qed.

End with_libraries.

(** ** Mounting

    go-fuse attaches the tree to the mount point and serves it; [fs_Mount] is what
    its [fs.Mount] answers, [Unmount] the method of the server it returns. *)

Record MountOptions := NewMountOptions { mo_Name : string; mo_FsName : string; mo_AllowOther : bool; mo_DisableXAttrs : bool }.
Record fs_Options := NewOptions { fo_Mount : MountOptions; fo_EntryTimeout : Z; fo_AttrTimeout : Z }.

Definition second : Z := 1000000000.

(** The options of [Mount], with and without [allow_other]. *)
Definition mount_options (allowOther : bool) : fs_Options :=
  NewOptions (NewMountOptions "fnshare" "fnshare" allowOther true) (2 * second) (2 * second).

Section mounting.
Context {server : Type} (fs_Mount : path -> Inode -> fs_Options -> outcome server) (Unmount : server -> outcome unit).

Record Mounted := NewMounted { mt_mountpoint : path; mt_server : option server; mt_warned : bool }.

Definition Mount (f : fs) (mountpoint : path) : fs * outcome Mounted :=
  match MkdirAll f mountpoint with
  | (f', Err e) => (f', Err (ErrWrap "mkdir mountpoint: " e))
  | (f', Panic) => (f', Panic)
  | (f', Ok _) =>
      (f', match fs_Mount mountpoint rootNode (mount_options true) with
           | Ok srv => Ok (NewMounted mountpoint (Some srv) false)
           | Panic => Panic
           | Err _ =>
               match fs_Mount mountpoint rootNode (mount_options false) with
               | Ok srv => Ok (NewMounted mountpoint (Some srv) true)
               | Err e => Err (ErrWrap "fuse mount: " e)
               | Panic => Panic
               end
           end)
  end.

(** [Stop] of a service that may be nil. *)
Definition Stop (s : option Mounted) : outcome unit :=
  match s with
  | None => Ok tt
  | Some s => match mt_server s with None => Ok tt | Some srv => owrap "unmount: " (Unmount srv) end
  end.

(** Mounting leaves every file as it is.  A mount that succeeds serves the root of
    the tree, to every user of the host if the host allows that, else to the
    daemon's own with a warning; stopping it unmounts exactly what was mounted. *)
Theorem Mount_serves f mountpoint f' s :
  Mount f mountpoint = (f', Ok s) ->
  (forall q, file_at f' q = file_at f q) /\
  exists srv, mt_server s = Some srv /\ Stop (Some s) = owrap "unmount: " (Unmount srv) /\
    fs_Mount mountpoint rootNode (mount_options (negb (mt_warned s))) = Ok srv /\
    (mt_warned s = true -> exists e, fs_Mount mountpoint rootNode (mount_options true) = Err e).
Proof.
  unfold Mount. destruct (MkdirAll f mountpoint) as [f1 r] eqn:EM.
  assert (Hf : forall q, file_at f1 q = file_at f q) by (intros q; by eapply mkdirs_files).
  destruct r as [u|e|]; [|done..]. destruct (fs_Mount _ _ (mount_options true)) as [srv|e|] eqn:E1; [| |done].
  - intros [= <- <-]. split; [done|]. exists srv. by split_and!.
  - destruct (fs_Mount _ _ (mount_options false)) as [srv|e'|] eqn:E2; [|done..]. intros [= <- <-]. split; [done|].
    exists srv. split_and!; [done..|]. by exists e.
Qed.

End mounting.

(** ** Witnesses: Alice's mount after the upload of [Scenario] *)

Import scenario.

Definition mount_store : db (Badger := mem_badger) := default member_store (local_store alice after).

Definition group_listing : list DirEntry := [NewDirEntry "hello.txt" (Z.lor S_IFREG perm_file)].

Lemma Lookup_Readdir_witness :
  match Lookup alice mount_store "12DA" (groupNode gid "g") "hello.txt" with
  | inr (child, out) => eo_Size out = at_Size (Getattr child) /\
      first_entry "hello.txt" group_listing = Some (NewDirEntry "hello.txt" (eo_Mode out))
  | inl e => e = ENOENT /\ first_entry "hello.txt" group_listing = None
  end.
Proof.
  assert (E : Readdir alice mount_store "12DA" (groupNode gid "g") = inr group_listing) by (vm_compute; reflexivity).
  destruct (Lookup_Readdir alice mount_store "12DA" (groupNode gid "g") "hello.txt" group_listing E) as [_ HL].
  apply HL. discriminate.
Defined.

Lemma entries_fit_witness : Forall (fun e => name_fits (de_Name e)) group_listing.
Proof. apply (entries_fit alice mount_store "12DA" (groupNode gid "g")). vm_compute. reflexivity. Defined.

(** A name of another member's choosing. *)
Example hostile_name : sanitize "../../etc/passwd" = ".._.._etc_passwd".
Proof. reflexivity. Qed.

Lemma walk_visible_witness :
  exists g groups, group.ListGroups mount_store = Ok groups /\ g ∈ groups /\
    (shared_mode (manifest.manifest_norm the_manifest) /\
       [sanitize (group.Name the_group); "hello.txt"] = [sanitize (group.Name g); entry_name "12DA" (manifest.manifest_norm the_manifest)] \/
     owned_private "12DA" (manifest.manifest_norm the_manifest) /\
       [sanitize (group.Name the_group); "hello.txt"] =
       [sanitize (group.Name g); ".private"; entry_name "12DA" (manifest.manifest_norm the_manifest)]).
Proof.
  destruct (walk_visible alice mount_store "12DA" [sanitize (group.Name the_group); "hello.txt"]
    (manifest.manifest_norm the_manifest)) as (_ & g & groups & E1 & E2 & _ & E3).
  - vm_compute. reflexivity.
  - exists g, groups. split; [exact E1|]. split; [exact E2|exact E3].
Defined.

Definition secret : manifest.Manifest :=
  manifest.NewManifest "0123456789abcdef" gid "c2VhbGVk" 1 2 1 4 [] [] 0 "12DA" manifest.ModePrivate [] true.

Definition secret_store : db (Badger := mem_badger) := (manifest.Put member_store secret).1.

Lemma private_name_listed_witness :
  exists es, Readdir alice (savePrivateName secret_store "0123456789abcdef" "diary/1.txt").1 "12DA" (privateNode gid) = inr es /\
    NewDirEntry "diary_1.txt" (Z.lor S_IFREG perm_file) ∈ es.
Proof.
  destruct (private_name_listed alice secret_store (savePrivateName secret_store "0123456789abcdef" "diary/1.txt").1
    secret "diary/1.txt" "0123456789abcdef") as (es & E1 & E2 & _).
  - vm_compute. reflexivity.
  - reflexivity.
  - split; reflexivity.
  - reflexivity.
  - discriminate.
  - reflexivity.
  - etrans; [apply surjective_pairing|]. apply (f_equal (pair _)). vm_compute. reflexivity.
  - exists es. split; [exact E1|exact E2].
Defined.

Lemma mount_reads_file_witness :
  exists st1 r st2, Open bob_down node.sample_clock node.sample_disk members_range alice the_manifest 0 after = (st1, Ok (inr r)) /\
    reads bob_down node.sample_clock node.sample_disk alice r [(2, 4); (100, 0); (1, 9)] st1 =
    (st2, Ok [inr [Byte.x6f; Byte.x21]; inr text; inr []]).
Proof.
  apply (mount_reads_file bob_down node.sample_clock node.sample_disk members_range alice the_manifest the_manifest
    the_group file_key text after 0 [(2, 4); (100, 0); (1, 9)] eq_refl eq_refl after_can_download).
  - vm_compute. reflexivity.
  - exact shelf_holds.
  - repeat (constructor; [unfold request_ok; simpl; lia|]). constructor.
Defined.

End fuse.
