(* ===== verification/Heartbeat.v ===== *)
(** * internal/heartbeat/heartbeat.go: probing the members

    A scan starts one goroutine per member, at most eight at a time, and waits
    for all of them.  A goroutine pings, then calls [RecordPing] (one step: the
    ledger's mutex) and reports a change of state.  The scheduler decides the
    order; the steps are a relation, and what holds of every run is proved. *)

From S2P Require Import Prelude Ext Concrete Store Ledger Group.

Module heartbeat.

Section with_libraries.
Context `{Badger, !ledger.EntryCbor, !group.MemberCbor, PeerIDs}.
(** Go's order of ranging over a map, the outcome of a ping in this round, the
    two clock readings of its [RecordPing]. *)
Context (range : gmap string group.Member -> list (string * group.Member)).
Context (ping : pid -> bool) (clock clock' : string -> Z).
Implicit Types (s : db) (l : ledger.dirty_map) (p : string).

(** The calls of [OnTransition]. *)
Abbreviation Event := (string * bool)%type.

Definition maxParallel : nat := 8.

(** The loop of [scan]: the members it starts a goroutine for. *)
Definition target (self : string) (m : group.Member) : option (pid * string) :=
  if bool_decide (group.PeerID m = self) then None
  else match peer_Decode (group.PeerID m) with
       | None => None
       | Some q => Some (q, group.PeerID m)
       end.

Definition targets (self : string) s : list (pid * string) :=
  match group.AllMembersAcrossGroups range s with
  | Ok members => omap (target self) members
  | _ => []
  end.

(** What a goroutine does once its ping has returned. *)
Definition finish s l (t : pid * string) : ledger.dirty_map * list Event :=
  let '(l', result) := ledger.RecordPing s l t.2 (ping t.1) (clock t.2) (clock' t.2) in
  (l', if ledger.WentOffline result then [(t.2, true)]
       else if ledger.WentOnline result then [(t.2, false)]
       else []).

(** The loop's remaining members, the running goroutines, the ledger, the
    callbacks made so far. *)
Record State := NewState {
  todo : list (pid * string);
  running : list (pid * string);
  led : ledger.dirty_map;
  called : list Event
}.

Inductive step s : State -> State -> Prop :=
  | step_start t ts rs l ev :
      (length rs < maxParallel)%nat ->
      step s (NewState (t :: ts) rs l ev) (NewState ts (t :: rs) l ev)
  | step_finish t rs1 rs2 ts l ev l' ev' :
      finish s l t = (l', ev') ->
      step s (NewState ts (rs1 ++ t :: rs2) l ev) (NewState ts (rs1 ++ rs2) l' (ev ++ ev')).

(** [wg.Wait()] has returned. *)
Definition finished (st : State) : Prop := todo st = [] /\ running st = [].

Definition start_state (self : string) s l : State := NewState (targets self s) [] l [].

(** One schedule: the goroutines one after the other. *)
Fixpoint run_seq s l (ts : list (pid * string)) : ledger.dirty_map * list Event :=
  match ts with
  | [] => (l, [])
  | t :: ts' =>
      let '(l1, ev1) := finish s l t in
      let '(l2, ev2) := run_seq s l1 ts' in (l2, ev1 ++ ev2)
  end.

(** ** What a round does to the ledger *)

(** The entry of [p] after its probe, and the callback the probe causes. *)
Definition probed s l (t : pid * string) : ledger.Entry :=
  ledger.probe (ledger.touchLocked s l t.2 (clock t.2)) (ping t.1) (clock' t.2).

Definition calls s l (t : pid * string) : list Event := (finish s l t).2.

Lemma finish_ledger s l t : (finish s l t).1 = <[t.2 := probed s l t]> l.
Proof. done. Qed.

Lemma finish_local s l l' t : l !! t.2 = l' !! t.2 -> probed s l t = probed s l' t /\ calls s l t = calls s l' t.
Proof.
  intros E. unfold probed, calls, finish, ledger.RecordPing, ledger.touchLocked. by rewrite E.
Qed.

(** What is known of a state [st] reached from ledger [l0] with the goroutines
    [done] finished. *)
Record reached s l0 (ts : list (pid * string)) (st : State) : Prop := {
  re_par : (length (running st) <= maxParallel)%nat;
  re_done : exists dn, (todo st ++ running st) ++ dn ≡ₚ ts /\
    (forall p, led st !! p = match list_find (fun t : pid * string => t.2 = p) dn with
                             | Some (_, t) => Some (probed s l0 t) | None => l0 !! p end) /\
    called st ≡ₚ concat (map (calls s l0) dn)
}.

Lemma reached_step s l0 ts st st' : NoDup (map snd ts) -> reached s l0 ts st -> step s st st' -> reached s l0 ts st'.
Proof.
  intros Hnd [Hpar (dn & Hperm & Hled & Hcall)] Hst. destruct Hst as [t todo' rs l ev Hlt|t rs1 rs2 todo' l ev l' ev' Hf]; simpl in *.
  - split; simpl; [lia|]. exists dn. split_and!; [|done..]. rewrite <- Hperm. solve_Permutation.
  - rewrite length_app in Hpar. simpl in Hpar. split; simpl; [rewrite length_app; lia|].
    assert (Hperm' : (todo' ++ rs1 ++ rs2) ++ t :: dn ≡ₚ ts) by (rewrite <- Hperm; solve_Permutation).
    assert (Hnin : l !! t.2 = l0 !! t.2).
    { rewrite Hled. destruct (list_find _ dn) as [[i t']|] eqn:Hfi; [|done]. exfalso.
      apply list_find_Some in Hfi as (Hi & Ht & _). apply list_elem_of_lookup_2 in Hi.
      rewrite <- Hperm', map_app, NoDup_app in Hnd. destruct Hnd as (_ & _ & Hnd). simpl in Hnd.
      apply NoDup_cons in Hnd as [Hnd _]. apply Hnd. rewrite <- Ht. by apply (list_elem_of_fmap_2 snd). }
    destruct (finish_local s l l0 t Hnin) as [Ep Ec]. pose proof (finish_ledger s l t) as El.
    unfold calls in Ec. rewrite Hf in El, Ec. simpl in El, Ec. subst l' ev'.
    exists (t :: dn). split_and!; [done| |].
    + intros p. simpl. case_decide as E; [subst p; by rewrite lookup_insert_eq, Ep|]. rewrite lookup_insert_ne by done.
      rewrite Hled. by destruct (list_find _ dn) as [[i t']|].
    + simpl. rewrite Hcall. unfold calls at 3. solve_Permutation.
Qed.

Hypothesis range_spec : forall m, range m ≡ₚ map_to_list m.

Lemma targets_NoDup self s : NoDup (map snd (targets self s)).
Proof.
  unfold targets. destruct (group.AllMembers_spec range s range_spec) as (ms & -> & Hnd & _).
  induction ms as [|m ms IH]; [constructor|]. simpl in Hnd. apply NoDup_cons in Hnd as [Hm Hnd].
  cbn [omap list_omap]. unfold target at 1. case_bool_decide; [by apply IH|].
  destruct (peer_Decode (group.PeerID m)) as [q|]; [|by apply IH]. simpl. constructor; [|by apply IH].
  intros (t & Et & (m' & Hin & Ht)%list_elem_of_omap)%list_elem_of_fmap. apply Hm. apply list_elem_of_fmap. exists m'.
  split; [|done]. unfold target in Ht. case_bool_decide; [done|]. destruct (peer_Decode (group.PeerID m')); [|done].
  injection Ht as <-. done.
Qed.

Lemma NoDup_snd_inj {A B} (l : list (A * B)) x y : NoDup (map snd l) -> x ∈ l -> y ∈ l -> x.2 = y.2 -> x = y.
Proof.
  induction l as [|z l IH]; intros Hnd Hx Hy E; [by apply elem_of_nil in Hx|]. simpl in Hnd.
  apply NoDup_cons in Hnd as [Hz Hnd]. apply elem_of_cons in Hx as [-> |Hx], Hy as [-> |Hy]; [done| | |by apply IH].
  - exfalso. apply Hz. rewrite E. by apply (list_elem_of_fmap_2 snd).
  - exfalso. apply Hz. rewrite <- E. by apply (list_elem_of_fmap_2 snd).
Qed.

Lemma reached_start self s l : reached s l (targets self s) (start_state self s l).
Proof.
  split; simpl; [lia|]. exists []. rewrite !app_nil_r. split_and!; [done|done|constructor].
Qed.

Lemma reached_all self s l st : rtc (step s) (start_state self s l) st -> reached s l (targets self s) st.
Proof.
  intros Hr. pose proof (reached_start self s l) as Hs. induction Hr as [|x y z Hxy _ IH]; [done|].
  apply IH. eapply reached_step; [apply targets_NoDup|done|done].
Qed.

(** [C15] A round probes every member once, whatever the schedule.  When a scan
    has finished, each member of each group that is not this node and has a
    decodable identifier has had exactly one [RecordPing] with its own ping's
    outcome, applied to its entry before the round; no other entry has changed;
    and the callbacks are exactly the transitions those probes reported.  The
    order in which the goroutines ran does not show in the ledger. *)
Theorem scan_exact self s l st :
  rtc (step s) (start_state self s l) st -> finished st ->
  (forall gid q m (p : pid), group.GetMember s gid q = Ok m -> group.PeerID m <> self -> peer_Decode (group.PeerID m) = Some p ->
     exists t, t ∈ targets self s /\ t.2 = group.PeerID m /\ t.1 = p) /\
  (forall t, t ∈ targets self s -> led st !! t.2 = Some (probed s l t)) /\
  (forall p, p ∉ map snd (targets self s) -> led st !! p = l !! p) /\
  called st ≡ₚ concat (map (calls s l) (targets self s)).
Proof.
  intros Hr [Ht Hn]. pose proof (targets_NoDup self s) as Hnd.
  destruct (reached_all _ _ _ _ Hr) as [_ (dn & Hperm & Hled & Hcall)]. rewrite Ht, Hn in Hperm. simpl in Hperm.
  split_and!.
  - intros gid q m p Hm Hself Hp. unfold targets.
    destruct (group.AllMembers_spec range s range_spec) as (ms & -> & _ & _ & Hall).
    destruct (proj1 (list_elem_of_fmap _ _ _) (Hall gid q m Hm)) as (m' & E & Hin). exists (p, group.PeerID m).
    split; [|done]. apply list_elem_of_omap. exists m'. split; [done|]. unfold target. rewrite <- E.
    by rewrite bool_decide_eq_false_2, Hp by done.
  - intros t Hin. rewrite Hled. rewrite <- Hperm in Hin, Hnd. destruct (list_find _ dn) as [[i t']|] eqn:Hf.
    + apply list_find_Some in Hf as (Hi & E & _). apply list_elem_of_lookup_2 in Hi. do 2 f_equal.
      by eapply NoDup_snd_inj.
    + apply list_find_None in Hf. rewrite Forall_forall in Hf. by destruct (Hf t Hin).
  - intros p Hp. rewrite Hled. destruct (list_find _ dn) as [[i t']|] eqn:Hf; [|done]. exfalso. apply Hp.
    apply list_find_Some in Hf as (Hi & E & _). apply list_elem_of_lookup_2 in Hi. rewrite <- E.
    apply (list_elem_of_fmap_2 snd). by rewrite <- Hperm.
  - rewrite Hcall. by rewrite Hperm.
Qed.

(** A round is bounded.  At every moment of a scan at most eight probes run;
    unless it has finished the scan can go on; and it finishes after exactly two
    steps per member probed - started once, finished once. *)
Theorem scan_bounded self s l n st :
  nsteps (step s) n (start_state self s l) st ->
  (length (running st) <= maxParallel)%nat /\
  (n <= 2 * length (targets self s))%nat /\
  (finished st <-> n = (2 * length (targets self s))%nat) /\
  (finished st \/ exists st', step s st st').
Proof.
  intros Hn. pose proof (reached_all self s l st (rtc_nsteps_2 _ _ _ Hn)) as [Hpar _].
  assert (Hm : forall m x y, nsteps (step s) m x y ->
    (2 * length (todo x) + length (running x) = m + (2 * length (todo y) + length (running y)))%nat).
  { clear. induction 1 as [|m x y z Hs _ IH]; [lia|].
    destruct Hs as [t ts rs l ev Hl|t rs1 rs2 ts l ev l' ev' Hf]; simpl in *; rewrite ?length_app in *; simpl in *; lia. }
  apply Hm in Hn. simpl in Hn. destruct st as [td rs l' ev]. unfold finished. simpl in *. split_and!; [lia|lia| |].
  - split; [intros [-> ->]; simpl in Hn; lia|]. intros ->. destruct td, rs; simpl in Hn; (done || lia).
  - destruct td as [|t td], rs as [|r rs]; [by left| | |].
    + right. destruct (finish s l' r) as [l2 ev2] eqn:E. eexists. by apply (step_finish s r []).
    + right. eexists. apply step_start. simpl. unfold maxParallel. lia.
    + right. destruct (finish s l' r) as [l2 ev2] eqn:E. eexists. by apply (step_finish s r []).
Qed.

End with_libraries.

(** ** Witnesses *)

Definition member_store : db (Badger := mem_badger) :=
  foldl (fun s p => (group.PutMember s "g" (group.sample_member p [])).1) store.empty ["12DA"; "12DB"; "12DC"].

Definition all_answer (p : pid (PeerIDs := toy_peers)) : bool := true.
Definition noon (p : string) : Z := 1700000000000000000.

Definition round := run_seq all_answer noon noon member_store ∅ (targets map_to_list "12DA" member_store).

Definition at_end : State := NewState [] [] round.1 round.2.

Lemma round_runs : nsteps (step all_answer noon noon member_store) 4 (start_state map_to_list "12DA" member_store ∅) at_end.
Proof.
  assert (E : exists a b, targets map_to_list "12DA" member_store = [a; b] /\ at_end =
    NewState [] [] (finish all_answer noon noon member_store (finish all_answer noon noon member_store ∅ a).1 b).1
      (([] ++ (finish all_answer noon noon member_store ∅ a).2) ++
       (finish all_answer noon noon member_store (finish all_answer noon noon member_store ∅ a).1 b).2)).
  { unfold at_end, round. destruct (targets _ _ _) as [|a [|b [|c ts]]] eqn:Et; [vm_compute in Et; discriminate Et..| |vm_compute in Et; discriminate Et].
    exists a, b. split; [done|]. cbn [run_seq].
    destruct (finish all_answer noon noon member_store ∅ a) as [l1 e1]. cbn [fst snd].
    destruct (finish all_answer noon noon member_store l1 b) as [l2 e2]. cbn [fst snd]. by rewrite app_nil_r. }
  destruct E as (a & b & Et & ->). unfold start_state. rewrite Et.
  eapply nsteps_l; [apply step_start; simpl; unfold maxParallel; lia|].
  eapply nsteps_l; [apply (step_finish _ _ _ _ a [] []); apply surjective_pairing|].
  eapply nsteps_l; [apply step_start; simpl; unfold maxParallel; lia|].
  eapply nsteps_l; [apply (step_finish _ _ _ _ b [] []); apply surjective_pairing|].
  apply nsteps_O.
Qed.
Lemma range_is_map (m : gmap string group.Member) : map_to_list m ≡ₚ map_to_list m.
Proof. done. Qed.

Lemma scan_exact_witness :
  called at_end ≡ₚ concat (map (calls all_answer noon noon member_store ∅) (targets map_to_list "12DA" member_store)) /\
  led at_end !! "12DA" = None.
Proof.
  destruct (scan_exact map_to_list all_answer noon noon range_is_map "12DA" member_store ∅ at_end) as (_ & _ & H3 & H4).
  - exact (rtc_nsteps_2 _ _ _ round_runs).
  - split; reflexivity.
  - split; [exact H4|]. rewrite H3; [reflexivity|]. apply (bool_decide_unpack _). vm_compute. exact I.
Defined.

Lemma scan_bounded_witness : finished at_end <-> 4%nat = (2 * length (targets map_to_list "12DA" member_store))%nat.
Proof.
  destruct (scan_bounded map_to_list all_answer noon noon range_is_map "12DA" member_store ∅ 4 at_end round_runs)
    as (_ & _ & H3 & _). exact H3.
Defined.

End heartbeat.
