(* ===== verification/Invite.v ===== *)
(** * internal/invite/invite.go: signed invitations and their links *)

From S2P Require Import Prelude Ext Concrete Store Crypto Base64 Url Group.

Module invite.

Record Invite := NewInvite {
  GroupID : string;
  GroupName : string;
  GroupAdminPub : bytes;
  GroupSharedKey : bytes;
  BootstrapPeers : list string;
  Nonce : bytes;
  IssuedAt : Z;
  ExpiresAt : Z;
  QuotaCap : Z;
  Signature : bytes
}.

#[global] Instance Invite_eq_dec : EqDecision Invite.
Proof. solve_decision. Defined.

Implicit Types i : Invite.

(** [payload{...}]: the invite without its signature.  The struct has the keys of
    the one [group.verifyInviteSignature] decodes into. *)
Definition payload i : group.signedPayload :=
  group.NewPayload (GroupID i) (GroupName i) (GroupAdminPub i) (GroupSharedKey i) (BootstrapPeers i) (Nonce i)
    (IssuedAt i) (ExpiresAt i) (QuotaCap i).

Definition invite_ok i : bool := group.payload_ok (payload i).

Abbreviation InviteCbor := (Cbor Invite invite_ok id).

Definition Scheme : string := "fnshare".

Section with_libraries.
Context `{!group.PayloadCbor, Ed25519}.

Definition signedBytes i : outcome bytes := Marshal (payload i).

Definition set_Signature i (sig : bytes) : Invite :=
  NewInvite (GroupID i) (GroupName i) (GroupAdminPub i) (GroupSharedKey i) (BootstrapPeers i) (Nonce i)
    (IssuedAt i) (ExpiresAt i) (QuotaCap i) sig.

(** [Create]; [now] and [ttl] in nanoseconds. *)
Definition Create (rng : bytes) (g : group.Group) (bootstrap : list string) (ttl quotaCap now : Z) :
    bytes * outcome Invite :=
  if negb (zlen (group.AdminPriv g) =? 64) then (rng, Err (ErrMsg "only the admin node can create invites"))
  else
    match rand_Read rng 16 with
    | (rng', Ok nonce) =>
        let inv := NewInvite (group.ID g) (group.Name g) (group.AdminPub g) (group.SharedKey g) bootstrap nonce
          (Unix now) (Unix (now + ttl)) quotaCap [] in
        (rng', let! body := signedBytes inv in Ok (set_Signature inv (ed25519_sign (group.AdminPriv g) body)))
    | (rng', Err e) => (rng', Err e)
    | (rng', Panic) => (rng', Panic)
    end.

Definition Verify i (now : Z) : outcome unit :=
  if negb (zlen (GroupAdminPub i) =? 32) then Err (ErrMsg "invite: admin pubkey wrong size")
  else if ExpiresAt i <? Unix now then Err (ErrMsg "invite: expired")
  else
    let! body := signedBytes i in
    let! ok := ed25519_Verify (GroupAdminPub i) body (Signature i) in
    if negb ok then Err (ErrMsg "invite: bad signature") else Ok tt.

(** ** Links *)

Definition Encode `{!InviteCbor} i : outcome string :=
  let! raw := Marshal i in
  Ok (Scheme +:+ "://join#" +:+ b64url_encode raw).

Definition Decode `{!InviteCbor} (s : string) (now : Z) : outcome Invite :=
  let! (scheme, fragment) := owrap "parse invite url: " (url_Parse (TrimSpace s)) in
  if negb (bool_decide (scheme = Scheme)) then Err (ErrMsg "expected scheme fnshare")
  else if bool_decide (fragment = "") then Err (ErrMsg "invite missing fragment payload")
  else match b64url_decode fragment with
       | None => Err (ErrWrap "base64 decode: " (ErrMsg "illegal base64 data"))
       | Some raw =>
           let! inv := owrap "cbor decode: " (Unmarshal raw) in
           let! _ := Verify inv now in
           Ok inv
       end.

(** ** Lemmas *)

Lemma Verify_inv i now :
  Verify i now = Ok tt ->
  zlen (GroupAdminPub i) = 32 /\ Unix now <= ExpiresAt i /\
  exists body, signedBytes i = Ok body /\ ed25519_check (GroupAdminPub i) body (Signature i) = true.
Proof.
  unfold Verify. destruct (Z.eqb_spec (zlen (GroupAdminPub i)) 32) as [Hl|]; simpl; [|done].
  destruct (Z.ltb_spec (ExpiresAt i) (Unix now)); [done|]. unfold signedBytes.
  destruct (Marshal (payload i)) as [body| |]; simpl; [|done..]. unfold ed25519_Verify.
  case_bool_decide; simpl; [|done]. destruct (ed25519_check _ _ _) eqn:E; simpl; [|done]. intros _. eauto.
Qed.

(** An invite signed by the key it names is accepted until it expires. *)
Lemma Verify_signed i k body now :
  GroupAdminPub i = ed25519_pub k -> signedBytes i = Ok body -> Signature i = ed25519_sign k body ->
  Verify i now = if ExpiresAt i <? Unix now then Err (ErrMsg "invite: expired") else Ok tt.
Proof.
  intros Hp Hb Hs. unfold Verify. unfold zlen. rewrite Hp, ed25519_pub_length. simpl.
  destruct (_ <? _); [done|]. rewrite Hb. simpl. unfold ed25519_Verify.
  by rewrite bool_decide_eq_true_2, Hs, ed25519_check_sign by apply ed25519_pub_length.
Qed.

Lemma Verify_no_panic i now : Verify i now <> Panic.
Proof.
  unfold Verify. destruct (Z.eqb_spec (zlen (GroupAdminPub i)) 32) as [Hl|]; simpl; [|done].
  destruct (_ <? _); [done|]. unfold signedBytes. destruct (Marshal_total (payload i)) as [raw ->]. simpl.
  unfold ed25519_Verify. rewrite bool_decide_eq_true_2 by (unfold zlen in Hl; lia). simpl. by destruct (ed25519_check _ _ _).
Qed.

Lemma list_ascii_app a b :
  String.list_ascii_of_string (a +:+ b) = String.list_ascii_of_string a ++ String.list_ascii_of_string b.
Proof. induction a as [|c a IH]; [done|]. simpl. f_equal. exact IH. Qed.

Lemma str_count_letters (c : ascii) s :
  Forall (fun a => negb (bool_decide (a = c)) = true) (String.list_ascii_of_string s) -> str_count c s = 0%nat.
Proof.
  induction s as [|a s IH]; [done|]. simpl. intros [Ha Hs]%Forall_cons. apply negb_true_iff in Ha. by rewrite Ha, IH.
Qed.

Definition link_of (raw : bytes) : string := Scheme +:+ "://join#" +:+ b64url_encode raw.

Lemma url_Parse_link raw : url_Parse (link_of raw) = Ok (Scheme, b64url_encode raw).
Proof.
  unfold url_Parse, link_of. change (Scheme +:+ "://join#" +:+ b64url_encode raw) with
    ("fnshare://join" +:+ String "#" (b64url_encode raw)).
  rewrite str_cut_app by done. replace (url_parse "fnshare://join") with (Ok Scheme) by (vm_compute; reflexivity). simpl.
  rewrite unescape_plain; [done|]. apply str_count_letters, b64url_letters. vm_compute. reflexivity.
Qed.

Definition solid_letter (a : ascii) : bool := negb (space1 a) && (code a <? 128).

Lemma link_solid raw : raw <> [] ->
  solid_front (String.list_ascii_of_string (link_of raw)) /\ solid_front (reverse (String.list_ascii_of_string (link_of raw))).
Proof.
  intros Hr. unfold link_of. rewrite !list_ascii_app. split; [split; [reflexivity|vm_compute; reflexivity]|].
  rewrite !reverse_app. assert (HL := b64url_letters solid_letter raw ltac:(vm_compute; reflexivity)).
  destruct (reverse (String.list_ascii_of_string (b64url_encode raw))) as [|a l] eqn:E.
  - apply (f_equal reverse) in E. rewrite reverse_involutive in E. exfalso. apply Hr, b64url_nil.
    rewrite <- (String.string_of_list_ascii_of_string (b64url_encode raw)), E. done.
  - simpl. rewrite Forall_forall in HL. assert (Ha : solid_letter a = true).
    { apply HL, elem_of_reverse. rewrite E. constructor. }
    unfold solid_letter in Ha. by go_bool.
Qed.

(** The empty input is no CBOR item. *)
Definition empty_refused `{!InviteCbor} : Prop := forall i, Unmarshal [] <> Ok i.

Lemma raw_nonempty `{!InviteCbor} i raw : empty_refused -> invite_ok i = true -> Marshal i = Ok raw -> raw <> [].
Proof. intros He Hok Hraw ->. exact (He i (Unmarshal_Marshal i [] Hok Hraw)). Qed.

Lemma Decode_spaced `{!InviteCbor} i raw pre post now :
  invite_ok i = true -> Marshal i = Ok raw -> raw <> [] -> forallb space1 pre = true -> forallb space1 post = true ->
  Decode (String.string_of_list_ascii (pre ++ String.list_ascii_of_string (link_of raw) ++ post)) now =
    (let! _ := Verify i now in Ok i).
Proof.
  intros Hok Hraw Hne Hpre Hpost. destruct (link_solid raw Hne) as [Hf Hb].
  unfold Decode. rewrite TrimSpace_solid, url_Parse_link by done. simpl.
  rewrite bool_decide_eq_false_2 by (by intros E%b64url_nil).
  rewrite b64url_decode_encode. by rewrite (Unmarshal_Marshal i raw Hok Hraw).
Qed.

Lemma Decode_link `{!InviteCbor} i raw now :
  invite_ok i = true -> Marshal i = Ok raw -> raw <> [] ->
  Decode (link_of raw) now = (let! _ := Verify i now in Ok i).
Proof.
  intros Hok Hraw Hne. rewrite <- (Decode_spaced i raw [] [] now) by done. simpl.
  by rewrite app_nil_r, String.string_of_list_ascii_of_string.
Qed.

(** An invite survives its link.  The link [Encode] writes - pasted with
    any spaces, tabs or line ends around it - is read back by [Decode] as the
    very invite if its signature checks and it has not expired, and refused with
    the error of [Verify] otherwise; and whatever text [Decode] accepts carries
    an invite that passes [Verify]. *)
Theorem link_roundtrip `{!InviteCbor} i pre post now :
  empty_refused -> invite_ok i = true -> forallb space1 pre = true -> forallb space1 post = true ->
  (exists link, Encode i = Ok link /\
    Decode (String.string_of_list_ascii (pre ++ String.list_ascii_of_string link ++ post)) now =
      (let! _ := Verify i now in Ok i)) /\
  forall s i', Decode s now = Ok i' -> Verify i' now = Ok tt.
Proof.
  intros He Hok Hpre Hpost. split.
  - destruct (Marshal_total i) as [raw Hraw]. pose proof (raw_nonempty i raw He Hok Hraw) as Hne.
    exists (link_of raw). unfold Encode. rewrite Hraw. split; [done|]. by apply Decode_spaced.
  - intros s i'. unfold Decode. intros HD. repeat case_match; try done; go_case; simplify_eq.
    by match goal with E : Verify _ _ = Ok ?u |- _ => destruct u end.
Qed.

End with_libraries.

(** ** An executable codec *)

Definition invite_of (t : ctree) : option Invite :=
  p ← group.payload_of t; sig ← group.sig_of t;
  Some (NewInvite (group.sp_GroupID p) (group.sp_GroupName p) (group.sp_GroupAdminPub p) (group.sp_GroupSharedKey p)
    (group.sp_BootstrapPeers p) (group.sp_Nonce p) (group.sp_IssuedAt p) (group.sp_ExpiresAt p) (group.sp_QuotaCap p) sig).

#[global] Instance invite_cbor : InviteCbor.
Proof.
  refine (tree_cbor _ _ (fun i => GenNode 6 (group.payload_fields (payload i) ++ [tb (Signature i)])) invite_of _ _); [|done].
  intros []. unfold invite_of. rewrite group.payload_of_fields. unfold group.payload_fields. cbn [app group.sig_of Signature].
  by rewrite of_tb_tb.
Defined.

(** ** Witness *)

Definition sample_invite : Invite :=
  match (Create (replicate 16 Byte.x09) group.sample_group ["/ip4/10.0.0.1/tcp/4001/p2p/12DA"] (3600 * 10 ^ 9) 0
           1700000000000000000).2 with
  | Ok i => i
  | _ => NewInvite "" "" [] [] [] [] 0 0 0 []
  end.

Lemma tree_empty_refused : empty_refused.
Proof.
  assert (E : is_ok (Unmarshal (A := Invite) []) = false) by (vm_compute; reflexivity).
  intros i Hi. by rewrite Hi in E.
Qed.

Lemma link_roundtrip_witness :
  exists link, Encode sample_invite = Ok link /\
    Decode (String.string_of_list_ascii (" "%char :: String.list_ascii_of_string link ++ [Ascii.ascii_of_nat 10]))
      1700000000000000001 = Ok sample_invite.
Proof.
  destruct (link_roundtrip sample_invite [" "%char] [Ascii.ascii_of_nat 10] 1700000000000000001 tree_empty_refused)
    as [(link & E1 & E2) _].
  - vm_compute. reflexivity.
  - reflexivity.
  - reflexivity.
  - exists link. split; [exact E1|]. etrans; [exact E2|].
    assert (Verify sample_invite 1700000000000000001 = Ok tt) as -> by (vm_compute; reflexivity). reflexivity.
Defined.

End invite.
