(* ===== verification/Join.v ===== *)
(** * internal/node/protocol.go: joining a group, exchanging member lists

    The handlers work on the node's store.  Requests and responses are JSON
    documents; they appear here decoded.  What a peer sends is arbitrary. *)

From S2P Require Import Prelude Ext Concrete Store Fs Blockstore Crypto Manifest Ledger Group Blocks Invite.

Module join.

Record JoinRequest := NewJoinRequest {
  Invite : option invite.Invite;
  Nickname : string;
  Contributed : Z;
  NodePub : bytes;
  EncPub : bytes
}.

Record JoinResponse := NewJoinResponse {
  OK : bool;
  Error : string;
  GroupID : string;
  GroupName : string;
  GroupAdmin : bytes;
  GroupSharedKey : bytes;
  AdmissionAt : Z;
  AdmitSig : bytes;
  Members : list group.Member
}.

(** [JoinResponse{OK: false, Error: err.Error()}] *)
Definition refusal (e : goerr) : JoinResponse := NewJoinResponse false (node.error_string e) "" "" [] [] 0 [] [].

(** [multiaddrsToStrings] *)
Definition multiaddrsToStrings (addrs : list string) : list string := filter (fun a => a <> "") addrs.

Section with_libraries.
Context `{Badger, !group.GroupCbor, !group.MemberCbor, !group.PayloadCbor, !group.InviteFields,
  !invite.InviteCbor, Ed25519, PeerIDs}.
Implicit Types (s : db) (g : group.Group) (m : group.Member).

(** [handleJoin] with the decoded request, the remote peer and its address, and
    the clock readings of [Verify] and of the handler: the response written, and
    how the handler ends (it cuts the group's identifier for its log). *)
Definition handleJoin s (req : outcome JoinRequest) (remote : pid) (addr : string) (now now' : Z) :
    db * JoinResponse * outcome unit :=
  match req with
  | Err e => (s, refusal (ErrWrap "decode request: " e), Ok tt)
  | Panic => (s, refusal EOF, Panic)
  | Ok req =>
  match Invite req with
  | None => (s, refusal (ErrMsg "invite required"), Ok tt)
  | Some inv =>
  match invite.Verify inv now with
  | Err e => (s, refusal (ErrWrap "invite invalid: " e), Ok tt)
  | Panic => (s, refusal EOF, Panic)
  | Ok _ =>
  match group.LoadByID s (invite.GroupID inv) with
  | Err _ => (s, refusal (ErrMsg ("we are not part of group " +:+ invite.GroupID inv)), Ok tt)
  | Panic => (s, refusal EOF, Panic)
  | Ok g =>
  match (if group.IsAdminNode g
         then let! sig := group.AdmitMember g (peer_String remote) now' in Ok (wrap64 now', sig)
         else Ok (0, [])) with
  | Err e => (s, refusal e, Ok tt)
  | Panic => (s, refusal EOF, Panic)
  | Ok (admissionAt, admitSig) =>
      let inviteRaw := if group.IsAdminNode g then []
                       else match Marshal inv with Ok raw => raw | _ => [] end in
      let m := group.NewMember (peer_String remote) (Nickname req) (NodePub req) (EncPub req) (Contributed req)
        now' admitSig (multiaddrsToStrings [addr]) inviteRaw in
      match group.PutMember s (group.ID g) m with
      | (s', Err e) => (s', refusal (ErrWrap "persist member: " e), Ok tt)
      | (s', Panic) => (s', refusal EOF, Panic)
      | (s', Ok _) =>
          let members := match group.ListMembers s' (group.ID g) with Ok ms => ms | _ => [] end in
          (s', NewJoinResponse true "" (group.ID g) (group.Name g) (group.AdminPub g) (group.SharedKey g)
                 admissionAt admitSig members,
           let! _ := str_slice (group.ID g) 0 12 in Ok tt)
      end
  end end end end end.

(** [JoinViaPeer] from the decoded response on. *)
Fixpoint put_members s (gid : string) (ms : list group.Member) : db :=
  match ms with
  | [] => s
  | m :: ms' => put_members (group.PutMember s gid m).1 gid ms'
  end.

Definition install s (inv : invite.Invite) (resp : JoinResponse) : db * outcome JoinResponse :=
  if negb (OK resp) then (s, Err (ErrMsg ("remote refused: " +:+ Error resp)))
  else
    let sharedKey := if zlen (invite.GroupSharedKey inv) =? 0 then GroupSharedKey resp else invite.GroupSharedKey inv in
    let g := group.NewGroup (GroupID resp) (GroupName resp) (GroupAdmin resp) [] time_zero false sharedKey in
    match group.Save s g with
    | (s', Err e) => (s', Err (ErrWrap "persist group: " e))
    | (s', Panic) => (s', Panic)
    | (s', Ok _) => (put_members s' (group.ID g) (Members resp), Ok resp)
    end.

(** [JoinViaPeer]: whether the stream opens, the node's raw public key, and what
    the stream makes of the request - whether it is written, and the answer.  An
    answer that ends early counts as an empty response. *)
Definition JoinViaPeer s (opened : outcome unit) (pubRaw : outcome bytes) (nickname : string) (contributed : Z)
    (encPub : bytes) (inv : invite.Invite) (exchange : JoinRequest -> outcome unit * outcome JoinResponse) :
    db * outcome JoinResponse :=
  match (let! _ := owrap "open join stream: " opened in
         let! pub := pubRaw in
         let '(written, decoded) := exchange (NewJoinRequest (Some inv) nickname contributed pub encPub) in
         let! _ := owrap "write join req: " written in
         match decoded with
         | Err e => if errors_Is e EOF then Ok (NewJoinResponse false "" "" "" [] [] 0 [] [])
                    else Err (ErrWrap "decode join resp: " e)
         | r => r
         end) with
  | Ok resp => install s inv resp
  | Err e => (s, Err e)
  | Panic => (s, Panic)
  end.

(** ** Member lists *)

Record MembersResponse := NewMembersResponse { MGroupID : string; MMembers : list group.Member; MError : string }.

(** [handleMembers] with the decoded request; the error case for an unknown
    group cuts the identifier the peer sent. *)
Definition handleMembers s (gid : outcome string) : outcome MembersResponse :=
  match gid with
  | Err e => Ok (NewMembersResponse "" [] ("decode: " +:+ node.error_string e))
  | Panic => Panic
  | Ok gid =>
      if bool_decide (gid = "") then Ok (NewMembersResponse "" [] "group_id required")
      else match group.LoadByID s gid with
           | Panic => Panic
           | Err _ => let! short := str_slice gid 0 12 in
                      Ok (NewMembersResponse "" [] ("we are not in group " +:+ short))
           | Ok _ => match group.ListMembers s gid with
                     | Ok ms => Ok (NewMembersResponse gid ms "")
                     | Err e => Ok (NewMembersResponse "" [] (node.error_string e))
                     | Panic => Panic
                     end
           end
  end.

(** [FetchMembersFrom]: the stream, the request written, the half-close, the
    decoded answer. *)
Definition FetchMembersFrom (opened written closed : outcome unit) (decoded : outcome MembersResponse) :
    outcome (list group.Member) :=
  let! _ := owrap "open members stream: " opened in
  let! _ := written in
  let! _ := closed in
  let! resp := decoded in
  if negb (bool_decide (MError resp = "")) then Err (ErrMsg (MError resp)) else Ok (MMembers resp).

(** What the peers answer to [FetchMembersFrom]. *)
Context (fetch : pid -> string -> outcome (list group.Member)).

(** The innermost loop of [SyncGroupMembers]: the answer of one peer. *)
Fixpoint merge s g (self : string) (known : gset string) (ms : list group.Member) : db * outcome (gset string) :=
  match ms with
  | [] => (s, Ok known)
  | m :: ms' =>
      if bool_decide (group.PeerID m ∈ known) || bool_decide (group.PeerID m = self) then merge s g self known ms'
      else
        match group.VerifyMembership g m with
        | Panic => (s, Panic)
        | Ok true =>
            match group.PutMember s (group.ID g) m with
            | (s', Ok _) =>
                match str_slice (group.ID g) 0 12 with
                | Ok _ => merge s' g self (known ∪ {[group.PeerID m]}) ms'
                | _ => (s', Panic)
                end
            | (s', Err _) =>
                match str_slice (group.ID g) 0 12 with Ok _ => merge s' g self known ms' | _ => (s', Panic) end
            | (s', Panic) => (s', Panic)
            end
        | _ => match str_slice (group.ID g) 0 12 with Ok _ => merge s g self known ms' | _ => (s, Panic) end
        end
  end.

Fixpoint sync_peers s g (self : string) (known : gset string) (connected : list pid) : db * outcome unit :=
  match connected with
  | [] => (s, Ok tt)
  | p :: connected' =>
      match fetch p (group.ID g) with
      | Ok ms =>
          match merge s g self known ms with
          | (s', Ok known') => sync_peers s' g self known' connected'
          | (s', Err e) => (s', Err e)
          | (s', Panic) => (s', Panic)
          end
      | _ => sync_peers s g self known connected'
      end
  end.

Fixpoint sync_groups s (self : string) (connected : list pid) (groups : list group.Group) : db * outcome unit :=
  match groups with
  | [] => (s, Ok tt)
  | g :: groups' =>
      let known := match group.ListMembers s (group.ID g) with
                   | Ok ms => list_to_set (map group.PeerID ms) | _ => ∅ end in
      match sync_peers s g self known connected with
      | (s', Ok _) => sync_groups s' self connected groups'
      | (s', r) => (s', r)
      end
  end.

Definition SyncGroupMembers s (self : string) (connected : list pid) : db * outcome unit :=
  match group.ListGroups s with
  | Ok groups => match connected with [] => (s, Ok tt) | _ => sync_groups s self connected groups end
  | _ => (s, Ok tt)
  end.

(** ** What gets into a member table *)

Lemma GetMember_after s gid m s' r gid' p :
  group.PutMember s gid m = (s', r) ->
  group.GetMember s' gid' p = group.GetMember s gid' p \/
  (group.memberKey gid' p = group.memberKey gid (group.PeerID m) /\
   (group.GetMember s' gid' p = Ok (group.member_norm m) \/ exists e, group.GetMember s' gid' p = Err e)).
Proof.
  intros HP. destruct (decide (group.memberKey gid' p = group.memberKey gid (group.PeerID m))) as [E|Hne].
  2: { left. by rewrite !group.GetMember_view, (group.PutMember_other_key _ _ _ _ _ _ HP Hne). }
  rewrite !group.GetMember_view, E. unfold group.PutMember in HP. destruct (Marshal_total m) as [raw Hraw].
  rewrite Hraw in HP. destruct r as [[]|e|].
  - right. split; [done|]. rewrite (store.Put_Ok _ _ _ _ HP), lookup_insert_eq.
    destruct (group.member_ok m) eqn:Hok; [left; by apply Unmarshal_Marshal|right; by eapply Unmarshal_bad].
  - left. by rewrite (store.Put_Err _ _ _ _ _ HP).
  - by apply store.Put_no_panic in HP.
Qed.

(** Members of [s'] were in [s], or were admitted by a proof that verifies. *)
Definition grown (verified : group.Group -> group.Member -> Prop) s s' : Prop :=
  forall gid p m, group.GetMember s' gid p = Ok m ->
    group.GetMember s gid p = Ok m \/
    exists g m0, verified g m0 /\ m = group.member_norm m0 /\ group.memberKey gid p = group.memberKey (group.ID g) (group.PeerID m0).

#[local] Instance grown_preorder V : PreOrder (grown V).
Proof.
  split; [by left|]. intros s1 s2 s3 H12 H23 gid p m Hm. destruct (H23 gid p m Hm) as [Hm'|]; [|by right]. by apply H12.
Qed.

Definition admitted (groups : list group.Group) (g : group.Group) (m : group.Member) : Prop :=
  g ∈ groups /\ group.VerifyMembership g m = Ok true.

Lemma grown_put groups s g m s' r :
  admitted groups g m -> group.PutMember s (group.ID g) m = (s', r) -> grown (admitted groups) s s'.
Proof.
  intros HV HP gid p m' Hm. destruct (GetMember_after _ _ _ _ _ gid p HP) as [E|[Hk [E|[e E]]]].
  - left. congruence.
  - right. rewrite Hm in E. injection E as ->. eauto.
  - congruence.
Qed.

Lemma merge_grown groups g self ms : forall s known s' r,
  g ∈ groups -> merge s g self known ms = (s', r) -> grown (admitted groups) s s'.
Proof.
  induction ms as [|m ms IH]; intros s known s' r Hg HM; cbn [merge] in HM; [by injection HM as <- _|].
  destruct (_ || _); [by eapply IH|].
  destruct (group.VerifyMembership g m) as [[|]| |] eqn:HV; [| | |by injection HM as <- _].
  - destruct (group.PutMember s (group.ID g) m) as [s1 r1] eqn:HP.
    pose proof (grown_put groups s g m s1 r1 (conj Hg HV) HP) as HG.
    destruct r1 as [u|e|]; [| |by injection HM as <- _];
      (destruct (str_slice (group.ID g) 0 12); [etrans; [exact HG|by eapply IH]|by injection HM as <- _..]).
  - destruct (str_slice _ _ _); [by eapply IH|by injection HM as <- _..].
  - destruct (str_slice _ _ _); [by eapply IH|by injection HM as <- _..].
Qed.

Lemma sync_peers_grown groups g self connected : forall s known s' r,
  g ∈ groups -> sync_peers s g self known connected = (s', r) -> grown (admitted groups) s s'.
Proof.
  induction connected as [|p connected IH]; intros s known s' r Hg HS; cbn [sync_peers] in HS; [by injection HS as <- _|].
  destruct (fetch p (group.ID g)); [|by eapply IH..]. destruct (merge s g self known _) as [s1 r1] eqn:HM.
  pose proof (merge_grown _ _ _ _ _ _ _ _ Hg HM) as HG.
  destruct r1; [etrans; [exact HG|by eapply IH]|by injection HS as <- _..].
Qed.

Lemma sync_groups_grown groups self connected gs : forall s s' r,
  (forall g, g ∈ gs -> g ∈ groups) -> sync_groups s self connected gs = (s', r) -> grown (admitted groups) s s'.
Proof.
  induction gs as [|g gs IH]; intros s s' r Hin HS; cbn [sync_groups] in HS; [by injection HS as <- _|].
  destruct (sync_peers s g self _ connected) as [s1 r1] eqn:HP.
  pose proof (sync_peers_grown groups _ _ _ _ _ _ _ (Hin g ltac:(constructor)) HP) as HG.
  destruct r1; [|by injection HS as <- _..]. etrans; [exact HG|]. eapply IH; [|exact HS].
  intros g' Hg'. apply Hin. by constructor.
Qed.

(** [C19] Gossip adds no unproved member.  Whatever the connected peers answer,
    after [SyncGroupMembers] every record of every member table was there
    before, or is the record of a member whose proof of admission verifies
    against the stored group it was merged into. *)
Theorem sync_only_verified s self connected s' r gid p m groups :
  group.ListGroups s = Ok groups -> SyncGroupMembers s self connected = (s', r) ->
  group.GetMember s' gid p = Ok m ->
  group.GetMember s gid p = Ok m \/
  exists g m0, g ∈ groups /\ group.VerifyMembership g m0 = Ok true /\ m = group.member_norm m0 /\
    group.memberKey gid p = group.memberKey (group.ID g) (group.PeerID m0).
Proof.
  intros Hg HS Hm. unfold SyncGroupMembers in HS. rewrite Hg in HS.
  assert (HG : grown (admitted groups) s s').
  { destruct connected; [by injection HS as <- _|]. by eapply sync_groups_grown. }
  destruct (HG gid p m Hm) as [|(g & m0 & [? ?] & ? & ?)]; [by left|right]. eauto 10.
Qed.

(** Nothing ties an invite used as a proof to the member that presents it. *)
Lemma admission_invite_transfers g m m' :
  group.AdmittedBySig m = [] -> group.AdmittedBySig m' = [] -> group.AdmissionInvite m' = group.AdmissionInvite m ->
  group.VerifyMembership g m' = group.VerifyMembership g m.
Proof. unfold group.VerifyMembership. by intros -> -> ->. Qed.

(** An unknown group identifier shorter than twelve characters crashes the
    server of member lists. *)
Lemma handleMembers_short s gid e :
  group.LoadByID s gid = Err e -> gid <> "" -> (String.length gid < 12)%nat -> handleMembers s (Ok gid) = Panic.
Proof.
  intros HL Hne Hl. unfold handleMembers. rewrite bool_decide_eq_false_2 by done. rewrite HL. unfold str_slice.
  destruct (12 <=? Z.of_nat (String.length gid)) eqn:E; [lia|]. by rewrite andb_false_r.
Qed.

(** ** The handshake *)

Lemma PutMember_writable s gid m : store.writable s -> exists s', group.PutMember s gid m = (s', Ok tt).
Proof. intros Hw. unfold group.PutMember. destruct (Marshal_total m) as [raw ->]. apply Hw. Qed.

(** A request whose invite verifies is granted, whoever signed the invite. *)
Lemma handleJoin_grants s req inv g remote addr now now' :
  Invite req = Some inv -> invite.Verify inv now = Ok tt -> group.LoadByID s (invite.GroupID inv) = Ok g ->
  (group.IsAdminNode g = true -> zlen (group.AdminPriv g) = 64) -> store.writable s ->
  exists s' resp fin m, handleJoin s (Ok req) remote addr now now' = (s', resp, fin) /\
    OK resp = true /\ GroupID resp = group.ID g /\ GroupName resp = group.Name g /\
    GroupAdmin resp = group.AdminPub g /\ GroupSharedKey resp = group.SharedKey g /\
    group.PutMember s (group.ID g) m = (s', Ok tt) /\ group.PeerID m = peer_String remote /\
    (group.IsAdminNode g = true ->
       group.AdmittedBySig m = ed25519_sign (group.AdminPriv g) (group.admitMessage (group.ID g) (peer_String remote) now')) /\
    group.JoinedAt m = now'.
Proof.
  intros Hinv HV HL Hadm Hw. unfold handleJoin. rewrite Hinv, HV, HL.
  assert (Ha : exists at_ sig, (if group.IsAdminNode g
         then let! sig := group.AdmitMember g (peer_String remote) now' in Ok (wrap64 now', sig)
         else Ok (0, [])) = Ok (at_, sig) /\
    (group.IsAdminNode g = true ->
      sig = ed25519_sign (group.AdminPriv g) (group.admitMessage (group.ID g) (peer_String remote) now'))).
  { destruct (group.IsAdminNode g); [|by exists 0, []]. unfold group.AdmitMember. rewrite Hadm by done. simpl. by eexists _, _. }
  destruct Ha as (at_ & sig & -> & Hsig). set (m := group.NewMember _ _ _ _ _ _ _ _ _).
  destruct (PutMember_writable s (group.ID g) m Hw) as [s' HP]. rewrite HP. by eexists s', _, _, m.
Qed.

(** [C11] Anyone who knows a group's identifier can join it and is handed its
    key.  [handleJoin] checks an invite only against the public key the invite
    itself carries, which need not be the group's: an invite made up for the
    group and signed with any key [k] is accepted by every member's node, which
    records the stranger as a member - with the admin's own signature, if the
    node is the admin's - and answers with the group's shared key. *)
Theorem forged_invite_admitted s req inv k body g remote addr now now' :
  Invite req = Some inv -> invite.GroupAdminPub inv = ed25519_pub k ->
  invite.signedBytes inv = Ok body -> invite.Signature inv = ed25519_sign k body ->
  Unix now <= invite.ExpiresAt inv ->
  group.LoadByID s (invite.GroupID inv) = Ok g ->
  (group.IsAdminNode g = true -> zlen (group.AdminPriv g) = 64 /\ group.AdminPub g = ed25519_pub (group.AdminPriv g)) ->
  store.writable s ->
  exists s' resp fin m, handleJoin s (Ok req) remote addr now now' = (s', resp, fin) /\
    OK resp = true /\ GroupSharedKey resp = group.SharedKey g /\
    group.PutMember s (group.ID g) m = (s', Ok tt) /\ group.PeerID m = peer_String remote /\
    (group.IsAdminNode g = true -> group.VerifyAdmission g (peer_String remote) (group.JoinedAt m) (group.AdmittedBySig m) = Ok true).
Proof.
  intros Hinv Hpub Hb Hsig Hexp HL Hadm Hw.
  assert (HV : invite.Verify inv now = Ok tt).
  { rewrite (invite.Verify_signed inv k body now Hpub Hb Hsig). by rewrite (proj2 (Z.ltb_ge _ _)). }
  destruct (handleJoin_grants s req inv g remote addr now now' Hinv HV HL) as
    (s' & resp & fin & m & E & E1 & _ & _ & _ & E2 & E3 & E4 & E5 & E6); [by intros []%Hadm|done|].
  exists s', resp, fin, m. split_and!; try done. intros Ha. destruct (Hadm Ha) as [_ Hp].
  unfold group.VerifyAdmission, ed25519_Verify. rewrite (E5 Ha), E6, Hp.
  by rewrite bool_decide_eq_true_2, ed25519_check_sign by apply ed25519_pub_length.
Qed.

Lemma put_members_group gid gid' ms : forall s, group.LoadByID (put_members s gid ms) gid' = group.LoadByID s gid'.
Proof.
  induction ms as [|m ms IH]; intros s; [done|]. cbn [put_members]. rewrite IH. unfold group.LoadByID.
  destruct (group.PutMember s gid m) as [s' r] eqn:HP. simpl.
  assert (E : db_view s' !! group.groupKey gid' = db_view s !! group.groupKey gid')
    by (by apply (group.PutMember_other_key _ _ _ _ _ _ HP)).
  by rewrite !store.Get_spec, E.
Qed.

(** What a node that has the group grants for an invite that verifies, and what
    the joiner installs from it. *)
Lemma verified_join s sj inv gs remote addr now now' pub nickname contributed encPub :
  invite.Verify inv now = Ok tt -> group.LoadByID s (invite.GroupID inv) = Ok gs ->
  group.SharedKey gs <> [] -> invite.GroupSharedKey inv = group.SharedKey gs ->
  text_ok (group.ID gs) = true -> text_ok (group.Name gs) = true ->
  (group.IsAdminNode gs = true -> zlen (group.AdminPriv gs) = 64) -> store.writable s -> store.writable sj ->
  let serve req := handleJoin s (Ok req) remote addr now now' in
  exists s' resp fin m sj',
    serve (NewJoinRequest (Some inv) nickname contributed pub encPub) = (s', resp, fin) /\
    group.PutMember s (group.ID gs) m = (s', Ok tt) /\ group.PeerID m = peer_String remote /\ GroupID resp = group.ID gs /\
    JoinViaPeer sj (Ok tt) (Ok pub) nickname contributed encPub inv (fun req => (Ok tt, Ok (serve req).1.2)) = (sj', Ok resp) /\
    group.LoadByID sj' (group.ID gs) =
      Ok (group.NewGroup (group.ID gs) (group.Name gs) (group.AdminPub gs) [] (whole_second time_zero) false (group.SharedKey gs)).
Proof.
  intros HV HL Hsk G2 T1 T2 Hadm Hw Hwj serve. set (req := NewJoinRequest (Some inv) nickname contributed pub encPub).
  destruct (handleJoin_grants s req inv gs remote addr now now' eq_refl HV) as
    (s' & resp & fin & m & E & E1 & R1 & R2 & R3 & R4 & E3 & E4 & _); [done..|].
  exists s', resp, fin, m. unfold JoinViaPeer. simpl. fold req. unfold serve. rewrite E. simpl. unfold install.
  rewrite E1, G2, R1, R2, R3. simpl. destruct (Z.eqb_spec (zlen (group.SharedKey gs)) 0) as [E0|_].
  { destruct (group.SharedKey gs); [done|]. unfold zlen in E0. simpl in E0. lia. }
  set (gj := group.NewGroup _ _ _ _ _ _ _). unfold group.Save. destruct (Marshal_total gj) as [raw Hraw]. rewrite Hraw.
  destruct (Hwj (group.groupKey (group.ID gj)) raw) as [sj1 HP]. rewrite HP.
  eexists. split_and!; [done..|]. rewrite put_members_group. unfold group.LoadByID.
  rewrite store.Get_spec, (store.Put_Ok _ _ _ _ HP), lookup_insert_eq.
  change gj with (group.group_norm gj). apply Unmarshal_Marshal; [|done].
  unfold group.group_ok. simpl. by rewrite T1, T2.
Qed.

(** An invite the group's admin made verifies until it expires. *)
Lemma created_verifies rng rng' g inv boot ttl quota now0 now :
  invite.Create rng g boot ttl quota now0 = (rng', Ok inv) -> group.AdminPub g = ed25519_pub (group.AdminPriv g) ->
  Unix now <= Unix (now0 + ttl) ->
  invite.Verify inv now = Ok tt /\ invite.GroupID inv = group.ID g /\ invite.GroupSharedKey inv = group.SharedKey g /\
  invite.BootstrapPeers inv = boot.
Proof.
  intros HC Hpub Hexp. unfold invite.Create in HC. destruct (negb _); [done|].
  destruct (rand_Read rng 16) as [r [nonce|e|]]; [|done..].
  injection HC as _ HC. destruct (invite.signedBytes _) as [body|e|] eqn:Hb; [|done..]. injection HC as HC.
  split; [|by rewrite <- HC]. rewrite (invite.Verify_signed inv (group.AdminPriv g) body now); rewrite <- HC; try done.
  simpl. by rewrite (proj2 (Z.ltb_ge _ _)).
Qed.

(** Joining works.  An invite created for a group by its admin, presented
    with [JoinViaPeer] before it expires to any node that has the group's record,
    is granted; the server then has the joiner in its member table; and what the
    joiner installs from the response is the group - same identifier, name, admin
    key and shared key, without the admin's private key. *)
Theorem join_handshake s sj rng rng' g inv boot ttl quota now0 gs remote addr now now' pub nickname contributed encPub :
  invite.Create rng g boot ttl quota now0 = (rng', Ok inv) ->
  group.AdminPub g = ed25519_pub (group.AdminPriv g) -> group.SharedKey g <> [] ->
  text_ok (group.ID g) = true -> text_ok (group.Name g) = true ->
  Unix now <= Unix (now0 + ttl) ->
  group.LoadByID s (group.ID g) = Ok gs ->
  group.ID gs = group.ID g -> group.Name gs = group.Name g -> group.AdminPub gs = group.AdminPub g ->
  group.SharedKey gs = group.SharedKey g -> (group.IsAdminNode gs = true -> zlen (group.AdminPriv gs) = 64) ->
  store.writable s -> store.writable sj ->
  let serve req := handleJoin s (Ok req) remote addr now now' in
  exists s' resp fin m sj',
    serve (NewJoinRequest (Some inv) nickname contributed pub encPub) = (s', resp, fin) /\
    group.PutMember s (group.ID g) m = (s', Ok tt) /\ group.PeerID m = peer_String remote /\
    JoinViaPeer sj (Ok tt) (Ok pub) nickname contributed encPub inv (fun req => (Ok tt, Ok (serve req).1.2)) = (sj', Ok resp) /\
    group.LoadByID sj' (group.ID g) =
      Ok (group.NewGroup (group.ID g) (group.Name g) (group.AdminPub g) [] (whole_second time_zero) false (group.SharedKey g)).
Proof.
  intros HC Hpub Hsk T1 T2 Hexp HL I1 I2 I3 I4 Hadm Hw Hwj serve.
  destruct (created_verifies _ _ _ _ _ _ _ _ now HC Hpub Hexp) as (HV & G1 & G2 & _). rewrite <- G1 in HL.
  destruct (verified_join s sj inv gs remote addr now now' pub nickname contributed encPub HV HL)
    as (s' & resp & fin & m & sj' & E1 & E2 & E3 & _ & E4 & E5); first [done | congruence | idtac].
  exists s', resp, fin, m, sj'. rewrite I1 in E2, E5. rewrite I2, I3, I4 in E5. by split_and!.
Qed.

(** [C37] A join can take a group away.  The joiner installs whatever group the
    answering peer names, not the one of the invite: a peer that answers with the
    identifier of a group the joiner administers overwrites that group's record,
    and the admin's private key is gone from the store. *)
Theorem join_overwrites_group s pub nickname contributed encPub inv resp g :
  group.LoadByID s (group.ID g) = Ok g -> group.IsAdminNode g = true ->
  OK resp = true -> GroupID resp = group.ID g -> text_ok (group.ID g) = true -> text_ok (GroupName resp) = true ->
  store.writable s ->
  exists s' g', JoinViaPeer s (Ok tt) (Ok pub) nickname contributed encPub inv (fun _ => (Ok tt, Ok resp)) = (s', Ok resp) /\
    group.LoadByID s' (group.ID g) = Ok g' /\ group.IsAdminNode g' = false /\ group.AdminPriv g' = [] /\
    group.AdminPub g' = GroupAdmin resp.
Proof.
  intros HL Ha HOK Hid T1 T2 Hw. unfold JoinViaPeer. simpl. unfold install. rewrite HOK. simpl. rewrite Hid.
  set (gj := group.NewGroup _ _ _ _ _ _ _). unfold group.Save. destruct (Marshal_total gj) as [raw Hraw]. rewrite Hraw.
  destruct (Hw (group.groupKey (group.ID gj)) raw) as [s1 HP]. rewrite HP.
  eexists _, (group.group_norm gj). split; [done|]. split; [|done]. rewrite put_members_group. unfold group.LoadByID.
  rewrite store.Get_spec, (store.Put_Ok _ _ _ _ HP), lookup_insert_eq.
  apply Unmarshal_Marshal; [|done]. unfold group.group_ok. simpl. by rewrite T1, T2.
Qed.

End with_libraries.

(** ** Witnesses *)

Definition no_fetch (p : pid (PeerIDs := toy_peers)) (gid : string) : outcome (list group.Member) := Err EOF.

Definition group_store : db (Badger := mem_badger) := (group.Save store.empty group.sample_group).1.

(** A stranger's key, and the invite made up with it. *)
Definition stranger : bytes := replicate 64 Byte.x63.

Definition forged : invite.Invite :=
  let inv := invite.NewInvite (group.ID group.sample_group) "x" (ed25519_pub stranger) [] [] [] 0 2000000000 0 [] in
  match invite.signedBytes inv with Ok body => invite.set_Signature inv (ed25519_sign stranger body) | _ => inv end.

Definition forged_body : bytes := match invite.signedBytes forged with Ok b => b | _ => [] end.

Definition mallory : pid (PeerIDs := toy_peers) := "M".

Definition stored_group : group.Group := match group.LoadByID group_store (group.ID group.sample_group) with Ok g => g | _ => group.sample_group end.

Lemma forged_invite_admitted_witness :
  exists s' resp fin, handleJoin group_store (Ok (NewJoinRequest (Some forged) "m" 0 [] [])) mallory "" 0 0 = (s', resp, fin) /\
    OK resp = true /\ GroupSharedKey resp = group.SharedKey group.sample_group.
Proof.
  destruct (forged_invite_admitted group_store (NewJoinRequest (Some forged) "m" 0 [] []) forged stranger forged_body
    stored_group mallory "" 0 0) as (s' & resp & fin & m & E1 & E2 & E3 & _).
  - reflexivity.
  - vm_compute. reflexivity.
  - vm_compute. reflexivity.
  - vm_compute. reflexivity.
  - vm_compute. discriminate.
  - vm_compute. reflexivity.
  - intros _. split; vm_compute; reflexivity.
  - apply store.mem_writable. reflexivity.
  - exists s', resp, fin. split; [exact E1|]. split; [exact E2|]. rewrite E3. vm_compute. reflexivity.
Defined.

Definition invited := invite.Create (replicate 16 Byte.x01) group.sample_group [] 3600000000000 0 1700000000000000000.

Definition the_invite : invite.Invite := match invited.2 with Ok i => i | _ => forged end.

Lemma join_handshake_witness :
  exists s' resp fin sj',
    handleJoin group_store (Ok (NewJoinRequest (Some the_invite) "bob" 0 [] [])) mallory "" 1700000001000000000 1700000001000000000 =
      (s', resp, fin) /\
    JoinViaPeer store.empty (Ok tt) (Ok []) "bob" 0 [] the_invite
      (fun req => (Ok tt, Ok (handleJoin group_store (Ok req) mallory "" 1700000001000000000 1700000001000000000).1.2)) =
      (sj', Ok resp) /\
    group.LoadByID sj' (group.ID group.sample_group) =
      Ok (group.NewGroup (group.ID group.sample_group) "friends" (group.AdminPub group.sample_group) []
            (whole_second time_zero) false (group.SharedKey group.sample_group)).
Proof.
  destruct (join_handshake group_store store.empty (replicate 16 Byte.x01) invited.1 group.sample_group the_invite []
    3600000000000 0 1700000000000000000 stored_group mallory ""
    1700000001000000000 1700000001000000000 [] "bob" 0 []) as (s' & resp & fin & m & sj' & E1 & _ & _ & E2 & E3).
  - vm_compute. reflexivity.
  - vm_compute. reflexivity.
  - vm_compute. discriminate.
  - vm_compute. reflexivity.
  - vm_compute. reflexivity.
  - vm_compute. discriminate.
  - vm_compute. reflexivity.
  - vm_compute. reflexivity.
  - vm_compute. reflexivity.
  - vm_compute. reflexivity.
  - vm_compute. reflexivity.
  - intros _. vm_compute. reflexivity.
  - apply store.mem_writable. reflexivity.
  - apply store.mem_writable. reflexivity.
  - exists s', resp, fin, sj'. split; [exact E1|]. split; [exact E2|exact E3].
Defined.

(** Mallory's answer to a join, naming the group of the joiner. *)
Definition hijack : JoinResponse :=
  NewJoinResponse true "" (group.ID group.sample_group) "gone" [] [] 0 [] [].

Lemma join_overwrites_group_witness :
  exists s' g', JoinViaPeer group_store (Ok tt) (Ok []) "alice" 0 [] the_invite (fun _ => (Ok tt, Ok hijack)) = (s', Ok hijack) /\
    group.LoadByID s' (group.ID group.sample_group) = Ok g' /\ group.AdminPriv g' = [] /\
    group.AdminPriv stored_group <> [].
Proof.
  destruct (join_overwrites_group group_store [] "alice" 0 [] the_invite hijack stored_group) as (s' & g' & E1 & E2 & _ & E3 & _).
  - vm_compute. reflexivity.
  - vm_compute. reflexivity.
  - reflexivity.
  - vm_compute. reflexivity.
  - vm_compute. reflexivity.
  - reflexivity.
  - apply store.mem_writable. reflexivity.
  - exists s', g'. split; [exact E1|]. split; [exact E2|]. split; [exact E3|]. vm_compute. discriminate.
Defined.

(** A member that joined through another node, with the admin's invite as proof,
    and one without a proof. *)
Definition invited_member (p : string) : group.Member :=
  group.NewMember p "n" [] [] 0 1700000001000000000 [] []
    (match Marshal the_invite with Ok raw => raw | _ => [] end).

Definition gossip (p : pid (PeerIDs := toy_peers)) (gid : string) : outcome (list group.Member) :=
  Ok [invited_member "12DB"; group.sample_member "12DC" []].

Definition synced := SyncGroupMembers gossip group_store "12DA" [mallory].

Example synced_members :
  match group.ListMembers synced.1 (group.ID group.sample_group) with
  | Ok ms => map group.PeerID ms = ["12DB"] | _ => False end.
Proof. vm_compute. reflexivity. Qed.

Lemma synced_bob :
  group.GetMember synced.1 (group.ID group.sample_group) "12DB" = Ok (group.member_norm (invited_member "12DB")).
Proof. apply (bool_decide_eq_true_1 _). vm_compute. reflexivity. Qed.

Lemma sync_only_verified_witness :
  group.GetMember group_store (group.ID group.sample_group) "12DB" = Ok (group.member_norm (invited_member "12DB")) \/
  exists g m0, g ∈ [stored_group] /\ group.VerifyMembership g m0 = Ok true /\
    group.member_norm (invited_member "12DB") = group.member_norm m0.
Proof.
  destruct (sync_only_verified gossip group_store "12DA" [mallory] synced.1 synced.2 (group.ID group.sample_group) "12DB"
    (group.member_norm (invited_member "12DB")) [stored_group]) as [E|(g & m0 & E1 & E2 & E3 & _)].
  - vm_compute. reflexivity.
  - apply surjective_pairing.
  - apply synced_bob.
  - left. exact E.
  - right. exists g, m0. split; [exact E1|]. split; [exact E2|exact E3].
Defined.

End join.
