(* ===== verification/Peers.v ===== *)
(** * internal/node/node.go, peers.go, ping.go: the host, address exchange, ping

    libp2p's host - connections, streams, the address book - is the class
    [Host]; the functions of the package on top of it are below. *)

From S2P Require Import Prelude Ext Concrete Store Group Config.

(** github.com/multiformats/go-multiaddr, with [peer.AddrInfoFromP2pAddr]. *)
Class Multiaddrs `{PeerIDs} := {
  maddr : Type;
  NewMultiaddr : string -> outcome maddr;
  maddr_String : maddr -> string;
  Encapsulate : maddr -> maddr -> maddr;
  AddrInfoFromP2pAddr : maddr -> outcome (pid * list maddr);
  NewMultiaddr_String a : NewMultiaddr (maddr_String a) = Ok a
}.

(** A libp2p host: [Connect], the connected peers, and the address book, which
    may refuse an address (one that names another peer). *)
Class Host `{PeerIDs} `{!Multiaddrs} := {
  host : Type;
  host_ID : host -> pid;
  host_Addrs : host -> list maddr;
  host_Connect : host -> pid * list maddr -> host * outcome unit;
  net_Peers : host -> list pid;
  book_accepts : pid -> maddr -> bool;
  book_AddAddr : host -> pid -> maddr -> host;
  book_Addrs : host -> pid -> list maddr;
  host_Connect_ID h ai : host_ID (host_Connect h ai).1 = host_ID h;
  book_AddAddr_ID h p a : host_ID (book_AddAddr h p a) = host_ID h;
  book_AddAddr_Peers h p a : net_Peers (book_AddAddr h p a) = net_Peers h;
  book_AddAddr_Addrs h p a q b :
    b ∈ book_Addrs (book_AddAddr h p a) q <-> b ∈ book_Addrs h q \/ (q = p /\ b = a /\ book_accepts p a = true)
}.

Module peers.

Abbreviation peersResponse := (gmap string (list string)).

Section with_libraries.
Context `{Badger, !group.GroupCbor, !group.MemberCbor, !group.AddrsCbor, PeerIDs, !Multiaddrs, !Host}.
Implicit Types (h : host) (p q : pid) (s : db) (a : maddr).

Definition same_peer p q : bool := bool_decide (peer_String p = peer_String q).

(** ** node.go *)

(** The loops of [New] over the configured addresses. *)
Fixpoint parse_addrs (msg : string) (addrs : list string) : outcome (list maddr) :=
  match addrs with
  | [] => Ok []
  | x :: addrs' =>
      match NewMultiaddr x with
      | Ok ma => let! rest := parse_addrs msg addrs' in Ok (ma :: rest)
      | Err e => Err (ErrWrap msg e)
      | Panic => Panic
      end
  end.

(** [New]; [libp2p_New] builds the host from the listen addresses and, if any
    are configured, the addresses to announce; [dht_New] the routing table. *)
Definition New (libp2p_New : list maddr -> option (list maddr) -> outcome host) (dht_New : host -> outcome unit)
    (cfg : config.Config) : outcome host :=
  let! listen := parse_addrs "bad listen addr: " (config.ListenAddrs cfg) in
  let! announce :=
    (if 0 <? zlen (config.AnnounceAddrs cfg)
     then let! l := parse_addrs "bad announce addr: " (config.AnnounceAddrs cfg) in Ok (Some l)
     else Ok None) in
  let! h := owrap "libp2p host: " (libp2p_New listen announce) in
  let! _ := owrap "dht: " (dht_New h) in
  Ok h.

Fixpoint connect_loop h (lastErr : option goerr) (addrs : list string) : host * outcome pid :=
  match addrs with
  | [] => (h, Err (match lastErr with Some e => e | None => ErrMsg "no bootstrap peers provided" end))
  | x :: addrs' =>
      match (let! ma := NewMultiaddr x in AddrInfoFromP2pAddr ma) with
      | Err e => connect_loop h (Some e) addrs'
      | Panic => (h, Panic)
      | Ok ai =>
          match host_Connect h ai with
          | (h', Err e) => connect_loop h' (Some e) addrs'
          | (h', Panic) => (h', Panic)
          | (h', Ok _) => (h', Ok ai.1)
          end
      end
  end.

Definition ConnectToPeers h (addrs : list string) : host * outcome pid := connect_loop h None addrs.

Definition SelfMultiaddrs h : list string :=
  match NewMultiaddr ("/p2p/" +:+ peer_String (host_ID h)) with
  | Ok pidPart => map (fun a => maddr_String (Encapsulate a pidPart)) (host_Addrs h)
  | _ => []
  end.

(** ** peers.go *)

Context (range : gmap string group.Member -> list (string * group.Member)).
Context (range_resp : peersResponse -> list (string * list string)).

(** The answer of [handlePeers]. *)
Definition report h (out : peersResponse) (m : group.Member) : peersResponse :=
  match peer_Decode (group.PeerID m) with
  | None => out
  | Some p =>
      match book_Addrs h p with
      | [] => out
      | addrs => <[group.PeerID m := map maddr_String addrs]> out
      end
  end.

Definition handlePeers s h : peersResponse :=
  let members := match group.AllMembersAcrossGroups range s with Ok ms => ms | _ => [] end in
  fold_left (report h) members ∅.

(** The two loops of [FetchPeersFrom] over a decoded answer. *)
Fixpoint add_addrs h p (added : Z) (addrs : list string) : host * Z :=
  match addrs with
  | [] => (h, added)
  | x :: addrs' =>
      match NewMultiaddr x with
      | Ok ma => add_addrs (book_AddAddr h p ma) p (added + 1) addrs'
      | _ => add_addrs h p added addrs'
      end
  end.

Fixpoint add_peers h (added : Z) (entries : list (string * list string)) : host * Z :=
  match entries with
  | [] => (h, added)
  | (pidStr, addrStrs) :: entries' =>
      match peer_Decode pidStr with
      | None => add_peers h added entries'
      | Some p =>
          if same_peer p (host_ID h) then add_peers h added entries'
          else let '(h', n) := add_addrs h p added addrStrs in add_peers h' n entries'
      end
  end.

(** What a request to a peer meets: the stream, the half-close, the answer. *)
Record exchange := Exchange { opened : outcome unit; closed : outcome unit; decoded : outcome peersResponse }.

Definition FetchPeersFrom h (x : exchange) : host * outcome Z :=
  match (let! _ := owrap "open peers stream: " (opened x) in let! _ := closed x in decoded x) with
  | Err e => (h, Err e)
  | Panic => (h, Panic)
  | Ok resp => let '(h', added) := add_peers h 0 (range_resp resp) in (h', Ok added)
  end.

Fixpoint dial_all h (addrs : list string) : host :=
  match addrs with
  | [] => h
  | x :: addrs' =>
      match (let! ma := NewMultiaddr x in AddrInfoFromP2pAddr ma) with
      | Ok ai => dial_all (if same_peer ai.1 (host_ID h) then h else (host_Connect h ai).1) addrs'
      | _ => dial_all h addrs'
      end
  end.

Fixpoint fetch_all (ask : pid -> exchange) h (ps : list pid) : host :=
  match ps with
  | [] => h
  | p :: ps' => fetch_all ask (FetchPeersFrom h (ask p)).1 ps'
  end.

Definition BootstrapAllGroups (ask : pid -> exchange) s h : host :=
  let addrs := match group.AllBootstrapAddrs s with Ok l => l | _ => [] end in
  let h1 := dial_all h addrs in
  fetch_all ask h1 (net_Peers h1).

(** ** ping.go *)

(** [Ping]: the stream, then one byte written on it. *)
Definition Ping (opened written : outcome unit) : outcome unit :=
  let! _ := owrap "open ping stream: " opened in
  owrap "write ping: " written.

(** ** Lemmas *)

Lemma peer_String_inj p q : peer_String p = peer_String q -> p = q.
Proof. intros E. apply (f_equal peer_Decode) in E. rewrite !peer_Decode_String in E. by injection E. Qed.

Lemma same_peer_spec p q : same_peer p q = true <-> p = q.
Proof. unfold same_peer. rewrite bool_decide_eq_true. split; [apply peer_String_inj|by intros ->]. Qed.

(** The addresses of a text list that parse and that the book takes. *)
Definition offered p (addrs : list string) a : Prop :=
  exists x, x ∈ addrs /\ NewMultiaddr x = Ok a /\ book_accepts p a = true.

Definition parsed (addrs : list string) : Z := zlen (filter (fun x => is_ok (NewMultiaddr x) = true) addrs).

Lemma offered_cons p x addrs a :
  offered p (x :: addrs) a <-> (NewMultiaddr x = Ok a /\ book_accepts p a = true) \/ offered p addrs a.
Proof.
  unfold offered. split.
  - intros (y & [->|Hy]%elem_of_cons & ? & ?); [by left|right; eauto].
  - intros [[? ?]|(y & ? & ? & ?)]; [exists x|exists y]; split_and!; try done; by constructor.
Qed.

Lemma add_addrs_spec p addrs : forall h n h' n',
  add_addrs h p n addrs = (h', n') ->
  host_ID h' = host_ID h /\ n' = n + parsed addrs /\
  forall q a, a ∈ book_Addrs h' q <-> a ∈ book_Addrs h q \/ (q = p /\ offered p addrs a).
Proof.
  induction addrs as [|x addrs IH]; intros h n h' n'; simpl.
  - intros [= <- <-]. split_and!; [done|unfold parsed, zlen; simpl; lia|]. intros q a. split; [auto|].
    intros [?|[_ (y & Hy & _)]]; [done|]. by apply elem_of_nil in Hy.
  - unfold parsed. rewrite filter_cons. destruct (NewMultiaddr x) as [ma|e|] eqn:Hx; cbn [is_ok].
    + intros (Hid & -> & HA)%IH. rewrite decide_True by done. split_and!; [by rewrite Hid, book_AddAddr_ID| |].
      { unfold parsed, zlen. simpl. lia. }
      intros q a. rewrite HA, book_AddAddr_Addrs, offered_cons, Hx. split; intuition (simplify_eq; auto).
    + intros (Hid & -> & HA)%IH. rewrite decide_False by done. split_and!; [done|done|].
      intros q a. rewrite HA, offered_cons, Hx. split; intuition (simplify_eq; auto).
    + intros (Hid & -> & HA)%IH. rewrite decide_False by done. split_and!; [done|done|].
      intros q a. rewrite HA, offered_cons, Hx. split; intuition (simplify_eq; auto).
Qed.

(** What the entries of an answer say about [q]. *)
Definition told (self : pid) (entries : list (string * list string)) q a : Prop :=
  q <> self /\ exists name addrs, (name, addrs) ∈ entries /\ peer_Decode name = Some q /\ offered q addrs a.

Definition count_entry (self : pid) (e : string * list string) : Z :=
  match peer_Decode e.1 with
  | Some p => if same_peer p self then 0 else parsed e.2
  | None => 0
  end.

Definition count_all (self : pid) (entries : list (string * list string)) : Z :=
  fold_right (fun e n => count_entry self e + n) 0 entries.

Lemma told_cons self name addrs entries q a :
  told self ((name, addrs) :: entries) q a <->
  (q <> self /\ peer_Decode name = Some q /\ offered q addrs a) \/ told self entries q a.
Proof.
  unfold told. split.
  - intros (Hq & n & l & [[= -> ->]|Hin]%elem_of_cons & ? & ?); [by left|right; eauto 10].
  - intros [(Hq & ? & ?)|(Hq & n & l & ? & ? & ?)]; (split; [done|]); eexists _, _;
      (split; [|split]); try done; [by left|by right].
Qed.

Lemma add_peers_spec entries : forall h n h' n',
  add_peers h n entries = (h', n') ->
  host_ID h' = host_ID h /\ n' = n + count_all (host_ID h) entries /\
  forall q a, a ∈ book_Addrs h' q <-> a ∈ book_Addrs h q \/ told (host_ID h) entries q a.
Proof.
  induction entries as [|[name addrs] entries IH]; intros h n h' n'; simpl.
  - intros [= <- <-]. split_and!; [done|lia|]. intros q a. split; [auto|].
    intros [?|(_ & x & l & Hx & _)]; [done|]. by apply elem_of_nil in Hx.
  - unfold count_entry. simpl. destruct (peer_Decode name) as [p|] eqn:Hp.
    2: { intros (Hid & -> & HA)%IH. split_and!; [done|lia|]. intros q a. rewrite HA, told_cons, Hp. split; intuition (simplify_eq; auto). }
    destruct (same_peer p (host_ID h)) eqn:Hs.
    { intros (Hid & -> & HA)%IH. apply same_peer_spec in Hs. split_and!; [done|lia|].
      intros q a. rewrite HA, told_cons, Hp. split; intuition (simplify_eq; auto). }
    destruct (add_addrs h p n addrs) as [h1 n1] eqn:E1. destruct (add_addrs_spec _ _ _ _ _ _ E1) as (Hid1 & -> & HA1).
    intros (Hid & -> & HA)%IH. rewrite Hid1 in *. split_and!; [done|lia|].
    assert (Hne : p <> host_ID h) by (intros E%same_peer_spec; congruence).
    intros q a. rewrite HA, HA1, told_cons, Hp. split; intuition (simplify_eq; auto).
Qed.

(** The entry [handlePeers] makes for a member's name. *)
Definition entry_of h (name : string) : option (list string) :=
  match peer_Decode name with
  | Some p => match book_Addrs h p with [] => None | addrs => Some (map maddr_String addrs) end
  | None => None
  end.

Lemma report_lookup h out m name :
  report h out m !! name =
  if decide (group.PeerID m = name) then match entry_of h name with Some l => Some l | None => out !! name end
  else out !! name.
Proof.
  unfold report, entry_of. case_decide as E; [subst name|].
  - destruct (peer_Decode _) as [p|]; [|done]. destruct (book_Addrs h p); [done|]. by rewrite lookup_insert_eq.
  - destruct (peer_Decode (group.PeerID m)) as [p|]; [|done]. destruct (book_Addrs h p); [done|]. by rewrite lookup_insert_ne.
Qed.

Lemma report_all h ms name : forall out, (out !! name = None \/ out !! name = entry_of h name) ->
  fold_left (report h) ms out !! name =
  if decide (name ∈ map group.PeerID ms) then entry_of h name else out !! name.
Proof.
  induction ms as [|m ms IH]; intros out Ho; cbn [fold_left map].
  - rewrite decide_False; [done|]. apply not_elem_of_nil.
  - rewrite IH.
    2: { rewrite !report_lookup. destruct (decide (group.PeerID m = name)); [|exact Ho].
         destruct (entry_of h name); [by right|exact Ho]. }
    rewrite report_lookup. destruct (decide (name ∈ map group.PeerID ms)) as [Hin|Hni].
    + rewrite decide_True; [done|]. by right.
    + case_decide as E.
      * rewrite decide_True by (subst; constructor). destruct (entry_of h name) eqn:He; [done|].
        by destruct Ho as [->| ->].
      * rewrite decide_False; [done|]. intros [?|?]%elem_of_cons; congruence.
Qed.

(** Members find each other.  When node A asks node B for addresses and
    B's answer arrives, A's address book gains exactly the addresses that B's
    book has for the members of B's groups - as far as A's book accepts them -
    for every peer but A itself, and loses nothing. *)
Theorem peers_exchange sB hB hA members x :
  (forall r, range_resp r ≡ₚ map_to_list r) ->
  group.AllMembersAcrossGroups range sB = Ok members ->
  x = Exchange (Ok tt) (Ok tt) (Ok (handlePeers sB hB)) ->
  exists hA' n, FetchPeersFrom hA x = (hA', Ok n) /\ host_ID hA' = host_ID hA /\
    forall q a, a ∈ book_Addrs hA' q <->
      a ∈ book_Addrs hA q \/
      (q <> host_ID hA /\ a ∈ book_Addrs hB q /\ book_accepts q a = true /\
       exists m, m ∈ members /\ peer_Decode (group.PeerID m) = Some q).
Proof.
  intros Hrange HM ->. unfold FetchPeersFrom. simpl.
  destruct (add_peers hA 0 (range_resp (handlePeers sB hB))) as [hA' n] eqn:E.
  destruct (add_peers_spec _ _ _ _ _ E) as (Hid & _ & HA). exists hA', n. split_and!; [done|done|].
  intros q a. rewrite HA.
  assert (HT : forall name l, (name, l) ∈ range_resp (handlePeers sB hB) <->
            name ∈ map group.PeerID members /\ entry_of hB name = Some l).
  { intros name l. rewrite Hrange, elem_of_map_to_list. unfold handlePeers. rewrite HM, report_all by (left; apply lookup_empty).
    case_decide; [by intuition|]. rewrite lookup_empty. by intuition. }
  split; (intros [?|HR]; [by left|right]).
  - destruct HR as (Hq & name & l & [Hn Hl]%HT & Hd & y & Hy & Hpa & Hacc). split; [done|].
    assert (l = map maddr_String (book_Addrs hB q)) as ->.
    { unfold entry_of in Hl. rewrite Hd in Hl. by destruct (book_Addrs hB q); simplify_eq. }
    apply list_elem_of_fmap in Hy as (a' & -> & Ha'). rewrite NewMultiaddr_String in Hpa. injection Hpa as ->.
    split_and!; [done..|]. apply list_elem_of_fmap in Hn as (m & -> & Hm). eauto.
  - destruct HR as (Hq & Hb & Hacc & m & Hm & Hd). split; [done|].
    exists (group.PeerID m), (map maddr_String (book_Addrs hB q)). split_and!; [|done|].
    + apply HT. split; [by apply list_elem_of_fmap_2|]. unfold entry_of. rewrite Hd.
      destruct (book_Addrs hB q); [by apply elem_of_nil in Hb|done].
    + exists (maddr_String a). split_and!; [by apply list_elem_of_fmap_2|apply NewMultiaddr_String|done].
Qed.

(** A dial sequence ends at the first address that answers. *)
Lemma connect_loop_Ok addrs : forall h e h' p,
  connect_loop h e addrs = (h', Ok p) ->
  exists x ma ai h0, x ∈ addrs /\ NewMultiaddr x = Ok ma /\ AddrInfoFromP2pAddr ma = Ok ai /\ ai.1 = p /\
    host_Connect h0 ai = (h', Ok tt).
Proof.
  induction addrs as [|x addrs IH]; intros h e h' p; simpl; [done|].
  destruct (NewMultiaddr x) as [ma|e1|] eqn:Hx; simpl; [|intros (y & ? & ? & ? & Hy & ?)%IH; exists y; eauto 10 using list_elem_of_further|done].
  destruct (AddrInfoFromP2pAddr ma) as [ai|e1|] eqn:Ha; [|intros (y & ? & ? & ? & Hy & ?)%IH; exists y; eauto 10 using list_elem_of_further|done].
  destruct (host_Connect h ai) as [h1 [[]|e1|]] eqn:HC; [|intros (y & ? & ? & ? & Hy & ?)%IH; exists y; eauto 10 using list_elem_of_further|done].
  intros [= <- <-]. exists x, ma, ai, h. split_and!; try done. constructor.
Qed.

End with_libraries.

(** ** Witness *)

#[global] Instance toy_multiaddrs : Multiaddrs (H := toy_peers).
Proof.
  refine {| maddr := string; NewMultiaddr x := match x with String "/"%char r => Ok r | _ => Err (ErrMsg "bad multiaddr") end;
    maddr_String a := String "/" a; Encapsulate a b := a +:+ String "/" b;
    AddrInfoFromP2pAddr a :=
      match peer_Decode a with Some p => Ok (p, [a]) | None => Err (ErrMsg "invalid p2p multiaddr") end |}.
  done.
Defined.

Record ToyHost := NewToyHost { toy_id : string; toy_addrs : list string; toy_conns : list string; toy_book : gmap string (list string) }.

Definition toy_lookup (t : ToyHost) (q : string) : list string := default [] (toy_book t !! q).

#[global] Instance toy_host : Host (H0 := toy_multiaddrs).
Proof.
  refine {| host := ToyHost; host_ID := toy_id : _ -> pid (PeerIDs := toy_peers); host_Addrs := toy_addrs;
    host_Connect t ai := (NewToyHost (toy_id t) (toy_addrs t) (ai.1 :: toy_conns t) (toy_book t), Ok tt);
    net_Peers := toy_conns; book_accepts _ _ := true;
    book_AddAddr t p a := NewToyHost (toy_id t) (toy_addrs t) (toy_conns t) (<[p := a :: toy_lookup t p]> (toy_book t));
    book_Addrs := toy_lookup |}; [done..|].
  intros t p a q b. unfold toy_lookup. simpl. destruct (decide (q = p)) as [->|Hne].
  - rewrite lookup_insert_eq. simpl. rewrite elem_of_cons. intuition.
  - rewrite lookup_insert_ne by done. intuition.
Defined.

Definition two_members : db (Badger := mem_badger) :=
  (group.PutMember (group.PutMember store.empty "g" (group.sample_member "12DA" [])).1 "g" (group.sample_member "12DC" [])).1.

(** Bob knows Carol's address; Alice asks Bob. *)
Definition bob : host (Host := toy_host) := NewToyHost "B" [] [] {["C" := ["ip4/10.0.0.3/tcp/4001"]]}.
Definition alice : host (Host := toy_host) := NewToyHost "A" [] ["B"] ∅.

Definition two_list : list group.Member :=
  match group.AllMembersAcrossGroups map_to_list two_members with Ok ms => ms | _ => [] end.

Lemma two_known : group.AllMembersAcrossGroups map_to_list two_members = Ok two_list.
Proof. vm_compute. reflexivity. Qed.

Definition carol : group.Member := default (group.sample_member "" []) (List.find (fun m => bool_decide (group.PeerID m = "12DC")) two_list).

Lemma peers_exchange_witness :
  exists h n, FetchPeersFrom map_to_list alice (Exchange (Ok tt) (Ok tt) (Ok (handlePeers map_to_list two_members bob))) =
    (h, Ok n) /\ "ip4/10.0.0.3/tcp/4001" ∈ book_Addrs (Host := toy_host) h "C".
Proof.
  destruct (peers_exchange map_to_list map_to_list two_members bob alice two_list
    (Exchange (Ok tt) (Ok tt) (Ok (handlePeers map_to_list two_members bob)))) as (h & n & E & _ & HA).
  - reflexivity.
  - exact two_known.
  - reflexivity.
  - exists h, n. split; [exact E|]. apply HA. right. split_and!.
    + discriminate.
    + apply (bool_decide_eq_true_1 _). vm_compute. reflexivity.
    + reflexivity.
    + exists carol. split; [|vm_compute; reflexivity]. apply (bool_decide_eq_true_1 _). vm_compute. reflexivity.
Defined.

End peers.
