(* ===== verification/Auth.v ===== *)
(** * internal/auth/auth.go: the owner's password and the web sessions

    The service keeps the password's hash in the store and the sessions in
    memory; a session ends by logout, or thirty days after it was issued. *)

From S2P Require Import Prelude Ext Concrete Store Fs Crypto Base64.

Module auth.

Definition keyPasswordHash : string := "auth/password".

(** [30 * 24 * time.Hour], in nanoseconds. *)
Definition tokenTTL : Z := 30 * 24 * 3600 * 10 ^ 9.

Record Service `{Badger} := NewService { store_ : db; cliToken : string; sessions : gmap string Z }.

Section with_libraries.
Context `{Badger, Bcrypt}.
Implicit Types (s : db) (sv : Service).

Definition newRandomToken (rng : bytes) : bytes * outcome string :=
  match rand_Read rng 32 with
  | (rng', Ok b) => (rng', Ok (b64url_encode b))
  | (rng', Err e) => (rng', Err e)
  | (rng', Panic) => (rng', Panic)
  end.

(** [New]: a fresh CLI token, written to the data directory. *)
Definition New (x : wfault) (rng : bytes) (f : fs) s (dataDir : path) : fs * bytes * outcome Service :=
  match newRandomToken rng with
  | (rng', Ok cliTok) =>
      match WriteFile x f (filepath_Join dataDir [".cli-token"]) (bytes_of_string cliTok) with
      | (f', Ok _) => (f', rng', Ok (NewService _ s cliTok ∅))
      | (f', Err e) => (f', rng', Err e)
      | (f', Panic) => (f', rng', Panic)
      end
  | (rng', Err e) => (f, rng', Err e)
  | (rng', Panic) => (f, rng', Panic)
  end.

Definition HasPassword sv : bool := match store.Get (store_ sv) keyPasswordHash with Ok _ => true | _ => false end.

(** [SetPassword]; [salt] is what bcrypt draws. *)
Definition SetPassword sv (password : string) (salt : bytes) : Service * outcome unit :=
  if (String.length password <? 6)%nat then (sv, Err (ErrMsg "auth: password must be at least 6 characters"))
  else match bcrypt_Generate (bytes_of_string password) salt with
       | Ok hash =>
           let '(s', r) := store.Put (store_ sv) keyPasswordHash hash in
           (NewService _ s' (cliToken sv) (sessions sv), r)
       | Err e => (sv, Err e)
       | Panic => (sv, Panic)
       end.

Definition VerifyAndIssue sv (password : string) (rng : bytes) (now : Z) : Service * bytes * outcome string :=
  match store.Get (store_ sv) keyPasswordHash with
  | Ok hash =>
      if negb (bcrypt_Compare hash (bytes_of_string password)) then (sv, rng, Err ErrBadPassword)
      else match newRandomToken rng with
           | (rng', Ok tok) =>
               (NewService _ (store_ sv) (cliToken sv) (<[tok := now + tokenTTL]> (sessions sv)), rng', Ok tok)
           | (rng', Err e) => (sv, rng', Err e)
           | (rng', Panic) => (sv, rng', Panic)
           end
  | _ => (sv, rng, Err ErrBadPassword)
  end.

Definition ValidateSession sv (token : string) (now : Z) : Service * bool :=
  if bool_decide (token = "") then (sv, false)
  else if bool_decide (token = cliToken sv) then (sv, true)
  else match sessions sv !! token with
       | None => (sv, false)
       | Some exp =>
           if exp <? now then (NewService _ (store_ sv) (cliToken sv) (delete token (sessions sv)), false)
           else (sv, true)
       end.

Definition Logout sv (token : string) : Service :=
  if bool_decide (token = cliToken sv) then sv
  else NewService _ (store_ sv) (cliToken sv) (delete token (sessions sv)).

(** ** Runs *)

Inductive Event :=
  | Login (password : string) (rng : bytes) (now : Z)
  | Check (token : string) (now : Z)
  | Leave (token : string)
  | Change (password : string) (salt : bytes).

Definition step sv (e : Event) : Service :=
  match e with
  | Login pw rng now => (VerifyAndIssue sv pw rng now).1.1
  | Check tok now => (ValidateSession sv tok now).1
  | Leave tok => Logout sv tok
  | Change pw salt => (SetPassword sv pw salt).1
  end.

(** The run of a history, latest event first. *)
Fixpoint run sv (h : list Event) : Service :=
  match h with
  | [] => sv
  | e :: h' => step (run sv h') e
  end.

(** The time of the last login that issued [tok] and was not logged out since. *)
Fixpoint issued sv (tok : string) (h : list Event) : option Z :=
  match h with
  | [] => None
  | Login pw rng now :: h' =>
      match (VerifyAndIssue (run sv h') pw rng now).2 with
      | Ok tok' => if bool_decide (tok' = tok) then Some now else issued sv tok h'
      | _ => issued sv tok h'
      end
  | Leave tok' :: h' => if bool_decide (tok' = tok) then None else issued sv tok h'
  | _ :: h' => issued sv tok h'
  end.

(** The clock does not go back: every event is no later than [now]. *)
Fixpoint in_order (now : Z) (h : list Event) : Prop :=
  match h with
  | [] => True
  | (Login _ _ t | Check _ t) :: h' => t <= now /\ in_order t h'
  | _ :: h' => in_order now h'
  end.

(** The session table is that history, less what a check has found expired. *)
Definition tells sv0 (h : list Event) (now : Z) (tok : string) (entry : option Z) : Prop :=
  entry = (fun t => t + tokenTTL) <$> issued sv0 tok h \/
  (entry = None /\ exists t, issued sv0 tok h = Some t /\ t + tokenTTL < now).

Lemma run_cli sv h : cliToken (run sv h) = cliToken sv.
Proof.
  induction h as [|e h IH]; [done|]. simpl. rewrite <- IH. destruct e as [pw r now|tok now|tok|pw salt]; simpl.
  - unfold VerifyAndIssue. destruct (store.Get _ _); [|done..]. destruct (negb _); [done|].
    by destruct (newRandomToken r) as [r' [x| |]].
  - unfold ValidateSession. repeat case_bool_decide; try done. destruct (sessions _ !! tok); [|done]. by destruct (_ <? _).
  - unfold Logout. by case_bool_decide.
  - unfold SetPassword. destruct (_ <? _)%nat; [done|]. destruct (bcrypt_Generate _ _); [|done..]. by destruct (store.Put _ _ _).
Qed.

Lemma in_order_le now now' h : now <= now' -> in_order now h -> in_order now' h.
Proof. intros Hn. induction h as [|[] h IH]; simpl; [done|intros [? ?]; split; [lia|done]..|done|done]. Qed.

Lemma run_tells sv0 tok : sessions sv0 = ∅ -> tok <> cliToken sv0 -> forall h now,
  in_order now h -> tells sv0 h now tok (sessions (run sv0 h) !! tok).
Proof.
  intros Hs Hcli. induction h as [|e h IH]; intros now Ho; [left; simpl; by rewrite Hs, lookup_empty|].
  destruct e as [pw r t|tok' t|tok'|pw salt]; simpl in Ho |- *.
  - destruct Ho as [Ht Ho]. pose proof (IH t Ho) as IHt. unfold tells in *. cbn [issued]. unfold VerifyAndIssue.
    assert (IHn : tells sv0 h now tok (sessions (run sv0 h) !! tok)) by (apply IH; by eapply in_order_le).
    destruct (store.Get _ _); [|exact IHn..]. destruct (negb _); [exact IHn|].
    destruct (newRandomToken r) as [r' [x| |]]; [|exact IHn..]. simpl. case_bool_decide as E.
    + subst x. left. by rewrite lookup_insert_eq.
    + by rewrite lookup_insert_ne.
  - destruct Ho as [Ht Ho]. pose proof (IH t Ho) as IHt. unfold tells in *. cbn [issued].
    assert (IHn : tells sv0 h now tok (sessions (run sv0 h) !! tok)) by (apply IH; by eapply in_order_le).
    unfold ValidateSession. repeat case_bool_decide; try exact IHn.
    destruct (sessions (run sv0 h) !! tok') as [exp|] eqn:Ee; [|exact IHn]. destruct (Z.ltb_spec exp t); [|exact IHn].
    simpl. destruct (decide (tok' = tok)) as [->|Hne]; [|by rewrite lookup_delete_ne].
    right. rewrite lookup_delete_eq. split; [done|]. rewrite Ee in IHt. destruct IHt as [IHt|[? _]]; [|done].
    destruct (issued sv0 tok h) as [t0|]; [|done]. injection IHt as ->. exists t0. split; [done|lia].
  - pose proof (IH now Ho) as IHn. unfold tells in *. cbn [issued]. unfold Logout. rewrite run_cli.
    case_bool_decide as Ec; case_bool_decide as Et; try congruence.
    + left. simpl. subst. by rewrite lookup_delete_eq.
    + simpl. by rewrite lookup_delete_ne.
  - pose proof (IH now Ho) as IHn. unfold tells in *. cbn [issued]. unfold SetPassword. destruct (_ <? _)%nat; [done|].
    destruct (bcrypt_Generate _ _); [|done..]. by destruct (store.Put _ _ _).
Qed.

(** [C20] Sessions are what the history says.  After any run of logins, checks,
    logouts and password changes from a fresh service, with a clock that does
    not go back, [ValidateSession] accepts a token exactly if it is the CLI
    token, or the last login that issued it has not been followed by its logout
    and lies at most thirty days back.  In particular an expired session that a
    check has dropped from memory does not come back, and changing the password
    ends no session. *)
Theorem ValidateSession_history sv0 h tok now :
  sessions sv0 = ∅ -> in_order now h ->
  (ValidateSession (run sv0 h) tok now).2 =
    negb (bool_decide (tok = "")) &&
    (bool_decide (tok = cliToken sv0) ||
     match issued sv0 tok h with Some t => now <=? t + tokenTTL | None => false end).
Proof.
  intros Hs Ho. unfold ValidateSession. rewrite run_cli. repeat case_bool_decide; try done. cbn [negb andb orb].
  destruct (run_tells sv0 tok Hs ltac:(done) h now Ho) as [E|(E & t & Et & Hlt)].
  - rewrite E. destruct (issued sv0 tok h) as [t|]; [|done]. simpl.
    destruct (Z.ltb_spec (t + tokenTTL) now), (Z.leb_spec now (t + tokenTTL)); simpl; (done || lia).
  - rewrite E, Et. simpl. symmetry. apply Z.leb_gt. lia.
Qed.

Lemma newRandomToken_text rng rng' tok : newRandomToken rng = (rng', Ok tok) -> tok <> "".
Proof.
  unfold newRandomToken. destruct (rand_Read rng 32) as [r [b| |]] eqn:E; [|done..]. intros [= _ <-] ->%b64url_nil.
  by apply rand_Read_Ok in E as [? _].
Qed.

(** A token that was just issued is good for thirty days. *)
Lemma issued_valid sv pw rng now sv' rng' tok t :
  VerifyAndIssue sv pw rng now = (sv', rng', Ok tok) -> t <= now + tokenTTL ->
  (ValidateSession (NewService _ (store_ sv') (cliToken sv') (sessions sv')) tok t).2 = true.
Proof.
  unfold VerifyAndIssue. destruct (store.Get _ _) as [hash| |]; [|done..]. destruct (negb _); [done|].
  destruct (newRandomToken rng) as [r [x| |]] eqn:Hr; [|done..]. intros [= <- <- <-] Ht. unfold ValidateSession. simpl.
  apply newRandomToken_text in Hr.
  rewrite bool_decide_eq_false_2 by done. case_bool_decide; [done|].
  by rewrite lookup_insert_eq, (proj2 (Z.ltb_ge _ _)) by lia.
Qed.

Lemma issued_has_password sv pw rng now sv' rng' tok :
  VerifyAndIssue sv pw rng now = (sv', rng', Ok tok) -> HasPassword sv' = true.
Proof.
  unfold VerifyAndIssue, HasPassword. destruct (store.Get _ _) as [hash| |] eqn:E; [|done..]. destruct (negb _); [done|].
  destruct (newRandomToken rng) as [r [x| |]]; [|done..]. intros [= <- <- <-]. simpl. by rewrite E.
Qed.

(** The password is the one last set.  After a successful [SetPassword] a
    login with that password is granted whenever a token can be drawn, and the
    token is accepted at once; and a password that [SetPassword] takes has at
    least six bytes. *)
Theorem SetPassword_login sv pw salt sv' rng rng' tok now :
  SetPassword sv pw salt = (sv', Ok tt) -> newRandomToken rng = (rng', Ok tok) ->
  (6 <= String.length pw)%nat /\
  exists sv'', VerifyAndIssue sv' pw rng now = (sv'', rng', Ok tok) /\ (ValidateSession sv'' tok now).2 = true /\
    HasPassword sv'' = true.
Proof.
  unfold SetPassword. destruct (Nat.ltb_spec (String.length pw) 6) as [|Hl]; [done|].
  destruct (bcrypt_Generate (bytes_of_string pw) salt) as [hash| |] eqn:Hh; [|done..].
  destruct (store.Put _ _ _) as [s' r] eqn:HP. intros [= <- ->] Hr. pose proof (newRandomToken_text _ _ _ Hr) as Ht. split; [done|].
  assert (HG : store.Get s' keyPasswordHash = Ok hash).
  { by rewrite store.Get_spec, (store.Put_Ok _ _ _ _ HP), lookup_insert_eq. }
  unfold VerifyAndIssue. cbn [store_]. rewrite HG, (bcrypt_Compare_Generate _ _ _ Hh). simpl. rewrite Hr.
  eexists. split_and!; [done| |].
  - unfold ValidateSession. simpl. rewrite bool_decide_eq_false_2 by done. case_bool_decide; [done|].
    rewrite lookup_insert_eq. unfold tokenTTL. by rewrite (proj2 (Z.ltb_ge _ _)) by lia.
  - unfold HasPassword. simpl. by rewrite HG.
Qed.

End with_libraries.

(** ** Witnesses *)

Definition fresh : Service (H := mem_badger) := NewService mem_badger store.empty "cli" ∅.

Definition ready : Service (H := mem_badger) := (SetPassword fresh "hunter22" []).1.

Definition visit : list Event := [Check "x" 9; Login "hunter22" (replicate 32 Byte.x07) 5].

Lemma ValidateSession_history_witness :
  (ValidateSession (run ready visit) "BwcHBwcHBwcHBwcHBwcHBwcHBwcHBwcHBwcHBwcHBwc" 10).2 = true.
Proof.
  rewrite (ValidateSession_history ready visit "BwcHBwcHBwcHBwcHBwcHBwcHBwcHBwcHBwcHBwcHBwc" 10).
  - vm_compute. reflexivity.
  - reflexivity.
  - simpl. lia.
Defined.

Lemma SetPassword_login_witness :
  exists sv'', VerifyAndIssue ready "hunter22" (replicate 32 Byte.x07) 5 =
    (sv'', [], Ok "BwcHBwcHBwcHBwcHBwcHBwcHBwcHBwcHBwcHBwcHBwc").
Proof.
  destruct (SetPassword_login fresh "hunter22" [] ready (replicate 32 Byte.x07) []
    "BwcHBwcHBwcHBwcHBwcHBwcHBwcHBwcHBwcHBwcHBwc" 5) as (_ & sv'' & E & _).
  - etrans; [apply surjective_pairing|]. apply (f_equal (pair ready)). reflexivity.
  - vm_compute. reflexivity.
  - exists sv''. exact E.
Defined.

End auth.
