(* ===== verification/Api.v ===== *)
(** * internal/api/server.go, types.go: the HTTP interface of the daemon

    A request is its route with the decoded body; a response is its status and
    payload.  The server's state is the configuration, the sessions, the state of
    the file service (with the node's store and disk) and the libp2p host. *)

From stdpp Require Import pretty.
From S2P Require Import Prelude Ext Concrete Store Fs Blockstore Crypto Ec Holders Cache Manifest Ledger Group.
From S2P Require Import Blocks Spool Base64 File Reader Upload Repair Scenario Fuse Invite Join Auth Config Peers.

Module api.
Import file.

(** ** Messages (types.go) *)

Record MemberSummary := NewMemberSummary {
  ms_PeerID : string;
  ms_Nickname : string;
  ms_ContributedB : Z;
  ms_JoinedAt : Z;
  ms_IsOnline : bool;
  ms_Reputation : Z;
  ms_OfflineSince : Z
}.

Record GroupSummary := NewGroupSummary {
  gs_ID : string;
  gs_Name : string;
  gs_IsAdmin : bool;
  gs_Members : list MemberSummary
}.

Record StatusResponse := NewStatusResponse {
  sr_PeerID : string;
  sr_Nickname : string;
  sr_DataDir : string;
  sr_ContributedB : Z;
  sr_ListenAddrs : list string;
  sr_Groups : list GroupSummary;
  sr_ConnectedPeers : list string
}.

Record InviteRequest := NewInviteRequest { ir_GroupID : string; ir_Bootstrap : list string; ir_TTLHours : Z; ir_QuotaGB : Z }.

Record FileSummary := NewFileSummary {
  fs_FileID : string;
  fs_GroupID : string;
  fs_GroupName : string;
  fs_Filename : string;
  fs_Size : Z;
  fs_CreatedAt : Z;
  fs_Owner : string;
  fs_Mode : string;
  fs_Encrypted : bool
}.

Record ConfigPublic := NewConfigPublic { cp_Nickname : string; cp_PublicHost : string; cp_PublicPort : Z; cp_ContributedB : Z }.

Record ConfigPatch := NewConfigPatch { patch_PublicHost : option string; patch_PublicPort : option Z }.

(** What a response carries.  A download sends the length first and then the
    bytes; [None] is a copy that failed or has not ended. *)
Inductive Payload :=
  | ErrorBody (msg : string)
  | AuthStateBody (state : string)
  | AuthBody (ok : bool) (token : string)
  | ConfigBody (c : ConfigPublic)
  | StatusBody (r : StatusResponse)
  | GroupsBody (gs : list GroupSummary)
  | GroupBody (g : GroupSummary)
  | JoinedBody (gid name : string) (members : Z)
  | LinkBody (link : string)
  | FilesBody (files : list FileSummary)
  | ManifestBody (m : manifest.Manifest)
  | StreamBody (length : Z) (sent : option bytes)
  | LedgerBody (entries : list ledger.Entry)
  | StaticBody.

(** The session cookie a response sets: a token, or its removal. *)
Record Response := NewResponse { status : Z; payload : Payload; cookie : option (option string) }.

Definition writeJSON (code : Z) (body : Payload) : Response := NewResponse code body None.

Definition writeErr (code : Z) (e : goerr) : Response := writeJSON code (ErrorBody (node.error_string e)).

Definition setSessionCookie (r : Response) (tok : string) : Response := NewResponse (status r) (payload r) (Some (Some tok)).

(** What authenticates a request: the session cookie, the token header. *)
Record Credentials := NewCredentials { r_Cookie : option string; r_AuthToken : string }.

Definition extractToken (c : Credentials) : string :=
  match r_Cookie c with
  | Some v => if bool_decide (v = "") then r_AuthToken c else v
  | None => r_AuthToken c
  end.

(** The routes of [New]; bodies are decoded ([Err] if they are not JSON of the
    expected shape). *)
Inductive Route :=
  | GET_auth_state
  | POST_auth_init (password : outcome string)
  | POST_auth_login (password : outcome string)
  | POST_auth_logout
  | GET_status
  | GET_groups
  | POST_groups (name : outcome string)
  | POST_groups_join (link : outcome string)
  | POST_invite (req : outcome InviteRequest)
  | GET_files
  | POST_files (name mode gid : string) (body : Body)
  | GET_file_content (id : string)
  | GET_ledger
  | GET_config
  | PATCH_config (patch : outcome ConfigPatch)
  | Static.

(** Those [New] does not wrap in [requireAuth]. *)
Definition ungated (r : Route) : bool :=
  match r with
  | GET_auth_state | POST_auth_init _ | POST_auth_login _ | POST_auth_logout | Static => true
  | _ => false
  end.

Section with_libraries.
Context `{Badger, !Sha256, !manifest.ManifestCbor, !ledger.EntryCbor, !node.RequestCbor, !node.ResponseCbor,
  PeerIDs, AesGcm, NaclBox, ReedSolomon, !group.GroupCbor, !group.MemberCbor, !NameCbor}.
Context `{Bcrypt, Ed25519, !group.PayloadCbor, !group.AddrsCbor, !invite.InviteCbor, !config.Yaml, !Multiaddrs, !Host}.
Context (fate : nat -> string -> string -> node.Fate) (clock : nat -> Z) (disk : nat -> wio).
Context (range : gmap string group.Member -> list (string * group.Member)).
Context (range_ledger : ledger.dirty_map -> list (string * ledger.Entry)) (cwd : path).

(** [Deps], as far as it does not change: the file service (nil before it is
    attached), the identity. *)
Record Deps := NewDeps { Files : option file.Service; Self : pid; PubRaw : outcome bytes; SelfEncPub : bytes }.

Record Server := NewServer { Cfg : config.Config; cliToken : string; sessions : gmap string Z; files_ : FS; host_ : host }.

(** What a request meets: the clock, when it arrives and later; bcrypt's salt;
    the disk; what the join stream does; how long a download is watched. *)
Record Env := NewEnv {
  now : Z;
  later : Z;
  salt : bytes;
  wf : wfault;
  join_opened : pid -> outcome unit;
  join_exchange : pid -> join.JoinRequest -> outcome unit * outcome join.JoinResponse;
  watch : nat
}.

Implicit Types (sv : Server) (dp : Deps) (env : Env).

Definition set_files sv st : Server := NewServer (Cfg sv) (cliToken sv) (sessions sv) st (host_ sv).
Definition set_cfg sv c : Server := NewServer c (cliToken sv) (sessions sv) (files_ sv) (host_ sv).
Definition set_host sv h : Server := NewServer (Cfg sv) (cliToken sv) (sessions sv) (files_ sv) h.

(** Handlers: a response, or a panic, which net/http answers by closing the
    connection. *)
Abbreviation Handler := (Server -> Server * outcome Response).

Definition reply (r : Response) : Handler := fun sv => (sv, Ok r).

(** The local node. *)
Definition local dp sv : option node.NodeState := node.nodes (world (files_ sv)) !! peer_String (Self dp).

Definition set_local dp sv (n : node.NodeState) : Server :=
  set_files sv (NewFS (node.NewWorld (<[peer_String (Self dp) := n]> (node.nodes (world (files_ sv)))) (node.tick (world (files_ sv))))
    (rng (files_ sv)) (cached (files_ sv))).

Definition set_rng sv (r : bytes) : Server := set_files sv (NewFS (world (files_ sv)) r (cached (files_ sv))).

Definition with_db {A} dp (f : db -> A) (k : A -> Handler) : Handler := fun sv =>
  match local dp sv with
  | None => (sv, Panic)
  | Some n => k (f (node.nstore n)) sv
  end.

Definition on_db {A} dp (f : db -> db * A) (k : A -> Handler) : Handler := fun sv =>
  match local dp sv with
  | None => (sv, Panic)
  | Some n => let '(s', a) := f (node.nstore n) in k a (set_local dp sv (node.set_store n s'))
  end.

(** The authentication service works on the node's store. *)
Definition on_auth {A} dp (f : auth.Service -> auth.Service * A) (k : A -> Handler) : Handler := fun sv =>
  match local dp sv with
  | None => (sv, Panic)
  | Some n =>
      let '(a', x) := f (auth.NewService _ (node.nstore n) (cliToken sv) (sessions sv)) in
      k x (NewServer (Cfg sv) (auth.cliToken a') (auth.sessions a')
             (files_ (set_local dp sv (node.set_store n (auth.store_ a')))) (host_ sv))
  end.

Definition on_files {A} (c : file.M A) (k : outcome A -> Handler) : Handler := fun sv =>
  let '(st', r) := c (files_ sv) in k r (set_files sv st').

Definition on_rng {A} (f : bytes -> bytes * outcome A) (k : outcome A -> Handler) : Handler := fun sv =>
  let '(r', o) := f (rng (files_ sv)) in k o (set_rng sv r').

(** [if err != nil { writeErr(w, code, err); return }]; a panic goes on. *)
Definition or_fail {A} (code : Z) (r : outcome A) (k : A -> Handler) : Handler := fun sv =>
  match r with
  | Ok a => k a sv
  | Err e => (sv, Ok (writeErr code e))
  | Panic => (sv, Panic)
  end.

(** ** Authentication *)

Definition validate dp env (c : Credentials) : (bool -> Handler) -> Handler :=
  on_auth dp (fun a => auth.ValidateSession a (extractToken c) (now env)).

Definition requireAuth dp env (c : Credentials) (next : Handler) : Handler :=
  validate dp env c (fun ok =>
    if ok then next
    else on_auth dp (fun a => (a, auth.HasPassword a)) (fun has =>
      if negb has then reply (writeErr 401 (ErrMsg "daemon has no password set - open the Web UI to set one, or use the CLI inside the container"))
      else reply (writeErr 401 (ErrMsg "login required")))).

Definition handleAuthState dp env (c : Credentials) : Handler :=
  on_auth dp (fun a => (a, auth.HasPassword a)) (fun has =>
    if negb has then reply (writeJSON 200 (AuthStateBody "no_password"))
    else validate dp env c (fun ok =>
      reply (writeJSON 200 (AuthStateBody (if ok : bool then "ok" else "needs_login"))))).

(** [VerifyAndIssue] draws the token from the random supply. *)
Definition issue dp env (password : string) (k : outcome string -> Handler) : Handler := fun sv =>
  on_auth dp (fun a => let '(a', r, o) := auth.VerifyAndIssue a password (rng (files_ sv)) (now env) in (a', (r, o)))
    (fun x sv' => k x.2 (set_rng sv' x.1)) sv.

Definition handleAuthInit dp env (body : outcome string) : Handler :=
  on_auth dp (fun a => (a, auth.HasPassword a)) (fun has =>
    if has : bool then reply (writeErr 409 (ErrMsg "password already set - use UI to change it"))
    else
      or_fail 400 body (fun password =>
      on_auth dp (fun a => auth.SetPassword a password (salt env)) (fun r =>
      or_fail 400 r (fun _ =>
      issue dp env password (fun r =>
      or_fail 500 r (fun tok =>
      reply (setSessionCookie (writeJSON 200 (AuthBody true tok)) tok))))))).

Definition handleAuthLogin dp env (body : outcome string) : Handler :=
  or_fail 400 body (fun password =>
  issue dp env password (fun r =>
  or_fail 401 r (fun tok =>
  reply (setSessionCookie (writeJSON 200 (AuthBody true tok)) tok)))).

Definition handleAuthLogout dp (c : Credentials) : Handler :=
  let tok := extractToken c in
  on_auth dp (fun a => (if bool_decide (tok = "") then a else auth.Logout a tok, tt)) (fun _ =>
  reply (NewResponse 200 (AuthBody true "") (Some None))).

(** ** Configuration *)

Definition public_port (port : Z) : Z := if port =? 0 then 4001 else port.

Definition handleGetConfig : Handler := fun sv =>
  let c := Cfg sv in
  reply (writeJSON 200 (ConfigBody (NewConfigPublic (config.Nickname c) (config.PublicHost c)
    (public_port (config.PublicPort c)) (config.ContributedBytes c)))) sv.

Definition patch_cfg (c : config.Config) (p : ConfigPatch) : config.Config :=
  config.NewConfig (config.Nickname c) (config.DataDir c) (config.ContributedBytes c) (config.ListenAddrs c)
    (config.AnnounceAddrs c) (config.APIListen c) (config.HeartbeatSeconds c) (config.MountPath c)
    (default (config.PublicHost c) (patch_PublicHost p)) (default (config.PublicPort c) (patch_PublicPort p)).

Definition handlePatchConfig dp env (body : outcome ConfigPatch) : Handler :=
  or_fail 400 body (fun patch sv =>
    let cfg := patch_cfg (Cfg sv) patch in
    let sv1 := set_cfg sv cfg in
    match local dp sv1 with
    | None => (sv1, Panic)
    | Some n =>
        let '(f', r) := config.Save cwd (wf env) (node.nfs n) cfg in
        or_fail 500 r (fun _ => handleGetConfig) (set_local dp sv1 (node.set_fs n f'))
    end).

(** ** Status *)

(** The last entry of a peer wins, as in the Go map. *)
Definition by_peer (entries : list ledger.Entry) : gmap string ledger.Entry :=
  fold_left (fun m e => <[ledger.PeerID e := e]> m) entries ∅.

Definition membersWithLiveness dp (n : node.NodeState) (gid : string) : list MemberSummary :=
  let members := match group.ListMembers (node.nstore n) gid with Ok ms => ms | _ => [] end in
  let repByPeer := match node.nledger n with
                   | Some l => match ledger.All range_ledger (node.nstore n) l with Ok es => by_peer es | _ => ∅ end
                   | None => ∅
                   end in
  map (fun m =>
    let '(online, rep, off) :=
      if bool_decide (group.PeerID m = peer_String (Self dp)) then (true, 100, time_zero)
      else match repByPeer !! group.PeerID m with
           | Some e => (ledger.IsOnline_ e, ledger.Reputation e, ledger.OfflineSince e)
           | None => (false, 0, time_zero)
           end in
    NewMemberSummary (group.PeerID m) (group.Nickname m) (group.ContributedB m) (group.JoinedAt m) online rep off) members.

Definition summary dp (n : node.NodeState) (g : group.Group) : GroupSummary :=
  NewGroupSummary (group.ID g) (group.Name g) (group.IsAdminNode g) (membersWithLiveness dp n (group.ID g)).

Definition handleStatus dp : Handler := fun sv =>
  match local dp sv with
  | None => (sv, Panic)
  | Some n =>
      let groups := match group.ListGroups (node.nstore n) with Ok gs => gs | _ => [] end in
      reply (writeJSON 200 (StatusBody (NewStatusResponse (peer_String (Self dp)) (config.Nickname (Cfg sv))
        (config.DataDir (Cfg sv)) (config.ContributedBytes (Cfg sv)) (map maddr_String (host_Addrs (host_ sv)))
        (map (summary dp n) groups) (map peer_String (net_Peers (host_ sv)))))) sv
  end.

Definition handleListGroups dp : Handler := fun sv =>
  match local dp sv with
  | None => (sv, Panic)
  | Some n =>
      or_fail 500 (group.ListGroups (node.nstore n)) (fun groups =>
        reply (writeJSON 200 (GroupsBody (map (summary dp n) groups)))) sv
  end.

Definition handleLedger dp : Handler := fun sv =>
  match local dp sv with
  | None => (sv, Panic)
  | Some n =>
      match node.nledger n with
      | None => reply (writeJSON 200 (LedgerBody [])) sv
      | Some l => or_fail 500 (ledger.All range_ledger (node.nstore n) l) (fun entries =>
                    reply (writeJSON 200 (LedgerBody entries))) sv
      end
  end.

(** ** Groups *)

Definition handleCreateGroup dp env (body : outcome string) : Handler :=
  or_fail 400 body (fun name =>
  if bool_decide (name = "") then reply (writeErr 400 (ErrMsg "name is required"))
  else
    on_rng (fun r => group.Create r name (now env)) (fun r =>
    or_fail 500 r (fun g =>
    on_db dp (fun s => group.Save s g) (fun r =>
    or_fail 500 r (fun _ =>
    or_fail 500 (PubRaw dp) (fun pubRaw =>
    or_fail 500 (group.AdmitMember g (peer_String (Self dp)) (later env)) (fun sig sv =>
    let m := group.NewMember (peer_String (Self dp)) (config.Nickname (Cfg sv)) pubRaw (SelfEncPub dp)
      (config.ContributedBytes (Cfg sv)) (later env) sig [] [] in
    on_db dp (fun s => group.PutMember s (group.ID g) m) (fun r =>
    or_fail 500 r (fun _ =>
    reply (writeJSON 200 (GroupBody (NewGroupSummary (group.ID g) (group.Name g) true []))))) sv))))))).

Definition handleJoinGroup dp env (body : outcome string) : Handler :=
  or_fail 400 body (fun link =>
  or_fail 400 (owrap "decode invite: " (invite.Decode link (now env))) (fun inv =>
  with_db dp (fun s => group.LoadByID s (invite.GroupID inv)) (fun existing =>
  match existing with
  | Ok g => reply (writeErr 409 (ErrMsg ("already in group " +:+ group.Name g)))
  | Panic => fun sv => (sv, Panic)
  | Err _ => fun sv =>
      let '(h', r) := peers.ConnectToPeers (host_ sv) (invite.BootstrapPeers inv) in
      or_fail 502 (owrap "connect to bootstrap: " r) (fun p sv1 =>
      on_db dp (fun s => join.JoinViaPeer s (join_opened env p) (PubRaw dp) (config.Nickname (Cfg sv1))
                  (config.ContributedBytes (Cfg sv1)) (SelfEncPub dp) inv (join_exchange env p)) (fun r =>
      or_fail 500 r (fun resp =>
      on_db dp (fun s => group.SaveBootstrap s (invite.GroupID inv) (invite.BootstrapPeers inv)) (fun r =>
      or_fail 500 r (fun _ =>
      reply (writeJSON 200 (JoinedBody (join.GroupID resp) (join.GroupName resp) (zlen (join.Members resp)))))))) sv1)
      (set_host sv h')
  end))).

(** [time.Duration(hours) * time.Hour] *)
Definition hours (n : Z) : Z := wrap64 (n * (3600 * 10 ^ 9)).

Definition invite_ttl (ttlHours : Z) : Z := if hours ttlHours =? 0 then hours 72 else hours ttlHours.

Definition quota_bytes (quotaGB : Z) : Z := if 0 <? quotaGB then wrap64 (quotaGB * (1024 * 1024 * 1024)) else 0.

(** [/dns4/<host>/tcp/<port>/p2p/<peer id>] *)
Definition dns_bootstrap dp (c : config.Config) : string :=
  "/dns4/" +:+ config.PublicHost c +:+ "/tcp/" +:+ pretty (public_port (config.PublicPort c)) +:+ "/p2p/" +:+ peer_String (Self dp).

Definition choose_group (s : db) (gid : string) : outcome string :=
  if negb (bool_decide (gid = "")) then Ok gid
  else match group.ListGroups s with
       | Ok [g] => Ok (group.ID g)
       | Ok gs => Err (ErrMsg ("specify group_id; you are in " +:+ pretty (zlen gs) +:+ " groups"))
       | _ => Err (ErrMsg "specify group_id; you are in 0 groups")
       end.

Definition bootstrap_of dp (c : config.Config) (req : InviteRequest) : list string :=
  if bool_decide (ir_Bootstrap req = []) then [dns_bootstrap dp c] else ir_Bootstrap req.

Definition handleInvite dp env (body : outcome InviteRequest) : Handler :=
  or_fail 400 body (fun req sv =>
  if bool_decide (ir_Bootstrap req = []) && bool_decide (config.PublicHost (Cfg sv) = "")
  then reply (writeErr 400 (ErrMsg "bootstrap is required")) sv
  else
    let bootstrap := bootstrap_of dp (Cfg sv) req in
    with_db dp (fun s => let gid := choose_group s (ir_GroupID req) in
                         (gid, let! gid := gid in group.LoadByID s gid)) (fun '(gid, loaded) =>
    or_fail 400 gid (fun gid =>
    or_fail 404 loaded (fun g =>
    if negb (group.IsAdminNode g) then
      or_fail 500 (str_slice gid 0 12) (fun short =>
        reply (writeErr 403 (ErrMsg ("not the admin of group " +:+ short))))
    else
      on_rng (fun r => invite.Create r g bootstrap (invite_ttl (ir_TTLHours req)) (quota_bytes (ir_QuotaGB req)) (now env)) (fun r =>
      or_fail 500 r (fun inv =>
      or_fail 500 (invite.Encode inv) (fun link =>
      reply (writeJSON 200 (LinkBody link)))))))) sv).

(** ** Files *)

(** [groupNames[m.GroupID]]: the last group of that identifier, or nothing. *)
Definition group_names (s : db) : gmap string string :=
  match group.ListGroups s with
  | Ok gs => fold_left (fun m g => <[group.ID g := group.Name g]> m) gs ∅
  | _ => ∅
  end.

Definition file_summary (names : gmap string string) (m : manifest.Manifest) : FileSummary :=
  NewFileSummary (manifest.FileID m) (manifest.GroupID m) (default "" (names !! manifest.GroupID m)) (manifest.Filename m)
    (manifest.Size m) (Unix (manifest.CreatedAt m)) (manifest.OwnerPeerID m) (manifest.Mode m) (manifest.FilenameEncrypted m).

Definition handleListFiles dp : Handler :=
  match Files dp with
  | None => reply (writeJSON 200 (FilesBody []))
  | Some fsv =>
      with_db dp (fun s => (List fsv s, group_names s)) (fun '(ms, names) =>
      or_fail 500 ms (fun ms => reply (writeJSON 200 (FilesBody (map (file_summary names) ms)))))
  end.

Definition handleUpload dp (name mode gid : string) (body : Body) : Handler :=
  match Files dp with
  | None => reply (writeErr 503 (ErrMsg "file service not initialized"))
  | Some fsv =>
      let filename := if bool_decide (name = "") then "unnamed" else name in
      on_files (Put fate clock disk fsv filename body (NewPutOptions gid mode)) (fun r =>
      or_fail 500 r (fun m => reply (writeJSON 200 (ManifestBody m))))
  end.

(** The header with the length is out before the copy starts; a copy that fails
    is only logged, which cuts the identifier. *)
Definition handleDownload dp env (id : string) : Handler :=
  match Files dp with
  | None => reply (writeErr 503 (ErrMsg "file service not initialized"))
  | Some fsv =>
      if bool_decide (id = "") then reply (writeErr 400 (ErrMsg "missing file id"))
      else
        on_files (OpenReader fate clock disk range fsv id) (fun r =>
        or_fail 500 r (fun rdr =>
        on_files (reader.io_Copy fate clock disk (watch env) fsv rdr []) (fun r =>
        match r with
        | Ok sent => reply (writeJSON 200 (StreamBody (reader.Size rdr) sent))
        | Err _ => or_fail 500 (str_slice id 0 12) (fun _ => reply (writeJSON 200 (StreamBody (reader.Size rdr) None)))
        | Panic => fun sv => (sv, Panic)
        end)))
  end.

(** ** The multiplexer *)

Definition handler dp env (c : Credentials) (r : Route) : Handler :=
  match r with
  | GET_auth_state => handleAuthState dp env c
  | POST_auth_init b => handleAuthInit dp env b
  | POST_auth_login b => handleAuthLogin dp env b
  | POST_auth_logout => handleAuthLogout dp c
  | GET_status => handleStatus dp
  | GET_groups => handleListGroups dp
  | POST_groups b => handleCreateGroup dp env b
  | POST_groups_join b => handleJoinGroup dp env b
  | POST_invite b => handleInvite dp env b
  | GET_files => handleListFiles dp
  | POST_files name mode gid b => handleUpload dp name mode gid b
  | GET_file_content id => handleDownload dp env id
  | GET_ledger => handleLedger dp
  | GET_config => handleGetConfig
  | PATCH_config b => handlePatchConfig dp env b
  | Static => reply (writeJSON 200 StaticBody)
  end.

Definition ServeHTTP dp env (c : Credentials) (r : Route) : Handler :=
  if ungated r then handler dp env c r else requireAuth dp env c (handler dp env c r).

(** ** The gate *)

(** The authentication service the server works with. *)
Definition auth_of sv (n : node.NodeState) : auth.Service := auth.NewService _ (node.nstore n) (cliToken sv) (sessions sv).

Lemma set_store_same (n : node.NodeState) : node.set_store n (node.nstore n) = n.
Proof. by destruct n. Qed.

Lemma set_local_same dp sv n : local dp sv = Some n -> set_local dp sv n = sv.
Proof.
  unfold local, set_local, set_files. intros Hn. rewrite insert_id by done. by destruct sv as [? ? ? [[? ?] ? ?] ?].
Qed.

Lemma ValidateSession_frame a tok t :
  auth.store_ (auth.ValidateSession a tok t).1 = auth.store_ a /\
  auth.cliToken (auth.ValidateSession a tok t).1 = auth.cliToken a /\
  auth.sessions (auth.ValidateSession a tok t).1 ⊆ auth.sessions a /\
  ((auth.ValidateSession a tok t).2 = true -> (auth.ValidateSession a tok t).1 = a).
Proof.
  unfold auth.ValidateSession. repeat case_bool_decide; try done. destruct (auth.sessions a !! tok) as [e|]; [|done].
  destruct (e <? t); [|done]. split_and!; [done|done|apply delete_subseteq|done].
Qed.

Lemma on_auth_same {A} dp sv n (f : auth.Service -> auth.Service * A) k x :
  local dp sv = Some n -> f (auth_of sv n) = (auth_of sv n, x) -> on_auth dp f k sv = k x sv.
Proof.
  intros Hn Hf. unfold on_auth. rewrite Hn. fold (auth_of sv n). rewrite Hf. cbv beta iota.
  change (auth.store_ (auth_of sv n)) with (node.nstore n). rewrite set_store_same, (set_local_same dp sv n Hn).
  by destruct sv.
Qed.

Lemma requireAuth_valid dp env c next sv n :
  local dp sv = Some n -> (auth.ValidateSession (auth_of sv n) (extractToken c) (now env)).2 = true ->
  requireAuth dp env c next sv = next sv.
Proof.
  intros Hn Hv. unfold requireAuth, validate. rewrite (on_auth_same dp sv n _ _ true Hn); [done|].
  destruct (ValidateSession_frame (auth_of sv n) (extractToken c) (now env)) as (_ & _ & _ & E).
  etrans; [apply surjective_pairing|]. by rewrite Hv, (E Hv).
Qed.

(** [C29] No session, no effect.  A request to any route but the four
    authentication routes and the static pages, without the token of a live
    session or the CLI token, is answered 401 before its handler runs: the
    configuration, the node's store, files and disk, the random supply and the
    host are as before, and no session is added (an expired one may go).  With
    such a token the handler runs on the state as it is. *)
Theorem gate_refuses dp env c r sv n :
  ungated r = false -> local dp sv = Some n ->
  if (auth.ValidateSession (auth_of sv n) (extractToken c) (now env)).2
  then ServeHTTP dp env c r sv = handler dp env c r sv
  else exists sess msg, sess ⊆ sessions sv /\
    ServeHTTP dp env c r sv =
      (NewServer (Cfg sv) (cliToken sv) sess (files_ sv) (host_ sv), Ok (writeErr 401 (ErrMsg msg))).
Proof.
  intros Hr Hn. unfold ServeHTTP. rewrite Hr.
  destruct (auth.ValidateSession (auth_of sv n) (extractToken c) (now env)).2 eqn:Hv; [by apply requireAuth_valid with n|].
  destruct (ValidateSession_frame (auth_of sv n) (extractToken c) (now env)) as (E1 & E2 & E3 & _).
  unfold requireAuth, validate. unfold on_auth at 1. rewrite Hn. fold (auth_of sv n).
  destruct (auth.ValidateSession (auth_of sv n) (extractToken c) (now env)) as [a' ok] eqn:Ha. cbn [fst snd] in *. subst ok.
  rewrite E1. cbv beta iota. change (auth.store_ (auth_of sv n)) with (node.nstore n).
  rewrite set_store_same, (set_local_same dp sv n Hn), E2. change (auth.cliToken (auth_of sv n)) with (cliToken sv).
  set (sv1 := NewServer (Cfg sv) (cliToken sv) (auth.sessions a') (files_ sv) (host_ sv)).
  assert (Hn1 : local dp sv1 = Some n) by exact Hn.
  rewrite (on_auth_same dp sv1 n _ _ (auth.HasPassword (auth_of sv1 n)) Hn1) by done.
  destruct (auth.HasPassword (auth_of sv1 n)); simpl; eexists _, _; (split; [exact E3|reflexivity]).
Qed.

(** ** First-time setup *)

Lemma local_set_local dp sv n : local dp (set_local dp sv n) = Some n.
Proof. unfold local, set_local. simpl. apply lookup_insert_eq. Qed.

(** The password can be set up once.  When [/v1/auth/init] answers 200,
    the response carries a session token, in its body and as the cookie; every
    request with that token passes the gate for thirty days; and every later
    attempt to set a password this way is answered 409 and changes nothing. *)
Theorem init_once dp env pw sv sv' resp :
  is_Some (local dp sv) -> handleAuthInit dp env (Ok pw) sv = (sv', Ok resp) -> status resp = 200 ->
  exists tok, payload resp = AuthBody true tok /\ cookie resp = Some (Some tok) /\
    (forall env' c r, extractToken c = tok -> now env' <= now env + auth.tokenTTL -> ungated r = false ->
       ServeHTTP dp env' c r sv' = handler dp env' c r sv') /\
    forall env' body, exists msg, handleAuthInit dp env' body sv' = (sv', Ok (writeErr 409 (ErrMsg msg))).
Proof.
  intros [n Hn] HI Hs. unfold handleAuthInit in HI.
  rewrite (on_auth_same dp sv n _ _ (auth.HasPassword (auth_of sv n)) Hn) in HI by done.
  destruct (auth.HasPassword (auth_of sv n)); [by injection HI as <- <-|]. cbn [or_fail] in HI.
  unfold on_auth at 1 in HI. rewrite Hn in HI. fold (auth_of sv n) in HI.
  destruct (auth.SetPassword (auth_of sv n) pw (salt env)) as [a1 r1] eqn:HS1.
  destruct r1 as [[]|e|]; [|by injection HI as <- <-|done]. cbn [or_fail] in HI.
  set (sv1 := NewServer _ _ _ _ _) in HI. unfold issue, on_auth at 1 in HI.
  assert (Hn1 : local dp sv1 = Some (node.set_store n (auth.store_ a1))) by (unfold local, sv1; simpl; apply lookup_insert_eq).
  rewrite Hn1 in HI. fold (auth_of sv1 (node.set_store n (auth.store_ a1))) in HI.
  assert (Ha1 : auth_of sv1 (node.set_store n (auth.store_ a1)) = a1) by (unfold auth_of, sv1; simpl; by destruct a1).
  rewrite Ha1 in HI. destruct (auth.VerifyAndIssue a1 pw (rng (files_ sv1)) (now env)) as [[a2 rng2] o2] eqn:HI2.
  destruct o2 as [tok|e|]; [|by injection HI as <- <-|done]. cbn [or_fail snd fst] in HI. injection HI as <- <-.
  exists tok. split_and!; [done|done| |].
  - intros env' c r Hc Ht Hr. unfold ServeHTTP. rewrite Hr.
    eapply requireAuth_valid; [unfold local; simpl; apply lookup_insert_eq|]. rewrite Hc. unfold auth_of. simpl.
    by apply (auth.issued_valid a1 pw (rng (files_ sv1)) (now env) a2 rng2 tok (now env')).
  - intros env' body. unfold handleAuthInit.
    set (sv2 := set_rng _ _). assert (Hn2 : local dp sv2 = Some (node.set_store (node.set_store n (auth.store_ a1)) (auth.store_ a2)))
      by (unfold local, sv2; simpl; apply lookup_insert_eq).
    rewrite (on_auth_same dp sv2 _ _ _ (auth.HasPassword (auth_of sv2 (node.set_store (node.set_store n (auth.store_ a1)) (auth.store_ a2)))) Hn2) by done.
    assert (HP : auth.HasPassword (auth_of sv2 (node.set_store (node.set_store n (auth.store_ a1)) (auth.store_ a2))) = true).
    { unfold auth_of, sv2, auth.HasPassword. simpl. exact (auth.issued_has_password a1 pw (rng (files_ sv1)) (now env) a2 rng2 tok HI2). }
    rewrite HP. by eexists.
Qed.

(** ** Files over HTTP *)

(** A download sends the file.  In a state where the file can be read
    ([k] holders within reach), [GET /v1/files/{id}/content] answers 200, the
    length it announces is the length of the file, and the bytes it sends are
    the file's. *)
Theorem download_sends_file dp env fsv m g key content sv :
  Files dp = Some fsv -> manifest.FileID m <> "" ->
  upload.can_download fate fsv m g content (files_ sv) -> unwrapForMode fsv m g = Ok key ->
  reader.holds_file (node.disks (world (files_ sv))) m key content ->
  zlen content + reader.copy_buffer < 2 ^ 63 -> zlen content < Z.of_nat (watch env) * reader.copy_buffer ->
  exists sv', handleDownload dp env (manifest.FileID m) sv =
    (sv', Ok (writeJSON 200 (StreamBody (zlen content) (Some content)))).
Proof.
  intros Hf Hid Hcan Hk HF Hb Hfuel.
  destruct (upload.open_ready fate clock disk range fsv m g key content (files_ sv) Hcan Hk HF) as (st1 & E1 & Hready & Hreach).
  unfold handleDownload. rewrite Hf, bool_decide_eq_false_2 by done. unfold on_files at 1. rewrite E1. cbn [or_fail].
  set (r := NewReader _ _ _ _) in *. unfold on_files. cbn [files_ set_files].
  destruct (reader.io_Copy_spec fate clock disk fsv content _ (watch env) r [] st1 Hready Hreach)
    as [st2 E2]; [simpl; pose proof (zlen_nonneg content); lia|done|simpl; lia|].
  rewrite E2. eexists. unfold reply. do 3 f_equal. unfold reader.Size.
  rewrite (reader.hf_size _ _ _ _ (reader.rd_file _ _ _ _ _ Hready)). done.
Qed.

(** ** Invites *)

Lemma hours_exact n : Z.abs n <= 2562047 -> hours n = n * (3600 * 10 ^ 9).
Proof. intros Hn. unfold hours. apply wrap64_id. unfold in_int64. lia. Qed.

Lemma invite_ttl_exact n :
  0 <= n <= 2562047 -> invite_ttl n = (if n =? 0 then 72 else n) * (3600 * 10 ^ 9).
Proof.
  intros Hn. unfold invite_ttl. rewrite !hours_exact by lia. destruct (Z.eqb_spec n 0) as [->|Hne]; [done|].
  rewrite (proj2 (Z.eqb_neq _ _)); lia.
Qed.

(** Twice as long a time wraps around to a negative one. *)
Lemma hours_wraps n : 2562048 <= n <= 5124095 -> hours n < 0.
Proof.
  intros Hn. unfold hours, wrap64.
  replace (n * (3600 * 10 ^ 9) + 2 ^ 63) with (n * (3600 * 10 ^ 9) + 2 ^ 63 - 2 ^ 64 + 1 * 2 ^ 64) by lia.
  rewrite Z.mod_add, Z.mod_small by lia. lia.
Qed.

Lemma Create_invite r g bootstrap ttl quota t r' inv :
  invite.Create r g bootstrap ttl quota t = (r', Ok inv) ->
  group.AdminPub g = ed25519_pub (group.AdminPriv g) ->
  invite.GroupID inv = group.ID g /\ invite.GroupName inv = group.Name g /\ invite.BootstrapPeers inv = bootstrap /\
  invite.IssuedAt inv = Unix t /\ invite.ExpiresAt inv = Unix (t + ttl) /\ invite.QuotaCap inv = quota /\
  forall t', invite.Verify inv t' = if Unix (t + ttl) <? Unix t' then Err (ErrMsg "invite: expired") else Ok tt.
Proof.
  unfold invite.Create. destruct (negb _); [done|]. destruct (rand_Read r 16) as [r1 [nonce| |]]; [|done..].
  intros [= <- HC] Hpub. destruct (invite.signedBytes _) as [body| |] eqn:Hb; [|done..]. injection HC as <-.
  split_and!; try done. intros t'. by rewrite (invite.Verify_signed _ (group.AdminPriv g) body).
Qed.

Lemma handleInvite_inv dp env req sv sv' link n :
  local dp sv = Some n -> handleInvite dp env (Ok req) sv = (sv', Ok (writeJSON 200 (LinkBody link))) ->
  exists gid g inv r r', group.LoadByID (node.nstore n) gid = Ok g /\ group.IsAdminNode g = true /\
    invite.Create r g (bootstrap_of dp (Cfg sv) req) (invite_ttl (ir_TTLHours req)) (quota_bytes (ir_QuotaGB req)) (now env) =
      (r', Ok inv) /\ invite.Encode inv = Ok link.
Proof.
  intros Hn. unfold handleInvite. cbn [or_fail]. destruct (_ && _); [done|]. unfold with_db. rewrite Hn.
  destruct (choose_group (node.nstore n) (ir_GroupID req)) as [gid|e|] eqn:Hgid; cbn [or_fail obind]; [|done..].
  destruct (group.LoadByID (node.nstore n) gid) as [g|e|] eqn:HL; cbn [or_fail]; [|done..].
  destruct (negb (group.IsAdminNode g)) eqn:Hadm.
  { destruct (str_slice gid 0 12); cbn [or_fail]; done. }
  unfold on_rng. destruct (invite.Create _ _ _ _ _ _) as [r' [inv|e|]] eqn:HC; cbn [or_fail]; [|done..].
  destruct (invite.Encode inv) as [l|e|] eqn:HE; cbn [or_fail]; [|done..]. intros [= _ <-].
  apply negb_false_iff in Hadm. eauto 10.
Qed.

Lemma Unix_add t n : Unix (t + n * (3600 * 10 ^ 9)) = Unix t + n * 3600.
Proof. unfold Unix. replace (n * (3600 * 10 ^ 9)) with (n * 3600 * 10 ^ 9) by lia. by rewrite Z.div_add by lia. Qed.

(** [C40] How long an invite lasts.  When [POST /v1/invite] answers with a
    link, the link decodes to an invite for a group this node administers, with
    the quota asked for, and it is accepted exactly until the lifetime
    [invite_ttl] has passed since it was made, to the second.  For 1 to 2562047
    hours that is the number of hours asked for; for 0 hours it is 72.  Beyond,
    the duration wraps around: for 2562048 to 5124095 hours it is negative, and
    the link the server hands out is refused as expired a second later; 5124096
    hours are 25 minutes. *)
Theorem invite_lifetime dp env req sv sv' link n :
  local dp sv = Some n -> handleInvite dp env (Ok req) sv = (sv', Ok (writeJSON 200 (LinkBody link))) ->
  (forall gid g, group.LoadByID (node.nstore n) gid = Ok g -> group.IsAdminNode g = true ->
     group.AdminPub g = ed25519_pub (group.AdminPriv g)) ->
  group.addrs_ok (bootstrap_of dp (Cfg sv) req) = true -> 0 <= now env < 2 ^ 62 ->
  invite.empty_refused ->
  exists gid g inv, group.LoadByID (node.nstore n) gid = Ok g /\ group.IsAdminNode g = true /\
    invite.GroupID inv = group.ID g /\ invite.QuotaCap inv = quota_bytes (ir_QuotaGB req) /\
    (forall t, invite.Decode link t =
       if Unix (now env + invite_ttl (ir_TTLHours req)) <? Unix t then Err (ErrMsg "invite: expired") else Ok inv) /\
    (0 <= ir_TTLHours req <= 2562047 -> forall t,
       invite.Decode link t =
       if Unix (now env) + (if ir_TTLHours req =? 0 then 72 else ir_TTLHours req) * 3600 <? Unix t
       then Err (ErrMsg "invite: expired") else Ok inv) /\
    (2562048 <= ir_TTLHours req <= 5124095 -> exists e, invite.Decode link (now env + 10 ^ 9) = Err e) /\
    (ir_TTLHours req = 5124096 ->
       invite.Decode link (now env + 1500 * 10 ^ 9) = Ok inv /\ exists e, invite.Decode link (now env + 1528 * 10 ^ 9) = Err e).
Proof.
  clear fate. intros Hn HI Hkey Hboot Hnow Hne.
  destruct (handleInvite_inv _ _ _ _ _ _ _ Hn HI) as (gid & g & inv & r & r' & HL & Hadm & HC & HE).
  destruct (Create_invite _ _ _ _ _ _ _ _ HC (Hkey gid g HL Hadm)) as (I1 & I2 & I3 & I4 & I5 & I6 & HV).
  assert (Hg : group.group_ok g = true).
  { unfold group.LoadByID in HL. destruct (store.Get _ _) as [raw|e|]; [by apply Unmarshal_ok in HL| |done].
    by destruct (errors_Is _ _). }
  assert (Httl : in_int64 (invite_ttl (ir_TTLHours req))) by (unfold invite_ttl; destruct (_ =? 0); apply wrap64_range).
  assert (Hq : int64_ok (quota_bytes (ir_QuotaGB req)) = true).
  { unfold quota_bytes. destruct (_ <? _); [apply ledger.int64_wrap|reflexivity]. }
  assert (Hok : invite.invite_ok inv = true).
  { unfold invite.invite_ok, group.payload_ok, invite.payload. simpl. rewrite I1, I2, I3, I4, I5, I6, Hq.
    unfold group.addrs_ok in Hboot. unfold group.group_ok in Hg. go_bool. unfold in_int64 in Httl.
    repeat match goal with E : _ = true |- _ => rewrite E end. simpl. unfold int64_ok, Unix.
    assert (Hb : forall z, - 2 ^ 64 <= z < 2 ^ 64 -> - 2 ^ 63 <= z / 10 ^ 9 < 2 ^ 63) by (intros; Z.div_mod_to_equations; lia).
    pose proof (Hb (now env) ltac:(lia)). pose proof (Hb (now env + invite_ttl (ir_TTLHours req)) ltac:(lia)).
    by rewrite !(proj2 (Z.leb_le _ _)), !(proj2 (Z.ltb_lt _ _)) by lia. }
  unfold invite.Encode in HE. destruct (Marshal inv) as [raw| |] eqn:Hraw; [|done..]. injection HE as <-.
  change (invite.Scheme +:+ "://join#" +:+ b64url_encode raw) with (invite.link_of raw).
  assert (HD : forall t, invite.Decode (invite.link_of raw) t = (let! _ := invite.Verify inv t in Ok inv)).
  { intros t. by apply invite.Decode_link; [| |eapply invite.raw_nonempty]. }
  exists gid, g, inv. assert (HT : forall t, invite.Decode (invite.link_of raw) t =
    if Unix (now env + invite_ttl (ir_TTLHours req)) <? Unix t then Err (ErrMsg "invite: expired") else Ok inv)
    by (intros t; rewrite HD, HV; by destruct (_ <? _)).
  split_and!; try done.
  - intros Ht t. by rewrite HT, invite_ttl_exact, Unix_add.
  - intros Ht. pose proof (hours_wraps _ Ht) as Hw. rewrite HT. unfold invite_ttl.
    rewrite (proj2 (Z.eqb_neq _ _)) by lia. rewrite (proj2 (Z.ltb_lt _ _)); [by eexists|].
    unfold Unix. Z.div_mod_to_equations; lia.
  - intros Ht. rewrite !HT, Ht. change (invite_ttl 5124096) with 1526290448384. unfold Unix. split.
    + rewrite (proj2 (Z.ltb_ge _ _)); [done|]. Z.div_mod_to_equations; lia.
    + rewrite (proj2 (Z.ltb_lt _ _)); [by eexists|]. Z.div_mod_to_equations; lia.
Qed.

End with_libraries.

(** ** Witnesses: Alice's daemon after the upload of [Scenario] *)

Import scenario.

Definition no_stream (p : pid (PeerIDs := toy_peers)) : outcome unit := Err (ErrMsg "no stream").

Definition no_answer (p : pid (PeerIDs := toy_peers)) (r : join.JoinRequest) : outcome unit * outcome join.JoinResponse :=
  (Ok tt, Err EOF).

Definition env0 : Env := NewEnv 1700000000000000000 1700000000000000000 [] WFine no_stream no_answer 1.

Definition cfg0 : config.Config := config.Default (Ok "nas") "/d".

Definition daemon0 : Server := NewServer cfg0 "cli" ∅ after peers.alice.

Definition deps0 : Deps := NewDeps (Some scenario.alice) ("A" : pid (PeerIDs := toy_peers)) (Ok []) [].

Definition node0 : node.NodeState := default fresh_node (local deps0 daemon0).

Lemma some_intro {A} (d : A) (o : option A) : (match o with Some _ => true | None => false end) = true -> o = Some (default d o).
Proof. by destruct o. Qed.

Lemma node0_local : local deps0 daemon0 = Some node0.
Proof. apply some_intro. vm_compute. reflexivity. Qed.

Abbreviation serve := (ServeHTTP bob_down node.sample_clock node.sample_disk members_range map_to_list []).

Lemma gate_refuses_witness :
  exists sess msg, sess ⊆ sessions daemon0 /\
    serve deps0 env0 (NewCredentials (Some "guess") "") GET_status daemon0 =
      (NewServer (Cfg daemon0) "cli" sess (files_ daemon0) (host_ daemon0), Ok (writeErr 401 (ErrMsg msg))).
Proof.
  pose proof (gate_refuses bob_down node.sample_clock node.sample_disk members_range map_to_list [] deps0 env0
    (NewCredentials (Some "guess") "") GET_status daemon0 node0 eq_refl node0_local) as HG.
  change ((auth.ValidateSession (auth_of daemon0 node0) (extractToken (NewCredentials (Some "guess") "")) (now env0)).2) with false in HG.
  exact HG.
Defined.

Definition init0 := handleAuthInit deps0 env0 (Ok "hunter22") daemon0.

Definition init_token : string := b64url_encode (take 32 (rng after)).

Lemma AuthBody_inj t t' : AuthBody true t = AuthBody true t' -> t = t'.
Proof. by intros [= ->]. Qed.

Lemma extract_cookie v : v <> "" -> extractToken (NewCredentials (Some v) "") = v.
Proof. intros Hv. unfold extractToken. simpl. by rewrite bool_decide_eq_false_2. Qed.

Lemma init_token_text : init_token <> "".
Proof. apply (bool_decide_eq_true_1 _). vm_compute. reflexivity. Qed.

Lemma init_once_witness :
  serve deps0 env0 (NewCredentials (Some init_token) "") GET_files init0.1 =
  handler bob_down node.sample_clock node.sample_disk members_range map_to_list [] deps0 env0
    (NewCredentials (Some init_token) "") GET_files init0.1.
Proof.
  destruct (init_once bob_down node.sample_clock node.sample_disk members_range map_to_list [] deps0 env0 "hunter22" daemon0
    init0.1 (setSessionCookie (writeJSON 200 (AuthBody true init_token)) init_token)) as (tok & E1 & _ & E2 & _).
  - rewrite node0_local. by eexists.
  - etrans; [apply surjective_pairing|]. apply (f_equal (pair _)). vm_compute. reflexivity.
  - reflexivity.
  - apply AuthBody_inj in E1. apply E2.
    + etrans; [apply extract_cookie, init_token_text|exact E1].
    + vm_compute. discriminate.
    + reflexivity.
Defined.

Lemma download_sends_file_witness :
  exists sv', handleDownload bob_down node.sample_clock node.sample_disk members_range deps0 env0
    (manifest.FileID the_manifest) daemon0 = (sv', Ok (writeJSON 200 (StreamBody 6 (Some text)))).
Proof.
  apply (download_sends_file bob_down node.sample_clock node.sample_disk members_range deps0 env0 scenario.alice
    the_manifest the_group file_key text daemon0 eq_refl).
  - apply (bool_decide_eq_true_1 _). vm_compute. reflexivity.
  - exact after_can_download.
  - vm_compute. reflexivity.
  - exact shelf_holds.
  - reflexivity.
  - reflexivity.
Defined.

Definition ask : InviteRequest := NewInviteRequest gid ["/ip4/10.0.0.1/tcp/4001/p2p/12DA"] 24 0.

Definition invited : Server * outcome Response := handleInvite deps0 env0 (Ok ask) daemon0.

Definition link_in (r : outcome Response) : string :=
  match r with Ok (NewResponse _ (LinkBody l) _) => l | _ => "" end.

Definition is_link (r : outcome Response) : bool :=
  match r with Ok (NewResponse 200 (LinkBody _) None) => true | _ => false end.

Lemma is_link_intro r : is_link r = true -> r = Ok (writeJSON 200 (LinkBody (link_in r))).
Proof.
  destruct r as [[c b k]|e|]; [|done..]. simpl. by repeat case_match.
Qed.

Definition the_link : string := link_in invited.2.

(** The group records of a store have the key pairs they were made with. *)
Definition admin_check (s : db (Badger := mem_badger)) : bool :=
  forallb (fun kv => match Unmarshal (A := group.Group) kv.2 with
                     | Ok g => bool_decide (group.AdminPub g = ed25519_pub (group.AdminPriv g)) | _ => true end)
    (filter (fun kv => has_prefix "group/" kv.1 = true) (map_to_list (db_view s))).

Lemma admin_intro s : admin_check s = true -> forall id g,
  group.LoadByID s id = Ok g -> group.IsAdminNode g = true -> group.AdminPub g = ed25519_pub (group.AdminPriv g).
Proof.
  unfold admin_check. rewrite forallb_forall. intros HV id g. unfold group.LoadByID. rewrite store.Get_spec.
  destruct (db_view s !! group.groupKey id) as [raw|] eqn:Hraw; [|done].
  intros Hg _. specialize (HV (group.groupKey id, raw)). cbn [snd] in HV. rewrite Hg in HV.
  apply bool_decide_eq_true in HV; [done|]. apply list_elem_of_In, list_elem_of_filter. split; [apply has_prefix_app|].
  by apply elem_of_map_to_list.
Qed.

Lemma node0_admin : admin_check (node.nstore node0) = true.
Proof. vm_compute. reflexivity. Qed.

Lemma invite_lifetime_witness :
  exists id g inv, group.LoadByID (node.nstore node0) id = Ok g /\ invite.GroupID inv = group.ID g /\
    invite.Decode the_link 1700000000000000000 = Ok inv.
Proof.
  destruct (invite_lifetime deps0 env0 ask daemon0 invited.1 the_link node0 node0_local) as (id & g & inv & E1 & _ & E2 & _ & _ & E3 & _).
  - etrans; [apply surjective_pairing|]. apply (f_equal (pair _)), is_link_intro. vm_compute. reflexivity.
  - exact (admin_intro _ node0_admin).
  - vm_compute. reflexivity.
  - split; [discriminate|reflexivity].
  - exact invite.tree_empty_refused.
  - exists id, g, inv. split; [exact E1|]. split; [exact E2|]. apply E3. split; discriminate.
Defined.

End api.
