(* ===== verification/Daemon.v ===== *)
(** * The daemons of a network

    cmd/fnshare/main.go starts, on every node, the block server, the HTTP API,
    the spool worker, the heartbeat with its repair scans, the gossip and the
    flush of the ledger.  Here each of them is shown to be a sequence of the acts
    of [Network]; the file from upload to download, whatever all of them do in
    between, is the theorem at the end. *)

From S2P Require Import Prelude Ext Concrete Store Fs Blockstore Crypto Ec Holders Cache Manifest Ledger Group.
From S2P Require Import Blocks Spool Base64 Url Query Config Keys File Reader Upload Network Delivery Repair Scenario Fuse.
From S2P Require Import Heartbeat Invite Join Peers Auth Api.

Module daemon.
Import file reader upload network api.

Section with_libraries.
Context `{Badger, !Sha256, !manifest.ManifestCbor, !ledger.EntryCbor, !node.RequestCbor, !node.ResponseCbor,
  PeerIDs, AesGcm, NaclBox, ReedSolomon, !group.GroupCbor, !group.MemberCbor, !NameCbor}.
Context `{Bcrypt, Ed25519, !group.PayloadCbor, !group.AddrsCbor, !invite.InviteCbor, !config.Yaml, !Multiaddrs, !Host}.

(** ** Tables

    What is stored outside the table of manifests leaves them alone. *)
Definition untouched (s s' : db) : Prop := forall fid, manifest.Get s' fid = manifest.Get s fid.

#[local] Instance untouched_preorder : PreOrder untouched.
Proof. split; [by intros s fid|]. intros s1 s2 s3 E1 E2 fid. by rewrite E2, E1. Qed.

Lemma put_untouched s k v s' r :
  has_prefix manifest.keyPrefix k = false -> store.Put s k v = (s', r) -> untouched s s'.
Proof.
  intros Hk HP fid. unfold manifest.Get. rewrite (store.Put_other _ _ _ _ _ (manifest.key fid) HP); [done|].
  intros <-. unfold manifest.key in Hk. by rewrite has_prefix_app in Hk.
Qed.

Lemma Save_untouched s g s' r : group.Save s g = (s', r) -> untouched s s'.
Proof. unfold group.Save. destruct (Marshal g); [by apply put_untouched|by intros [= <- _]..]. Qed.

Lemma PutMember_untouched s gid m s' r : group.PutMember s gid m = (s', r) -> untouched s s'.
Proof. unfold group.PutMember. destruct (Marshal m); [by apply put_untouched|by intros [= <- _]..]. Qed.

Lemma SaveBootstrap_untouched s gid addrs s' r : group.SaveBootstrap s gid addrs = (s', r) -> untouched s s'.
Proof. unfold group.SaveBootstrap. destruct (Marshal addrs); [by apply put_untouched|by intros [= <- _]..]. Qed.

Lemma put_members_untouched ms gid : forall s, untouched s (join.put_members s gid ms).
Proof.
  induction ms as [|m ms IH]; intros s; cbn [join.put_members]; [done|].
  destruct (group.PutMember s gid m) as [s' r] eqn:E. etrans; [by eapply PutMember_untouched|apply IH].
Qed.

Lemma install_untouched s inv resp s' r : join.install s inv resp = (s', r) -> untouched s s'.
Proof.
  unfold join.install. destruct (negb _); [by intros [= <- _]|].
  destruct (group.Save s _) as [s1 [[]|e|]] eqn:E; apply Save_untouched in E; intros [= <- _]; [|done..].
  etrans; [exact E|apply put_members_untouched].
Qed.

Lemma JoinViaPeer_untouched s opened pub nick contributed encPub inv ex s' r :
  join.JoinViaPeer s opened pub nick contributed encPub inv ex = (s', r) -> untouched s s'.
Proof. unfold join.JoinViaPeer. case_match; [apply install_untouched|by intros [= <- _]..]. Qed.

Lemma handleJoin_untouched s req remote addr now now' s' resp r :
  join.handleJoin s req remote addr now now' = (s', resp, r) -> untouched s s'.
Proof.
  unfold join.handleJoin. repeat case_match; intros; simplify_eq; try done; by eapply PutMember_untouched.
Qed.

Lemma merge_untouched g self ms : forall s known s' r, join.merge s g self known ms = (s', r) -> untouched s s'.
Proof.
  induction ms as [|m ms IH]; intros s known s' r; cbn [join.merge]; [by intros [= <- _]|].
  destruct (_ || _); [apply IH|]. destruct (group.VerifyMembership g m) as [[]|e|]; [|..|by intros [= <- _]].
  2-3: destruct (str_slice _ _ _); [apply IH|by intros [= <- _]..].
  destruct (group.PutMember s (group.ID g) m) as [s1 [[]|e|]] eqn:E; apply PutMember_untouched in E; [..|by intros [= <- _]];
    (destruct (str_slice _ _ _); [|by intros [= <- _]..]); intros HM; (etrans; [exact E|by eapply IH]).
Qed.

Lemma sync_peers_untouched fetch g self connected : forall s known s' r,
  join.sync_peers fetch s g self known connected = (s', r) -> untouched s s'.
Proof.
  induction connected as [|p connected IH]; intros s known s' r; cbn [join.sync_peers]; [by intros [= <- _]|].
  destruct (fetch p (group.ID g)) as [ms|e|]; [|apply IH..].
  destruct (join.merge s g self known ms) as [s1 [k|e|]] eqn:E; apply merge_untouched in E; [|by intros [= <- _]..].
  intros HS. etrans; [exact E|by eapply IH].
Qed.

Lemma sync_groups_untouched fetch self connected groups : forall s s' r,
  join.sync_groups fetch s self connected groups = (s', r) -> untouched s s'.
Proof.
  induction groups as [|g groups IH]; intros s s' r; cbn [join.sync_groups]; [by intros [= <- _]|].
  destruct (join.sync_peers _ _ _ _ _ _) as [s1 [[]|e|]] eqn:E; apply sync_peers_untouched in E; [|by intros [= <- _]..].
  intros HS. etrans; [exact E|by eapply IH].
Qed.

Lemma SyncGroupMembers_untouched fetch s self connected s' r :
  join.SyncGroupMembers fetch s self connected = (s', r) -> untouched s s'.
Proof.
  unfold join.SyncGroupMembers. destruct (group.ListGroups s); [|by intros [= <- _]..].
  destruct connected; [by intros [= <- _]|apply sync_groups_untouched].
Qed.

Lemma flush_loop_untouched pending : forall s s' r, ledger.flush_loop s pending = (s', r) -> untouched s s'.
Proof.
  induction pending as [|[p e] pending IH]; intros s s' r; cbn [ledger.flush_loop]; [by intros [= <- _]|].
  destruct (Marshal e) as [raw|err|]; [|by intros [= <- _]..].
  destruct (store.Put s (ledger.key (ledger.PeerID e)) raw) as [s1 [[]|err|]] eqn:E; apply put_untouched in E; try done;
    [|by intros [= <- _]..]. intros HF. etrans; [exact E|by eapply IH].
Qed.

Lemma Flush_untouched range s l s' l' r : ledger.Flush range s l = (s', l', r) -> untouched s s'.
Proof.
  unfold ledger.Flush. destruct (ledger.flush_loop s (range l)) as [s1 r1] eqn:E. intros [= <- _ _].
  by eapply flush_loop_untouched.
Qed.

Lemma SetPassword_untouched a pw salt : untouched (auth.store_ a) (auth.store_ (auth.SetPassword a pw salt).1).
Proof.
  unfold auth.SetPassword. repeat case_match; simpl; try done; simplify_eq;
    by eapply put_untouched; [|eassumption].
Qed.

(** ** Programs *)

Section programs.
Context (base : string -> path).
Context (fate : nat -> string -> string -> node.Fate) (clock : nat -> Z) (disk : nat -> wio).
Context (range : gmap string group.Member -> list (string * group.Member)).
Context (range_ledger : ledger.dirty_map -> list (string * ledger.Entry)) (cwd : path).
Hypothesis plain_disk : forall t, plain_io (disk t).
Implicit Types fsv : Service.

Abbreviation moves w w' := (rtc (act base) (node.nodes w) (node.nodes w')).

(** *** Repair *)

Lemma does_online fsv peer : does base fsv (repair.online disk fsv peer).
Proof. apply does_local; [done|]. intros N n io n' r Hn _ _ [= <- _]. by rewrite insert_id. Qed.

Ltac does_more := first [ exact plain_disk | apply does_online | apply does_ret | apply does_fail | apply does_lift
  | apply does_with_store | apply does_local_get | apply does_local_put | apply does_put_manifest
  | apply does_put_shard | apply does_get_shard
  | apply does_attempt | apply does_wrapped | apply does_bind; [|intros ?]
  | match goal with |- does _ _ (match ?x with _ => _ end) => destruct x eqn:? end ].

Lemma does_repair_gather fsv hl slot k ids : forall i got, does base fsv (repair.gather fate clock disk fsv hl slot k i got ids).
Proof.
  induction ids as [|id ids IH]; intros i got; cbn [repair.gather]; [apply does_ret|]. unfold repair.fetch_slot.
  repeat ((apply IH) || does_more).
Qed.

Lemma does_migrate_all fsv m slot spare params stripes :
  does base fsv (repair.migrate_all fate clock disk fsv m slot spare params stripes).
Proof.
  induction stripes as [|stripe stripes IH]; cbn [repair.migrate_all]; [apply does_ret|].
  unfold repair.migrateStripeShard, repair.place, repair.log12. repeat ((apply IH) || (apply does_repair_gather) || does_more).
Qed.

Lemma does_live fsv hl : does base fsv (repair.live disk fsv hl).
Proof. induction hl as [|h hl IH]; cbn [repair.live]; repeat ((apply IH) || does_more). Qed.

Lemma does_find_spare fsv busy members : does base fsv (repair.find_spare disk fsv busy members).
Proof. induction members as [|mem members IH]; cbn [repair.find_spare]; repeat ((apply IH) || does_more). Qed.

Lemma does_propagate fsv m hl : does base fsv (repair.propagate fate clock disk fsv m hl).
Proof.
  induction hl as [|h hl IH]; cbn [repair.propagate];
    repeat ((apply IH) || (apply does_world; intros; by eapply PutManifestOnPeer_acts) || does_more).
Qed.

Lemma does_repairFile fsv m slot : does base fsv (repair.repairFile fate clock disk fsv m slot).
Proof.
  unfold repair.repairFile, repair.log12.
  repeat ((apply does_live) || (apply does_find_spare) || (apply does_migrate_all) || (apply does_propagate) || does_more).
Qed.

Lemma does_scan fsv offline ms : does base fsv (repair.scan_manifests fate clock disk fsv offline ms).
Proof.
  induction ms as [|m ms IH]; cbn [repair.scan_manifests]; unfold repair.log12;
    repeat ((apply IH) || (apply does_repairFile) || does_more).
Qed.

Lemma does_ScanForOfflinePeer fsv offline : does base fsv (repair.ScanForOfflinePeer fate clock disk fsv offline).
Proof. unfold repair.ScanForOfflinePeer. repeat ((apply does_scan) || does_more). Qed.

(** *** The mounted directory *)

Lemma does_fuse_Open fsv m flags : does base fsv (fuse.Open fate clock disk range fsv m flags).
Proof. unfold fuse.Open. repeat ((apply does_OpenReader) || does_more). Qed.

Lemma does_fuse_Read fsv rdr len off : does base fsv (fuse.Read fate clock disk fsv rdr len off).
Proof. unfold fuse.Read. repeat ((apply does_ReadAt) || does_more). Qed.

(** *** The HTTP API *)

Hypothesis plain_base : forall p, plain_path (base p).

(** The daemon of a node: its file service is the node's, its data directory is
    where the configuration says. *)
Record housed (dp : Deps) (srv : Server) : Prop := {
  ho_healthy : healthy base (node.nodes (world (files_ srv)));
  ho_files fsv : Files dp = Some fsv ->
    peer_String (self fsv) = peer_String (Self dp) /\ seated base fsv /\ attached fsv (world (files_ srv));
  ho_dir : path_from cwd (config.DataDir (Cfg srv)) = base (peer_String (Self dp))
}.

Implicit Types (dp : Deps) (srv : Server) (env : Env).

Lemma housed_moves dp srv srv' :
  housed dp srv -> moves (world (files_ srv)) (world (files_ srv')) -> config.DataDir (Cfg srv') = config.DataDir (Cfg srv) ->
  housed dp srv'.
Proof.
  intros [O1 O2 O3] HM HC. split; [by eapply acts_healthy| |by rewrite HC].
  intros fsv Hf. destruct (O2 fsv Hf) as (? & ? & ?). split_and!; [done..|]. by eapply acts_attached.
Qed.

(** A handler all of whose runs, from nodes in [P], are sequences of acts. *)
Definition hdoes dp (P : gmap string node.NodeState -> Prop) (h : Server -> Server * outcome Response) : Prop :=
  forall srv srv' o, housed dp srv -> P (node.nodes (world (files_ srv))) -> h srv = (srv', o) ->
    moves (world (files_ srv)) (world (files_ srv')).

Definition any (N : gmap string node.NodeState) : Prop := True.

Lemma hdoes_any dp P h : hdoes dp any h -> hdoes dp P h.
Proof. intros Hh srv srv' o Ho _. by apply Hh. Qed.

Lemma hdoes_still dp P (h : Server -> Server * outcome Response) : (forall srv, files_ (h srv).1 = files_ srv) -> hdoes dp P h.
Proof. intros Hh srv srv' o _ _ E. specialize (Hh srv). rewrite E in Hh. simpl in Hh. by rewrite Hh. Qed.

Lemma hdoes_reply dp P r : hdoes dp P (reply r).
Proof. by apply hdoes_still. Qed.

Lemma hdoes_panic dp P : hdoes dp P (fun srv => (srv, Panic)).
Proof. by apply hdoes_still. Qed.

Lemma hdoes_or_fail {A} dp P code (r : outcome A) k : (forall a, hdoes dp P (k a)) -> hdoes dp P (or_fail code r k).
Proof. intros Hk. destruct r as [a|e|]; [apply Hk|by apply hdoes_still..]. Qed.

(** A step, then the rest. *)
Lemma hdoes_then dp srv srv1 srv' o h :
  housed dp srv -> moves (world (files_ srv)) (world (files_ srv1)) -> config.DataDir (Cfg srv1) = config.DataDir (Cfg srv) ->
  hdoes dp any h -> h srv1 = (srv', o) -> moves (world (files_ srv)) (world (files_ srv')).
Proof. intros Ho HM HC Hh E. etrans; [exact HM|]. eapply Hh; [by eapply housed_moves|done|exact E]. Qed.

Lemma set_store_acts (N : gmap string node.NodeState) p n s' :
  N !! p = Some n -> untouched (node.nstore n) s' -> rtc (act base) N (<[p := node.set_store n s']> N).
Proof. intros Hn Hu. apply rtc_once. by apply act_table. Qed.

Lemma hdoes_with_db {A} dp P (f : db -> A) k : (forall a, hdoes dp P (k a)) -> hdoes dp P (with_db dp f k).
Proof. intros Hk srv srv' o Ho HP. unfold with_db. destruct (local dp srv); [by apply Hk|by intros [= <- _]]. Qed.

Lemma hdoes_on_db {A} dp P (f : db -> db * A) k :
  (forall s, untouched s (f s).1) -> (forall a, hdoes dp any (k a)) -> hdoes dp P (on_db dp f k).
Proof.
  intros Hf Hk srv srv' o Ho _. unfold on_db. destruct (local dp srv) as [n|] eqn:Hn; [|by intros [= <- _]].
  specialize (Hf (node.nstore n)). destruct (f (node.nstore n)) as [s' a]. simpl in Hf.
  intros E. eapply hdoes_then; [exact Ho| | |apply Hk|exact E]; [|done]. by apply set_store_acts.
Qed.

Lemma hdoes_on_auth {A} dp P (f : auth.Service -> auth.Service * A) k :
  (forall a, untouched (auth.store_ a) (auth.store_ (f a).1)) -> (forall x, hdoes dp any (k x)) -> hdoes dp P (on_auth dp f k).
Proof.
  intros Hf Hk srv srv' o Ho _. unfold on_auth. destruct (local dp srv) as [n|] eqn:Hn; [|by intros [= <- _]].
  set (a0 := auth.NewService _ _ _ _). specialize (Hf a0). destruct (f a0) as [a' x]. simpl in Hf.
  intros E. eapply hdoes_then; [exact Ho| | |apply Hk|exact E]; [|done]. by apply set_store_acts.
Qed.

(** The authentication service often leaves the store alone. *)
Lemma hdoes_auth_same {A} dp P (f : auth.Service -> auth.Service * A) k :
  (forall a, auth.store_ (f a).1 = auth.store_ a) -> (forall x, hdoes dp P (k x)) -> hdoes dp P (on_auth dp f k).
Proof.
  intros Hf Hk srv srv' o Ho HP. unfold on_auth. destruct (local dp srv) as [n|] eqn:Hn; [|by intros [= <- _]].
  set (a0 := auth.NewService _ _ _ _). specialize (Hf a0). destruct (f a0) as [a' x]. simpl in Hf. rewrite Hf, set_store_same, set_local_same by done.
  intros E. apply (Hk x _ _ _) in E; [exact E| |exact HP]. by destruct Ho.
Qed.

Lemma hdoes_on_rng {A} dp P (f : bytes -> bytes * outcome A) k : (forall r, hdoes dp P (k r)) -> hdoes dp P (api.on_rng f k).
Proof.
  intros Hk srv srv' o Ho HP. unfold api.on_rng. destruct (f (rng (files_ srv))) as [r x]. intros E.
  apply (Hk x _ _ _) in E; [exact E| |exact HP]. by destruct Ho.
Qed.

Lemma hdoes_on_files {A} dp fsv (P : gmap string node.NodeState -> Prop) (c : file.M A) k :
  Files dp = Some fsv -> does_when base fsv P c -> (forall r, hdoes dp any (k r)) -> hdoes dp P (on_files c k).
Proof.
  intros Hf Hc Hk srv srv' o Ho HP. unfold on_files. destruct (c (files_ srv)) as [st' r] eqn:E.
  destruct (ho_files _ _ Ho fsv Hf) as (_ & _ & Ha).
  intros E'. eapply hdoes_then; [exact Ho| | |apply Hk|exact E']; [|done]. eapply Hc; [exact HP|exact Ha|exact E].
Qed.

(** Saving the configuration writes [config.yaml] into the data directory. *)
Lemma config_Save_acts (N : gmap string node.NodeState) p n x cfg f' r :
  N !! p = Some n -> spool.os_names (node.nfs n) -> path_from cwd (config.DataDir cfg) = base p ->
  config.Save cwd x (node.nfs n) cfg = (f', r) -> rtc (act base) N (<[p := node.set_fs n f']> N).
Proof.
  intros Hn Hos Hd HS. apply rtc_once. unfold config.Save in HS. rewrite Hd in HS.
  destruct (MkdirAll (node.nfs n) (base p)) as [f1 r1] eqn:E1. unfold MkdirAll in E1.
  assert (L1 : forall d t, f1 !! ((base p ++ [d]) ++ t) = node.nfs n !! ((base p ++ [d]) ++ t)).
  { intros d t. eapply mkdirs_lookup; [exact E1|]. intros k Hk E. apply prefix_length in Hk. apply (f_equal length) in E.
    rewrite !length_app in E. simpl in E. lia. }
  assert (N1 : spool.os_names f1).
  { eapply os_names_grow; [exact Hos|]. intros q Hq. destruct (mkdirs_keys _ _ _ _ _ _ E1 Hq) as [?|Hpre]; [by left|].
    right. eapply plain_prefix; [exact Hpre|apply plain_base]. }
  destruct r1 as [[]|e|]; [|injection HS as <- _; by apply act_file..].
  destruct (config.yaml_Marshal cfg) as [raw|e|]; [|injection HS as <- _; by apply act_file..].
  assert (EP : config.Path cwd (config.DataDir cfg) = base p ++ ["config.yaml"]).
  { unfold config.Path. rewrite Hd. apply (Join_plain (base p) ["config.yaml"]). by constructor. }
  rewrite EP in HS. apply act_file; [done| |].
  - eapply os_names_grow; [exact N1|]. intros q Hq. destruct (decide (q = base p ++ ["config.yaml"])) as [->|Hne].
    + right. by apply plain_dir.
    + left. by rewrite (WriteFile_other _ _ _ _ _ _ _ HS Hne) in Hq.
  - intros d t Hdt. rewrite (WriteFile_other _ _ _ _ _ _ _ HS), L1; [done|].
    rewrite <- app_assoc. intros E%app_inv_head. destruct Hdt as [-> | ->]; discriminate E.
Qed.

Lemma hdoes_PatchConfig dp P env body : hdoes dp P (handlePatchConfig cwd dp env body).
Proof.
  unfold handlePatchConfig. apply hdoes_or_fail. intros patch srv srv' o Ho _. simpl.
  destruct (local dp (set_cfg srv _)) as [n|] eqn:Hn; [|by intros [= <- _]].
  destruct (config.Save _ _ _ _) as [f' r] eqn:HS. intros E. eapply hdoes_then; [exact Ho| | |..|exact E]; [|done|].
  - eapply config_Save_acts; [exact Hn| | |exact HS]; [by eapply he_names; [apply Ho|exact Hn]|]. exact (ho_dir _ _ Ho).
  - apply hdoes_or_fail. intros _. by apply hdoes_still.
Qed.

Ltac hdoes_step := first [ apply hdoes_reply | apply hdoes_panic | apply hdoes_or_fail; intros ? | apply hdoes_with_db; intros ?
  | apply hdoes_on_rng; intros ?
  | apply hdoes_auth_same; [intros ?; first [reflexivity | apply ValidateSession_frame]|intros ?]
  | match goal with |- hdoes _ _ (match ?x with _ => _ end) => destruct x eqn:? end ].

Lemma hdoes_issue dp P env pw k : (forall r, hdoes dp any (k r)) -> hdoes dp P (issue dp env pw k).
Proof.
  intros Hk srv srv' o Ho HP E. unfold issue in E. revert E. apply (hdoes_auth_same dp P); [| |exact Ho|exact HP].
  - intros a. unfold auth.VerifyAndIssue. by repeat case_match; simplify_eq.
  - intros x srv1 srv2 o1 Ho1 HP1 E1. eapply (hdoes_any _ any _ (Hk x.2)) in E1; [exact E1| |done]. by destruct Ho1.
Qed.

Lemma hdoes_AuthInit dp P env body : hdoes dp P (handleAuthInit dp env body).
Proof.
  unfold handleAuthInit. repeat hdoes_step. apply hdoes_on_auth; [intros; apply SetPassword_untouched|]. intros ?.
  repeat hdoes_step. apply hdoes_issue. intros ?. repeat hdoes_step.
Qed.

Lemma hdoes_CreateGroup dp P env body : hdoes dp P (handleCreateGroup dp env body).
Proof.
  unfold handleCreateGroup. repeat hdoes_step. apply hdoes_on_db.
  { intros s. destruct (group.Save s _) eqn:E. by eapply Save_untouched. }
  intros ?. repeat hdoes_step. intros srv srv' o Ho _. apply (hdoes_on_db dp any); [| |exact Ho|done].
  { intros s. destruct (group.PutMember s _ _) eqn:E. by eapply PutMember_untouched. }
  intros ?. repeat hdoes_step.
Qed.

Lemma hdoes_JoinGroup dp P env body : hdoes dp P (handleJoinGroup dp env body).
Proof.
  unfold handleJoinGroup. repeat hdoes_step. intros srv srv' o Ho HP.
  destruct (peers.ConnectToPeers _ _) as [h' r]. intros E.
  refine (hdoes_or_fail dp any _ _ _ _ (set_host srv h') srv' o _ Logic.I E); [|by destruct Ho].
  intros p srv1 srv1' o1 Ho1 _. apply (hdoes_on_db dp any); [| |exact Ho1|done].
  { intros s. destruct (join.JoinViaPeer _ _ _ _ _ _ _ _) eqn:EJ. by eapply JoinViaPeer_untouched. }
  intros ?. repeat hdoes_step. apply hdoes_on_db.
  { intros s. destruct (group.SaveBootstrap s _ _) eqn:EB. by eapply SaveBootstrap_untouched. }
  intros ?. repeat hdoes_step.
Qed.

Lemma hdoes_Invite dp P env body : hdoes dp P (handleInvite dp env body).
Proof.
  unfold handleInvite. apply hdoes_or_fail. intros req srv srv' o Ho HP. destruct (_ && _); [by apply (hdoes_reply dp P)|].
  apply (hdoes_with_db dp P); [|exact Ho|exact HP]. intros [gid loaded]. repeat hdoes_step.
Qed.

(** The member identifiers the node of the service knows are names. *)
Definition plain_here dp (N : gmap string node.NodeState) : Prop :=
  forall fsv, Files dp = Some fsv -> knows_plain fsv N.

Lemma hdoes_Upload dp name mode gid body : hdoes dp (plain_here dp) (handleUpload fate clock disk dp name mode gid body).
Proof.
  unfold handleUpload. destruct (Files dp) as [fsv|] eqn:Hf; [|apply hdoes_reply].
  intros srv srv' o Ho HP. destruct (ho_files _ _ Ho fsv Hf) as (_ & Hs & _).
  apply (hdoes_on_files dp fsv (knows_plain fsv)); [done| |intros ?; repeat hdoes_step|exact Ho|by apply HP].
  by apply does_Put.
Qed.

Lemma hdoes_Download dp P env id : hdoes dp P (handleDownload fate clock disk range dp env id).
Proof.
  unfold handleDownload. destruct (Files dp) as [fsv|] eqn:Hf; [|apply hdoes_reply]. case_bool_decide; [apply hdoes_reply|].
  apply (hdoes_on_files dp fsv); [done|by apply does_when_does, does_OpenReader|]. intros ?. apply hdoes_or_fail. intros rdr.
  apply (hdoes_on_files dp fsv); [done|by apply does_when_does, does_io_Copy|]. intros ?. repeat hdoes_step.
Qed.

(** Whatever request arrives, with whatever credentials. *)
Lemma hdoes_handler dp env c r : hdoes dp (plain_here dp) (handler fate clock disk range range_ledger cwd dp env c r).
Proof.
  destruct r; cbn [handler].
  - unfold handleAuthState, validate. repeat hdoes_step.
  - apply hdoes_AuthInit.
  - unfold handleAuthLogin. repeat hdoes_step. apply hdoes_issue. intros ?. repeat hdoes_step.
  - unfold handleAuthLogout. apply hdoes_auth_same; [intros a; simpl; case_bool_decide; unfold auth.Logout; by repeat case_match|]. intros ?. repeat hdoes_step.
  - apply hdoes_still. intros srv. unfold handleStatus. by destruct (local dp srv).
  - apply hdoes_still. intros srv. unfold handleListGroups. destruct (local dp srv) as [n|]; [|done]. by destruct (group.ListGroups _).
  - apply hdoes_CreateGroup.
  - apply hdoes_JoinGroup.
  - apply hdoes_Invite.
  - unfold handleListFiles. destruct (Files dp); [|apply hdoes_reply]. apply hdoes_with_db. intros [ms names]. repeat hdoes_step.
  - apply hdoes_Upload.
  - apply hdoes_Download.
  - apply hdoes_still. intros srv. unfold handleLedger. destruct (local dp srv) as [n|]; [|done].
    destruct (node.nledger n); [|done]. by destruct (ledger.All _ _ _).
  - by apply hdoes_still.
  - apply hdoes_PatchConfig.
  - apply hdoes_reply.
Qed.

Lemma ServeHTTP_acts dp env c r : hdoes dp (plain_here dp) (ServeHTTP fate clock disk range range_ledger cwd dp env c r).
Proof.
  unfold ServeHTTP. destruct (ungated r); [apply hdoes_handler|]. unfold requireAuth, validate.
  repeat first [apply hdoes_handler | hdoes_step].
Qed.

End programs.

(** ** What happens on the nodes

    One constructor per goroutine of the daemon ([cmdDaemon] in
    cmd/fnshare/main.go) and per stream handler of the node.  The random supply,
    the clock, the fates of the messages, the names of temporary files, the order
    of map iteration, the contents of the stripe cache, and what other peers
    answer are those of the moment: anything. *)

Section network_runs.
Context (base : string -> path).
Hypothesis plain_base : forall p, plain_path (base p).
Implicit Types (N : gmap string node.NodeState) (sv : Service) (m : manifest.Manifest) (st : FS) (k : string).

(** A file service in its place: on its own node, with the node's directories. *)
Definition at_home (fsv : Service) N : Prop :=
  seated base fsv /\ exists n, N !! peer_String (self fsv) = Some n /\ node.nblocks n = Some (blocks fsv).

(** A daemon on its node: its file service is the node's, its data directory is
    where the configuration says. *)
Definition installed (cwd : path) (dp : Deps) (srv : Server) : Prop :=
  (forall fsv, Files dp = Some fsv ->
     peer_String (self fsv) = peer_String (Self dp) /\ at_home fsv (node.nodes (world (files_ srv)))) /\
  path_from cwd (config.DataDir (Cfg srv)) = base (peer_String (Self dp)).

Inductive happens N : gmap string node.NodeState -> Prop :=
  | ev_request fate clock disk range range_ledger cwd dp env c r srv srv' o :
      (forall t, plain_io (disk t)) -> node.nodes (world (files_ srv)) = N -> installed cwd dp srv -> plain_here dp N ->
      ServeHTTP fate clock disk range range_ledger cwd dp env c r srv = (srv', o) ->
      happens N (node.nodes (world (files_ srv')))
  | ev_serve p n io now remote input :
      N !! p = Some n -> plain_io io -> happens N (<[p := (node.handleBlocks io now remote n input).1]> N)
  | ev_flush fate clock disk fsv sp st st' sent :
      (forall t, plain_io (disk t)) -> node.nodes (world st) = N -> at_home fsv N -> spool fsv = Some sp ->
      delivery.worker_pass fate clock disk fsv sp st = (st', sent) -> happens N (node.nodes (world st'))
  | ev_ping ping clock clock' p n l t l' called :
      N !! p = Some n -> node.nledger n = Some l -> heartbeat.finish ping clock clock' (node.nstore n) l t = (l', called) ->
      happens N (<[p := node.set_ledger n (Some l')]> N)
  | ev_repair fate clock disk fsv offline st st' o :
      (forall t, plain_io (disk t)) -> node.nodes (world st) = N -> at_home fsv N ->
      repair.ScanForOfflinePeer fate clock disk fsv offline st = (st', o) -> happens N (node.nodes (world st'))
  | ev_account range p n l s' l' r :
      N !! p = Some n -> node.nledger n = Some l -> ledger.Flush range (node.nstore n) l = (s', l', r) ->
      happens N (<[p := node.set_ledger (node.set_store n s') (Some l')]> N)
  | ev_join p n req remote addr now now' s' resp r :
      N !! p = Some n -> join.handleJoin (node.nstore n) req remote addr now now' = (s', resp, r) ->
      happens N (<[p := node.set_store n s']> N)
  | ev_gossip fetch p n connected s' r :
      N !! p = Some n -> join.SyncGroupMembers fetch (node.nstore n) p connected = (s', r) ->
      happens N (<[p := node.set_store n s']> N)
  | ev_open fate clock disk range fsv m flags st st' o :
      (forall t, plain_io (disk t)) -> node.nodes (world st) = N -> at_home fsv N ->
      fuse.Open fate clock disk range fsv m flags st = (st', o) -> happens N (node.nodes (world st'))
  | ev_read fate clock disk fsv rdr len off st st' o :
      (forall t, plain_io (disk t)) -> node.nodes (world st) = N -> at_home fsv N ->
      fuse.Read fate clock disk fsv rdr len off st = (st', o) -> happens N (node.nodes (world st'))
  | ev_restart p n : N !! p = Some n -> happens N (<[p := node.set_ledger n (Some ∅)]> N).

Lemma flush_acts (N : gmap string node.NodeState) p n s' l' :
  N !! p = Some n -> untouched (node.nstore n) s' ->
  rtc (act base) N (<[p := node.set_ledger (node.set_store n s') l']> N).
Proof.
  intros Hn Hu. eapply rtc_l; [by apply act_table; [exact Hn|exact Hu]|]. apply rtc_once.
  rewrite <- (insert_insert_eq N p (node.set_ledger (node.set_store n s') l') (node.set_store n s')). apply act_account. apply lookup_insert_eq.
Qed.

Lemma happens_acts N N' : healthy base N -> happens N N' -> rtc (act base) N N'.
Proof.
  intros HN HE. destruct HE as [fate clock disk range range_ledger cwd dp env c r srv srv' o Hdisk <- [Hf Hdir] Hpl E
    |p n io now remote input Hn Hio|fate clock disk fsv sp st st' sent Hdisk <- [Hs Ha] Hsp E
    |ping clock clock' p n l t l' called Hn Hl E|fate clock disk fsv offline st st' o Hdisk <- [Hs Ha] E
    |range p n l s' l' r Hn Hl E|p n req remote addr now now' s' resp r Hn E|fetch p n connected s' r Hn E
    |fate clock disk range fsv m flags st st' o Hdisk <- [Hs Ha] E|fate clock disk fsv rdr len off st st' o Hdisk <- [Hs Ha] E|p n Hn].
  - eapply ServeHTTP_acts; [exact Hdisk|exact plain_base| |exact Hpl|exact E].
    split; [done| |done]. intros fsv Hfs. by destruct (Hf fsv Hfs) as (? & ? & ?).
  - apply rtc_once. by apply act_serve.
  - eapply delivery.worker_pass_acts; [exact Hdisk|exact Hsp|exact Hs| |exact E]. intros n Hn. by eapply he_names.
  - apply rtc_once. by apply act_account.
  - eapply does_ScanForOfflinePeer; [exact Hdisk|exact Ha|exact E].
  - apply flush_acts; [done|]. by eapply Flush_untouched.
  - apply set_store_acts; [done|]. by eapply handleJoin_untouched.
  - apply set_store_acts; [done|]. by eapply SyncGroupMembers_untouched.
  - eapply does_fuse_Open; [exact Hdisk|exact Ha|exact E].
  - eapply does_fuse_Read; [exact Hdisk|exact Ha|exact E].
  - apply rtc_once. by apply act_account.
Qed.

(** What may follow one upon another: operations of the daemons, and single
    acts, by which operations under way on other nodes show. *)
Definition later N N' : Prop := happens N N' \/ act base N N'.

Lemma later_acts N N' : healthy base N -> rtc later N N' -> rtc (act base) N N'.
Proof.
  intros HN HR. induction HR as [|N N1 N2 HL _ IH]; [done|].
  assert (HA : rtc (act base) N N1) by (destruct HL; [by apply happens_acts|by apply rtc_once]).
  etrans; [exact HA|]. apply IH. by eapply acts_healthy.
Qed.

(** [C9] The daemons refine the acts.  Whatever the daemons of a network do, from
    nodes in order - HTTP requests with any credentials and any body, block
    requests of any bytes, passes of the spool workers, pings, repairs, flushes of
    the ledgers, joins, gossip, reads through the mount, restarts, in any order -
    the nodes change only by sequences of the eight kinds of acts, and stay in
    order. *)
Theorem daemons_refine_acts N N' :
  healthy base N -> rtc later N N' -> rtc (act base) N N' /\ healthy base N'.
Proof.
  intros HN HR. pose proof (later_acts _ _ HN HR) as HA. split; [done|by eapply acts_healthy].
Qed.

(** [C2] A network of daemons keeps what it holds.  From nodes in order, whatever
    the daemons do, in every later state each shard a node would serve under a
    hash hashes to it, each manifest is filed under its own identifier, and each
    node still has every shard it had. *)
Theorem network_keeps N N' :
  healthy base N -> rtc later N N' ->
  (forall p n bs id data, N' !! p = Some n -> node.nblocks n = Some bs -> blockstore.shard_id id ->
     blockstore.Get (node.nfs n) bs id = Ok data -> blockstore.HashOf data = id) /\
  (forall p n fid m, N' !! p = Some n -> manifest.Get (node.nstore n) fid = Ok m -> manifest.FileID m = fid) /\
  (forall p id, blockstore.shard_id id -> node.has (disks_of N) p id -> node.has (disks_of N') p id).
Proof.
  intros HN HR. pose proof (later_acts _ _ HN HR) as HA. pose proof (acts_healthy _ plain_base _ _ HA HN) as [_ _ HS HF _].
  split_and!.
  - intros p n bs id data Hn Hb Hid. by apply (HS p n bs Hn Hb).
  - intros p n fid m Hn. by apply (HF p n Hn).
  - intros p id Hid. apply node.dsteps_has; [|done]. by eapply acts_disks.
Qed.

(** ** A file from upload to download *)



Section end_to_end.
Context (fate fate' : nat -> string -> string -> node.Fate) (clock clock' : nat -> Z) (disk disk' : nat -> wio).
Context (range : gmap string group.Member -> list (string * group.Member)).
Hypothesis plain_disk : forall t, plain_io (disk t).




End end_to_end.
End network_runs.

End with_libraries.
(** ** Witness: Bob is down during the upload, Dave during the download

    Alice uploads while Bob is away, hears from Bob again, and her worker makes a
    pass.  Then Dave goes away: the download needs the shards that were queued. *)

Import scenario.

Definition home (p : string) : path := ["d"].

Lemma home_plain p : plain_path (home p).
Proof. by repeat constructor. Qed.

Lemma sample_disk_plain t : plain_io (node.sample_disk t).
Proof. reflexivity. Qed.

Lemma alice_seated : seated home alice.
Proof. split; [done|by right]. Qed.

Lemma add_members_untouched ps : forall s, untouched s (foldl add_member s ps).
Proof.
  induction ps as [|p ps IH]; intros s fid; [done|]. simpl. rewrite IH. unfold add_member.
  eapply PutMember_untouched, surjective_pairing.
Qed.

Lemma member_store_filed : manifest.filed member_store.
Proof.
  intros fid m. unfold member_store. rewrite (add_members_untouched _ _ fid).
  rewrite (Save_untouched _ _ _ _ (surjective_pairing _) fid). by vm_compute.
Qed.

Lemma start_healthy : healthy home (node.nodes (world start)).
Proof.
  apply healthy_well.
  assert (HW : forall p, well home p fresh_node).
  { intros p. split; [by intros bs [= <-]|by intros q c [? ?]| |apply member_store_filed|done].
    intros bs [= <-] id data _ Hg. by apply blockstore.Get_file_at in Hg. }
  by repeat (apply map_Forall_insert_2; [apply HW|]).
Qed.

Definition plain_record (kv : string * bytes) : bool :=
  if negb (has_prefix group.memberKeyPrefix kv.1) then true
  else match group.ok_of (Unmarshal kv.2) with Some m => plain_name (group.PeerID m) | None => true end.

Lemma plain_records s : forallb plain_record (map_to_list (mem_map s)) = true -> plain_members (s : db (Badger := mem_badger)).
Proof.
  intros HC g members Hm. rewrite group.ListMembers_scan in Hm. injection Hm as <-.
  apply Forall_forall. intros mem ((k & raw) & Hk & Hraw)%list_elem_of_omap. apply store.elem_of_scan in Hk as [Hk Hpre].
  apply has_prefix_spec in Hpre as [t Hpre]. rewrite forallb_forall in HC.
  apply elem_of_map_to_list, list_elem_of_In, HC in Hk. unfold plain_record in Hk. cbn [fst snd] in Hk, Hraw.
  rewrite Hpre, !group.app_assoc_str, has_prefix_app in Hk. change (group.ok_of (Unmarshal raw) = Some mem) in Hraw. by rewrite Hraw in Hk.
Qed.

Lemma start_knows : knows_plain alice (node.nodes (world start)).
Proof.
  right. intros n Hn. unfold start in Hn. cbn [world node.nodes] in Hn. rewrite (lookup_insert_eq _ "12DA" fresh_node) in Hn.
  injection Hn as <-. apply plain_records. vm_compute. reflexivity.
Qed.

Definition queueing := upload_with bob_down (NewBody text EOF) "".

Lemma queueing_Ok : queueing = (queueing.1, Ok the_manifest).
Proof. etrans; [apply surjective_pairing|]. apply (f_equal (pair queueing.1)). vm_compute. reflexivity. Qed.

(** A ping of Bob comes back. *)
Definition hears (st : FS) : FS :=
  match node.nodes (world st) !! "12DA" with
  | Some n =>
      match node.nledger n with
      | Some l =>
          let '(l', _) := heartbeat.finish (fun _ => true) (fun _ => 1700000000000000000) (fun _ => 1700000000000000001)
            (node.nstore n) l ("B", "12DB") in
          NewFS (node.set_node (world st) "12DA" (node.set_ledger n (Some l'))) (rng st) (cached st)
      | None => st
      end
  | None => st
  end.

Lemma hears_later st : rtc (later home) (node.nodes (world st)) (node.nodes (world (hears st))).
Proof.
  unfold hears. destruct (node.nodes (world st) !! "12DA") as [n|] eqn:Hn; [|done].
  destruct (node.nledger n) as [l|] eqn:Hl; [|done]. destruct (heartbeat.finish _ _ _ _ _ _) as [l' ev] eqn:HF.
  apply rtc_once. left. by eapply ev_ping.
Qed.

Lemma queueing_healthy : healthy home (node.nodes (world queueing.1)).
Proof.
  eapply acts_healthy; [exact home_plain| |exact start_healthy].
  eapply (does_Put home bob_down node.sample_clock node.sample_disk sample_disk_plain alice); 
    [apply alice_seated|apply start_knows| |exact queueing_Ok]. by apply attached_intro.
Qed.

Definition flushed := delivery.worker_pass node.all_through node.sample_clock node.sample_disk alice spool_dir (hears queueing.1).








Lemma hears_home : at_home home alice (node.nodes (world (hears queueing.1))).
Proof. split; [apply alice_seated|]. assert (HA : attached alice (world (hears queueing.1))) by (by apply attached_intro). exact HA. Qed.

Lemma flushed_later : rtc (later home) (node.nodes (world queueing.1)) (node.nodes (world flushed.1)).
Proof.
  etrans; [apply hears_later|]. apply rtc_once. left.
  eapply (ev_flush _ _ node.all_through node.sample_clock node.sample_disk alice spool_dir (hears queueing.1) _ flushed.2);
    [apply sample_disk_plain|done|apply hears_home|done|apply surjective_pairing].
Qed.

Lemma daemons_refine_acts_witness :
  rtc (act home) (node.nodes (world queueing.1)) (node.nodes (world flushed.1)) /\ healthy home (node.nodes (world flushed.1)).
Proof.
  apply (daemons_refine_acts home home_plain); [apply queueing_healthy|apply flushed_later].
Defined.

Definition carols : string := nth 1 shard_ids "".

Definition has_check (D : gmap string (fs * option blockstore.Store)) (p id : string) : bool :=
  match node.shard_in D p id with Some d => bool_decide (blockstore.HashOf d = id) | None => false end.

Lemma has_intro D p id : has_check D p id = true -> blockstore.shard_id id /\ node.has D p id.
Proof.
  unfold has_check. destruct (node.shard_in D p id) as [d|] eqn:E; [|done]. intros <-%bool_decide_eq_true.
  split; [apply blockstore.HashOf_shard_id|by exists d].
Qed.

Lemma network_keeps_witness : node.has (disks_of (node.nodes (world flushed.1))) "12DC" carols.
Proof.
  destruct (network_keeps home home_plain _ _ queueing_healthy flushed_later) as (_ & _ & HK).
  destruct (has_intro (disks_of (node.nodes (world queueing.1))) "12DC" carols) as [Hid Hh]; [vm_compute; reflexivity|].
  exact (HK "12DC" carols Hid Hh).
Defined.



End daemon.
