(* ===== verification/Loops.v ===== *)
(** * The loops of the daemon

    [Worker.Run] of internal/spool/worker.go, [Service.Run] of
    internal/heartbeat/heartbeat.go and the two loops [cmdDaemon] of
    cmd/fnshare/main.go starts for the ledger and for the gossip: a ticker and the
    cancellation of the context, whichever fires.  In between, the other goroutines
    and the other nodes go on. *)

From S2P Require Import Prelude Ext Concrete Store Fs Blockstore Crypto Ec Holders Cache Manifest Ledger Group.
From S2P Require Import Blocks Spool Base64 Url Query Config Keys File Reader Upload Network Delivery Repair Scenario Fuse.
From S2P Require Import Heartbeat Invite Join Peers Auth Api Daemon.

Module loops.
Import file reader upload network daemon.

(** ** A loop around a select *)

(** The case a [select] takes. *)
Inductive Case := Done | Tick.

Section select.
Context {S L : Type} (env : S -> S -> Prop) (pass : L -> S -> S -> Prop) (final : S -> S -> Prop).

(** [loop cases starts s s']: the cases taken so far, and with what each pass
    began.  After [Done] the loop has returned. *)
Inductive loop : list Case -> list (L * S) -> S -> S -> Prop :=
  | loop_waits s s' : rtc env s s' -> loop [] [] s s'
  | loop_returns s s1 s2 s' : rtc env s s1 -> final s1 s2 -> rtc env s2 s' -> loop [Done] [] s s'
  | loop_ticks cases starts x s s1 s2 s' :
      rtc env s s1 -> pass x s1 s2 -> loop cases starts s2 s' -> loop (Tick :: cases) ((x, s1) :: starts) s s'.

(** One pass before the loop. *)
Inductive Run : list Case -> list (L * S) -> S -> S -> Prop :=
  | Run_intro cases starts x s s1 s2 s' :
      rtc env s s1 -> pass x s1 s2 -> loop cases starts s2 s' -> Run cases ((x, s1) :: starts) s s'.

(** Everything a loop does is a sequence of [R], if its parts are. *)
Context (R : S -> S -> Prop).
Hypothesis env_R : forall s s', env s s' -> rtc R s s'.
Hypothesis pass_R : forall x s s', pass x s s' -> rtc R s s'.
Hypothesis final_R : forall s s', final s s' -> rtc R s s'.

Lemma envs_R s s' : rtc env s s' -> rtc R s s'.
Proof. induction 1 as [|s s1 s2 E _ IH]; [done|]. etrans; [by apply env_R|done]. Qed.

Lemma loop_R cases starts s s' : loop cases starts s s' -> rtc R s s'.
Proof.
  induction 1 as [s s' E|s s1 s2 s' E1 E2 E3|cases starts x s s1 s2 s' E1 E2 _ IH].
  - by apply envs_R.
  - etrans; [by apply envs_R|]. etrans; [by apply final_R|by apply envs_R].
  - etrans; [by apply envs_R|]. etrans; [by eapply pass_R|done].
Qed.

Lemma Run_loop cases starts s s' : Run cases starts s s' -> loop (Tick :: cases) starts s s'.
Proof. intros [???????]. by eapply loop_ticks. Qed.

(** A pass of the loop, with what came before and after it. *)
Lemma loop_pass cases starts s s' x t :
  loop cases starts s s' -> (x, t) ∈ starts -> exists t', rtc R s t /\ pass x t t' /\ rtc R t' s'.
Proof.
  intros HL. revert t x. induction HL as [s s' E|s s1 s2 s' E1 E2 E3|cases starts y s s1 s2 s' E1 E2 HL IH];
    intros t x Hin; [by apply elem_of_nil in Hin..|]. apply elem_of_cons in Hin as [[= -> ->]|Hin].
  - exists s2. split_and!; [by apply envs_R|done|by eapply loop_R].
  - destruct (IH t x Hin) as (t' & R1 & HP & R2). exists t'. split_and!; [|done|done].
    etrans; [by apply envs_R|]. etrans; [by eapply pass_R|done].
Qed.

End select.

Section with_libraries.
Context `{Badger, !Sha256, !manifest.ManifestCbor, !ledger.EntryCbor, !node.RequestCbor, !node.ResponseCbor,
  PeerIDs, AesGcm, NaclBox, ReedSolomon, !group.GroupCbor, !group.MemberCbor, !NameCbor}.
Context `{Bcrypt, Ed25519, !group.PayloadCbor, !group.AddrsCbor, !invite.InviteCbor, !config.Yaml, !Multiaddrs, !Host}.
Context (base : string -> path).
Hypothesis plain_base : forall p, plain_path (base p).
Implicit Types (N : gmap string node.NodeState) (sv : Service) (st : FS) (k : string).

(** ** The ledger, the gossip and the heartbeat *)

(** The pass of the flushing goroutine of node [p], with Go's order over the map. *)
Definition flush_tick (p : string) (range : ledger.dirty_map -> list (string * ledger.Entry)) N N' : Prop :=
  exists n l s' l' r, N !! p = Some n /\ node.nledger n = Some l /\ ledger.Flush range (node.nstore n) l = (s', l', r) /\
    N' = <[p := node.set_ledger (node.set_store n s') (Some l')]> N.

(** It flushes once more when the context is done. *)
Definition flush_loop (p : string) := loop (later base) (flush_tick p) (fun N N' => exists range, flush_tick p range N N').

(** The pass of the gossiping goroutine: [BootstrapAllGroups], then
    [SyncGroupMembers] with the peers connected then; what the peers answer to the
    one and to the other, and Go's order over the answers. *)
Record Answers := NewAnswers {
  an_range : gmap string (list string) -> list (string * list string);
  an_peers : pid -> peers.exchange;
  an_members : pid -> string -> outcome (list group.Member)
}.

Definition gossip_tick (p : string) (x : Answers) (hN hN' : Peers.host * gmap string node.NodeState) : Prop :=
  exists n s' r, hN.2 !! p = Some n /\ hN'.1 = peers.BootstrapAllGroups (an_range x) (an_peers x) (node.nstore n) hN.1 /\
    join.SyncGroupMembers (an_members x) (node.nstore n) p (Peers.net_Peers hN'.1) = (s', r) /\ hN'.2 = <[p := node.set_store n s']> hN.2.

Definition gossip_loop (p : string) := Run (fun hN hN' => later base hN.2 hN'.2) (gossip_tick p) eq.

(** What the members answer to the pings of a round, and the clock. *)
Record Round := NewRound {
  rd_range : gmap string group.Member -> list (string * group.Member);
  rd_ping : pid -> bool;
  rd_clock : string -> Z;
  rd_clock' : string -> Z
}.

Definition heartbeat_tick (p : string) (x : Round) N N' : Prop :=
  exists n l (hb : heartbeat.State), N !! p = Some n /\ node.nledger n = Some l /\
    rtc (heartbeat.step (rd_ping x) (rd_clock x) (rd_clock' x) (node.nstore n)) (heartbeat.start_state (rd_range x) p (node.nstore n) l) hb /\
    heartbeat.finished hb /\ N' = <[p := node.set_ledger n (Some (heartbeat.led hb))]> N.

Definition heartbeat_Run (p : string) := Run (later base) (heartbeat_tick p) eq.

Lemma flush_tick_later p range N N' : flush_tick p range N N' -> rtc (later base) N N'.
Proof. intros (n & l & s' & l' & r & Hn & Hl & HF & ->). apply rtc_once. left. by eapply ev_account. Qed.

Lemma gossip_tick_later p x hN hN' : gossip_tick p x hN hN' -> rtc (later base) hN.2 hN'.2.
Proof. intros (n & s' & r & Hn & _ & HG & ->). apply rtc_once. left. by eapply ev_gossip. Qed.

Lemma heartbeat_tick_later p x N N' : heartbeat_tick p x N N' -> rtc (later base) N N'.
Proof.
  intros (n & l & st & Hn & Hl & HR & _ & ->).
  assert (HS : forall a b, rtc (heartbeat.step (rd_ping x) (rd_clock x) (rd_clock' x) (node.nstore n)) a b ->
    rtc (later base) (<[p := node.set_ledger n (Some (heartbeat.led a))]> N) (<[p := node.set_ledger n (Some (heartbeat.led b))]> N)).
  { induction 1 as [|a b c Hab _ IH]; [done|]. etrans; [|exact IH].
    destruct Hab as [t ts rs l0 ev Hlen|t rs1 rs2 ts l0 ev l' ev' HF]; [done|]. apply rtc_once. left. cbn [heartbeat.led].
    rewrite <- (insert_insert_eq N p (node.set_ledger n (Some l')) (node.set_ledger n (Some l0))).
    eapply (ev_ping _ _ (rd_ping x) (rd_clock x) (rd_clock' x) p (node.set_ledger n (Some l0)) l0); [apply lookup_insert_eq|done|exact HF]. }
  apply HS in HR. cbn [heartbeat.start_state heartbeat.led] in HR. rewrite insert_id in HR; [done|]. rewrite Hn, <- Hl. by destruct n.
Qed.

Lemma rtc_via {A B} (g : A -> B) (R : A -> A -> Prop) (Q : B -> B -> Prop) a b :
  (forall x y, R x y -> rtc Q (g x) (g y)) -> rtc R a b -> rtc Q (g a) (g b).
Proof. intros HQ. induction 1 as [|x y z E _ IH]; [done|]. etrans; [by apply HQ|done]. Qed.

(** The loops add nothing to what happens: along each of them the nodes change by
    operations and acts of [Daemon], whatever happens between the passes. *)
Theorem loops_later p cases :
  (forall starts N N', flush_loop p cases starts N N' -> rtc (later base) N N') /\
  (forall starts N N', heartbeat_Run p cases starts N N' -> rtc (later base) N N') /\
  (forall starts hN hN', gossip_loop p cases starts hN hN' -> rtc (later base) hN.2 hN'.2).
Proof.
  split_and!.
  - intros starts N N'. apply loop_R; [apply rtc_once|apply flush_tick_later|]. intros s s' [range HF]. by eapply flush_tick_later.
  - intros starts N N' HR%Run_loop. revert HR. apply loop_R; [apply rtc_once|apply heartbeat_tick_later|by intros s s' <-].
  - intros starts hN hN' HR%Run_loop. apply (rtc_via snd (fun x y => rtc (later base) x.2 y.2)); [done|]. revert HR.
    apply loop_R; [intros; by do 2 apply rtc_once|intros; apply rtc_once; by eapply gossip_tick_later|by intros s s' <-].
Qed.

(** ** Repairs *)

(** The callback [cmdDaemon] gives to the heartbeat: the peers a repair is
    started for. *)
Definition on_transition (ev : string * bool) : list string := if ev.2 then [ev.1] else [].

(** The members whose probe, on the ledger [l] before the round, takes them
    offline. *)
Definition goes_offline (x : Round) (s : db) (l : ledger.dirty_map) (t : pid * string) : bool :=
  ledger.WentOffline (ledger.RecordPing s l t.2 (rd_ping x t.1) (rd_clock x t.2) (rd_clock' x t.2)).2.

Lemma calls_repairs x s l ts :
  flat_map on_transition (concat (map (heartbeat.calls (rd_ping x) (rd_clock x) (rd_clock' x) s l) ts)) =
  map snd (filter (fun t => goes_offline x s l t = true) ts).
Proof.
  induction ts as [|t ts IH]; [done|]. cbn [map concat]. rewrite flat_map_app, IH, filter_cons.
  unfold heartbeat.calls, heartbeat.finish, goes_offline.
  destruct (ledger.RecordPing s l t.2 _ _ _) as [l' res]. cbn [snd]. destruct (ledger.WentOffline res); cbn [decide]; [done|].
  by destruct (ledger.WentOnline res).
Qed.

(** A round starts one repair for every member it takes offline, and no other,
    whatever the order of the probes. *)
Theorem round_repairs (x : Round) self s l (hb : heartbeat.State) :
  (forall m, rd_range x m ≡ₚ map_to_list m) ->
  rtc (heartbeat.step (rd_ping x) (rd_clock x) (rd_clock' x) s) (heartbeat.start_state (rd_range x) self s l) hb -> heartbeat.finished hb ->
  flat_map on_transition (heartbeat.called hb) ≡ₚ
  map snd (filter (fun t => goes_offline x s l t = true) (heartbeat.targets (rd_range x) self s)).
Proof.
  intros Hr HR [Ht Hn]. destruct (heartbeat.reached_all _ _ _ _ Hr _ _ _ _ HR) as [_ (dn & Hperm & _ & Hcall)].
  rewrite Ht, Hn in Hperm. simpl in Hperm. rewrite Hcall, calls_repairs. by rewrite Hperm.
Qed.

(** ** The spool worker *)

(** The network and the disks during a pass. *)
Record Net := NewNet { nt_fate : nat -> string -> string -> node.Fate; nt_clock : nat -> Z; nt_disk : nat -> wio }.

Definition worker_tick sv (sp : spool.Spool) (x : Net) st st' : Prop :=
  (forall t, plain_io (nt_disk x t)) /\ at_home base sv (node.nodes (world st)) /\
  exists sent, delivery.worker_pass (nt_fate x) (nt_clock x) (nt_disk x) sv sp st = (st', sent).

Definition around st st' : Prop := later base (node.nodes (world st)) (node.nodes (world st')).

Definition worker_Run sv sp := Run around (worker_tick sv sp) eq.

Lemma worker_tick_around sv sp x st st' : spool sv = Some sp -> worker_tick sv sp x st st' -> rtc around st st'.
Proof. intros Hsp (Hd & Hh & sent & HW). apply rtc_once. left. by eapply ev_flush. Qed.

Lemma around_later st st' : rtc around st st' -> rtc (later base) (node.nodes (world st)) (node.nodes (world st')).
Proof. induction 1 as [|st st1 st2 HA _ IH]; [done|]. eapply rtc_l; [exact HA|exact IH]. Qed.

(** At the start of a pass the way to the holder [k] is open: its node is up with
    room on its disk, this node's ledger has it online, messages to it arrive, no
    disk call fails, and what is queued for it fits a message. *)
Definition way_open sv k (x : Net) st : Prop := exists n p,
  node.nodes (world st) !! peer_String (self sv) = Some n /\ spool.tree (node.nfs n) /\ delivery.queue_fits sv base k (node.nfs n) /\
  plain_name k = true /\ peer_Decode k = Some p /\ peer_String p <> peer_String (self sv) /\
  delivery.online_at sv (world st) k = true /\ delivery.taking (peer_String p) (world st) /\
  (forall t, nt_fate x t (peer_String (self sv)) (peer_String p) = node.Through) /\ (forall t, node.fine (nt_disk x t)).

(** [C3] The worker delivers.  A shard that is with its holder or queued for it
    when the worker of the uploader starts is with its holder from the first pass
    on at whose start the way to the holder was open - whatever the other daemons,
    and the worker itself, do before and after that pass. *)
Theorem worker_Run_delivers sv sp cases starts st st' x t k id :
  spool sv = Some sp -> seated base sv -> healthy base (node.nodes (world st)) ->
  worker_Run sv sp cases starts st st' -> (x, t) ∈ starts -> way_open sv k x t ->
  blockstore.shard_id id -> lodged sv (node.disks (world st)) k id ->
  placed (node.disks (world st')) k id.
Proof.
  intros Hsp Hseat HN HR Hin (n & p & Hn & Htree & Hfit & Hpl & Hp & Hne & Hon & Htk & Hf & Hd) Hid HL.
  apply Run_loop in HR. destruct (loop_pass around (worker_tick sv sp) eq around (fun s s' => rtc_once s s') (fun y s s' => worker_tick_around sv sp y s s' Hsp)
    ltac:(by intros s s' <-) _ _ _ _ _ _ HR Hin) as (t' & R1%around_later & (Hdisk & Hhome & sent & HW) & R2%around_later).
  pose proof (later_acts base plain_base _ _ HN R1) as A1. pose proof (acts_healthy base plain_base _ _ A1 HN) as HN1.
  assert (A2 : rtc (act base) (node.nodes (world t)) (node.nodes (world t'))).
  { eapply delivery.worker_pass_acts; [exact Hdisk|exact Hsp|exact Hseat| |exact HW]. intros y Hy. by eapply he_names. }
  pose proof (acts_healthy base plain_base _ _ A2 HN1) as HN2. pose proof (later_acts base plain_base _ _ HN2 R2) as A3.
  pose proof (acts_lodged base plain_base sv _ _ k id Hseat HN A1 Hid HL) as L1.
  destruct (delivery.pass_delivers _ _ _ sv base Hdisk Hd plain_base sp t t' sent n k p Hsp Hseat HN1 Hn Htree Hfit Hpl Hp Hne Hon Htk Hf HW)
    as [_ HP].
  assert (P2 : placed (node.disks (world t')) k id).
  { destruct L1 as [L1|L1]; [|by apply HP]. eapply dsteps_placed; [exact (acts_disks base plain_base _ _ HN1 A2)|done|exact L1]. }
  eapply dsteps_placed; [exact (acts_disks base plain_base _ _ HN2 A3)|done|exact P2].
Qed.

End with_libraries.
(** ** Witness: the worker of Alice, from the upload with Bob away to Bob back *)

Import scenario.

Definition sample_net : Net := NewNet node.all_through node.sample_clock node.sample_disk.

Definition bobs : string := nth 2 shard_ids "".

Definition queued_check (D : gmap string (fs * option blockstore.Store)) (k id : string) : bool :=
  match D !! "12DA" with
  | Some (f, _) => match file_at f (spool.item_path spool_dir k spool.KindShard id) with
                   | Some d => bool_decide (blockstore.HashOf d = id) | None => false end
  | None => false
  end.

Lemma queued_intro D k id : queued_check D k id = true -> blockstore.shard_id id /\ queued alice D k id.
Proof.
  unfold queued_check. destruct (D !! "12DA") as [[f ob]|] eqn:HD; [|done].
  destruct (file_at f _) as [data|] eqn:Hf; [|done]. intros Hh%bool_decide_eq_true. split.
  - rewrite <- Hh. apply blockstore.HashOf_shard_id.
  - by exists spool_dir, f, ob, data.
Qed.

Definition fits_check {T ok norm} `{!Cbor T ok norm} (v : T) : bool :=
  match Marshal v with Ok raw => zlen raw <=? node.maxFrameSize | _ => false end.

Lemma frame_fits {T ok norm} `{!Cbor T ok norm} (v : T) : fits_check v = true -> node.fits v.
Proof. unfold fits_check. destruct (Marshal v) as [raw| |] eqn:E; [|done..]. intros Hl%Z.leb_le. by exists raw. Qed.

Definition request_fits (kv : path * Fs.node) : bool :=
  match kv with
  | (q, File data) =>
      match last q with
      | Some (String _ (String _ key)) => fits_check (node.NewRequest node.OpPutShard key data)
      | _ => true
      end
  | _ => true
  end.

Lemma request_fits_item sp k key data :
  request_fits (spool.item_path sp k spool.KindShard key, File data) = fits_check (node.NewRequest node.OpPutShard key data).
Proof. unfold request_fits, spool.item_path. by rewrite last_app_cons. Qed.

Lemma queue_fits_check k f : forallb request_fits (map_to_list f) = true -> delivery.queue_fits alice home k f.
Proof.
  intros HC. rewrite forallb_forall in HC. split; [apply frame_fits; vm_compute; reflexivity|]. intros key data Hf. unfold file_at in Hf.
  destruct (f !! _) as [[|b]|] eqn:E; [done| |done]. injection Hf as ->. apply elem_of_map_to_list, list_elem_of_In, HC in E.
  rewrite request_fits_item in E. by apply frame_fits.
Qed.

Definition nothing_in (f : fs) : bool := match map_to_list f with [] => true | _ => false end.

Lemma empty_roomy (f : fs) bs : nothing_in f = true -> blockstore.roomy f bs.
Proof. unfold nothing_in. destruct (map_to_list f) eqn:E; [|done]. apply map_to_list_empty_iff in E as ->. by split. Qed.

Definition pass_check (st : FS) : bool :=
  match node.nodes (world st) !! "12DA", node.nodes (world st) !! "12DB" with
  | Some a, Some b =>
      forallb (fun kv => spool.parent_check (node.nfs a) kv.1) (map_to_list (node.nfs a)) && forallb request_fits (map_to_list (node.nfs a)) &&
      nothing_in (node.nfs b) && bool_decide (is_Some (node.nblocks b)) && delivery.online_at alice (world st) "12DB"
  | _, _ => false
  end.

Lemma way_open_now : way_open home alice "12DB" sample_net (hears queueing.1).
Proof.
  assert (HC : pass_check (hears queueing.1) = true) by (vm_compute; reflexivity). unfold pass_check in HC.
  destruct (node.nodes (world (hears queueing.1)) !! "12DA") as [a|] eqn:Ha; [|discriminate HC].
  destruct (node.nodes (world (hears queueing.1)) !! "12DB") as [b|] eqn:Hb; [|discriminate HC].
  apply andb_true_iff in HC as [HC C5]. apply andb_true_iff in HC as [HC [bs C4]%bool_decide_eq_true].
  apply andb_true_iff in HC as [HC C3]. apply andb_true_iff in HC as [C1 C2].
  exists a, ("B" : pid (PeerIDs := toy_peers)). split; [exact Ha|]. split; [by apply spool.tree_check|]. split; [by apply queue_fits_check|].
  split; [reflexivity|]. split; [reflexivity|]. split; [discriminate|]. split; [exact C5|]. split.
  - exists b. split; [exact Hb|]. exists bs. split; [exact C4|]. by apply empty_roomy.
  - split; [reflexivity|]. intros t. by exists "1".
Qed.

Lemma hears_around st : rtc (around home) st (hears st).
Proof.
  unfold hears. destruct (node.nodes (world st) !! "12DA") as [n|] eqn:Hn; [|done].
  destruct (node.nledger n) as [l|] eqn:Hl; [|done]. destruct (heartbeat.finish _ _ _ _ _ _) as [l' ev] eqn:HF.
  apply rtc_once. left. by eapply ev_ping.
Qed.

Lemma worker_Run_delivers_witness : placed (node.disks (world flushed.1)) "12DB" bobs.
Proof.
  destruct (queued_intro (node.disks (world queueing.1)) "12DB" bobs) as [Hid Hq]; [vm_compute; reflexivity|].
  apply (worker_Run_delivers home home_plain alice spool_dir [] [(sample_net, hears queueing.1)] queueing.1 flushed.1
    sample_net (hears queueing.1)).
  - reflexivity.
  - apply alice_seated.
  - apply queueing_healthy.
  - apply (Run_intro _ _ _ _ _ _ _ _ flushed.1).
    + apply hears_around.
    + split; [apply sample_disk_plain|]. split; [apply hears_home|]. exists flushed.2. apply surjective_pairing.
    + by apply loop_waits.
  - constructor.
  - apply way_open_now.
  - exact Hid.
  - right. exact Hq.
Defined.

End loops.
