(* ===== verification/Shutdown.v ===== *)
(** * The end of a daemon

    On a signal [cmdDaemon] of cmd/fnshare/main.go returns, and its deferred calls
    run, the last one registered first; the goroutines go on until the process ends.
    Here: the deferred calls in their order, beside the goroutine that flushes the
    ledger on every tick and once more when the context is done. *)

From S2P Require Import Prelude Ext Concrete Store Ledger.

(** [DB.Close] of BadgerDB: what is stored stays on disk; a transaction that writes
    afterwards fails ([ErrDBClosed]) and changes nothing. *)
Class BadgerClose `{Badger} := {
  db_Close : db -> db;
  Close_view s : db_view (db_Close s) = db_view s;
  closed_Set s k v : exists e, txn_Set (db_Close s) k v = (db_Close s, Some e);
  closed_Delete s k : exists e, txn_Delete (db_Close s) k = (db_Close s, Some e)
}.

Module shutdown.

(** ** The deferred calls *)

Inductive Defer := Cancel | CloseStore | CloseNode | StopMount | StopApi.

#[global] Instance Defer_eq_dec : EqDecision Defer.
Proof. solve_decision. Defined.

(** In the order they are registered; the mount's only if there is one. *)
Definition daemon_defers (mounted : bool) : list Defer :=
  [Cancel; CloseStore; CloseNode] ++ (if mounted then [StopMount] else []) ++ [StopApi].

Section with_libraries.
Context `{BadgerClose, !ledger.EntryCbor}.
Implicit Types (s : db) (l : ledger.dirty_map) (p : string).

(** The database, the ledger's map, the deferred calls to come, whether the context
    is done, and whether the flushing goroutine is still there. *)
Record State := NewState {
  d_db : db;
  d_led : ledger.dirty_map;
  d_todo : list Defer;
  d_done : bool;
  d_flusher : bool
}.

Implicit Type st : State.

(** The signal has come, and [cmdDaemon] returns. *)
Definition signalled (mounted : bool) s l : State := NewState s l (rev (daemon_defers mounted)) false true.

Definition run_defer (d : Defer) s (dn : bool) : db * bool :=
  match d with
  | Cancel => (s, true)
  | CloseStore => (db_Close s, dn)
  | CloseNode | StopMount | StopApi => (s, dn)
  end.

(** The final flush: [case <-ctx.Done(): _ = led.Flush(); return]. *)
Inductive final_flush st : State -> Prop :=
  | final_intro range s' l' r :
      d_flusher st = true -> d_done st = true -> ledger.Flush range (d_db st) (d_led st) = (s', l', r) ->
      final_flush st (NewState s' l' (d_todo st) true false).

Inductive step st : State -> Prop :=
  | s_defer d todo s' dn' :
      d_todo st = d :: todo -> run_defer d (d_db st) (d_done st) = (s', dn') ->
      step st (NewState s' (d_led st) todo dn' (d_flusher st))
  | s_tick range s' l' r :
      d_flusher st = true -> ledger.Flush range (d_db st) (d_led st) = (s', l', r) ->
      step st (NewState s' l' (d_todo st) (d_done st) true)
  | s_final st' : final_flush st st' -> step st st'
  | s_record p e : step st (NewState (d_db st) (<[p := e]> (d_led st)) (d_todo st) (d_done st) (d_flusher st))
  | s_put k v : step st (NewState (store.Put (d_db st) k v).1 (d_led st) (d_todo st) (d_done st) (d_flusher st))
  | s_delete k : step st (NewState (store.Delete (d_db st) k).1 (d_led st) (d_todo st) (d_done st) (d_flusher st)).

(** ** A closed database *)

Definition closed s : Prop := exists s0, s = db_Close s0.

Lemma closed_Put s k v : closed s -> (store.Put s k v).1 = s.
Proof. intros [s0 ->]. unfold store.Put. by destruct (closed_Set s0 k v) as [e ->]. Qed.

Lemma closed_Del s k : closed s -> (store.Delete s k).1 = s.
Proof. intros [s0 ->]. unfold store.Delete. by destruct (closed_Delete s0 k) as [e ->]. Qed.

Lemma closed_flush s pending : closed s -> (ledger.flush_loop s pending).1 = s.
Proof.
  intros Hc. revert s Hc. induction pending as [|[p e] pending IH]; intros s Hc; simpl; [done|].
  destruct (Marshal e) as [raw|er|]; [|done..]. pose proof (closed_Put s (ledger.key (ledger.PeerID e)) raw Hc) as HP.
  destruct (store.Put s _ raw) as [s1 [[]|er|]]; simpl in HP; subst; auto.
Qed.

Lemma closed_Flush range s l s' l' r : closed s -> ledger.Flush range s l = (s', l', r) -> s' = s /\ l' = ∅.
Proof.
  intros Hc. unfold ledger.Flush. pose proof (closed_flush s (range l) Hc) as HF.
  destruct (ledger.flush_loop s (range l)) as [s1 r1]. simpl in HF. by intros [= <- <- _].
Qed.

(** Once closed, nothing more is written. *)
Lemma closed_step st st' : closed (d_db st) -> step st st' -> db_view (d_db st') = db_view (d_db st) /\ closed (d_db st').
Proof.
  intros Hc [d todo s' dn' Ht Hd|range s' l' r _ HF|st1 [range s' l' r _ _ HF]|p e|k v|k]; simpl.
  - destruct d; injection Hd as <- <-; [done| |done..]. split; [apply Close_view|by eexists].
  - apply (closed_Flush _ _ _ _ _ _ Hc) in HF as [-> _]. done.
  - apply (closed_Flush _ _ _ _ _ _ Hc) in HF as [-> _]. done.
  - done.
  - by rewrite closed_Put.
  - by rewrite closed_Del.
Qed.

(** The context is done only after the database has been closed. *)
Definition ordered st : Prop :=
  (exists mounted, d_todo st `suffix_of` rev (daemon_defers mounted)) /\
  (CloseStore ∉ d_todo st -> closed (d_db st)) /\ (d_done st = true -> CloseStore ∉ d_todo st).

Lemma cancel_last mounted todo : Cancel :: todo `suffix_of` rev (daemon_defers mounted) -> todo = [].
Proof.
  intros [pre E]. destruct todo as [|x todo _] using rev_ind; [done|]. exfalso. unfold daemon_defers in E. simpl in E.
  rewrite app_comm_cons, app_assoc in E. apply app_inj_tail in E as [E _].
  assert (Hin : Cancel ∈ pre ++ Cancel :: todo) by (apply elem_of_app; right; constructor). rewrite <- E in Hin.
  destruct mounted; simpl in Hin; repeat (apply elem_of_cons in Hin as [?|Hin]; [done|]); by apply elem_of_nil in Hin.
Qed.

Lemma ordered_step st st' : ordered st -> step st st' -> ordered st'.
Proof.
  intros (Hsuf & Hc & Hd) Hst. destruct (decide (CloseStore ∈ d_todo st)) as [Hin|Hout].
  - assert (Hnd : d_done st = false) by (destruct (d_done st); [by apply Hd in Hin|done]).
    destruct Hst as [d todo s' dn' Ht HR|range s' l' r _ HF|st1 [range s' l' r _ HE HF]|p e|k v|k]; try (by split_and!; simpl; try done; rewrite Hnd).
    2: by rewrite Hnd in HE.
    destruct Hsuf as [mounted Hsuf]. unfold ordered. simpl. split_and!.
    + exists mounted. etrans; [|exact Hsuf]. rewrite Ht. by apply suffix_cons_r.
    + intros Hno. destruct d; injection HR as <- <-; try (rewrite Ht in Hin; apply elem_of_cons in Hin as [?|?]; done). by eexists.
    + intros Hdn. destruct d; injection HR as <- <-; try (by rewrite Hnd in Hdn). rewrite Ht in Hsuf. apply cancel_last in Hsuf as ->. apply not_elem_of_nil.
  - pose proof (closed_step st st' (Hc Hout) Hst) as [_ Hc']. split_and!.
    + destruct Hsuf as [mounted Hsuf]. exists mounted. destruct Hst as [d todo s' dn' Ht HR| |st1 []| | | ]; simpl; try done.
      etrans; [|exact Hsuf]. rewrite Ht. by apply suffix_cons_r.
    + done.
    + intros _. destruct Hst as [d todo s' dn' Ht HR| |st1 []| | | ]; simpl; try done. intros Hin. apply Hout. rewrite Ht. by apply list_elem_of_further.
Qed.

(** [C12] The last flush comes too late.  [cancel] is the first call deferred and
    so the last to run, after the database has been closed: under every schedule the
    flush the ledger's goroutine makes when the context is done writes nothing, and
    leaves nothing in memory either.  From the closing on the database does not
    change; what was recorded since the last tick before it is gone at the next
    start. *)
Theorem last_flush_lost mounted s l st st' :
  rtc step (signalled mounted s l) st -> final_flush st st' ->
  d_led st' = ∅ /\ (forall p, ledger.loadEntry (d_db st') p = ledger.loadEntry (d_db st) p) /\
  forall st'', rtc step st st'' -> db_view (d_db st'') = db_view (d_db st).
Proof.
  intros Hrun HF. assert (HO : ordered st).
  { cut (ordered (signalled mounted s l)); [induction Hrun; eauto using ordered_step|]. split_and!; [by exists mounted| |done].
    intros Hno. exfalso. apply Hno. unfold signalled, daemon_defers. simpl. destruct mounted; simpl; set_solver. }
  destruct HO as (_ & Hc & Hd). destruct HF as [range s' l' r _ HE HF]. specialize (Hc (Hd HE)).
  destruct (closed_Flush _ _ _ _ _ _ Hc HF) as [-> ->]. split_and!; [done|done|].
  intros st'' Hst. clear HF HE Hd Hrun. induction Hst as [|x y z Hxy _ IH]; [done|].
  destruct (closed_step x y Hc Hxy) as [E Hc']. rewrite <- E. by apply IH.
Qed.

End with_libraries.

(** ** Witness *)

#[global] Instance mem_close : BadgerClose (H := mem_badger).
Proof.
  refine {| db_Close := (fun d => MemDB (mem_map d) true) : db (Badger := mem_badger) -> db |}; [done|by eexists..].
Defined.

(** A peer has been served since the last tick. *)
Definition served : ledger.dirty_map := {["12DB" := ledger.zeroEntry "12DB"]}.

Definition at_cancel : State (H := mem_badger) := NewState (MemDB ∅ true : db (Badger := mem_badger)) served [] true true.

Lemma signal_run : rtc step (signalled false (MemDB ∅ false : db (Badger := mem_badger)) served) at_cancel.
Proof. do 4 (eapply rtc_l; [by eapply s_defer|]; simpl). reflexivity. Qed.

Lemma last_flush_lost_witness : exists st', final_flush at_cancel st' /\ d_led st' = ∅ /\
  ledger.loadEntry (d_db st') "12DB" = None /\ served !! "12DB" = Some (ledger.zeroEntry "12DB").
Proof.
  assert (HF : final_flush at_cancel (NewState (MemDB ∅ true : db (Badger := mem_badger)) ∅ [] true false)).
  { apply (final_intro at_cancel map_to_list _ _ (ledger.Flush map_to_list (d_db at_cancel) served).2); [reflexivity|reflexivity|vm_compute; reflexivity]. }
  eexists. split; [exact HF|].
  destruct (last_flush_lost false (MemDB ∅ false : db (Badger := mem_badger)) served at_cancel _ signal_run HF) as (E1 & E2 & _).
  split; [exact E1|]. split; [|reflexivity]. rewrite E2. reflexivity.
Defined.

End shutdown.
