(* ===== verification/Client.v ===== *)
(** * internal/api/client.go: the command line's view of the daemon

    A request of the client reaches the daemon's [ServeHTTP] with the CLI token;
    what the connection does is the oracle [wire]. *)

From S2P Require Import Prelude Ext Concrete Store Fs Blockstore Crypto Ec Holders Cache Manifest Ledger Group.
From S2P Require Import Blocks Spool Base64 Url Query File Reader Upload Repair Scenario Fuse Invite Join Auth Config Peers Api.

Module client.
Import api.

Record Client := MakeClient { base : string; token : string }.

(** The connection: refused, answered but the answer lost, answered. *)
Inductive wire := NoConn (e : goerr) | Lost (e : goerr) | Through.

(** [resp.Status] for the codes the server answers with. *)
Definition status_line (code : Z) : string :=
  if code =? 200 then "200 OK"
  else if code =? 400 then "400 Bad Request"
  else if code =? 401 then "401 Unauthorized"
  else if code =? 403 then "403 Forbidden"
  else if code =? 404 then "404 Not Found"
  else if code =? 409 then "409 Conflict"
  else if code =? 500 then "500 Internal Server Error"
  else if code =? 502 then "502 Bad Gateway"
  else "503 Service Unavailable".

(** The token file, if it can be read. *)
Definition token_file (cwd : path) (f : fs) (p : string) : option string :=
  match ReadFile f (path_from cwd p) with
  | Ok b => Some (string_of_bytes b)
  | _ => None
  end.

Definition NewClient (cwd : path) (getenv : string -> string) (f : fs) (addr : string) : Client :=
  let addr := if bool_decide (addr = "") then "127.0.0.1:4101" else addr in
  let dataDir := getenv "FNSHARE_DATA" in
  MakeClient ("http://" +:+ addr)
    (if negb (bool_decide (dataDir = "")) then default "" (token_file cwd f (dataDir +:+ "/.cli-token"))
     else match token_file cwd f "/data/.cli-token" with
          | Some t => t
          | None => default "" (token_file cwd f (getenv "HOME" +:+ "/.fnshare/.cli-token"))
          end).

(** [attachAuth]: no cookie; the header if there is a token. *)
Definition attachAuth (c : Client) : Credentials := NewCredentials None (token c).

(** The query of [Upload]'s request, without the question mark. *)
Definition upload_query (filename mode gid : string) : string :=
  let u := "name=" +:+ QueryEscape filename in
  let u := if bool_decide (mode = "") then u else u +:+ "&mode=" +:+ QueryEscape mode in
  if bool_decide (gid = "") then u else u +:+ "&group=" +:+ QueryEscape gid.

(** The route of that request: [handleUpload] reads the query. *)
Definition upload_route (query : string) (body : file.Body) : Route :=
  let q := parseQuery query in
  POST_files (query_Get q "name") (query_Get q "mode") (query_Get q "group") body.

Section with_libraries.
Context `{Badger, !Sha256, !manifest.ManifestCbor, !ledger.EntryCbor, !node.RequestCbor, !node.ResponseCbor,
  PeerIDs, AesGcm, NaclBox, ReedSolomon, !group.GroupCbor, !group.MemberCbor, !file.NameCbor}.
Context `{Bcrypt, Ed25519, !group.PayloadCbor, !group.AddrsCbor, !invite.InviteCbor, !config.Yaml, !Multiaddrs, !Host}.
Context (fate : nat -> string -> string -> node.Fate) (clock : nat -> Z) (disk : nat -> wio).
Context (range : gmap string group.Member -> list (string * group.Member)).
Context (range_ledger : ledger.dirty_map -> list (string * ledger.Entry)) (cwd : path).
Implicit Types (sv : Server) (dp : Deps) (env : Env) (c : Client) (w : wire).

Definition serve dp env := ServeHTTP fate clock disk range range_ledger cwd dp env.

(** [c.hc.Do(req)]; a handler that panics closes the connection. *)
Definition Do w dp env c (r : Route) sv : Server * outcome Response :=
  match w with
  | NoConn e => (sv, Err e)
  | Lost e => ((serve dp env (attachAuth c) r sv).1, Err e)
  | Through =>
      match serve dp env (attachAuth c) r sv with
      | (sv', Ok resp) => (sv', Ok resp)
      | (sv', _) => (sv', Err EOF)
      end
  end.

Definition failed (resp : Response) : bool := negb (status resp / 100 =? 2).

(** The error a body carries; other bodies decode to none. *)
Definition error_of (p : Payload) : string := match p with ErrorBody msg => msg | _ => "" end.

(** [do]: the body of a successful answer. *)
Definition do_ w dp env c (r : Route) sv : Server * outcome Payload :=
  let '(sv', x) := Do w dp env c r sv in
  (sv', let! resp := x in
        if failed resp then
          Err (ErrMsg (if bool_decide (error_of (payload resp) = "") then "api error: " +:+ status_line (status resp)
                       else status_line (status resp) +:+ " - " +:+ error_of (payload resp)))
        else Ok (payload resp)).

(** A successful body has the type of its route. *)
Definition unexpected {A} : outcome A := Err (ErrMsg "json: cannot unmarshal").

Definition Status w dp env c sv : Server * outcome StatusResponse :=
  let '(sv', x) := do_ w dp env c GET_status sv in
  (sv', let! p := x in match p with StatusBody r => Ok r | _ => unexpected end).

Definition Invite w dp env c (req : InviteRequest) sv : Server * outcome string :=
  let '(sv', x) := do_ w dp env c (POST_invite (Ok req)) sv in
  (sv', let! p := x in match p with LinkBody l => Ok l | _ => unexpected end).

Definition ListFiles w dp env c sv : Server * outcome (list FileSummary) :=
  let '(sv', x) := do_ w dp env c GET_files sv in
  (sv', let! p := x in match p with FilesBody l => Ok l | _ => unexpected end).

(** [Upload] returns the body, which [cmdPut] decodes. *)
Definition Upload w dp env c (filename mode gid : string) (body : file.Body) sv : Server * outcome Payload :=
  let '(sv', x) := Do w dp env c (upload_route (upload_query filename mode gid) body) sv in
  (sv', let! resp := x in
        if failed resp then Err (ErrMsg ("upload: " +:+ status_line (status resp) +:+ " - " +:+ error_of (payload resp)))
        else Ok (payload resp)).

(** [Download]: the bytes written.  net/http knows from the announced length
    whether the body is complete. *)
Definition Download w dp env c (fileID : string) sv : Server * outcome bytes :=
  let '(sv', x) := Do w dp env c (GET_file_content fileID) sv in
  (sv', let! resp := x in
        if failed resp then Err (ErrMsg ("download: " +:+ status_line (status resp) +:+ " - " +:+ error_of (payload resp)))
        else match payload resp with
             | StreamBody len (Some b) => if zlen b =? len then Ok b else Err ErrUnexpectedEOF
             | StreamBody _ None => Err ErrUnexpectedEOF
             | _ => unexpected
             end).

(** ** The query of an upload *)

Lemma upload_query_pairs filename mode gid :
  parseQuery (upload_query filename mode gid) =
    ("name", filename) :: (if bool_decide (mode = "") then [] else [("mode", mode)])
      ++ (if bool_decide (gid = "") then [] else [("group", gid)]).
Proof.
  assert (Hn : forall v, parse_field (pair_text "name" v) = Some ("name", v)) by (intros; by apply parse_pair).
  assert (Hm : forall v, parse_field (pair_text "mode" v) = Some ("mode", v)) by (intros; by apply parse_pair).
  assert (Hg : forall v, parse_field (pair_text "group" v) = Some ("group", v)) by (intros; by apply parse_pair).
  assert (Hc : forall k v, str_all plain k = true -> fields "&" (pair_text k v) = [pair_text k v])
    by (intros; by apply fields_clear, pair_text_clear).
  assert (Hs : forall k v t, str_all plain k = true -> fields "&" (pair_text k v +:+ String "&" t) = pair_text k v :: fields "&" t)
    by (intros; by apply fields_cons, pair_text_clear).
  unfold parseQuery, upload_query.
  change ("name=" +:+ QueryEscape filename) with (pair_text "name" filename).
  change ("&mode=" +:+ QueryEscape mode) with (String "&" (pair_text "mode" mode)).
  change ("&group=" +:+ QueryEscape gid) with (String "&" (pair_text "group" gid)).
  assert (Ha : forall x t, String "&" x +:+ t = String "&" (x +:+ t)) by done.
  repeat case_bool_decide; rewrite ?group.app_assoc_str, ?Ha, ?Hs, ?Hc by done;
    rewrite (omap_Some _ _ _ _ (Hn _)), ?(omap_Some _ _ _ _ (Hm _)), ?(omap_Some _ _ _ _ (Hg _)); done.
Qed.

(** The names of an upload survive the URL.  Whatever bytes a file name,
    mode and group consist of - separators, percent signs, spaces - the daemon
    reads from the query the client builds exactly those three. *)
Theorem upload_query_roundtrip filename mode gid body :
  upload_route (upload_query filename mode gid) body = POST_files filename mode gid body.
Proof.
  unfold upload_route. rewrite upload_query_pairs. unfold query_Get.
  destruct (bool_decide (mode = "")) eqn:Hm, (bool_decide (gid = "")) eqn:Hg; simpl;
    repeat match goal with E : bool_decide (_ = "") = true |- _ => apply bool_decide_eq_true in E as -> end; done.
Qed.

(** ** The CLI token *)

(** A handler that leaves the token as it is. *)
Definition steady (h : Server -> Server * outcome Response) : Prop := forall sv, cliToken (h sv).1 = cliToken sv.

Lemma steady_reply r : steady (reply r).
Proof. done. Qed.

Lemma steady_panic : steady (fun sv => (sv, Panic)).
Proof. done. Qed.

Lemma steady_or_fail {A} code (r : outcome A) k : (forall a, steady (k a)) -> steady (or_fail code r k).
Proof. intros Hk sv. unfold or_fail. destruct r; [apply Hk|done..]. Qed.

Lemma steady_with_db {A} dp (f : db -> A) k : (forall a, steady (k a)) -> steady (with_db dp f k).
Proof. intros Hk sv. unfold with_db. destruct (local dp sv); [apply Hk|done]. Qed.

Lemma steady_on_db {A} dp (f : db -> db * A) k : (forall a, steady (k a)) -> steady (on_db dp f k).
Proof. intros Hk sv. unfold on_db. destruct (local dp sv) as [n|]; [|done]. destruct (f _) as [s' a]. by rewrite Hk. Qed.

Lemma steady_on_files {A} (m : file.M A) k : (forall a, steady (k a)) -> steady (on_files m k).
Proof. intros Hk sv. unfold on_files. destruct (m _) as [st' a]. by rewrite Hk. Qed.

Lemma steady_on_rng {A} (f : bytes -> bytes * outcome A) k : (forall a, steady (k a)) -> steady (on_rng f k).
Proof. intros Hk sv. unfold on_rng. destruct (f _) as [r a]. by rewrite Hk. Qed.

Lemma steady_on_auth {A} dp (f : auth.Service -> auth.Service * A) k :
  (forall a, auth.cliToken (f a).1 = auth.cliToken a) -> (forall a, steady (k a)) -> steady (on_auth dp f k).
Proof.
  intros Hf Hk sv. unfold on_auth. destruct (local dp sv) as [n|]; [|done].
  specialize (Hf (auth.NewService _ (node.nstore n) (cliToken sv) (sessions sv))). destruct (f _) as [a' x]. by rewrite Hk.
Qed.

Lemma ValidateSession_token a t u : auth.cliToken (auth.ValidateSession a t u).1 = auth.cliToken a.
Proof. apply ValidateSession_frame. Qed.

Lemma VerifyAndIssue_token a pw r t : auth.cliToken (auth.VerifyAndIssue a pw r t).1.1 = auth.cliToken a.
Proof. unfold auth.VerifyAndIssue. repeat case_match; simplify_eq; done. Qed.

Lemma SetPassword_token a pw sa : auth.cliToken (auth.SetPassword a pw sa).1 = auth.cliToken a.
Proof. unfold auth.SetPassword. repeat case_match; simplify_eq; done. Qed.

Lemma steady_validate dp env cr k : (forall b, steady (k b)) -> steady (validate dp env cr k).
Proof. intros. apply steady_on_auth; [intros; apply ValidateSession_token|done]. Qed.

Lemma steady_HasPassword {A} dp (g : auth.Service -> A) k : (forall b, steady (k b)) -> steady (on_auth dp (fun a => (a, g a)) k).
Proof. intros. by apply steady_on_auth. Qed.

Lemma steady_issue dp env pw k : (forall x, steady (k x)) -> steady (issue dp env pw k).
Proof.
  intros Hk sv. unfold issue. apply steady_on_auth.
  - intros a. pose proof (VerifyAndIssue_token a pw (file.rng (files_ sv)) (now env)) as E.
    by destruct (auth.VerifyAndIssue a pw _ _) as [[a' r] o].
  - intros x sv'. by rewrite Hk.
Qed.

Lemma set_host_token sv h : cliToken (set_host sv h) = cliToken sv.
Proof. done. Qed.

(** Through a handler: one lemma per combinator, one case per branch. *)
Ltac go_steady :=
  repeat match goal with
  | |- steady _ => intros ?
  | |- forall _, steady _ => intros ? ?
  | |- cliToken (_, _).1 = _ => reflexivity
  | |- cliToken (reply _ _).1 = _ => reflexivity
  | |- cliToken (or_fail _ _ _ (set_host ?sv ?h)).1 = cliToken ?sv => rewrite <- (set_host_token sv h); apply steady_or_fail
  | |- cliToken (or_fail _ _ _ _).1 = _ => apply steady_or_fail
  | |- cliToken (with_db _ _ _ _).1 = _ => apply steady_with_db
  | |- cliToken (on_db _ _ _ _).1 = _ => apply steady_on_db
  | |- cliToken (on_files _ _ _).1 = _ => apply steady_on_files
  | |- cliToken (on_rng _ _ _).1 = _ => apply steady_on_rng
  | |- cliToken (validate _ _ _ _ _).1 = _ => apply steady_validate
  | |- cliToken (issue _ _ _ _ _).1 = _ => apply steady_issue
  | |- cliToken (on_auth _ (fun a => (a, _)) _ _).1 = _ => apply steady_HasPassword
  | |- context [let '(_, _) := ?x in _] => destruct x
  | |- context [match ?x with _ => _ end] => destruct x
  end.

Lemma steady_patch dp env body : steady (handlePatchConfig cwd dp env body).
Proof.
  apply steady_or_fail. intros p sv. cbv zeta. destruct (local dp _) as [n|]; [|done].
  destruct (config.Save _ _ _ _) as [f' r]. unfold or_fail. by destruct r.
Qed.

Lemma steady_handler dp env cr r : steady (handler fate clock disk range range_ledger cwd dp env cr r).
Proof.
  destruct r; cbn [handler]; try apply steady_patch.
  - unfold handleAuthState. go_steady.
  - unfold handleAuthInit. apply steady_HasPassword. intros []; [done|]. apply steady_or_fail. intros pw.
    apply steady_on_auth; [intros; apply SetPassword_token|]. go_steady.
  - unfold handleAuthLogin. go_steady.
  - apply steady_on_auth; [|done]. intros a. simpl. case_bool_decide; [done|]. unfold auth.Logout. by case_bool_decide.
  - unfold handleStatus. go_steady.
  - unfold handleListGroups. go_steady.
  - unfold handleCreateGroup. go_steady.
  - unfold handleJoinGroup. go_steady.
  - unfold handleInvite. go_steady.
  - unfold handleListFiles. go_steady.
  - unfold handleUpload. go_steady.
  - unfold handleDownload. go_steady.
  - unfold handleLedger. go_steady.
  - done.
  - done.
Qed.

Lemma steady_serve dp env cr r : steady (serve dp env cr r).
Proof.
  unfold serve, ServeHTTP. destruct (ungated r); [apply steady_handler|]. unfold requireAuth. apply steady_validate.
  intros []; [apply steady_handler|]. go_steady.
Qed.

End with_libraries.
End client.
