(* ===== verification/Cli.v ===== *)
(** * cmd/fnshare/main.go: the command line and the start of the daemon

    The offline commands work on the data directory: the files, the database and
    the random supply ([Machine]).  The others are requests to the daemon.  What
    is printed is left out, except where printing cuts identifiers. *)

From stdpp Require Import pretty.
From S2P Require Import Prelude Ext Concrete Store Fs Blockstore Crypto Ec Holders Cache Manifest Ledger Group.
From S2P Require Import Blocks Spool Base64 Url Query Config Keys File Reader Upload Repair Scenario Fuse Invite Join.
From S2P Require Import Peers Auth Api Client.

Module cli.
Import api client.

(** ** Small pieces *)

(** [strconv.Atoi] *)
Fixpoint digits (acc : Z) (s : string) : option Z :=
  match s with
  | EmptyString => Some acc
  | String a s' => if is_digit a then digits (acc * 10 + (code a - 48)) s' else None
  end.

Definition Atoi (s : string) : option Z :=
  let '(sign, body) :=
    match s with
    | String a s' =>
        if bool_decide (a = "-"%char) then (-1, s') else if bool_decide (a = "+"%char) then (1, s') else (1, s)
    | EmptyString => (1, s)
    end in
  if bool_decide (body = "") then None
  else match digits 0 body with
       | Some n => if int64_ok (sign * n) then Some (sign * n) else None
       | None => None
       end.

Definition seconds (n : Z) : Z := wrap64 (n * 10 ^ 9).

(** The heartbeat interval of [cmdDaemon]. *)
Definition interval_of (cfg : config.Config) (getenv : string -> string) : Z :=
  let v := getenv "FNSHARE_HEARTBEAT_SECONDS" in
  let interval :=
    if bool_decide (v = "") then seconds (config.HeartbeatSeconds cfg)
    else match Atoi v with
         | Some n => if 0 <? n then seconds n else seconds (config.HeartbeatSeconds cfg)
         | None => seconds (config.HeartbeatSeconds cfg)
         end in
  if interval <=? 0 then seconds 30 else interval.

Definition mount_path (cfg : config.Config) (getenv : string -> string) : string :=
  let v := getenv "FNSHARE_MOUNT" in
  if bool_decide (v = "") then config.MountPath cfg else v.

(** [filepath.Clean] on text: one element after the cleaned ones, these in reverse. *)
Definition clean1 (rooted : bool) (out : list string) (e : string) : list string :=
  if bool_decide (e = "") || bool_decide (e = ".") then out
  else if bool_decide (e = "..") then
    match out with
    | [] => if rooted then [] else [".."]
    | x :: out' => if bool_decide (x = "..") then ".." :: out else out'
    end
  else e :: out.

Definition filepath_Clean (s : string) : string :=
  let rooted := has_prefix "/" s in
  let t := String.concat "/" (rev (fold_left (clean1 rooted) (split_slash s) [])) in
  if rooted then String "/" t else if bool_decide (t = "") then "." else t.

(** [os.UserHomeDir] is the variable [HOME], an error when that is empty. *)
Definition defaultDataDir (getenv : string -> string) : string :=
  let v := getenv "FNSHARE_DATA" in
  if negb (bool_decide (v = "")) then v
  else
    let home := getenv "HOME" in
    if bool_decide (home = "") then ".fnshare" else filepath_Clean (home +:+ "/.fnshare").

(** [shortPeer]: the last twelve bytes. *)
Definition shortPeer (ids : list string) : outcome string :=
  match ids with
  | [] => Ok "?"
  | id :: _ =>
      let n := Z.of_nat (String.length id) in
      if 12 <? n then str_slice id (n - 12) n else Ok id
  end.

(** [id[:n]] for each of a list of identifiers that is printed. *)
Fixpoint cut_ids (n : Z) (ids : list string) : outcome (list string) :=
  match ids with
  | [] => Ok []
  | id :: ids' =>
      let! x := str_slice id 0 n in
      let! rest := cut_ids n ids' in
      Ok (x :: rest)
  end.

(** [apiGroupRow] *)
Record apiGroupRow := NewRow { row_ID : string; row_Name : string; row_IsAdmin : bool; row_MemberCount : Z }.

Definition set_Nickname (c : config.Config) (x : string) : config.Config :=
  config.NewConfig x (config.DataDir c) (config.ContributedBytes c) (config.ListenAddrs c) (config.AnnounceAddrs c)
    (config.APIListen c) (config.HeartbeatSeconds c) (config.MountPath c) (config.PublicHost c) (config.PublicPort c).

Definition set_Contributed (c : config.Config) (x : Z) : config.Config :=
  config.NewConfig (config.Nickname c) (config.DataDir c) x (config.ListenAddrs c) (config.AnnounceAddrs c)
    (config.APIListen c) (config.HeartbeatSeconds c) (config.MountPath c) (config.PublicHost c) (config.PublicPort c).

(** The configuration [cmdInit] writes. *)
Definition init_config (hostname : outcome string) (dataDir nickname : string) (contributedGB : Z) : config.Config :=
  let cfg := config.Default hostname dataDir in
  let cfg := if bool_decide (nickname = "") then cfg else set_Nickname cfg nickname in
  if 0 <? contributedGB then set_Contributed cfg (wrap64 (contributedGB * (1024 * 1024 * 1024))) else cfg.

Section with_libraries.
Context `{Badger, !Sha256, !manifest.ManifestCbor, !ledger.EntryCbor, !node.RequestCbor, !node.ResponseCbor,
  PeerIDs, AesGcm, NaclBox, ReedSolomon, !group.GroupCbor, !group.MemberCbor, !file.NameCbor}.
Context `{Bcrypt, Ed25519, !group.PayloadCbor, !group.AddrsCbor, !invite.InviteCbor, !config.Yaml, !Multiaddrs, !Host}.
Context `{!Libp2pKeys}.
Context (fate : nat -> string -> string -> node.Fate) (clock : nat -> Z) (disk : nat -> wio).
Context (range : gmap string group.Member -> list (string * group.Member)).
Context (range_ledger : ledger.dirty_map -> list (string * ledger.Entry)) (cwd : path).

Record Machine := NewMachine { m_fs : fs; m_db : db; m_rng : bytes }.

Implicit Types m : Machine.

(** What a command meets: the environment, the clock at its readings, faults of
    the files it writes, whether BadgerDB opens the directory (it does not while
    the daemon holds it), how libp2p starts and what the join stream does. *)
Record Oracle := NewOracle {
  getenv : string -> string;
  hostname : outcome string;
  t0 : Z;
  t1 : Z;
  cfg_fault : wfault;
  key_fault : wfault;
  enc_fault : wfault;
  token_fault : wfault;
  db_open : outcome unit;
  libp2p_New : keys.Identity -> list maddr -> option (list maddr) -> outcome host;
  dht_New : host -> outcome unit;
  stream_opened : pid -> outcome unit;
  stream_exchange : pid -> join.JoinRequest -> outcome unit * outcome join.JoinResponse;
  api_listen : outcome unit
}.

Implicit Types o : Oracle.

Definition C (A : Type) : Type := Machine -> Machine * outcome A.

Definition cret {A} (a : A) : C A := fun m => (m, Ok a).

Definition clift {A} (r : outcome A) : C A := fun m => (m, r).

Definition cbind {A B} (c : C A) (k : A -> C B) : C B := fun m =>
  match c m with
  | (m', Ok a) => k a m'
  | (m', Err e) => (m', Err e)
  | (m', Panic) => (m', Panic)
  end.

Notation "'cli!' x ':=' c 'in' k" := (cbind c (fun x => k))
  (at level 10, x pattern, c at level 200, k at level 200).

Definition on_fs {A} (f : fs -> fs * outcome A) : C A := fun m =>
  let '(f', r) := f (m_fs m) in (NewMachine f' (m_db m) (m_rng m), r).

Definition on_store {A} (f : db -> db * outcome A) : C A := fun m =>
  let '(s', r) := f (m_db m) in (NewMachine (m_fs m) s' (m_rng m), r).

Definition on_rand {A} (f : bytes -> bytes * outcome A) : C A := fun m =>
  let '(g', r) := f (m_rng m) in (NewMachine (m_fs m) (m_db m) g', r).

Definition on_keys {A} (f : fs -> bytes -> fs * bytes * outcome A) : C A := fun m =>
  let '(f', g', r) := f (m_fs m) (m_rng m) in (NewMachine f' (m_db m) g', r).

Definition with_fs {A} (f : fs -> outcome A) : C A := fun m => (m, f (m_fs m)).

Definition with_store {A} (f : db -> outcome A) : C A := fun m => (m, f (m_db m)).

(** ** Offline commands *)

Definition key_path (dataDir : string) : path := filepath_Join (path_from cwd dataDir) ["node.key"].

Definition load_identity o (dataDir : string) : C keys.Identity :=
  on_keys (fun f r => keys.LoadOrCreate (key_fault o) (enc_fault o) f r (key_path dataDir)).

Definition openStore o (flagDataDir : string) : C config.Config :=
  cli! cfg := with_fs (fun f => config.Load cwd f flagDataDir) in
  cli! _ := clift (db_open o) in
  cret cfg.

Definition cmdInit o (flagDataDir nickname : string) (contributedGB : Z) : C (config.Config * keys.Identity) :=
  cli! _ := on_fs (fun f => MkdirAll f (path_from cwd flagDataDir)) in
  let cfg := init_config (hostname o) flagDataDir nickname contributedGB in
  cli! _ := on_fs (fun f => config.Save cwd (cfg_fault o) f cfg) in
  cli! id := load_identity o flagDataDir in
  cret (cfg, id).

Definition cmdGroupCreate o (flagDataDir name : string) : C group.Group :=
  cli! cfg := openStore o flagDataDir in
  cli! g := on_rand (fun r => group.Create r name (t0 o)) in
  cli! _ := on_store (fun s => group.Save s g) in
  cli! id := load_identity o (config.DataDir cfg) in
  cli! pubRaw := clift (pub_Raw (keys.PrivKey id)) in
  let self := peer_String (keys.PeerID id) in
  cli! sig := clift (group.AdmitMember g self (t1 o)) in
  cli! _ := on_store (fun s => group.PutMember s (group.ID g)
    (group.NewMember self (config.Nickname cfg) pubRaw (keys.EncPub id) (config.ContributedBytes cfg) (t1 o) sig [] [])) in
  cli! _ := clift (str_slice (group.ID g) 0 12) in
  cret g.

(** The choice of the group in [inviteFromDB]. *)
Definition pick_group (s : db) (groupID : string) : outcome string :=
  if negb (bool_decide (groupID = "")) then Ok groupID
  else
    let! groups := group.ListGroups s in
    match groups with
    | [g] => Ok (group.ID g)
    | _ => Err (ErrMsg ("you are in " +:+ pretty (zlen groups) +:+ " groups - please pass --group <id>"))
    end.

Definition inviteFromDB o (groupID : string) (bootstrap : list string) (ttlHours quotaGB : Z) : C string :=
  cli! _ := clift (db_open o) in
  cli! gid := with_store (fun s => pick_group s groupID) in
  cli! g := with_store (fun s => group.LoadByID s gid) in
  if negb (group.IsAdminNode g) then
    cli! short := clift (str_slice gid 0 12) in
    clift (Err (ErrMsg ("not the admin of group " +:+ short)))
  else
    cli! inv := on_rand (fun r => invite.Create r g bootstrap (hours ttlHours) (quota_bytes quotaGB) (t0 o)) in
    clift (invite.Encode inv).

Definition cmdGroupJoin o (flagDataDir link : string) : C join.JoinResponse :=
  cli! inv := clift (owrap "decode invite: " (invite.Decode link (t0 o))) in
  cli! cfg := openStore o flagDataDir in
  cli! _ := with_store (fun s =>
    match group.LoadByID s (invite.GroupID inv) with
    | Ok existing =>
        let! short := str_slice (group.ID existing) 0 12 in
        Err (ErrMsg ("already in group " +:+ group.Name existing +:+ " (" +:+ short +:+ ")"))
    | Err _ => Ok tt
    | Panic => Panic
    end) in
  cli! id := load_identity o (config.DataDir cfg) in
  cli! h := clift (peers.New (libp2p_New o id) (dht_New o) cfg) in
  cli! p := clift (owrap "connect to bootstrap peers: " (peers.ConnectToPeers h (invite.BootstrapPeers inv)).2) in
  cli! resp := on_store (fun s => join.JoinViaPeer s (stream_opened o p) (pub_Raw (keys.PrivKey id)) (config.Nickname cfg)
    (config.ContributedBytes cfg) (keys.EncPub id) inv (stream_exchange o p)) in
  cli! _ := on_store (fun s =>
    let '(s', r) := group.SaveBootstrap s (invite.GroupID inv) (invite.BootstrapPeers inv) in
    (s', owrap "save bootstrap: " r)) in
  cli! _ := clift (str_slice (join.GroupID resp) 0 12) in
  cret resp.

(** The rows of [cmdGroups] without a daemon. *)
Definition groupsFromDB o : C (list apiGroupRow) :=
  cli! _ := clift (db_open o) in
  with_store (fun s =>
    let! gs := group.ListGroups s in
    Ok (map (fun g => NewRow (group.ID g) (group.Name g) (group.IsAdminNode g)
                        (match group.ListMembers s (group.ID g) with Ok ms => zlen ms | _ => 0 end)) gs)).

(** [statusFromDB], up to the printing. *)
Definition statusFromDB o (cfg : config.Config) : C StatusResponse :=
  cli! _ := clift (db_open o) in
  cli! id := load_identity o (config.DataDir cfg) in
  with_store (fun s =>
    let groups := match group.ListGroups s with Ok gs => gs | _ => [] end in
    let members g := match group.ListMembers s (group.ID g) with Ok ms => ms | _ => [] end in
    let row x := NewMemberSummary (group.PeerID x) (group.Nickname x) (group.ContributedB x) (group.JoinedAt x) false 0 time_zero in
    Ok (NewStatusResponse (peer_String (keys.PeerID id)) (config.Nickname cfg) (config.DataDir cfg) (config.ContributedBytes cfg) []
         (map (fun g => NewGroupSummary (group.ID g) (group.Name g) (group.IsAdminNode g) (map row (members g))) groups) [])).

(** [printStatus] cuts the group identifiers. *)
Definition printStatus (r : StatusResponse) : outcome (list string) := cut_ids 12 (map gs_ID (sr_Groups r)).

(** ** The daemon *)

(** [Node.Groups] *)
Definition groups_in (s : db) : list group.Group := match group.ListGroups s with Ok gs => gs | _ => [] end.

(** [file.New] *)
Definition file_New (id : keys.Identity) (bs : blockstore.Store) (params : ec.Params) : file.Service :=
  file.NewService _ (keys.PeerID id) (keys.EncPub id) (keys.EncPriv id) bs None params file.DefaultStripeDataSize.

Definition AttachSpool (fsv : file.Service) (sp : spool.Spool) : file.Service :=
  file.NewService _ (file.self fsv) (file.EncPub fsv) (file.EncPriv fsv) (file.blocks fsv) (Some sp) (file.params fsv)
    (file.stripeSize fsv).

Record Daemon := NewDaemon { d_deps : Deps; d_server : Server; d_interval : Z; d_mount : string }.

(** [cmdDaemon], up to the signal: the services it opens, in order, and the
    groups it prints.  [others] are the nodes of the network; the disk and the
    database are this node's from here on. *)
Definition cmdDaemon o (others : gmap string node.NodeState) (flagDataDir : string) : C Daemon :=
  cli! cfg := openStore o flagDataDir in
  let dataDir := path_from cwd (config.DataDir cfg) in
  cli! id := load_identity o (config.DataDir cfg) in
  cli! h := clift (peers.New (libp2p_New o id) (dht_New o) cfg) in
  cli! bs := on_fs (fun f => blockstore.Open f dataDir) in
  cli! sp := on_fs (fun f => spool.Open f dataDir) in
  let files := AttachSpool (file_New id bs ec.Default) sp in
  cli! a := (fun m => let '(f', r', x) := auth.New (token_fault o) (m_rng m) (m_fs m) (m_db m) dataDir in
                      (NewMachine f' (m_db m) r', x)) in
  cli! _ := clift (api_listen o) in
  fun m =>
    let node0 := node.NewNode (m_db m) (m_fs m) (Some bs) (Some ∅) in
    let W := node.NewWorld (<[peer_String (keys.PeerID id) := node0]> others) 0 in
    let fs0 := file.NewFS W (m_rng m) (cache.NewStripeCache (1 * 1024 * 1024 * 1024)) in
    let sv := NewServer cfg (auth.cliToken a) (auth.sessions a) fs0 h in
    let dp := NewDeps (Some files) (keys.PeerID id) (pub_Raw (keys.PrivKey id)) (keys.EncPub id) in
    (m, let! _ := cut_ids 12 (map group.ID (groups_in (m_db m))) in
        Ok (NewDaemon dp sv (interval_of cfg (getenv o)) (mount_path cfg (getenv o)))).

(** ** Commands that ask the daemon *)

Implicit Types (dp : Deps) (env : Env) (w : wire) (sv : Server).

Definition new_client o m (cfg : config.Config) : Client := NewClient cwd (getenv o) (m_fs m) (config.APIListen cfg).

(** A request of a command: the client is made from the files, the daemon
    answers. *)
Definition ask {A} o (cfg : config.Config) (req : Client -> Server -> Server * outcome A) (x : Machine * Server) :
    Machine * Server * outcome A :=
  let '(sv', r) := req (new_client o x.1 cfg) x.2 in (x.1, sv', r).

(** Load the configuration, then go on. *)
Definition configured {A} (flagDataDir : string) (k : config.Config -> Machine * Server -> Machine * Server * outcome A)
    (x : Machine * Server) : Machine * Server * outcome A :=
  match config.Load cwd (m_fs x.1) flagDataDir with
  | Ok cfg => k cfg x
  | Err e => (x, Err e)
  | Panic => (x, Panic)
  end.

Definition offline {A} (c : C A) (x : Machine * Server) : Machine * Server * outcome A :=
  let '(m', r) := c x.1 in (m', x.2, r).

Definition not_running (cfg : config.Config) : goerr := ErrMsg ("daemon not running on " +:+ config.APIListen cfg).

(** [reach]: what [Reachable] says. *)
Definition cmdInviteCreate o w dp env (reach : bool) (flagDataDir groupID : string) (bootstrap : list string)
    (ttlHours quotaGB : Z) : Machine * Server -> Machine * Server * outcome string :=
  if bool_decide (bootstrap = []) then fun x => (x, Err (ErrMsg "--bootstrap is required"))
  else configured flagDataDir (fun cfg =>
    if reach then ask o cfg (fun c => Invite fate clock disk range range_ledger cwd w dp env c
                                        (NewInviteRequest groupID bootstrap ttlHours quotaGB))
    else offline (inviteFromDB o groupID bootstrap ttlHours quotaGB)).

Definition row_of (g : GroupSummary) : apiGroupRow := NewRow (gs_ID g) (gs_Name g) (gs_IsAdmin g) (zlen (gs_Members g)).

Definition cmdGroups o w dp env (reach : bool) (flagDataDir : string) :
    Machine * Server -> Machine * Server * outcome (list apiGroupRow) :=
  configured flagDataDir (fun cfg =>
    if reach then ask o cfg (fun c sv =>
      let '(sv', r) := Status fate clock disk range range_ledger cwd w dp env c sv in
      (sv', let! resp := r in Ok (map row_of (sr_Groups resp))))
    else offline (groupsFromDB o)).

Definition cmdStatus o w dp env (reach : bool) (flagDataDir : string) :
    Machine * Server -> Machine * Server * outcome (list string) :=
  configured flagDataDir (fun cfg =>
    if reach then ask o cfg (fun c sv =>
      let '(sv', r) := Status fate clock disk range range_ledger cwd w dp env c sv in
      (sv', let! resp := r in printStatus resp))
    else offline (cli! resp := statusFromDB o cfg in clift (printStatus resp))).

(** [cmdPut] of a file with this base name; [opened] is the file, if it can be
    opened; the answer is printed. *)
Definition cmdPut o w dp env (reach : bool) (flagDataDir base : string) (opened : outcome file.Body) (private : bool)
    (groupID : string) :
    Machine * Server -> Machine * Server * outcome manifest.Manifest :=
  configured flagDataDir (fun cfg =>
    match opened with
    | Err e => fun x => (x, Err e)
    | Panic => fun x => (x, Panic)
    | Ok contents =>
    if negb reach then fun x => (x, Err (not_running cfg))
    else ask o cfg (fun c sv =>
      let '(sv', r) := Upload fate clock disk range range_ledger cwd w dp env c base
        (if private then "private" else "shared") groupID contents sv in
      (sv', let! p := r in
            match p with
            | ManifestBody mf =>
                let! _ := str_slice (manifest.GroupID mf) 0 12 in
                let! _ := foldr (fun h acc => let! _ := shortPeer [h] in acc) (Ok tt) (manifest.Holders mf) in
                Ok mf
            | _ => unexpected
            end))
    end).

(** [cmdGet]: the output file is created before the download; [part] is what
    had been written when a download fails. *)
Definition cmdGet o w dp env (reach : bool) (part : bytes) (flagDataDir fileID : string) (out : string) :
    Machine * Server -> Machine * Server * outcome Z :=
  configured flagDataDir (fun cfg =>
    if negb reach then fun x => (x, Err (not_running cfg))
    else fun x =>
      let c := new_client o x.1 cfg in
      match on_fs (fun f => WriteFile WFine f (path_from cwd out) []) x.1 with
      | (m1, Ok _) =>
          let '(sv', r) := Download fate clock disk range range_ledger cwd w dp env c fileID x.2 in
          let put b := NewMachine (<[path_from cwd out := File b]> (m_fs m1)) (m_db m1) (m_rng m1) in
          match r with
          | Ok b => (put b, sv', Ok (zlen b))
          | Err e => (put part, sv', Err e)
          | Panic => (put part, sv', Panic)
          end
      | (m1, Err e) => (m1, x.2, Err e)
      | (m1, Panic) => (m1, x.2, Panic)
      end).

(** [cmdLs] cuts the identifiers it prints. *)
Definition ls_line (f : FileSummary) : outcome (string * string) :=
  let! gid := (if bool_decide (fs_GroupID f = "") then Ok "-" else str_slice (fs_GroupID f) 0 8) in
  let! fid := str_slice (fs_FileID f) 0 16 in
  Ok (fid, gid).

Definition cmdLs o w dp env (reach : bool) (flagDataDir : string) :
    Machine * Server -> Machine * Server * outcome (list FileSummary) :=
  configured flagDataDir (fun cfg =>
    if negb reach then fun x => (x, Err (not_running cfg))
    else ask o cfg (fun c sv =>
      let '(sv', r) := ListFiles fate clock disk range range_ledger cwd w dp env c sv in
      (sv', let! files := r in
            let! _ := foldr (fun f acc => let! _ := ls_line f in acc) (Ok tt) files in
            Ok files))).

(** ** Running commands *)

Lemma cbind_Ok {A B} (c : C A) (k : A -> C B) m m' b :
  cbind c k m = (m', Ok b) -> exists m1 a, c m = (m1, Ok a) /\ k a m1 = (m', Ok b).
Proof. unfold cbind. destruct (c m) as [m1 [a|e|]]; intros E; [eauto|done..]. Qed.

(** Commands that leave the database alone. *)
Definition db_same {A} (c : C A) : Prop := forall m, m_db (c m).1 = m_db m.

Lemma db_same_bind {A B} (c : C A) (k : A -> C B) : db_same c -> (forall a, db_same (k a)) -> db_same (cbind c k).
Proof. intros Hc Hk m. unfold cbind. specialize (Hc m). destruct (c m) as [m1 [a|e|]]; simpl in *; [by rewrite Hk|done..]. Qed.

Lemma db_same_run {A} (c : C A) m m' r : db_same c -> c m = (m', r) -> m_db m' = m_db m.
Proof. intros Hc E. specialize (Hc m). by rewrite E in Hc. Qed.

Lemma db_same_on_fs {A} (f : fs -> fs * outcome A) : db_same (on_fs f).
Proof. intros m. unfold on_fs. by destruct (f _). Qed.

Lemma db_same_on_keys {A} (f : fs -> bytes -> fs * bytes * outcome A) : db_same (on_keys f).
Proof. intros m. unfold on_keys. by destruct (f _ _) as [[] ]. Qed.

Lemma db_same_openStore o flag : db_same (openStore o flag).
Proof. apply db_same_bind; [done|]. intros cfg. by apply db_same_bind. Qed.

(** Paths under the data directory. *)
Lemma split_slash_app x y : split_slash (x +:+ String "/" y) = split_slash x ++ split_slash y.
Proof.
  induction x as [|a x IH]; simpl; [done|]. rewrite IH. case_bool_decide; [done|].
  destruct (split_slash x) as [|w ws] eqn:E; [|done]. destruct x; simpl in E; [done|].
  case_bool_decide; [done|]. by destruct (split_slash x).
Qed.

Lemma path_from_sub d x : d <> "" -> path_from cwd (d +:+ String "/" x) = filepath_Join (path_from cwd d) [x].
Proof.
  intros Hd. unfold path_from, filepath_Join.
  assert (E : has_prefix "/" (d +:+ String "/" x) = has_prefix "/" d) by (by destruct d).
  rewrite E. destruct (has_prefix "/" d); simpl; by rewrite split_slash_app, fold_left_app.
Qed.

Lemma split_slash_concat l :
  Forall (fun e => split_slash e = [e]) l -> l <> [] -> split_slash (String.concat "/" l) = l.
Proof.
  induction 1 as [|e l He Hl IH]; [done|]. intros _. destruct l as [|e' l]; [done|].
  change (String.concat "/" (e :: e' :: l)) with (e +:+ String "/" (String.concat "/" (e' :: l))).
  by rewrite split_slash_app, He, IH.
Qed.

(** An element of a cleaned path. *)
Definition clean_elem (e : string) : Prop := split_slash e = [e] /\ e <> "" /\ e <> ".".

Lemma clean1_elems rooted out e : Forall clean_elem out -> split_slash e = [e] -> Forall clean_elem (clean1 rooted out e).
Proof.
  intros Ho He. assert (Hdd : clean_elem "..") by done. unfold clean1.
  destruct (bool_decide_reflect (e = "")), (bool_decide_reflect (e = ".")); [done..|]. simpl. case_bool_decide; [|by constructor].
  destruct Ho as [|x out Hx Ho]; [destruct rooted; by constructor|]. case_bool_decide; [|done]. constructor; [done|by constructor].
Qed.

(** Cleaning step by step denotes the path the elements denote. *)
Lemma clean1_push rooted out e base :
  Forall clean_elem out -> (rooted = true -> base = []) ->
  fold_left push (rev (clean1 rooted out e)) base = push (fold_left push (rev out) base) e.
Proof.
  intros Ho Hb. unfold clean1, push at 2. case_bool_decide; [done|]. case_bool_decide; [done|]. simpl.
  case_bool_decide; [subst|simpl; rewrite fold_left_app; simpl; unfold push at 1; by rewrite !bool_decide_eq_false_2].
  destruct Ho as [|x out (_ & Hx1 & Hx2) Ho]; [destruct rooted; simpl; [by rewrite Hb|done]|].
  case_bool_decide; simpl; rewrite !fold_left_app; [by subst|]. simpl. unfold push at 2.
  rewrite !bool_decide_eq_false_2 by done. simpl. by rewrite removelast_last.
Qed.

Lemma clean_fold rooted base es : Forall (fun e => split_slash e = [e]) es -> (rooted = true -> base = []) -> forall out, Forall clean_elem out ->
  Forall clean_elem (fold_left (clean1 rooted) es out) /\
  fold_left push (rev (fold_left (clean1 rooted) es out)) base = fold_left push es (fold_left push (rev out) base).
Proof.
  intros He Hb. induction He as [|e es He _ IH]; intros out Ho; [done|]. simpl.
  rewrite <- (clean1_push rooted) by done. by apply IH, clean1_elems.
Qed.

Lemma split_slash_elems s : Forall (fun e => split_slash e = [e]) (split_slash s).
Proof.
  induction s as [|c s IH]; simpl; [by repeat constructor|]. case_bool_decide; [by constructor|].
  destruct IH as [|w ws Hw Hws]; constructor; try done; simpl; rewrite bool_decide_eq_false_2 by done; [done|by rewrite Hw].
Qed.

(** Cleaning a path does not change where it leads. *)
Lemma path_from_Clean s : path_from cwd (filepath_Clean s) = path_from cwd s.
Proof.
  unfold filepath_Clean. cbv zeta. set (rooted := has_prefix "/" s). set (l := fold_left _ _ _).
  destruct (clean_fold rooted (if rooted then [] else cwd) (split_slash s) (split_slash_elems s) ltac:(by intros ->) [] ltac:(done)) as [HE HP].
  fold l in HE, HP. cbn [rev fold_left] in HP.
  assert (HF : Forall (fun e => split_slash e = [e]) (rev l)).
  { rewrite List.Forall_forall in *. intros x Hx%in_rev. by apply HE. }
  assert (HS : path_from cwd s = fold_left push (split_slash s) (if rooted then [] else cwd)).
  { unfold path_from, filepath_Join. fold rooted. by destruct rooted. }
  rewrite HS, <- HP. destruct (decide (l = [])) as [->|Hne].
  { by destruct rooted. }
  assert (Hr : rev l <> []) by (intros E; apply Hne; by rewrite <- (rev_involutive l), E).
  pose proof (split_slash_concat _ HF Hr) as HC. destruct rooted.
  { unfold path_from, filepath_Join. simpl. by rewrite HC. }
  set (t := String.concat "/" (rev l)) in *.
  assert (Ht : t <> "" /\ has_prefix "/" t = false).
  { rewrite List.Forall_forall in HE. destruct (rev l) as [|e r] eqn:Er; [done|].
    destruct (HE e) as (E1 & E2 & _); [apply in_rev; rewrite Er; by left|].
    destruct e as [|c e]; [done|]. simpl in E1. assert (Hc : c <> "/"%char) by (intros ->; rewrite bool_decide_eq_true_2 in E1; done).
    subst t. destruct r; simpl; (split; [done|]); by rewrite bool_decide_eq_false_2. }
  destruct Ht as [Ht1 Ht2]. rewrite bool_decide_eq_false_2 by done. unfold path_from, filepath_Join. rewrite Ht2. simpl. by rewrite HC.
Qed.

Lemma Join1 base x : plain_name x = true -> filepath_Join base [x] = base ++ [x].
Proof. intros Hx. apply Join_plain. by constructor. Qed.

Lemma snoc_ne {A} (l : list A) x y : x <> y -> l ++ [x] <> l ++ [y].
Proof. intros Hne E. apply app_inv_head in E. by injection E. Qed.

Lemma key_path_eq dir : key_path dir = path_from cwd dir ++ ["node.key"].
Proof. by apply Join1. Qed.

Lemma enc_path_eq dir : keys.enc_path (key_path dir) = path_from cwd dir ++ ["node.key.enc"].
Proof. rewrite key_path_eq. unfold keys.enc_path. by rewrite removelast_last, last_snoc. Qed.

Lemma config_path_eq dir : config.Path cwd dir = path_from cwd dir ++ ["config.yaml"].
Proof. by apply Join1. Qed.

(** ** Initialisation *)

Lemma init_config_DataDir h dir nick gb : config.DataDir (init_config h dir nick gb) = dir.
Proof. unfold init_config. by repeat case_match. Qed.

(** The steps of an [init] that ends well. *)
Lemma cmdInit_inv o flag nick gb m m' cfg id :
  cmdInit o flag nick gb m = (m', Ok (cfg, id)) ->
  exists f1 f2 r', MkdirAll (m_fs m) (path_from cwd flag) = (f1, Ok tt) /\
    config.Save cwd (cfg_fault o) f1 cfg = (f2, Ok tt) /\
    keys.LoadOrCreate (key_fault o) (enc_fault o) f2 (m_rng m) (key_path flag) = (m_fs m', r', Ok id) /\
    config.DataDir cfg = flag.
Proof.
  unfold cmdInit. intros (m1 & [] & E1 & E)%cbind_Ok. apply cbind_Ok in E as (m2 & [] & E2 & E).
  apply cbind_Ok in E as (m3 & id' & E3 & E). injection E as -> <- ->.
  unfold on_fs in E1, E2. unfold load_identity, on_keys in E3.
  destruct (MkdirAll _ _) as [f1 r1] eqn:H1'. injection E1 as <- ->. cbn [m_fs m_db m_rng] in E2.
  destruct (config.Save _ _ _ _) as [f2 r2] eqn:H2'. injection E2 as <- ->. cbn [m_fs m_db m_rng] in E3.
  destruct (keys.LoadOrCreate _ _ _ _ _) as [[f3 r3] x] eqn:H3'. injection E3 as <- ->.
  exists f1, f2, r3. split_and!; [done|done|exact H3'|apply init_config_DataDir].
Qed.

(** After [fnshare init] the node can be opened.  The other commands load
    the configuration that was written and the identity that was created; and
    running [init] again, which overwrites the configuration, keeps the
    identity. *)
Theorem init_then_open o flag nick gb m m' cfg id :
  cmdInit o flag nick gb m = (m', Ok (cfg, id)) -> flag <> "" -> config.config_ok cfg = true ->
  (forall o', db_open o' = Ok tt -> openStore o' flag m' = (m', Ok cfg)) /\
  (forall o' m2, m_fs m2 = m_fs m' -> load_identity o' (config.DataDir cfg) m2 = (m2, Ok id)) /\
  (forall o' nick' gb' m2 cfg' id', cmdInit o' flag nick' gb' m' = (m2, Ok (cfg', id')) -> id' = id).
Proof.
  intros HI Hflag Hok. destruct (cmdInit_inv _ _ _ _ _ _ _ _ HI) as (f1 & f2 & r' & E1 & E2 & E3 & Hdir).
  destruct (keys.LoadOrCreate_files _ _ _ _ _ _ _ _ E3) as (raw & enc & R1 & R2 & HL).
  assert (Hcfg : config.Load cwd (m_fs m') flag = Ok cfg).
  { pose proof (config.Load_Save cwd _ _ _ _ Hok ltac:(by rewrite Hdir) E2) as HC. rewrite Hdir in HC.
    apply keys.identity_stable in E3 as [K _]. unfold config.Load in *.
    destruct (ReadFile f2 (config.Path cwd flag)) as [b|e|] eqn:HR; [| |done].
    - apply ReadFile_file_at, K, ReadFile_file_at in HR. by rewrite HR.
    - by destruct (errors_Is e ErrNotExist). }
  split_and!.
  - intros o' Ho. unfold openStore, cbind, with_fs, clift, cret. by rewrite Hcfg, Ho.
  - intros o' m2 Hm. unfold load_identity, on_keys. rewrite Hdir, Hm, HL by done. rewrite <- Hm. by destruct m2.
  - intros o' nick' gb' m2 cfg' id' HI2.
    destruct (cmdInit_inv _ _ _ _ _ _ _ _ HI2) as (g1 & g2 & s' & F1 & F2 & F3 & Hdir2).
    assert (K : forall q, q <> config.Path cwd flag -> file_at g2 q = file_at (m_fs m') q).
    { intros q Hq. rewrite (config.Save_other _ _ _ _ _ _ q F2) by (by rewrite Hdir2).
      by destruct (mkdirs_files _ _ _ _ _ q F1) as [? _]. }
    rewrite (HL g2) in F3; [by injection F3| |]; rewrite K; try done;
      rewrite ?enc_path_eq, ?key_path_eq, config_path_eq; by apply snoc_ne.
Qed.

(** ** The daemon and its clients *)

(** Requests of anyone, one after the other. *)
Definition serve_all dp (reqs : list (Env * Credentials * Route)) sv : Server :=
  fold_left (fun sv q => (serve fate clock disk range range_ledger cwd dp q.1.1 q.1.2 q.2 sv).1) reqs sv.

Lemma serve_all_token dp reqs : forall sv, cliToken (serve_all dp reqs sv) = cliToken sv.
Proof. induction reqs as [|q reqs IH]; intros sv; [done|]. simpl. rewrite IH. apply steady_serve. Qed.

Lemma bytes_string s : string_of_bytes (bytes_of_string s) = s.
Proof.
  unfold string_of_bytes, bytes_of_string. rewrite map_map.
  rewrite (map_ext _ (fun x => x)), map_id; [apply String.string_of_list_ascii_of_string|].
  intros a. apply ascii_of_byte_of_ascii.
Qed.

(** What a daemon that has started left behind: the token, in memory and on
    disk; the database as it was. *)
Lemma cmdDaemon_inv o others flag m m' d :
  cmdDaemon o others flag m = (m', Ok d) ->
  cliToken (d_server d) <> "" /\
  file_at (m_fs m') (filepath_Join (path_from cwd (config.DataDir (Cfg (d_server d)))) [".cli-token"]) =
    Some (bytes_of_string (cliToken (d_server d))) /\
  m_db m' = m_db m /\ is_ok (cut_ids 12 (map group.ID (groups_in (m_db m)))) = true.
Proof.
  unfold cmdDaemon. intros (m1 & cfg & E1 & E)%cbind_Ok. cbv zeta in E.
  apply cbind_Ok in E as (m2 & id & E2 & E). apply cbind_Ok in E as (m3 & h & E3 & E).
  apply cbind_Ok in E as (m4 & bs & E4 & E). apply cbind_Ok in E as (m5 & sp & E5 & E).
  apply cbind_Ok in E as (m6 & a & E6 & E). apply cbind_Ok in E as (m7 & [] & E7 & E).
  unfold clift in E7. injection E7 as <- _. unfold auth.New in E6.
  destruct (auth.newRandomToken _) as [r1 [tok|e|]] eqn:HT; [|done..].
  destruct (WriteFile _ _ _ _) as [f' [[]|e|]] eqn:HW; [|done..]. injection E6 as <- <-.
  destruct (cut_ids _ _) as [ids|e|] eqn:Hids; [|done..]. cbn [obind] in E. injection E as <- <-.
  cbn [d_server d_deps Cfg cliToken]. cbn [m_db] in Hids |- *.
  assert (Hdb : m_db m5 = m_db m).
  { apply (db_same_run _ _ _ _ (db_same_openStore o flag)) in E1. unfold load_identity in E2. apply (db_same_run _ _ _ _ (db_same_on_keys _)) in E2.
    apply (db_same_run _ _ _ _ (db_same_on_fs _)) in E4, E5. injection E3 as <- _. congruence. }
  rewrite Hdb in *. split_and!; [by eapply auth.newRandomToken_text| |done|by rewrite Hids].
  apply WriteFile_Ok in HW as ->. cbn [m_fs]. unfold file_at. by rewrite lookup_insert_eq.
Qed.

Lemma str_app_assoc x y z : x +:+ (y +:+ z) = (x +:+ y) +:+ z.
Proof. induction x as [|c x IH]; [done|]. exact (f_equal (String c) IH). Qed.

(** A client run without [--data] reads the token of the directory the commands
    take then; a token under [/data] comes before the one in the home directory. *)
Definition token_in_reach (getenv : string -> string) (f : fs) : Prop :=
  getenv "FNSHARE_DATA" <> "" \/ (getenv "HOME" <> "" /\ token_file cwd f "/data/.cli-token" = None).

Lemma client_token getenv f addr tok :
  token_in_reach getenv f ->
  file_at f (filepath_Join (path_from cwd (defaultDataDir getenv)) [".cli-token"]) = Some (bytes_of_string tok) ->
  token (NewClient cwd getenv f addr) = tok.
Proof.
  assert (HT : forall d, d <> "" -> file_at f (filepath_Join (path_from cwd d) [".cli-token"]) = Some (bytes_of_string tok) ->
    token_file cwd f (d +:+ "/.cli-token") = Some tok).
  { intros d Hd Hf. unfold token_file. change (d +:+ "/.cli-token") with (d +:+ String "/" ".cli-token").
    rewrite path_from_sub by done. apply ReadFile_file_at in Hf. by rewrite Hf, bytes_string. }
  intros HR Hf. unfold NewClient, defaultDataDir in *. cbn [token]. cbv zeta in Hf.
  case_bool_decide as E; cbn [negb] in *; [|by rewrite HT].
  destruct HR as [|[Hh Hd]]; [done|]. rewrite Hd. rewrite bool_decide_eq_false_2, path_from_Clean in Hf by done.
  assert (EA : getenv "HOME" +:+ "/.fnshare/.cli-token" = (getenv "HOME" +:+ "/.fnshare") +:+ "/.cli-token") by apply (str_app_assoc _ "/.fnshare" "/.cli-token").
  rewrite EA, HT; [done| |done]. by destruct (getenv "HOME").
Qed.

Lemma token_passes dp env c r sv n :
  local dp sv = Some n -> token c = cliToken sv -> cliToken sv <> "" ->
  serve fate clock disk range range_ledger cwd dp env (attachAuth c) r sv =
  handler fate clock disk range range_ledger cwd dp env (attachAuth c) r sv.
Proof.
  intros Hn Hc Ht. unfold serve, ServeHTTP. destruct (ungated r); [done|]. eapply requireAuth_valid; [done|].
  change (extractToken (attachAuth c)) with (token c). unfold auth.ValidateSession, auth_of. cbn [auth.cliToken].
  rewrite Hc, bool_decide_eq_false_2 by done. by rewrite bool_decide_eq_true_2.
Qed.

(** [C31] The local command line is let in.  Once the daemon has started, a
    client run without [--data], with [FNSHARE_DATA] set, or with [HOME] set and
    no readable [/data/.cli-token] ([token_in_reach]), whose data directory -
    [FNSHARE_DATA], or [.fnshare] in the home directory - is the daemon's, passes
    the gate with every request, whatever requests - logins, logouts, changes of
    password - anyone has made before, and whether or not a password is set. *)
Theorem cli_passes_gate o others flag m m' d getenv addr reqs env r :
  cmdDaemon o others flag m = (m', Ok d) ->
  path_from cwd (config.DataDir (Cfg (d_server d))) = path_from cwd (defaultDataDir getenv) -> token_in_reach getenv (m_fs m') ->
  let sv := serve_all (d_deps d) reqs (d_server d) in
  let c := NewClient cwd getenv (m_fs m') addr in
  is_Some (local (d_deps d) sv) ->
  serve fate clock disk range range_ledger cwd (d_deps d) env (attachAuth c) r sv =
  handler fate clock disk range range_ledger cwd (d_deps d) env (attachAuth c) r sv.
Proof.
  intros HD He HR sv c [n Hn]. destruct (cmdDaemon_inv _ _ _ _ _ _ HD) as (Ht & Hf & _ & _).
  apply (token_passes _ _ _ _ _ n Hn); unfold sv; rewrite serve_all_token; [|done].
  apply client_token; [done|]. by rewrite <- He.
Qed.

(** ** Invites with and without the daemon *)

Lemma pick_choose s gid x : pick_group s gid = Ok x <-> choose_group s gid = Ok x.
Proof.
  unfold pick_group, choose_group. destruct (negb _); [done|].
  destruct (group.ListGroups s) as [[|g [|g' gs]]|e|]; simpl; split; intros; congruence.
Qed.

(** [C39] The two ways to make an invite agree.  On the same store, random
    supply and clock, with the database free, a bootstrap address given and a
    lifetime whose duration is not zero, [invite-create] without the daemon prints
    a link exactly when the daemon's [/v1/invite] answers with it.  (For zero hours
    they differ: the daemon takes 72, the command makes an expired link.) *)
Theorem invite_paths_agree o dp env m sv n groupID bootstrap ttlHours quotaGB link :
  local dp sv = Some n -> node.nstore n = m_db m -> file.rng (files_ sv) = m_rng m -> now env = t0 o ->
  db_open o = Ok tt -> bootstrap <> [] -> hours ttlHours <> 0 ->
  (inviteFromDB o groupID bootstrap ttlHours quotaGB m).2 = Ok link <->
  (handleInvite dp env (Ok (NewInviteRequest groupID bootstrap ttlHours quotaGB)) sv).2 = Ok (writeJSON 200 (LinkBody link)).
Proof.
  intros Hn Hs Hr Ht Ho Hb Httl. unfold inviteFromDB, handleInvite. cbn [or_fail ir_Bootstrap ir_GroupID ir_TTLHours ir_QuotaGB].
  unfold bootstrap_of. cbn [ir_Bootstrap]. rewrite (bool_decide_eq_false_2 (bootstrap = [])) by done. cbn [andb].
  unfold with_db. rewrite Hn, Hs. unfold cbind at 1, clift at 1. rewrite Ho. unfold cbind at 1, with_store at 1.
  pose proof (pick_choose (m_db m) groupID) as PC.
  destruct (choose_group (m_db m) groupID) as [gid|e|] eqn:HC; cbn [or_fail obind].
  2,3: destruct (pick_group (m_db m) groupID) as [g'|e'|]; [by specialize (proj1 (PC g') eq_refl)|..]; split; done.
  rewrite (proj2 (PC gid) eq_refl). unfold cbind at 1, with_store.
  destruct (group.LoadByID (m_db m) gid) as [g|e|]; cbn [or_fail]; [|split; done..].
  destruct (negb (group.IsAdminNode g)).
  { unfold cbind, clift. destruct (str_slice gid 0 12); cbn [or_fail]; split; done. }
  unfold invite_ttl. rewrite (proj2 (Z.eqb_neq _ _) Httl). unfold cbind, on_rand, api.on_rng. rewrite Hr, Ht.
  destruct (invite.Create _ _ _ _ _ _) as [r' [inv|e|]]; cbn [or_fail]; [|split; done..].
  unfold clift. destruct (invite.Encode inv) as [l|e|]; cbn [or_fail reply snd]; split; intros E; try done; by injection E as ->.
Qed.

(** ** Short group identifiers *)

Lemma ListGroups_all s : exists gs, group.ListGroups s = Ok gs /\
  forall id g, group.LoadByID s id = Ok g -> g ∈ gs.
Proof.
  unfold group.ListGroups. rewrite group.collect_scan. eexists. split; [done|]. intros id g HL.
  apply list_elem_of_omap. unfold group.LoadByID in HL. rewrite store.Get_spec in HL.
  destruct (db_view s !! group.groupKey id) as [raw|] eqn:E; [|done].
  exists (group.groupKey id, raw). rewrite store.elem_of_scan. split; [split; [done|apply has_prefix_app]|]. cbn [snd]. by rewrite HL.
Qed.

Lemma cut_ids_short n ids x : x ∈ ids -> 0 <= n -> Z.of_nat (String.length x) < n -> cut_ids n ids = Panic.
Proof.
  intros Hx Hn Hl. assert (Hp : forall y, str_slice y 0 n = Panic \/ is_ok (str_slice y 0 n) = true).
  { intros y. unfold str_slice. destruct (_ && _); auto. }
  assert (E : str_slice x 0 n = Panic).
  { unfold str_slice. rewrite (proj2 (Z.leb_gt n _)) by lia. by rewrite andb_false_r. }
  induction ids as [|y ids IH]; [by apply elem_of_nil in Hx|]. cbn [cut_ids].
  apply elem_of_cons in Hx as [<- | Hx]; [by rewrite E|]. destruct (Hp y) as [-> | Hy]; [done|]. destruct (str_slice y 0 n); [|done..]. cbn [obind]. by rewrite IH.
Qed.

(** [C38] A group identifier that a peer chose can keep the daemon from starting.
    A join installs the identifier in the peer's answer unchecked; if it is
    shorter than twelve bytes, [fnshare daemon] on that store never comes up,
    because it cuts the identifiers it prints. *)
Theorem short_group_stops_daemon s opened pub nickname contributed encPub inv exchange s' resp o others flag m :
  join.JoinViaPeer s opened pub nickname contributed encPub inv exchange = (s', Ok resp) ->
  (String.length (join.GroupID resp) < 12)%nat -> text_ok (join.GroupID resp) = true -> text_ok (join.GroupName resp) = true ->
  m_db m = s' -> is_ok (cmdDaemon o others flag m).2 = false.
Proof.
  intros HJ Hlen T1 T2 Hm.
  assert (HL : exists g, group.LoadByID s' (join.GroupID resp) = Ok g /\ group.ID g = join.GroupID resp).
  { unfold join.JoinViaPeer in HJ. destruct (obind _ _) as [r|e|]; [|done..]. unfold join.install in HJ.
    destruct (negb (join.OK r)); [done|]. set (gj := group.NewGroup _ _ _ _ _ _ _) in HJ.
    destruct (group.Save s gj) as [s1 [[]|e|]] eqn:HS; [|done..]. injection HJ as <- <-.
    exists (group.group_norm gj). split; [|done]. rewrite join.put_members_group. unfold group.Save in HS.
    destruct (Marshal gj) as [raw|e|] eqn:Hraw; [|done..]. unfold group.LoadByID.
    rewrite store.Get_spec, (store.Put_Ok _ _ _ _ HS), lookup_insert_eq. apply Unmarshal_Marshal; [|done].
    unfold group.group_ok. simpl. by rewrite T1, T2. }
  destruct HL as (g & HL & Hid). destruct (ListGroups_all s') as (gs & HG & Hin).
  assert (HC : cut_ids 12 (map group.ID gs) = Panic).
  { apply (cut_ids_short _ _ (join.GroupID resp)); [|lia|lia]. apply list_elem_of_fmap. exists g. eauto. }
  destruct (cmdDaemon o others flag m) as [m' [d|e|]] eqn:HD; [|done..].
  apply cmdDaemon_inv in HD as (_ & _ & _ & HD). unfold groups_in in HD. by rewrite Hm, HG, HC in HD.
Qed.

(** ** Downloads *)

(** [C32] [fnshare get] writes the file.  The client reads the daemon's own
    token, the daemon has the manifest and the group's record at hand and opens
    the file key, [k] settled holders are within its reach ([can_download]), the
    shards hold the file, and the output path lies in a directory that exists and
    is none itself: then the command succeeds, reports the file's length, leaves
    exactly the file's bytes at the output path, and touches no other path. *)
Theorem get_writes_file o dp env m sv n cfg fsv mf g key content flag out part :
  config.Load cwd (m_fs m) flag = Ok cfg ->
  local dp sv = Some n -> token (new_client o m cfg) = cliToken sv -> cliToken sv <> "" ->
  Files dp = Some fsv -> manifest.FileID mf <> "" ->
  upload.can_download fate fsv mf g content (files_ sv) -> file.unwrapForMode fsv mf g = Ok key ->
  reader.holds_file (node.disks (file.world (files_ sv))) mf key content ->
  zlen content + reader.copy_buffer < 2 ^ 63 -> zlen content < Z.of_nat (watch env) * reader.copy_buffer ->
  is_dir (m_fs m) (filepath_Dir (path_from cwd out)) = true -> m_fs m !! path_from cwd out <> Some Dir ->
  exists m' sv', cmdGet o Through dp env true part flag (manifest.FileID mf) out (m, sv) = (m', sv', Ok (zlen content)) /\
    file_at (m_fs m') (path_from cwd out) = Some content /\
    forall q, q <> path_from cwd out -> m_fs m' !! q = m_fs m !! q.
Proof.
  intros HC Hn Htok Hne Hf Hid Hcan Hk HF Hb Hw Hdir Hnd.
  destruct (download_sends_file fate clock disk range dp env fsv mf g key content sv Hf Hid Hcan Hk HF Hb Hw) as [sv' HD].
  assert (HDo : Download fate clock disk range range_ledger cwd Through dp env (new_client o m cfg) (manifest.FileID mf) sv = (sv', Ok content)).
  { unfold Download, Do. rewrite (token_passes dp env _ _ sv n Hn Htok Hne). cbn [handler]. rewrite HD.
    cbn [obind failed status writeJSON payload]. change (failed _) with false. cbv iota. by rewrite Z.eqb_refl. }
  unfold cmdGet, configured. cbn [fst snd]. rewrite HC. cbn [negb fst snd]. unfold on_fs, WriteFile. rewrite Hdir. cbn [negb].
  assert (HW : forall A (a b : A), match m_fs m !! path_from cwd out with Some Dir => a | _ => b end = b)
    by (intros; by destruct (m_fs m !! path_from cwd out) as [[]|]).
  rewrite HW, HDo. eexists _, _. split; [done|]. cbn [m_fs]. split.
  - unfold file_at. by rewrite lookup_insert_eq.
  - intros q Hq. by rewrite !lookup_insert_ne.
Qed.

(** The heartbeat's ticker gets a positive interval, whatever is configured. *)
Lemma interval_positive cfg e : 0 < interval_of cfg e < 2 ^ 63.
Proof.
  unfold interval_of. cbv zeta. set (i := if bool_decide _ then _ else _).
  assert (Hr : forall n, in_int64 (seconds n)) by (intros; apply wrap64_range).
  assert (Hi : in_int64 i) by (unfold i; repeat case_match; apply Hr).
  destruct (Z.leb_spec i 0); [by vm_compute|]. unfold in_int64 in Hi. lia.
Qed.

End with_libraries.

(** ** Witnesses *)

Import scenario.

Definition env_data (x : string) : string := if bool_decide (x = "FNSHARE_DATA") then "/d" else "".

Definition up_host (id : keys.Identity (H := toy_peers)) (listen : list (maddr (Multiaddrs := peers.toy_multiaddrs)))
    (announce : option (list (maddr (Multiaddrs := peers.toy_multiaddrs)))) : outcome (host (Host := peers.toy_host)) :=
  Ok (peers.NewToyHost (keys.PeerID id) listen [] ∅).

Definition fine : Oracle := NewOracle env_data (Ok "nas") 1700000000000000000 1700000000000000000 WFine WFine WFine WFine
  (Ok tt) up_host (fun _ => Ok tt) no_stream no_answer (Ok tt).

Definition blank : Machine (H := mem_badger) := NewMachine ∅ store.empty (replicate 200 Byte.x07).

Definition inited := cmdInit [] fine "/d" "" 5 blank.

Lemma run_intro {A B} (d : B) (p : A * outcome B) : is_ok p.2 = true -> p = (p.1, Ok (ok_or d p.2)).
Proof. destruct p as [a [b|e|]]; [done|done..]. Qed.

Lemma run_pair {A B B'} (d : B * B') (p : A * outcome (B * B')) :
  is_ok p.2 = true -> p = (p.1, Ok ((ok_or d p.2).1, (ok_or d p.2).2)).
Proof. destruct p as [a [[b b']|e|]]; [done|done..]. Qed.

Definition no_identity : keys.Identity (H := toy_peers) := keys.NewIdentity ([] : privkey (Libp2pKeys := keys.toy_libp2p)) "" [] [].

Definition init_result : config.Config * keys.Identity := ok_or (cfg0, no_identity) inited.2.

Lemma inited_Ok : inited = (inited.1, Ok (init_result.1, init_result.2)).
Proof. apply run_pair. vm_compute. reflexivity. Qed.

Lemma init_then_open_witness :
  openStore [] fine "/d" inited.1 = (inited.1, Ok init_result.1) /\ config.ContributedBytes init_result.1 = 5 * 2 ^ 30.
Proof.
  split; [|vm_compute; reflexivity].
  refine (proj1 (init_then_open [] fine "/d" "" 5 blank inited.1 init_result.1 init_result.2 inited_Ok _ _) fine _).
  - discriminate.
  - vm_compute. reflexivity.
  - reflexivity.
Defined.

Definition started := cmdDaemon [] fine ∅ "/d" inited.1.

Definition no_daemon : Daemon := NewDaemon deps0 daemon0 0 "".

Definition the_daemon : Daemon := ok_or no_daemon started.2.

Definition visits : list (Env * Credentials * Route) :=
  [(env0, NewCredentials None "", POST_auth_init (Ok "hunter22")); (env0, NewCredentials None "", POST_auth_logout)].

Lemma cli_passes_gate_witness :
  let sv := serve_all bob_down node.sample_clock node.sample_disk members_range map_to_list [] (d_deps the_daemon) visits (d_server the_daemon) in
  let c := NewClient [] (getenv fine) (m_fs started.1) "" in
  serve bob_down node.sample_clock node.sample_disk members_range map_to_list [] (d_deps the_daemon) env0 (attachAuth c) GET_files sv =
  handler bob_down node.sample_clock node.sample_disk members_range map_to_list [] (d_deps the_daemon) env0 (attachAuth c) GET_files sv.
Proof.
  apply (cli_passes_gate bob_down node.sample_clock node.sample_disk members_range map_to_list [] fine ∅ "/d" inited.1 started.1
    the_daemon (getenv fine) "" visits env0 GET_files).
  - apply run_intro. vm_compute. reflexivity.
  - vm_compute. reflexivity.
  - left. discriminate.
  - apply (bool_decide_eq_true_1 _). vm_compute. reflexivity.
Defined.

Definition offline0 : Machine (H := mem_badger) := NewMachine ∅ (node.nstore node0) (file.rng (files_ daemon0)).

Lemma invite_paths_agree_witness :
  (inviteFromDB fine gid ["/ip4/10.0.0.1/tcp/4001/p2p/12DA"] 24 0 offline0).2 = Ok the_link.
Proof.
  apply (invite_paths_agree fine deps0 env0 offline0 daemon0 node0 gid ["/ip4/10.0.0.1/tcp/4001/p2p/12DA"] 24 0 the_link node0_local).
  - reflexivity.
  - reflexivity.
  - reflexivity.
  - reflexivity.
  - discriminate.
  - vm_compute. discriminate.
  - apply is_link_intro. vm_compute. reflexivity.
Defined.

(** A peer answers a join with a one-letter group. *)
Definition tiny_answer : join.JoinResponse := join.NewJoinResponse true "" "g" "tiny" [] [] 0 [] [].

Definition tiny_join := join.JoinViaPeer store.empty (Ok tt) (Ok []) "bob" 0 [] join.the_invite (fun _ => (Ok tt, Ok tiny_answer)).

Definition tiny_machine : Machine (H := mem_badger) := NewMachine (m_fs inited.1) tiny_join.1 (m_rng inited.1).

Lemma short_group_stops_daemon_witness :
  is_ok (cmdDaemon [] fine ∅ "/d" tiny_machine).2 = false /\ is_ok started.2 = true.
Proof.
  split; [|vm_compute; reflexivity].
  apply (short_group_stops_daemon [] store.empty (Ok tt) (Ok []) "bob" 0 [] join.the_invite (fun _ => (Ok tt, Ok tiny_answer))
    tiny_join.1 tiny_answer fine ∅ "/d" tiny_machine).
  - etrans; [apply surjective_pairing|]. apply (f_equal (pair _)). vm_compute. reflexivity.
  - vm_compute. lia.
  - reflexivity.
  - reflexivity.
  - reflexivity.
Defined.

(** Alice's machine: her configuration, the daemon's token, a directory. *)
Definition desk : Machine (H := mem_badger) :=
  NewMachine (<[["out"] := Dir]> (<[["d"; ".cli-token"] := File (bytes_of_string "cli")]> (config.Save [] WFine ∅ cfg0).1)) store.empty [].

Lemma get_writes_file_witness :
  exists m' sv', cmdGet bob_down node.sample_clock node.sample_disk members_range map_to_list [] fine Through deps0 env0 true []
      "/d" (manifest.FileID the_manifest) "/out/hello.txt" (desk, daemon0) = (m', sv', Ok 6) /\
    file_at (m_fs m') ["out"; "hello.txt"] = Some text.
Proof.
  destruct (get_writes_file bob_down node.sample_clock node.sample_disk members_range map_to_list [] fine deps0 env0 desk daemon0
    node0 cfg0 scenario.alice the_manifest the_group file_key text "/d" "/out/hello.txt" []) as (m' & sv' & E1 & E2 & _).
  - vm_compute. reflexivity.
  - exact node0_local.
  - vm_compute. reflexivity.
  - discriminate.
  - reflexivity.
  - apply (bool_decide_eq_true_1 _). vm_compute. reflexivity.
  - exact after_can_download.
  - vm_compute. reflexivity.
  - exact shelf_holds.
  - reflexivity.
  - reflexivity.
  - vm_compute. reflexivity.
  - vm_compute. discriminate.
  - exists m', sv'. split; [exact E1|exact E2].
Defined.

End cli.
