(* ===== verification/Membership.v ===== *)
(** * A group from its creation to its second member

    [fnshare group-create], [fnshare invite-create] and [fnshare group-join] of
    cmd/fnshare/main.go one after the other, on two machines: the link one prints
    is the link the other reads, and the answer to the join is [handleJoin] on the
    first one's database. *)

From S2P Require Import Prelude Ext Concrete Store Fs Blockstore Crypto Ec Holders Cache Manifest Ledger Group.
From S2P Require Import Blocks Spool Base64 Url Query Config Keys File Reader Upload Repair Scenario Fuse Invite Join.
From S2P Require Import Peers Auth Api Client Cli.

Module membership.
Import api client cli.

Section with_libraries.
Context `{Badger, !Sha256, !manifest.ManifestCbor, !ledger.EntryCbor, !node.RequestCbor, !node.ResponseCbor,
  PeerIDs, AesGcm, NaclBox, ReedSolomon, !group.GroupCbor, !group.MemberCbor, !file.NameCbor}.
Context `{Bcrypt, Ed25519, !group.PayloadCbor, !group.AddrsCbor, !invite.InviteCbor, !config.Yaml, !Multiaddrs, !Host}.
Context `{!Libp2pKeys} (cwd : path).

(** ** The admin's side *)

(** After [group-create] the group is in the database, as it was made up to the
    resolution of the stored time. *)
Lemma cmdGroupCreate_Ok o flag name m m' g :
  text_ok name = true -> int64_ok (Unix (t0 o)) = true ->
  cmdGroupCreate cwd o flag name m = (m', Ok g) ->
  (exists rng rng', group.Create rng name (t0 o) = (rng', Ok g)) /\ group.LoadByID (m_db m') (group.ID g) = Ok (group.group_norm g).
Proof.
  intros Hname Ht. unfold cmdGroupCreate. intros (m1 & cfg & E1 & E)%cbind_Ok.
  apply cbind_Ok in E as (m2 & g' & E2 & E). apply cbind_Ok in E as (m3 & [] & E3 & E).
  apply cbind_Ok in E as (m4 & id & E4 & E). apply cbind_Ok in E as (m5 & pub & E5 & E). cbv zeta in E.
  apply cbind_Ok in E as (m6 & sig & E6 & E). apply cbind_Ok in E as (m7 & [] & E7 & E).
  apply cbind_Ok in E as (m8 & short & E8 & E). injection E as <- <-.
  unfold clift in E5, E6, E8. injection E5 as <- _. injection E6 as <- _. injection E8 as <- _.
  unfold load_identity in E4. apply (db_same_run _ _ _ _ (db_same_on_keys _)) in E4.
  unfold on_rand in E2. destruct (group.Create (m_rng m1) name (t0 o)) as [r2 x2] eqn:EC. injection E2 as <- ->.
  split; [by eexists _, _|]. destruct (group.Create_inv _ _ _ _ _ EC) as (seed & _ & _ & _ & HI & _).
  unfold on_store in E3, E7. cbn [m_db] in E3. destruct (group.Save (m_db m1) g') as [s3 x3] eqn:ES. injection E3 as <- ->.
  destruct (group.PutMember _ _ _) as [s7 x7] eqn:EP in E7. injection E7 as <- ->. cbn [m_db] in E4 |- *.
  unfold group.LoadByID. rewrite store.Get_spec, (group.PutMember_other_key _ _ _ _ _ _ EP), E4; [|done].
  unfold group.Save in ES. destruct (Marshal g') as [raw|e|] eqn:EM; [|done..].
  rewrite (store.Put_Ok _ _ _ _ ES), lookup_insert_eq. apply Unmarshal_Marshal; [|done].
  unfold group.group_ok. rewrite HI, node.text_ok_hex. unfold group.Create in EC.
  repeat case_match; simplify_eq. simpl. by rewrite Hname, Ht.
Qed.

(** What [invite-create] needs for its answer to survive the link. *)
Definition invitable (now : Z) (boot : list string) (ttlHours quotaGB : Z) : Prop :=
  forallb text_ok boot = true /\ zlen boot <= 131072 /\ int64_ok (Unix now) = true /\ int64_ok (Unix (now + hours ttlHours)) = true /\
  int64_ok (quota_bytes quotaGB) = true.

Lemma inviteFromDB_Ok o gid boot ttlHours quotaGB m m' link g now :
  gid <> "" -> group.LoadByID (m_db m) gid = Ok g -> group.ID g = gid -> text_ok gid = true -> text_ok (group.Name g) = true ->
  group.AdminPub g = ed25519_pub (group.AdminPriv g) -> invite.empty_refused -> invitable (t0 o) boot ttlHours quotaGB ->
  Unix now <= Unix (t0 o + hours ttlHours) ->
  inviteFromDB o gid boot ttlHours quotaGB m = (m', Ok link) ->
  m_db m' = m_db m /\ zlen (group.AdminPriv g) = 64 /\
  exists inv, (forall now', Unix now' <= Unix (t0 o + hours ttlHours) -> invite.Decode link now' = Ok inv /\ invite.Verify inv now' = Ok tt) /\
    invite.GroupID inv = gid /\ invite.GroupSharedKey inv = group.SharedKey g /\ invite.BootstrapPeers inv = boot.
Proof.
  intros Hne HL Hid T1 T2 Hpub He (B1 & B2 & B3 & B4 & B5) Hexp. unfold inviteFromDB.
  intros (m1 & [] & E1 & E)%cbind_Ok. injection E1 as <- _. apply cbind_Ok in E as (m2 & gid' & E2 & E). injection E2 as <- E2.
  unfold pick_group in E2. rewrite bool_decide_eq_false_2 in E2 by done. injection E2 as <-.
  apply cbind_Ok in E as (m3 & g' & E3 & E). injection E3 as <- E3. rewrite HL in E3. injection E3 as <-.
  destruct (negb (group.IsAdminNode g)); [apply cbind_Ok in E as (? & ? & _ & E); done|].
  apply cbind_Ok in E as (m4 & inv & E4 & E). unfold on_rand in E4.
  destruct (invite.Create (m_rng m) g boot (hours ttlHours) (quota_bytes quotaGB) (t0 o)) as [r4 x4] eqn:EC. injection E4 as <- ->.
  unfold clift in E. injection E as <- EE. split; [done|].
  assert (H64 : zlen (group.AdminPriv g) = 64).
  { unfold invite.Create in EC. destruct (Z.eqb_spec (zlen (group.AdminPriv g)) 64); [done|]. done. }
  split; [done|]. exists inv.
  destruct (join.created_verifies _ _ _ _ _ _ _ _ now EC Hpub Hexp) as (_ & G1 & G2 & G3).
  rewrite Hid in G1. split; [|by split_and!].
  assert (Hok : invite.invite_ok inv = true).
  { unfold invite.Create in EC. destruct (negb _); [done|]. destruct (rand_Read (m_rng m) 16) as [r [nonce|e|]]; [|done..].
    injection EC as _ EC. destruct (invite.signedBytes _) as [body|e|]; [|done..]. injection EC as <-.
    unfold invite.invite_ok, group.payload_ok. simpl. rewrite Hid, T1, T2, B1, B3, B4, B5. apply Z.leb_le in B2. by rewrite B2. }
  intros now' Hnow. destruct (join.created_verifies _ _ _ _ _ _ _ _ now' EC Hpub Hnow) as (HV & _). split; [|done].
  unfold invite.Encode in EE. destruct (Marshal inv) as [raw|e|] eqn:EM; [|done..]. injection EE as <-.
  pose proof (invite.raw_nonempty inv raw He Hok EM) as Hraw. etrans; [apply (invite.Decode_link inv raw now' Hok EM Hraw)|].
  by rewrite HV.
Qed.

(** ** The joiner's side *)

(** One write to the database, whether it succeeds or not. *)
Definition put_step (s s' : db) : Prop := exists k v, s' = (store.Put s k v).1.

Lemma Save_puts s g : rtc put_step s (group.Save s g).1.
Proof. unfold group.Save. destruct (Marshal g); [|done..]. apply rtc_once. by eexists _, _. Qed.

Lemma put_members_puts gid ms : forall s, rtc put_step s (join.put_members s gid ms).
Proof.
  induction ms as [|m ms IH]; intros s; cbn [join.put_members]; [done|]. etrans; [|apply IH].
  unfold group.PutMember. destruct (Marshal m); [|done..]. apply rtc_once. by eexists _, _.
Qed.

Lemma JoinViaPeer_puts s opened pub nick contributed encPub inv ex :
  rtc put_step s (join.JoinViaPeer s opened pub nick contributed encPub inv ex).1.
Proof.
  unfold join.JoinViaPeer. case_match; [|done..]. unfold join.install. destruct (negb _); [done|].
  set (g := group.NewGroup _ _ _ _ _ _ _). pose proof (Save_puts s g) as HS. destruct (group.Save s g) as [s' [[]|e|]]; simpl in *; [|done..].
  etrans; [exact HS|apply put_members_puts].
Qed.

(** The way is free for a join on machine [m]: the configuration and the identity
    load, the host comes up, and the invite's first reachable address is the peer
    that answers with [serve]; the database takes every write. *)
Record can_join o (flag : string) (boot : list string) m (gid : string)
    (serve : join.JoinRequest -> join.JoinResponse) (id : keys.Identity) (cfg : config.Config) (pub : bytes) m1 : Prop := {
  cj_config : openStore cwd o flag m = (m, Ok cfg);
  cj_new : exists e, group.LoadByID (m_db m) gid = Err e;
  cj_identity : load_identity cwd o (config.DataDir cfg) m = (m1, Ok id);
  cj_pub : pub_Raw (keys.PrivKey id) = Ok pub;
  cj_host : exists h p, peers.New (libp2p_New o id) (dht_New o) cfg = Ok h /\ (peers.ConnectToPeers h boot).2 = Ok p /\
    stream_opened o p = Ok tt /\ forall req, stream_exchange o p req = (Ok tt, Ok (serve req));
  cj_writable s : rtc put_step (m_db m) s -> store.writable s
}.

Lemma SaveBootstrap_group s gid addrs s' r gid' :
  group.SaveBootstrap s gid addrs = (s', r) -> group.LoadByID s' gid' = group.LoadByID s gid'.
Proof.
  unfold group.SaveBootstrap. destruct (Marshal addrs) as [raw| |]; [|by intros [= <- _]..]. intros HP.
  unfold group.LoadByID. by rewrite (store.Put_other _ _ _ _ _ _ HP).
Qed.

(** [JoinViaPeer] only asks for the answer to its own request. *)
Lemma JoinViaPeer_ext s opened pub nick contributed encPub inv ex ex' :
  (forall req, ex req = ex' req) ->
  join.JoinViaPeer s opened pub nick contributed encPub inv ex = join.JoinViaPeer s opened pub nick contributed encPub inv ex'.
Proof. intros E. unfold join.JoinViaPeer. destruct opened; [|done..]. destruct pub; [|done..]. simpl. by rewrite E. Qed.

Lemma cmdGroupJoin_Ok o flag link inv m serve id cfg pub m1 sj' resp short :
  invite.Decode link (t0 o) = Ok inv -> can_join o flag (invite.BootstrapPeers inv) m (invite.GroupID inv) serve id cfg pub m1 ->
  join.JoinViaPeer (m_db m) (Ok tt) (Ok pub) (config.Nickname cfg) (config.ContributedBytes cfg) (keys.EncPub id) inv
    (fun req => (Ok tt, Ok (serve req))) = (sj', Ok resp) ->
  str_slice (join.GroupID resp) 0 12 = Ok short ->
  exists m', cmdGroupJoin cwd o flag link m = (m', Ok resp) /\ forall gid, group.LoadByID (m_db m') gid = group.LoadByID sj' gid.
Proof.
  intros HD [C1 [e C2] C3 C4 (h & p & C5 & C6 & C7 & C8) C9] HJ HS. unfold cmdGroupJoin.
  unfold cbind at 1, clift at 1. rewrite HD. simpl. unfold cbind at 1. rewrite C1. unfold cbind at 1, with_store at 1. rewrite C2.
  unfold cbind at 1. rewrite C3. unfold cbind at 1, clift at 1. rewrite C5. unfold cbind at 1, clift at 1. rewrite C6. simpl.
  unfold load_identity in C3. apply (db_same_run _ _ _ _ (db_same_on_keys _)) in C3.
  unfold cbind at 1, on_store at 1. rewrite C7, C4, C3. rewrite (JoinViaPeer_ext _ _ _ _ _ _ _ _ _ C8), HJ.
  unfold cbind at 1, on_store at 1. cbn [m_db].
  destruct (Marshal_total (invite.BootstrapPeers inv)) as [raw Hraw].
  pose proof (JoinViaPeer_puts (m_db m) (Ok tt) (Ok pub) (config.Nickname cfg) (config.ContributedBytes cfg) (keys.EncPub id) inv
    (fun req => (Ok tt, Ok (serve req)))) as HW. rewrite HJ in HW.
  destruct (C9 sj' HW (group.bootstrapKey (invite.GroupID inv)) raw) as [s' HP].
  assert (HB : group.SaveBootstrap sj' (invite.GroupID inv) (invite.BootstrapPeers inv) = (s', Ok tt)).
  { unfold group.SaveBootstrap. by rewrite Hraw. }
  rewrite HB. simpl. unfold cbind, clift. rewrite HS. eexists. split; [done|]. intros gid. cbn [m_db]. by eapply SaveBootstrap_group.
Qed.

(** [C18] From a new group to its second member.  Alice creates a group and makes an
    invite link on her machine; Bob runs [group-join] with the link, before it
    expires, against a node with Alice's database.  The join succeeds: Bob's
    database has the group - identifier, name, admin key and the shared key, without
    the admin's private key - and the answering node has Bob in its member table. *)
Theorem invited_friend_joins oA flagA name mA mA1 g oA' boot ttlHours quotaGB mA2 link oB flagB mB id cfg pub mB1 addr now now' :
  cmdGroupCreate cwd oA flagA name mA = (mA1, Ok g) -> text_ok name = true -> int64_ok (Unix (t0 oA)) = true ->
  inviteFromDB oA' (group.ID g) boot ttlHours quotaGB mA1 = (mA2, Ok link) ->
  invitable (t0 oA') boot ttlHours quotaGB -> invite.empty_refused ->
  Unix (t0 oB) <= Unix (t0 oA' + hours ttlHours) -> Unix now <= Unix (t0 oA' + hours ttlHours) ->
  let serve req := join.handleJoin (m_db mA2) (Ok req) (keys.PeerID id) addr now now' in
  store.writable (m_db mA2) -> can_join oB flagB boot mB (group.ID g) (fun req => (serve req).1.2) id cfg pub mB1 ->
  exists mB' resp sA m req fin,
    cmdGroupJoin cwd oB flagB link mB = (mB', Ok resp) /\
    group.LoadByID (m_db mB') (group.ID g) =
      Ok (group.NewGroup (group.ID g) name (group.AdminPub g) [] (whole_second time_zero) false (group.SharedKey g)) /\
    serve req = (sA, resp, fin) /\ group.PutMember (m_db mA2) (group.ID g) m = (sA, Ok tt) /\
    group.PeerID m = peer_String (keys.PeerID id).
Proof.
  intros HG Hname Ht HI Hinv He HeB HeA serve HwA HJ.
  destruct (cmdGroupCreate_Ok _ _ _ _ _ _ Hname Ht HG) as [(rng & rng' & HC) HL].
  destruct (group.Create_inv _ _ _ _ _ HC) as (seed & Hseed & Hpriv & Hpub & Hid & Hsk & Hadm).
  assert (Hn : group.Name g = name) by (unfold group.Create in HC; repeat case_match; by simplify_eq).
  assert (Htext : text_ok (group.ID g) = true) by (rewrite Hid; apply node.text_ok_hex).
  assert (Hlen : length (group.AdminPub g) = 32%nat) by (rewrite Hpub; apply ed25519_pub_length).
  assert (Hne : group.ID g <> "") by (rewrite Hid; by destruct (group.AdminPub g)).
  destruct (inviteFromDB_Ok oA' (group.ID g) boot ttlHours quotaGB mA1 mA2 link (group.group_norm g) now) as
    (Hdb & H64 & inv & HD & G1 & G2 & G3); try done; [by rewrite <- Hn in Hname|].
  destruct (HD (t0 oB) HeB) as [HD1 _]. destruct (HD now HeA) as [_ HV].
  destruct (join.verified_join (m_db mA2) (m_db mB) inv (group.group_norm g) (keys.PeerID id) addr now now' pub
    (config.Nickname cfg) (config.ContributedBytes cfg) (keys.EncPub id)) as (sA & resp & fin & m & sj' & E1 & E2 & E3 & E4 & E5 & E6);
    [done|by rewrite G1, Hdb|simpl; intros E; by rewrite E in Hsk|done|done|by rewrite <- Hn in Hname|done|exact HwA|by apply (cj_writable _ _ _ _ _ _ _ _ _ _ HJ)|].
  assert (HS : exists short, str_slice (group.ID g) 0 12 = Ok short).
  { unfold str_slice. rewrite Hid, length_hex_encode, Hlen. simpl. by eexists. }
  destruct HS as [short HS].
  rewrite <- G1, <- G3 in HJ.
  destruct (cmdGroupJoin_Ok oB flagB link inv mB _ id cfg pub mB1 sj' resp short HD1 HJ E5) as (mB' & HB & HB'); [by rewrite E4|].
  eexists mB', resp, sA, m, _, fin. split; [exact HB|]. split; [rewrite HB'; etrans; [exact E6|]; simpl; by rewrite Hn|]. by split_and!.
Qed.

End with_libraries.

(** ** Witness: Alice and Bob *)

Import scenario.

Definition made (nick : string) (b : Byte.byte) :=
  cmdInit [] fine "/d" nick 5 (NewMachine ∅ (store.empty : db (Badger := mem_badger)) (replicate 400 b)).

Definition created := cmdGroupCreate [] fine "/d" "friends" (made "alice" Byte.x07).1.

Definition friends : group.Group := ok_or group.sample_group created.2.

(** The form of a peer's address the toy multiaddresses read. *)
Definition addrs : list string := ["/12DA"].

Definition linked := inviteFromDB fine (group.ID friends) addrs 24 0 created.1.

Definition paper : string := ok_or "" linked.2.

Definition bobs_machine : Machine (H := mem_badger) := (made "bob" Byte.x09).1.

Definition bob_reads : config.Config := ok_or cfg0 (openStore [] fine "/d" bobs_machine).2.

Definition bob_loads := load_identity [] fine (config.DataDir bob_reads) bobs_machine.

Definition bob_id : keys.Identity (H := toy_peers) := ok_or no_identity bob_loads.2.

Definition bob_pub : bytes := ok_or [] (pub_Raw (keys.PrivKey bob_id)).

Definition alice_answers (req : join.JoinRequest) :=
  join.handleJoin (m_db linked.1) (Ok req) (keys.PeerID bob_id) "/ip4/10.0.0.2/tcp/4001" 1700000000000000000 1700000000000000000.

Definition bobs_net : Oracle := NewOracle env_data (Ok "nas") 1700000000000000000 1700000000000000000 WFine WFine WFine WFine
  (Ok tt) up_host (fun _ => Ok tt) (fun _ => Ok tt) (fun _ req => (Ok tt, Ok (alice_answers req).1.2)) (Ok tt).

Lemma put_step_room (s s' : db (Badger := mem_badger)) : rtc put_step s s' -> mem_full s = false -> mem_full s' = false.
Proof.
  induction 1 as [|x y z (k & v & ->) _ IH]; [done|]. intros Hx. apply IH. unfold store.Put. simpl. unfold mem_set. by rewrite Hx.
Qed.

Lemma bob_can_join : can_join [] bobs_net "/d" addrs bobs_machine (group.ID friends) (fun req => (alice_answers req).1.2) bob_id bob_reads bob_pub bob_loads.1.
Proof.
  constructor.
  - assert (E : openStore [] bobs_net "/d" bobs_machine = openStore [] fine "/d" bobs_machine) by reflexivity.
    rewrite E. etrans; [apply (run_intro cfg0); vm_compute; reflexivity|]. reflexivity.
  - eexists. vm_compute. reflexivity.
  - change (load_identity [] bobs_net (config.DataDir bob_reads) bobs_machine) with bob_loads. apply run_intro. vm_compute. reflexivity.
  - vm_compute. reflexivity.
  - exists (peers.NewToyHost (keys.PeerID bob_id) (ok_or (peers.NewToyHost "" [] [] ∅) (peers.New (libp2p_New bobs_net bob_id) (dht_New bobs_net) bob_reads)).(peers.toy_addrs) [] ∅), ("A" : pid (PeerIDs := toy_peers)).
    split_and!; [vm_compute; reflexivity|vm_compute; reflexivity|reflexivity|]. intros req. reflexivity.
  - intros s Hs. apply store.mem_writable. apply (put_step_room _ _ Hs). reflexivity.
Qed.

Lemma invited_friend_joins_witness :
  exists m' resp, cmdGroupJoin [] bobs_net "/d" paper bobs_machine = (m', Ok resp) /\
    group.LoadByID (m_db m') (group.ID friends) =
      Ok (group.NewGroup (group.ID friends) "friends" (group.AdminPub friends) [] (whole_second time_zero) false (group.SharedKey friends)).
Proof.
  destruct (invited_friend_joins [] fine "/d" "friends" (made "alice" Byte.x07).1 created.1 friends fine addrs 24 0 linked.1 paper
    bobs_net "/d" bobs_machine bob_id bob_reads bob_pub bob_loads.1 "/ip4/10.0.0.2/tcp/4001" 1700000000000000000 1700000000000000000)
    as (m' & resp & sA & m & req & fin & E1 & E2 & _).
  - apply (run_intro group.sample_group). vm_compute. reflexivity.
  - reflexivity.
  - reflexivity.
  - apply (run_intro ""). vm_compute. reflexivity.
  - vm_compute. repeat split; discriminate.
  - exact invite.tree_empty_refused.
  - vm_compute. discriminate.
  - vm_compute. discriminate.
  - apply store.mem_writable. vm_compute. reflexivity.
  - exact bob_can_join.
  - exists m', resp. split; [exact E1|exact E2].
Defined.

End membership.
