(* ===== verification/Boot.v ===== *)
(** * The start of a daemon

    [cmdDaemon] of cmd/fnshare/main.go opens the services of a node one after the
    other.  A daemon that has started is one of the daemons of [Daemon]: its file
    service works on the node's own directories, and if the data directory was in
    order before, the node is in order now.  What is proved there holds from the
    start of the daemons on. *)

From S2P Require Import Prelude Ext Concrete Store Fs Blockstore Crypto Ec Holders Cache Manifest Ledger Group.
From S2P Require Import Blocks Spool Base64 Url Query Config Keys File Reader Upload Network Delivery Repair Scenario Fuse.
From S2P Require Import Heartbeat Invite Join Peers Auth Api Daemon Client Cli.

Module boot.
Import file reader upload network api daemon client cli.

(** ** Writes beside the shards and the queue *)

(** Names stay names, and no file of the two directories changes. *)
Definition quiet (dir : path) (f f' : fs) : Prop :=
  (spool.os_names f -> spool.os_names f') /\
  forall d t, d = "blocks" \/ d = "spool" -> file_at f' (dir ++ d :: t) = file_at f (dir ++ d :: t).

#[local] Instance quiet_preorder dir : PreOrder (quiet dir).
Proof.
  split; [by intros f|]. intros f1 f2 f3 [N1 E1] [N2 E2]. split; [auto|]. intros d t Hd. by rewrite E2, E1.
Qed.

Lemma mkdirs_quiet dir f q f' r : plain_path q -> mkdirs f [] q = (f', r) -> quiet dir f f'.
Proof.
  intros Hq E. split; [|intros d t _; by eapply mkdirs_files]. intros Hos. eapply os_names_grow; [exact Hos|].
  intros p Hp. destruct (mkdirs_keys _ _ _ _ _ _ E Hp) as [?|Hpre]; [by left|right; by eapply plain_prefix].
Qed.

Lemma WriteFile_quiet dir x f name data f' r :
  plain_path dir -> plain_name name = true -> name <> "blocks" -> name <> "spool" ->
  WriteFile x f (dir ++ [name]) data = (f', r) -> quiet dir f f'.
Proof.
  intros Hdir Hn Nb Ns E. split.
  - intros Hos. eapply os_names_grow; [exact Hos|]. intros q Hq. destruct (decide (q = dir ++ [name])) as [->|Hne].
    + right. apply Forall_app. split; [done|by constructor].
    + left. by rewrite (WriteFile_other _ _ _ _ _ _ _ E Hne) in Hq.
  - intros d t Hd. unfold file_at. rewrite (WriteFile_other _ _ _ _ _ _ _ E); [done|].
    intros Eq%app_inv_head. injection Eq as -> _. by destruct Hd.
Qed.

Section with_libraries.
Context `{Badger, !Sha256, !manifest.ManifestCbor, !ledger.EntryCbor, !node.RequestCbor, !node.ResponseCbor,
  PeerIDs, AesGcm, NaclBox, ReedSolomon, !group.GroupCbor, !group.MemberCbor, !NameCbor}.
Context `{Bcrypt, Ed25519, !group.PayloadCbor, !group.AddrsCbor, !invite.InviteCbor, !config.Yaml, !Multiaddrs, !Host}.
Context `{!Libp2pKeys}.
Context (cwd : path).

Lemma create_key_quiet dir x f rng f' rng' r :
  plain_path dir -> keys.create_key x f rng (dir ++ ["node.key"]) = (f', rng', r) -> quiet dir f f'.
Proof.
  intros Hdir. unfold keys.create_key. destruct (missing _ _); [|by intros [= <- _ _]].
  unfold filepath_Dir. rewrite removelast_last. destruct (MkdirAll f dir) as [f1 r1] eqn:EM.
  pose proof (mkdirs_quiet dir _ _ _ _ Hdir EM) as Q1. destruct r1 as [u|e|]; [|by intros [= <- _ _]..].
  destruct (rand_Read rng 32) as [rng1 [seed|e|]]; [|by intros [= <- _ _]..].
  destruct (GenerateEd25519Key seed) as [priv|e|]; [|by intros [= <- _ _]..].
  destruct (MarshalPrivateKey priv) as [raw|e|]; [|by intros [= <- _ _]..].
  destruct (WriteFile x f1 _ raw) as [f2 r2] eqn:EW. intros [= <- _ _]. etrans; [exact Q1|]. by eapply WriteFile_quiet; [..|exact EW].
Qed.

Lemma enc_keys_quiet dir y f rng f' rng' r :
  plain_path dir -> keys.loadOrCreateEncKeys y f rng (dir ++ ["node.key.enc"]) = (f', rng', r) -> quiet dir f f'.
Proof.
  intros Hdir. unfold keys.loadOrCreateEncKeys. destruct (missing _ _).
  - destruct (crypto.NewEncKeypair rng) as [rng1 [[pub priv]|e|]]; [|by intros [= <- _ _]..].
    destruct (WriteFile y f _ _) as [f2 r2] eqn:EW. destruct r2 as [u|e|]; intros [= <- _ _]; by eapply WriteFile_quiet; [..|exact EW].
  - destruct (ReadFile f _) as [raw|e|]; [destruct (negb _)|..]; by intros [= <- _ _].
Qed.

Lemma LoadOrCreate_quiet x y f rng dir f' rng' r :
  plain_path (path_from cwd dir) -> keys.LoadOrCreate x y f rng (key_path cwd dir) = (f', rng', r) -> quiet (path_from cwd dir) f f'.
Proof.
  intros Hdir. unfold keys.LoadOrCreate. rewrite enc_path_eq, key_path_eq.
  destruct (keys.create_key _ _ _ _) as [[f1 rng1] r1] eqn:EK. apply create_key_quiet in EK; [|done].
  destruct r1 as [u|e|]; [|by intros [= <- _ _]..]. destruct (let! raw := _ in _) as [[priv peer]|e|]; [|by intros [= <- _ _]..].
  destruct (keys.loadOrCreateEncKeys _ _ _ _) as [[f2 rng2] r2] eqn:EE. apply enc_keys_quiet in EE; [|done].
  intros E. assert (f' = f2) as -> by (destruct r2 as [[pub prv]|e|]; by injection E as <- _ _). by etrans.
Qed.

(** ** A data directory in order *)

Record in_order (dir : path) (f : fs) (s : db) : Prop := {
  io_names : spool.os_names f;
  io_blocks id data : blockstore.shard_id id -> blockstore.Get f (blockstore.NewStore (dir ++ ["blocks"])) id = Ok data ->
    blockstore.HashOf data = id;
  io_queue k key data : file_at f (spool.item_path (spool.NewSpool (dir ++ ["spool"])) k spool.KindShard key) = Some data ->
    blockstore.HashOf data = key;
  io_filed : manifest.filed s
}.

Lemma quiet_in_order dir f f' s : quiet dir f f' -> in_order dir f s -> in_order dir f' s.
Proof.
  intros [QN QF] [I1 I2 I3 I4]. split; [auto| | |done].
  - intros id data Hid Hg. eapply I2; [done|]. apply blockstore.Get_file_at. apply blockstore.Get_file_at in Hg.
    rewrite blockstore.shard_path in Hg |- * by done. simpl in Hg |- *. rewrite <- app_assoc in Hg |- *.
    etrans; [symmetry; by apply (QF "blocks"); left|exact Hg].
  - intros k key data Hf. eapply (I3 k). unfold spool.item_path in Hf |- *. simpl in Hf |- *. rewrite <- app_assoc in Hf |- *.
    etrans; [symmetry; by apply (QF "spool"); right|exact Hf].
Qed.

(** The services of a started daemon, and the disk it runs on. *)
Lemma cmdDaemon_services o others flag m m' d :
  cmdDaemon cwd o others flag m = (m', Ok d) ->
  let dir := path_from cwd (config.DataDir (Cfg (d_server d))) in
  let p := peer_String (Self (d_deps d)) in
  plain_path dir ->
  exists fsv n, Files (d_deps d) = Some fsv /\ peer_String (self fsv) = p /\
    blocks fsv = blockstore.NewStore (dir ++ ["blocks"]) /\ spool fsv = Some (spool.NewSpool (dir ++ ["spool"])) /\
    node.nodes (world (files_ (d_server d))) = <[p := n]> others /\
    node.nblocks n = Some (blocks fsv) /\ node.nstore n = m_db m /\ quiet dir (m_fs m) (node.nfs n).
Proof.
  unfold cmdDaemon. intros (m1 & cfg & E1 & E)%cbind_Ok. cbv zeta in E.
  apply cbind_Ok in E as (m2 & id & E2 & E). apply cbind_Ok in E as (m3 & h & E3 & E).
  apply cbind_Ok in E as (m4 & bs & E4 & E). apply cbind_Ok in E as (m5 & sp & E5 & E).
  apply cbind_Ok in E as (m6 & a & E6 & E). apply cbind_Ok in E as (m7 & [] & E7 & E).
  unfold clift in E3, E7. injection E3 as <- _. injection E7 as <- _. unfold auth.New in E6.
  destruct (auth.newRandomToken _) as [r1 [tok|e|]]; [|done..].
  destruct (WriteFile _ _ _ _) as [f' [[]|e|]] eqn:HW; [|done..]. injection E6 as <- <-.
  destruct (cut_ids _ _) as [ids|e|]; [|done..]. cbn [obind] in E. injection E as <- <-.
  cbn [d_server d_deps Cfg Files Self files_ world]. intros Hdir.
  set (dir := path_from cwd (config.DataDir cfg)) in *.
  assert (m1 = m) as ->.
  { unfold openStore in E1. apply cbind_Ok in E1 as (m0 & c0 & [= <- _] & E1). apply cbind_Ok in E1 as (m0 & c1 & [= <- _] & E1). by injection E1. }
  unfold load_identity, on_keys in E2. destruct (keys.LoadOrCreate _ _ _ _ _) as [[f2 g2] r2] eqn:EK. injection E2 as <- _.
  apply LoadOrCreate_quiet in EK; [|done].
  unfold on_fs, blockstore.Open in E4. cbn [m_fs m_db m_rng] in E4. fold dir in E4. rewrite (Join_plain dir ["blocks"]) in E4 by (by constructor).
  destruct (MkdirAll f2 _) as [f4 r4] eqn:EM4. destruct r4 as [u|e|]; [|done..]. injection E4 as <- <-.
  apply (mkdirs_quiet dir) in EM4; [|apply Forall_app; split; [done|by constructor]].
  unfold on_fs, spool.Open in E5. cbn [m_fs m_db m_rng] in E5. fold dir in E5. rewrite (Join_plain dir ["spool"]) in E5 by (by constructor).
  destruct (MkdirAll f4 _) as [f5 r5] eqn:EM5. destruct r5 as [u'|e|]; [|done..]. injection E5 as <- <-.
  apply (mkdirs_quiet dir) in EM5; [|apply Forall_app; split; [done|by constructor]].
  rewrite (Join_plain dir [_]) in HW by (by constructor). apply WriteFile_quiet in HW; [|done..].
  eexists _, _. split; [done|]. cbn [file.self file.blocks file.spool AttachSpool file_New]. split_and!; try done.
  cbn [node.nfs m_fs]. by repeat (etrans; [eassumption|]).
Qed.

(** [C30] A daemon starts in order.  When [cmdDaemon] comes up on a data directory
    in order - names, shards under their hashes, queued shards under theirs,
    manifests under their identifiers - among nodes in order, then its file service
    works on the shards and the queue of that directory, and all nodes, the new one
    included, are in order. *)
Theorem daemon_starts_in_order base o others flag m m' d :
  cmdDaemon cwd o others flag m = (m', Ok d) ->
  let dir := path_from cwd (config.DataDir (Cfg (d_server d))) in
  plain_path dir -> base (peer_String (Self (d_deps d))) = dir -> in_order dir (m_fs m) (m_db m) -> healthy base others ->
  installed base cwd (d_deps d) (d_server d) /\ healthy base (node.nodes (world (files_ (d_server d)))).
Proof.
  intros HD dir Hpl Hb HI HO. destruct (cmdDaemon_services _ _ _ _ _ _ HD Hpl) as (fsv & n & Hf & Hs & Hbl & Hsp & HN & Hnb & Hns & HQ).
  rewrite HN. fold dir in Hbl, Hsp, HQ. destruct (quiet_in_order _ _ _ _ HQ HI) as [I1 I2 I3 I4]. split.
  - split; [|done]. intros fsv' Hf'. rewrite Hf in Hf'. injection Hf' as <-. split; [done|]. split.
    + split; [by rewrite Hbl, Hs, Hb|]. right. unfold spool_of. by rewrite Hsp, Hs, Hb.
    + exists n. by rewrite HN, Hs, lookup_insert_eq.
  - rewrite healthy_well in HO |- *. apply map_Forall_insert_2; [|done]. split.
    + intros bs Hbs. rewrite Hnb, Hbl in Hbs. injection Hbs as <-. by rewrite Hb.
    + done.
    + intros bs Hbs. rewrite Hnb, Hbl in Hbs. injection Hbs as <-. exact I2.
    + by rewrite Hns.
    + unfold queue_sound, spool_of. by rewrite Hb.
Qed.

End with_libraries.

(** ** Witness: a daemon on a directory that [fnshare init] has made *)

Lemma the_dir : path_from [] (config.DataDir (Cfg (d_server the_daemon))) = ["d"].
Proof. vm_compute. reflexivity. Qed.

(** Names are names, and there are no shards and no queue yet. *)
Definition fresh_check (f : fs) : bool :=
  forallb (fun kv => plain_name (default "" (last kv.1)) &&
    negb (bool_decide (take 2 kv.1 = ["d"; "blocks"])) && negb (bool_decide (take 2 kv.1 = ["d"; "spool"]))) (map_to_list f).

Lemma fresh_lookup f d t : fresh_check f = true -> d = "blocks" \/ d = "spool" -> file_at f ("d" :: d :: t) = None.
Proof.
  unfold fresh_check, file_at. rewrite forallb_forall. intros HC Hd. destruct (f !! ("d" :: d :: t)) as [n|] eqn:E; [|done].
  apply elem_of_map_to_list, list_elem_of_In, HC in E. simpl in E. rewrite !andb_true_iff, !negb_true_iff in E.
  destruct E as [[_ E1] E2]. destruct Hd as [-> | ->]; exfalso; [clear E2|clear E1]; go_bool; done.
Qed.

Lemma fresh_in_order f (s : db (Badger := mem_badger)) : fresh_check f = true -> manifest.filed s -> in_order ["d"] f s.
Proof.
  intros HC HF. split; [..|done].
  - apply spool.os_names_check. unfold fresh_check in HC. rewrite forallb_forall in HC |- *. intros kv Hkv.
    apply HC in Hkv. rewrite !andb_true_iff in Hkv. apply Hkv.
  - intros id data Hid Hg. apply blockstore.Get_file_at in Hg. rewrite blockstore.shard_path in Hg by done.
    simpl in Hg. by rewrite fresh_lookup in Hg by auto.
  - intros k key data Hf. unfold spool.item_path in Hf. simpl in Hf. by rewrite fresh_lookup in Hf by auto.
Qed.

Lemma daemon_starts_in_order_witness :
  installed home [] (d_deps the_daemon) (d_server the_daemon) /\
  healthy home (node.nodes (world (files_ (d_server the_daemon)))).
Proof.
  apply (daemon_starts_in_order [] home fine ∅ "/d" inited.1 started.1 the_daemon).
  - apply run_intro. vm_compute. reflexivity.
  - rewrite the_dir. by repeat constructor.
  - rewrite the_dir. reflexivity.
  - rewrite the_dir. apply fresh_in_order; [vm_compute; reflexivity|]. intros fid m Hm. exfalso. revert Hm.
    assert (E : m_db inited.1 = store.empty) by (vm_compute; reflexivity). rewrite E. done.
  - split; intros p n; done.
Defined.

End boot.
